(* ===== verification/_CoqProject ===== *)
-Q . S2P
Prelude.v
GoStrings.v
Order.v
Netip.v
NetipText.v
NetipRoundtrip.v
Types.v
Interfaces.v
Reconciler.v
Vip.v
VipFacts.v
Path.v
Host.v
WriteConfig.v
HostFacts.v
WriteFacts.v
FileNames.v
Service.v
Network.v
Template.v
Templates.v
Fuel.v
Keepalived.v
Haproxy.v
NetworkManager.v
Reconcile.v
Jobs.v
JobFacts.v
Faults.v
ReconcileFacts.v
Convergence.v
Slots.v
Outage.v
TemplateFacts.v
Rendered.v
RenderTheorems.v
Handlers.v
Setup.v
RenderFile.v
Main.v
Sha256.v
Sample.v
Witnesses.v
Deployment.v
Desired.v
System.v
Fleet.v
FleetSample.v
GoHeap.v
DeepCopy.v
CopySample.v
