(* ===== verification/Prelude.v ===== *)
(** * bootc-load-balancer-controller: a verification development

    ** The program

    The controller runs on each of the two load balancers of a Kubernetes
    cluster.  It watches [LoadBalancerConfig] custom resources; for each it
    renders eleven configuration files (HAProxy, keepalived, floaty, conntrackd,
    NetworkManager, sysctl, firewalld), writes those that changed, reloads the
    services they belong to, and stores the node's status in the custom resource
    ([internal/controller/]).  The same rendering runs once from a YAML file
    ([internal/render/]); [cmd/main.go] chooses between the two.

    ** Layout

    Foundations:
    - [Prelude]: errors ([error], [result]), outcomes (a call returns or panics)
      and the state monad [ST]; [GoStrings], [Order], [Path]: the parts of
      [strings], [strconv], [slices] and [path/filepath] the program uses;
    - [Netip], [NetipText]: [net/netip] (addresses as 128-bit integers with a
      zone mark, prefixes, masking, order) with the parsers and printers of IPv4
      and IPv6 text; [NetipRoundtrip]: what is printed is read back; [Sha256]:
      [crypto/sha256];
    - [Template], [TemplateFacts]: [text/template] as far as the templates need
      it; [Templates]: the embedded files, byte for byte, [ParseFS] and
      [renderTemplate] ([template.go]); [Fuel]: its recursions end;
    - [GoHeap]: memory with pointers, slices and maps, for the deep copies.

    The program, one file per source file or part of it:
    - [Types] ([api/v1alpha1/loadbalancerconfig_types.go]), [Reconciler] (the
      configuration of the reconciler and the small structs), [DeepCopy]
      ([zz_generated.deepcopy.go]; the generated methods over a heap, the only
      part where objects have addresses);
    - [Vip] ([vip.go]), [Network] ([network.go]), [Keepalived] ([keepalived.go],
      [conntrackd.go]), [Haproxy] ([haproxy.go]), [NetworkManager]
      ([network_manager.go], [firewalld.go]), [Service] ([service.go]);
    - [WriteConfig] ([write_config.go] and [CompareAndWrite]), [Reconcile]
      ([loadbalancerconfig_controller.go]), [Handlers] (the two event handlers
      and [Filter]), [Setup] ([SetupWithManager], [groupversion_info.go] and the
      registration of the kinds), [RenderFile] ([internal/render/render.go]),
      [Main] ([cmd/main.go]: flags, server options, scheme, the choice of mode and
      the calls to the manager).

    Specifications, from one file to the whole installation:
    - [Jobs], [JobFacts]: [ReconcileLBConfig] as a sequence of eleven jobs;
    - [Deployment]: what is deployed for each file (the digest recorded for it as
      long as the file is intact) and the abstract operation [deploy];
    - [Slots]: the run of a node, file by file;
    - [Desired]: the schema's constraints ([valid_Spec]), the site of a node, and
      [desired], the text each file should have, written without the code;
    - [System]: all nodes, their disks and the stored custom resource, with
      accepted, rejected and panicking runs on faultless, stable hosts, runs on any
      other host, edits of the spec, changes of credentials and damage to files as
      the labelled steps of a relation; [fetched], [commit] say how a run sees and
      updates what is stored.  A clean history has no rejected update, no panic and
      no run on a faulty or unstable host;
    - [Fleet]: the abstract fleet (for each node the contents it vouches for and
      the digests stored for it), with a function for what a run installs or
      writes out;
    - [Outage]: the count of calls only grows, and what a run leaves when the
      cluster's interface is lost in its middle.

    Interfaces to what is not the program:
    - [Host] ([Host.v]): the routing table, the interfaces, command execution,
      the Kubernetes client and the faults of the file system, each indexed by
      the number of the call, so that the same question may be answered
      differently later.  [World] is the state: files with their modes,
      directories, the custom resource being worked on, and the log of commands
      and status updates.  [NoFaults] and [StableHost] say that no system call
      fails and that answers do not change; theorems name them where they need
      them, and hold for any host otherwise;
    - [MapIter] (the order of Go maps) and [Multierr] ([Interfaces]), [Digest]
      ([Host.v]; [Sha256.sha256] is the instance the program uses), [Yaml]
      ([RenderFile]), [MainEnv] ([Main]), [ControllerRuntime] ([Setup]: how
      watches, predicates and handlers are called), [ForeignTypes] and
      [ForeignCopies] ([DeepCopy]: the types of other packages and their deep
      copies), [RangeOrder] ([GoHeap]).

    A nil pointer or map is [None]; a nil dereference is the outcome [Panic],
    which keeps the effects made before it.  The pointers in the status map are
    modelled by writing through to the map ([put_node_status]).

    ** What is proved

    - [VipFacts]: the address lists are exactly the addresses of the
      configuration, sorted, without duplicates (as addresses and as texts),
      independent of map order, and can be read back from the files; the
      addresses of the pair lie inside the cluster network and differ.
    - [WriteFacts], [FileNames]: what [CompareAndWrite] leaves on disk and in the
      status on every branch; that it is local, idempotent and repairs what was
      edited behind its back; that managed files never share a path; and the case
      where it loses an update.  [in_sync] is the invariant it establishes.
    - [Jobs], [JobFacts]: [ReconcileLBConfig] equals its jobs (service, file,
      mode, rendering); renderings change nothing and depend on the spec only.
    - [Faults]: what a write that fails anywhere can leave, and when the next run
      completes it.
    - [Deployment]: [ReconcileLBConfig] refines [deploy].
    - [Desired]: every rendering is the specified text; a first run installs
      everything; the status sent satisfies the schema.
    - [System]: after any clean history an error-free run leaves what is rendered;
      a run completes; after a clean history and under fair, calm conditions a node
      comes to rest with the content that is rendered for it; and the history in
      which a rejected update leaves a stale file.
    - [Fleet]: step by step, the fleet is the abstract fleet.
    - [ReconcileFacts], [Convergence]: isolation of errors, exactly the services
      of stale files are reloaded, convergence of repeated runs, the status that
      is sent; the inputs on which the controller panics, the forgotten reload
      failure.  [Outage]: the emptied conntrackd file.
    - [TemplateFacts]: which embedded file a directory and a name lead to.
    - [Rendered], [RenderTheorems]: the exact text of every file for all inputs,
      the errors on the others, and how the files of a pair and the files that
      list public addresses relate.
    - [DeepCopy]: a copy is the same object and shares no memory.
    - [Network], [Handlers], [Setup], [RenderFile], [Main] carry their own
      theorems: which events lead to which requests, how the manager is
      configured and called, what start-up accepts.
    - [Sample], [Witnesses], [FleetSample] and [CopySample] apply the theorems to
      the installation of [examples/openshift-cloudscale.yaml].

    ** Bounds

    Fuel occurs in the template lexer and parser (the length of the text), in the
    path matcher (the length of pattern and name) and nowhere else; [Fuel] proves
    that it never runs out, and the embedded templates are proved to parse
    ([templates_parse]).

    ** Not modelled

    In the file system: permissions, links, paths that are directories, and the
    partial effects of a failing [MkdirAll] or [OpenFile] (a failing write leaves
    a prefix).  Logging and printing, with the options of the logger; what
    interpolated values add to error messages.  The controller runtime and its
    work queue are an interface (rate limiting is recorded, not run); the API
    server stores what an accepted update sends and neither merges nor normalises
    it (a conflict is a rejected update).  The fields of Kubernetes objects the
    program does not read.  Actions of [text/template] that no embedded template
    uses are errors.  Test code is not modelled. *)

From stdpp Require Export base tactics option list gmap sets strings pretty.
From stdpp Require Export sorting.

#[global] Set Default Goal Selector "!".
#[global] Set Warnings "-clear-no-such-hyp,-register-all".

(** ** Errors

    A Go [error] is the chain of its messages.  [Errorf m] is a leaf error
    ([errors.New] or [fmt.Errorf] without [%w]); [Wrapf m e] is
    [fmt.Errorf("m: %w", e)].  The arguments that other verbs interpolate
    into a message are not recorded. *)
Inductive error : Type :=
| Errorf (msg : string)
| Wrapf (msg : string) (cause : error).

#[export] Instance error_eq_dec : EqDecision error.
Proof. solve_decision. Defined.

(** A Go function of type [func(...) (A, error)] whose callers only look at
    the value when the error is [nil]. *)
Inductive result (A : Type) : Type :=
| Ok (a : A)
| Err (e : error).
Arguments Ok {A} a.
Arguments Err {A} e.

#[export] Instance result_ret : MRet result := λ _ a, Ok a.
#[export] Instance result_bind : MBind result := λ _ _ f r,
  match r with Ok a => f a | Err e => Err e end.

(** [if err != nil { return fmt.Errorf("msg: %w", err) }] *)
Definition wrap {A : Type} (msg : string) (r : result A) : result A :=
  match r with Ok a => Ok a | Err e => Err (Wrapf msg e) end.

Definition is_ok {A : Type} (r : result A) : bool :=
  match r with Ok _ => true | Err _ => false end.

(** ** Outcomes and the state monad

    A call either returns or panics (nil dereference); either way the changes
    it made to the state before that point stay. *)
Inductive outcome (A : Type) : Type :=
| Done (a : A)
| Panic (why : string).
Arguments Done {A} a.
Arguments Panic {A} why.

Definition ST (S A : Type) : Type := S → outcome A * S.

#[export] Instance ST_ret {S : Type} : MRet (ST S) := λ _ a s, (Done a, s).
#[export] Instance ST_bind {S : Type} : MBind (ST S) := λ _ _ f m s,
  match m s with
  | (Done a, s') => f a s'
  | (Panic why, s') => (Panic why, s')
  end.

Definition panic {S A : Type} (why : string) : ST S A := λ s, (Panic why, s).
Definition gets {S A : Type} (f : S → A) : ST S A := λ s, (Done (f s), s).
Definition modify {S : Type} (f : S → S) : ST S unit := λ s, (Done tt, f s).

(** ** Evaluation

    Close a closed equation by the virtual machine, without printing the value. *)
Ltac vm_refl := lazymatch goal with |- ?a = _ => vm_cast_no_check (eq_refl a) end.
