(* ===== verification/GoStrings.v ===== *)
(** * The parts of Go's [strings] and [strconv] the program uses

    Byte strings are [string]; [strings.Split] with a one-byte separator,
    [strings.LastIndexByte]-style cutting, [%d], [%x] and [strconv.Atoi], with
    the lemmas the path, address and template files share. *)

From S2P Require Import Prelude.
From Stdlib Require Export Ascii.

Local Open Scope Z_scope.

Create HintDb gostr.
Create Rewrite HintDb gostr.

(** ** Concatenation *)

Lemma str_app_nil_l (s : string) : "" +:+ s = s.
Proof. reflexivity. Qed.
Lemma str_app_cons a (s t : string) : String a s +:+ t = String a (s +:+ t).
Proof. reflexivity. Qed.
Lemma str_app_nil_r (s : string) : s +:+ "" = s.
Proof. induction s; [done|]. rewrite str_app_cons. by f_equal. Qed.
Lemma str_app_assoc (s t u : string) : (s +:+ t) +:+ u = s +:+ (t +:+ u).
Proof. induction s; [done|]. rewrite !str_app_cons. by f_equal. Qed.
Lemma str_app_inv_head (s t u : string) : s +:+ t = s +:+ u → t = u.
Proof. apply (inj (String.app s)). Qed.
Lemma str_length_app (s t : string) :
  String.length (s +:+ t) = (String.length s + String.length t)%nat.
Proof. induction s; [done|]. rewrite str_app_cons. simpl. by rewrite IHs. Qed.
Lemma str_app_inv_tail (s t u : string) : s +:+ u = t +:+ u → s = t.
Proof.
  revert t. induction s as [|a s IH]; intros [|b t] H; [done|..].
  - apply (f_equal String.length) in H. rewrite !str_length_app in H. simpl in H. lia.
  - apply (f_equal String.length) in H. rewrite !str_length_app in H. simpl in H. lia.
  - rewrite !str_app_cons in H. simplify_eq. f_equal. by apply IH.
Qed.

#[export] Hint Rewrite str_app_nil_l str_app_nil_r str_app_cons str_app_assoc : gostr.

(** Concatenation of a list of strings. *)
Definition str_concat (l : list string) : string := foldr String.app "" l.

Lemma str_concat_app l k : str_concat (l ++ k) = str_concat l +:+ str_concat k.
Proof. induction l as [|s l IH]; [done|]. simpl. by rewrite IH, str_app_assoc. Qed.

(** ** Bytes in a string *)

Fixpoint str_has (c : ascii) (s : string) : bool :=
  match s with
  | "" => false
  | String a s => bool_decide (a = c) || str_has c s
  end.

Lemma str_has_app c s t : str_has c (s +:+ t) = str_has c s || str_has c t.
Proof. induction s; [done|]. rewrite str_app_cons. simpl. by rewrite IHs, orb_assoc. Qed.

Fixpoint str_forall (P : ascii → bool) (s : string) : bool :=
  match s with
  | "" => true
  | String a s => P a && str_forall P s
  end.

Lemma str_forall_app P s t : str_forall P (s +:+ t) = str_forall P s && str_forall P t.
Proof. induction s; [done|]. rewrite str_app_cons. simpl. by rewrite IHs, andb_assoc. Qed.

(** A string all of whose bytes satisfy [P] lacks every byte that does not. *)
Lemma str_forall_has P c s : str_forall P s = true → P c = false → str_has c s = false.
Proof.
  induction s as [|a s IH]; simpl; [done|]. intros [Ha Hs]%andb_true_iff Hc.
  rewrite IH by done. rewrite orb_false_r. apply bool_decide_eq_false. congruence.
Qed.

(** ** [strings.Split], [strings.Cut] and [strings.LastIndex] for one byte *)

Fixpoint split_on (c : ascii) (s : string) : list string :=
  match s with
  | "" => [""]
  | String a s =>
      if decide (a = c) then "" :: split_on c s
      else match split_on c s with
           | w :: ws => String a w :: ws
           | [] => [String a ""]
           end
  end.

Fixpoint join_with (c : ascii) (l : list string) : string :=
  match l with
  | [] => ""
  | [w] => w
  | w :: ws => w +:+ String c (join_with c ws)
  end.

(** [s[:i], s[i+1:]] with [i] the first index of [c]. *)
Fixpoint cut_first (c : ascii) (s : string) : option (string * string) :=
  match s with
  | "" => None
  | String a s =>
      if decide (a = c) then Some ("", s)
      else match cut_first c s with
           | Some (l, r) => Some (String a l, r)
           | None => None
           end
  end.

(** [s[:i], s[i+1:]] with [i] the last index of [c]. *)
Fixpoint cut_last (c : ascii) (s : string) : option (string * string) :=
  match s with
  | "" => None
  | String a s =>
      match cut_last c s with
      | Some (l, r) => Some (String a l, r)
      | None => if decide (a = c) then Some ("", s) else None
      end
  end.

Lemma split_on_ne c s : split_on c s ≠ [].
Proof. destruct s; simpl; [done|]. case_decide; [done|]. by case_match. Qed.

Lemma join_split c s : join_with c (split_on c s) = s.
Proof.
  induction s as [|a s IH]; [done|]. simpl. case_decide; subst.
  - pose proof (split_on_ne c s). destruct (split_on c s); [done|].
    change (String c (join_with c (s0 :: l)) = String c s). by f_equal.
  - pose proof (split_on_ne c s). destruct (split_on c s) as [|w [|v ws]]; [done|..];
      simpl in *; rewrite ?str_app_cons; by f_equal.
Qed.

Lemma split_on_free c s : str_has c s = false → split_on c s = [s].
Proof.
  induction s as [|a s IH]; [done|]. simpl. intros [Ha Hs]%orb_false_iff.
  apply bool_decide_eq_false in Ha. rewrite decide_False by done. by rewrite IH.
Qed.

Lemma split_on_app c s t : str_has c s = false →
  split_on c (s +:+ String c t) = s :: split_on c t.
Proof.
  induction s as [|a s IH]; simpl; intros H.
  - by rewrite decide_True.
  - apply orb_false_iff in H as [Ha Hs]. apply bool_decide_eq_false in Ha.
    rewrite decide_False by done. by rewrite IH.
Qed.

Lemma split_join c l : l ≠ [] → Forall (λ w, str_has c w = false) l →
  split_on c (join_with c l) = l.
Proof.
  intros Hne Hl. induction Hl as [|w l Hw Hl IH]; [done|]. destruct l as [|v l].
  - simpl. by apply split_on_free.
  - change (split_on c (w +:+ String c (join_with c (v :: l))) = w :: v :: l).
    rewrite split_on_app by done. by rewrite IH.
Qed.

Lemma split_on_Forall c s : Forall (λ w, str_has c w = false) (split_on c s).
Proof.
  induction s as [|a s IH]; [by repeat constructor|]. simpl. case_decide.
  - by constructor.
  - destruct IH as [|w ws Hw Hws]; repeat constructor; simpl;
      rewrite ?bool_decide_eq_false_2; done.
Qed.

Lemma cut_last_free c s : str_has c s = false → cut_last c s = None.
Proof.
  induction s as [|a s IH]; [done|]. simpl. intros [Ha Hs]%orb_false_iff.
  apply bool_decide_eq_false in Ha. by rewrite IH, decide_False.
Qed.

Lemma cut_last_app c s t : str_has c t = false → cut_last c (s +:+ String c t) = Some (s, t).
Proof.
  intros Ht. induction s as [|a s IH].
  - rewrite str_app_nil_l. simpl. rewrite cut_last_free by done. by rewrite decide_True.
  - rewrite str_app_cons. simpl. by rewrite IH.
Qed.

Lemma cut_last_Some c s l r :
  cut_last c s = Some (l, r) → s = l +:+ String c r ∧ str_has c r = false.
Proof.
  revert l. induction s as [|a s IH]; intros l; simpl; [done|].
  destruct (cut_last c s) as [[l' r']|] eqn:E.
  - intros [= <- <-]. destruct (IH l') as [-> ?]; [done|]. by rewrite str_app_cons.
  - case_decide; [|done]. intros [= <- <-]. subst. split; [done|]. clear IH.
    induction s as [|b s IH]; [done|]. simpl in *. destruct (cut_last c s) as [[]|]; [done|].
    case_decide; [done|]. rewrite bool_decide_eq_false_2 by done. simpl. by apply IH.
Qed.

Lemma cut_last_None c s : cut_last c s = None → str_has c s = false.
Proof.
  induction s as [|a s IH]; [done|]. simpl.
  destruct (cut_last c s) as [[]|]; [done|]. case_decide; [done|].
  intros _. rewrite bool_decide_eq_false_2 by done. by apply IH.
Qed.

Lemma cut_first_app c s t : str_has c s = false → cut_first c (s +:+ String c t) = Some (s, t).
Proof.
  induction s as [|a s IH]; simpl; intros H.
  - by rewrite decide_True.
  - apply orb_false_iff in H as [Ha Hs]. apply bool_decide_eq_false in Ha.
    rewrite decide_False by done. by rewrite IH.
Qed.

Lemma cut_first_free c s : str_has c s = false → cut_first c s = None.
Proof.
  induction s as [|a s IH]; simpl; [done|]. intros [Ha Hs]%orb_false_iff.
  apply bool_decide_eq_false in Ha. rewrite decide_False by done. by rewrite IH.
Qed.

(** ** Digits and numbers *)

Definition is_digit (a : ascii) : bool :=
  (48 <=? Z.of_N (N_of_ascii a)) && (Z.of_N (N_of_ascii a) <=? 57).
Definition digit_val (a : ascii) : Z := Z.of_N (N_of_ascii a) - 48.

(** The value of a hexadecimal digit, either case. *)
Definition hex_val (a : ascii) : option Z :=
  let n := Z.of_N (N_of_ascii a) in
  if (48 <=? n) && (n <=? 57) then Some (n - 48)
  else if (97 <=? n) && (n <=? 102) then Some (n - 97 + 10)
  else if (65 <=? n) && (n <=? 70) then Some (n - 65 + 10)
  else None.

(** One lower-case hexadecimal digit. *)
Definition hex_digit (n : Z) : ascii :=
  ascii_of_N (Z.to_N (if n <? 10 then 48 + n else 87 + n)).

(** [%d] *)
Definition itoa (z : Z) : string := pretty z.

(** Two hexadecimal digits per byte, as [%x] prints a byte array. *)
Definition hex_byte (b : Z) : string :=
  String (hex_digit (b / 16)) (String (hex_digit (b mod 16)) "").

(** A number without leading zeros, as [strconv.AppendUint(_, n, 16)] for
    [n < 2^16]. *)
Definition hex16 (n : Z) : string :=
  if n <? 16 then String (hex_digit n) ""
  else if n <? 256 then hex_byte n
  else if n <? 4096 then String (hex_digit (n / 256)) (hex_byte (n mod 256))
  else hex_byte (n / 256) +:+ hex_byte (n mod 256).

Fixpoint digits_val (acc : Z) (s : string) : option Z :=
  match s with
  | "" => Some acc
  | String a s => if is_digit a then digits_val (acc * 10 + digit_val a) s else None
  end.

(** [strconv.Atoi]: an optional sign, then decimal digits, in the range of a
    64-bit integer. *)
Definition Atoi (s : string) : result Z :=
  let '(neg, ds) :=
    match s with
    | String "-" t => (true, t)
    | String "+" t => (false, t)
    | _ => (false, s)
    end in
  match ds with
  | "" => Err (Errorf "invalid syntax")
  | _ =>
      match digits_val 0 ds with
      | None => Err (Errorf "invalid syntax")
      | Some n =>
          let v := if neg : bool then - n else n in
          if (- 2 ^ 63 <=? v) && (v <=? 2 ^ 63 - 1) then Ok v
          else Err (Errorf "value out of range")
      end
  end.

(** ** Literals *)

Definition nl : string := String "010" "".

(** A literal in which a backquote stands for a double quote. *)
Fixpoint dq (s : string) : string :=
  match s with
  | "" => ""
  | String a s => String (if decide (a = "`"%char) then "034"%char else a) (dq s)
  end.
