(* ===== verification/Order.v ===== *)
(** * Three-way comparisons and [slices.SortFunc]

    Go sorts with a comparison function.  [CmpOrder] is what such a function
    has to satisfy to be a total preorder; lexicographic and projected
    comparisons keep it.  [SortFunc] is the sorting function, and its result is
    the only sorted permutation when elements that compare equal are equal:
    this is what makes a sort of map keys independent of the map's order. *)

From S2P Require Import Prelude.
From Stdlib Require Import ZArith.

Class CmpOrder {A : Type} (cmp : A → A → comparison) : Prop := {
  cmp_sym a b : cmp b a = CompOpp (cmp a b);
  cmp_lt_trans a b c : cmp a b = Lt → cmp b c = Lt → cmp a c = Lt;
  cmp_eq_l a b c : cmp a b = Eq → cmp a c = cmp b c;
}.

Definition cmp_lex {A : Type} (c1 c2 : A → A → comparison) : A → A → comparison :=
  λ a b, match c1 a b with Eq => c2 a b | r => r end.

Definition cmp_on {A B : Type} (f : A → B) (c : B → B → comparison) : A → A → comparison :=
  λ a b, c (f a) (f b).

#[export] Instance cmp_on_order {A B : Type} (f : A → B) c : CmpOrder c → CmpOrder (cmp_on f c).
Proof.
  intros Hc. unfold cmp_on. split; intros.
  - apply cmp_sym.
  - by eapply cmp_lt_trans.
  - by apply cmp_eq_l.
Qed.

Lemma cmp_refl {A : Type} (c : A → A → comparison) `{!CmpOrder c} a : c a a = Eq.
Proof. pose proof (cmp_sym (cmp := c) a a) as H. by destruct (c a a). Qed.

Lemma cmp_eq_r {A : Type} (c : A → A → comparison) `{!CmpOrder c} a b d :
  c a b = Eq → c d a = c d b.
Proof. intros H. rewrite (cmp_sym (cmp := c) a d), (cmp_sym (cmp := c) b d). by rewrite (cmp_eq_l a b d). Qed.

#[export] Instance cmp_lex_order {A : Type} (c1 c2 : A → A → comparison) :
  CmpOrder c1 → CmpOrder c2 → CmpOrder (cmp_lex c1 c2).
Proof.
  intros H1 H2. unfold cmp_lex. split.
  - intros a b. rewrite (cmp_sym (cmp := c1) a b), (cmp_sym (cmp := c2) a b).
    by destruct (c1 a b).
  - intros a b d. destruct (c1 a b) eqn:E1; [| |done].
    + rewrite (cmp_eq_l (cmp := c1) _ _ d E1). destruct (c1 b d); [|done..].
      by apply cmp_lt_trans.
    + intros _. destruct (c1 b d) eqn:E2; [| |done].
      * by rewrite <-(cmp_eq_r c1 _ _ a E2), E1.
      * by rewrite (cmp_lt_trans _ _ _ E1 E2).
  - intros a b d. destruct (c1 a b) eqn:E1; [|done..]. intros E2.
    rewrite (cmp_eq_l (cmp := c1) _ _ d E1). by rewrite (cmp_eq_l (cmp := c2) _ _ d E2).
Qed.

#[export] Instance Zcompare_order : CmpOrder Z.compare.
Proof.
  split.
  - intros. apply Z.compare_antisym.
  - intros a b c. rewrite !Z.compare_lt_iff. lia.
  - intros a b c ->%Z.compare_eq_iff. done.
Qed.

#[export] Instance string_compare_order : CmpOrder String.compare.
Proof.
  split.
  - intros. apply String.compare_antisym.
  - induction a as [|x a IH]; intros [|y b] [|z c]; simpl; try done.
    unfold Ascii.compare. intros H1 H2.
    destruct (N.compare_spec (Ascii.N_of_ascii x) (Ascii.N_of_ascii y)) as [E|E|E];
      [| |done];
    destruct (N.compare_spec (Ascii.N_of_ascii y) (Ascii.N_of_ascii z)) as [F|F|F];
      try done.
    + rewrite E, F, N.compare_refl. eauto.
    + rewrite E. by apply N.compare_lt_iff in F as ->.
    + rewrite <-F. by apply N.compare_lt_iff in E as ->.
    + assert (Ascii.N_of_ascii x < Ascii.N_of_ascii z)%N as ->%N.compare_lt_iff by lia. done.
  - intros a b c ->%String.compare_eq_iff. done.
Qed.

(** ** [slices.SortFunc(l, cmp)] *)

Definition cmp_le {A : Type} (c : A → A → comparison) (a b : A) : Prop := c a b ≠ Gt.
#[export] Instance cmp_le_dec {A : Type} (c : A → A → comparison) a b :
  Decision (cmp_le c a b).
Proof. unfold cmp_le. apply _. Defined.

Definition SortFunc {A : Type} (c : A → A → comparison) (l : list A) : list A :=
  merge_sort (cmp_le c) l.

Section sort_func.
Context {A : Type} (c : A → A → comparison) `{!CmpOrder c}.

#[local] Instance cmp_le_total : Total (cmp_le c).
Proof.
  intros a b. unfold cmp_le. rewrite (cmp_sym (cmp := c) a b). destruct (c a b); simpl; naive_solver.
Qed.

#[local] Instance cmp_le_trans : Transitive (cmp_le c).
Proof.
  intros a b d. unfold cmp_le. destruct (c a b) eqn:E1; [| |done].
  - by rewrite (cmp_eq_l (cmp := c) _ _ d E1).
  - intros _. destruct (c b d) eqn:E2; [| |done].
    + by rewrite <-(cmp_eq_r c _ _ a E2), E1.
    + by rewrite (cmp_lt_trans _ _ _ E1 E2).
Qed.

Lemma cmp_le_antisym_eq a b : cmp_le c a b → cmp_le c b a → c a b = Eq.
Proof. unfold cmp_le. rewrite (cmp_sym (cmp := c) a b). by destruct (c a b). Qed.

Lemma SortFunc_sorted l : Sorted (cmp_le c) (SortFunc c l).
Proof. apply (Sorted_merge_sort (cmp_le c)). Qed.

Lemma SortFunc_perm l : SortFunc c l ≡ₚ l.
Proof. apply merge_sort_Permutation. Qed.

Lemma SortFunc_elem_of l x : x ∈ SortFunc c l ↔ x ∈ l.
Proof. by rewrite SortFunc_perm. Qed.

(** On a list in which elements that compare equal are equal, any sorted
    permutation is the result of the sort. *)
Lemma SortFunc_unique l k :
  (∀ a b, a ∈ l → b ∈ l → c a b = Eq → a = b) →
  k ≡ₚ l → Sorted (cmp_le c) k → k = SortFunc c l.
Proof.
  intros Hinj Hk Hs. apply (Sorted_unique_strong (cmp_le c)).
  - intros a b Ha Hb H1 H2. rewrite Hk in Ha. rewrite SortFunc_elem_of in Hb.
    apply Hinj; [done..|]. by apply cmp_le_antisym_eq.
  - done.
  - apply SortFunc_sorted.
  - by rewrite SortFunc_perm.
Qed.

Lemma SortFunc_perm_eq l k :
  (∀ a b, a ∈ l → b ∈ l → c a b = Eq → a = b) → k ≡ₚ l → SortFunc c k = SortFunc c l.
Proof.
  intros Hinj Hk. apply SortFunc_unique; [done| |apply SortFunc_sorted].
  by rewrite SortFunc_perm.
Qed.

End sort_func.
