(* ===== verification/Netip.v ===== *)
(** * The addresses and prefixes of Go's [net/netip]

    [Addr] is a 128-bit number with a mark that says whether it is invalid,
    an IPv4 address (kept in its IPv4-mapped form) or an IPv6 address with a
    zone.  The operations follow the documented behaviour of the package, the
    wrap-around of [Addr.Next] included.  Text is in NetipText. *)

From S2P Require Import Prelude GoStrings Order.

Local Open Scope Z_scope.

Inductive zmark : Type :=
| Z0mark                     (* the zero, invalid address *)
| Z4mark                     (* IPv4 *)
| Z6mark (zone : string).    (* IPv6, with its zone ("" for none) *)

#[export] Instance zmark_eq_dec : EqDecision zmark.
Proof. solve_decision. Defined.
#[export] Instance zmark_countable : Countable zmark.
Proof.
  refine (inj_countable'
    (λ z, match z with Z0mark => inl false | Z4mark => inl true | Z6mark s => inr s end)
    (λ x, match x with inl false => Z0mark | inl true => Z4mark | inr s => Z6mark s end) _).
  by intros [].
Defined.

Record Addr : Type := mkAddr { addr_bits : Z; addr_z : zmark }.

#[export] Instance Addr_eq_dec : EqDecision Addr.
Proof. solve_decision. Defined.
#[export] Instance Addr_countable : Countable Addr.
Proof.
  refine (inj_countable' (λ a, (addr_bits a, addr_z a)) (λ '(b, z), mkAddr b z) _).
  by intros [].
Defined.

Definition zeroAddr : Addr := mkAddr 0 Z0mark.

(** The offset of the IPv4-mapped range [::ffff:0:0/96]. *)
Definition v4_off : Z := 281470681743360.

(** [AddrFrom4] on the 32-bit value of the four bytes. *)
Definition AddrFrom4 (v : Z) : Addr := mkAddr (v4_off + v) Z4mark.
Definition v4_val (a : Addr) : Z := addr_bits a mod 2 ^ 32.

Definition Is4 (a : Addr) : bool := match addr_z a with Z4mark => true | _ => false end.
Definition Is6 (a : Addr) : bool := match addr_z a with Z6mark _ => true | _ => false end.
Definition Is4In6 (a : Addr) : bool := Is6 a && (addr_bits a / 2 ^ 32 =? 65535).
Definition Zone (a : Addr) : string := match addr_z a with Z6mark z => z | _ => "" end.

Definition BitLen (a : Addr) : Z :=
  match addr_z a with Z0mark => 0 | Z4mark => 32 | Z6mark _ => 128 end.

(** [Addr.Next]: the zero address after the last one of the family. *)
Definition Next (a : Addr) : Addr :=
  let n := (addr_bits a + 1) mod 2 ^ 128 in
  if Is4 a then
    if n mod 2 ^ 32 =? 0 then zeroAddr else mkAddr n (addr_z a)
  else
    if n =? 0 then zeroAddr else mkAddr n (addr_z a).

Definition Addr_compare (a b : Addr) : comparison :=
  match BitLen a ?= BitLen b with
  | Eq =>
      match addr_bits a ?= addr_bits b with
      | Eq => if Is6 a then String.compare (Zone a) (Zone b) else Eq
      | r => r
      end
  | r => r
  end.

Record Prefix : Type := mkPrefix { pfx_ip : Addr; pfx_bitsPlusOne : Z }.

#[export] Instance Prefix_eq_dec : EqDecision Prefix.
Proof. solve_decision. Defined.
#[export] Instance Prefix_countable : Countable Prefix.
Proof.
  refine (inj_countable' (λ p, (pfx_ip p, pfx_bitsPlusOne p)) (λ '(a, b), mkPrefix a b) _).
  by intros [].
Defined.

Definition zeroPrefix : Prefix := mkPrefix zeroAddr 0.
Definition Bits (p : Prefix) : Z := pfx_bitsPlusOne p - 1.
Definition IsValid (p : Prefix) : bool := 0 <? pfx_bitsPlusOne p.
Definition IsSingleIP (p : Prefix) : bool := IsValid p && (Bits p =? BitLen (pfx_ip p)).

Definition withoutZone (a : Addr) : Addr :=
  if Is6 a then mkAddr (addr_bits a) (Z6mark "") else a.

Definition PrefixFrom (a : Addr) (bits : Z) : Prefix :=
  mkPrefix (withoutZone a)
    (if negb (bool_decide (addr_z a = Z0mark)) && (0 <=? bits) && (bits <=? BitLen a)
     then bits + 1 else 0).

(** The 128-bit mask with [n] leading ones. *)
Definition mask6 (n : Z) : Z := Z.shiftl (Z.ones n) (128 - n).

(** [Addr.Prefix]: keep the top [b] bits. *)
Definition Addr_Prefix (a : Addr) (b : Z) : result Prefix :=
  if b <? 0 then Err (Errorf "negative Prefix bits")
  else match addr_z a with
       | Z0mark => Ok zeroPrefix
       | Z4mark =>
           if 32 <? b then Err (Errorf "prefix length too large for IPv4")
           else Ok (PrefixFrom (mkAddr (Z.land (addr_bits a) (mask6 (b + 96))) Z4mark) b)
       | Z6mark z =>
           if 128 <? b then Err (Errorf "prefix length too large for IPv6")
           else Ok (PrefixFrom (mkAddr (Z.land (addr_bits a) (mask6 b)) (Z6mark z)) b)
       end.

Definition Masked (p : Prefix) : Prefix :=
  match Addr_Prefix (pfx_ip p) (Bits p) with Ok m => m | Err _ => zeroPrefix end.

(** [Prefix.Compare]: masked address, then length, then the address itself. *)
Definition Prefix_compare (p q : Prefix) : comparison :=
  match Addr_compare (pfx_ip (Masked p)) (pfx_ip (Masked q)) with
  | Eq =>
      match Bits p ?= Bits q with
      | Eq => Addr_compare (pfx_ip p) (pfx_ip q)
      | r => r
      end
  | r => r
  end.

(** ** The comparison is a total order *)

Lemma Addr_compare_lex a b :
  Addr_compare a b =
  cmp_lex (cmp_on BitLen Z.compare)
    (cmp_lex (cmp_on addr_bits Z.compare) (cmp_on Zone String.compare)) a b.
Proof.
  unfold Addr_compare, cmp_lex, cmp_on.
  destruct (BitLen a ?= BitLen b) eqn:E; [|done..].
  destruct (addr_bits a ?= addr_bits b); [|done..].
  apply Z.compare_eq_iff in E. destruct a as [x [| |z]], b as [y [| |w]]; done.
Qed.

#[export] Instance Addr_compare_order : CmpOrder Addr_compare.
Proof.
  split.
  - intros a b. rewrite !Addr_compare_lex. apply cmp_sym.
  - intros a b c. rewrite !Addr_compare_lex. apply cmp_lt_trans.
  - intros a b c. rewrite !Addr_compare_lex. apply cmp_eq_l.
Qed.

Lemma Addr_compare_eq a b : Addr_compare a b = Eq ↔ a = b.
Proof.
  split; [|intros ->; apply (cmp_refl Addr_compare)].
  rewrite Addr_compare_lex. unfold cmp_lex, cmp_on.
  destruct (BitLen a ?= BitLen b) eqn:E1; [|done..].
  destruct (addr_bits a ?= addr_bits b) eqn:E2; [|done..].
  intros E3%String.compare_eq_iff. apply Z.compare_eq_iff in E1, E2.
  destruct a as [x [| |z]], b as [y [| |w]]; unfold BitLen, Zone in *; by simplify_eq/=.
Qed.

Lemma Prefix_compare_eq p q : Prefix_compare p q = Eq ↔ p = q.
Proof.
  unfold Prefix_compare. split.
  - destruct (Addr_compare (pfx_ip (Masked p)) _); [|done..].
    destruct (Bits p ?= Bits q) eqn:E; [|done..]. apply Z.compare_eq_iff in E.
    intros E'%Addr_compare_eq. unfold Bits in E. destruct p, q; simpl in *. f_equal; [done|lia].
  - intros ->. by rewrite (cmp_refl Addr_compare), Z.compare_refl, (cmp_refl Addr_compare).
Qed.

(** ** IPv4 addresses *)

(** A well-formed IPv4 address holds a 32-bit value above [v4_off]. *)
Definition valid4 (a : Addr) : Prop := ∃ v, 0 ≤ v < 2 ^ 32 ∧ a = AddrFrom4 v.

Lemma v4_val_from v : 0 ≤ v < 2 ^ 32 → v4_val (AddrFrom4 v) = v.
Proof.
  intros. unfold v4_val, AddrFrom4, v4_off; simpl.
  replace (281470681743360 + v) with (v + 65535 * 2 ^ 32) by lia.
  rewrite Z.mod_add by lia. by apply Z.mod_small.
Qed.

Lemma Next_from4 v : 0 ≤ v < 2 ^ 32 - 1 → Next (AddrFrom4 v) = AddrFrom4 (v + 1).
Proof.
  intros Hv. unfold Next. simpl. unfold AddrFrom4. simpl.
  rewrite (Z.mod_small (v4_off + v + 1)) by (unfold v4_off; lia).
  replace ((v4_off + v + 1) mod 2 ^ 32) with (v + 1).
  - destruct (Z.eqb_spec (v + 1) 0); [lia|]. f_equal. lia.
  - unfold v4_off. replace (281470681743360 + v + 1) with (v + 1 + 65535 * 2 ^ 32) by lia.
    rewrite Z.mod_add by lia. rewrite Z.mod_small; lia.
Qed.

Lemma Next_from4_max : Next (AddrFrom4 (2 ^ 32 - 1)) = zeroAddr.
Proof. reflexivity. Qed.

Lemma AddrFrom4_inj v w : AddrFrom4 v = AddrFrom4 w → v = w.
Proof. unfold AddrFrom4. intros [= ?]. lia. Qed.

(** Masking by [n] leading ones clears the low [128 - n] bits. *)
Lemma land_mask6 a n : 0 ≤ a < 2 ^ 128 → 0 ≤ n ≤ 128 →
  Z.land a (mask6 n) = a / 2 ^ (128 - n) * 2 ^ (128 - n).
Proof.
  intros Ha Hn. unfold mask6.
  rewrite <-Z.shiftr_div_pow2, <-Z.shiftl_mul_pow2 by lia.
  apply Z.bits_inj'. intros i Hi. rewrite Z.land_spec.
  rewrite !Z.shiftl_spec by done.
  destruct (Z.lt_ge_cases i (128 - n)).
  - rewrite (Z.testbit_neg_r (Z.ones n)), (Z.testbit_neg_r (Z.shiftr _ _)) by lia.
    apply andb_false_r.
  - rewrite Z.testbit_ones_nonneg, Z.shiftr_spec by lia.
    replace (i - (128 - n) + (128 - n)) with i by lia.
    destruct (Z.ltb_spec (i - (128 - n)) n); [by rewrite andb_true_r|].
    rewrite andb_false_r. symmetry. apply Z.bits_above_log2; [lia|].
    destruct (Z.eq_dec a 0) as [->|]; [change (Z.log2 0) with 0; lia|]. apply Z.log2_lt_pow2; [lia|].
    apply Z.lt_le_trans with (2 ^ 128); [lia|]. apply Z.pow_le_mono_r; lia.
Qed.

Lemma v4_off_split b : 0 ≤ b ≤ 32 → v4_off = 65535 * 2 ^ b * 2 ^ (32 - b).
Proof.
  intros. rewrite <-Z.mul_assoc, <-Z.pow_add_r by lia.
  replace (b + (32 - b)) with 32 by lia. reflexivity.
Qed.

(** The masked form of an IPv4 prefix keeps the multiple of [2^(32-bits)]
    below the address. *)
Lemma Masked_from4 v b : 0 ≤ v < 2 ^ 32 → 0 ≤ b ≤ 32 →
  Masked (PrefixFrom (AddrFrom4 v) b)
  = PrefixFrom (AddrFrom4 (v / 2 ^ (32 - b) * 2 ^ (32 - b))) b.
Proof.
  intros Hv Hb. unfold Masked, PrefixFrom. unfold Bits. cbn [pfx_ip pfx_bitsPlusOne].
  cbn [addr_z AddrFrom4 withoutZone Is6 BitLen negb].
  rewrite bool_decide_eq_false_2 by done. cbn [negb andb].
  destruct (Z.leb_spec 0 b); [|lia]. destruct (Z.leb_spec b 32); [|lia]. cbn [andb].
  unfold Addr_Prefix. cbn [addr_z].
  destruct (Z.ltb_spec (b + 1 - 1) 0); [lia|]. destruct (Z.ltb_spec 32 (b + 1 - 1)); [lia|].
  rewrite land_mask6 by (cbn; unfold v4_off; lia).
  unfold PrefixFrom, withoutZone. cbn [addr_z Is6 addr_bits BitLen].
  rewrite bool_decide_eq_false_2 by done. cbn [negb andb].
  replace (b + 1 - 1) with b by lia.
  destruct (Z.leb_spec 0 b); [|lia]. destruct (Z.leb_spec b 32); [|lia]. cbn [andb].
  f_equal. unfold AddrFrom4. f_equal. cbn [addr_bits].
  replace (128 - (b + 96)) with (32 - b) by lia.
  assert (0 < 2 ^ (32 - b)) by (apply Z.pow_pos_nonneg; lia).
  rewrite (v4_off_split b) at 1 by done. rewrite Z.div_add_l by lia.
  rewrite (v4_off_split b) by done. lia.
Qed.

Lemma Bits_from4 v b : 0 ≤ b ≤ 32 → Bits (PrefixFrom (AddrFrom4 v) b) = b.
Proof.
  intros. unfold Bits, PrefixFrom. cbn [pfx_bitsPlusOne addr_z AddrFrom4 BitLen].
  rewrite bool_decide_eq_false_2 by done.
  destruct (Z.leb_spec 0 b); [|lia]. destruct (Z.leb_spec b 32); [|lia]. cbn [negb andb]. lia.
Qed.
