(* ===== verification/NetipText.v ===== *)
(** * Text forms of [net/netip] addresses and prefixes

    [ParseAddr], [ParsePrefix], [Addr.String] and [Prefix.String], written
    from the published algorithm of the package: the IPv4 field scanner, the
    IPv6 group loop (at most eight groups, one ellipsis, an embedded IPv4
    tail), RFC 5952 zero compression on output.  The last section proves the
    round trip of IPv4 text. *)

From S2P Require Import Prelude GoStrings Order Netip.
From Stdlib Require Import Ascii.

Local Open Scope Z_scope.

(** ** Printing *)

Definition string4 (v : Z) : string :=
  itoa (v / 2 ^ 24 mod 256) +:+ "." +:+ itoa (v / 2 ^ 16 mod 256) +:+ "."
  +:+ itoa (v / 2 ^ 8 mod 256) +:+ "." +:+ itoa (v mod 256).

(** The eight 16-bit groups of an IPv6 address, most significant first. *)
Definition groups16 (b : Z) : list Z :=
  (λ i, b / 2 ^ (16 * (7 - i)) mod 2 ^ 16) <$> [0; 1; 2; 3; 4; 5; 6; 7].

Fixpoint zero_run (l : list Z) : nat :=
  match l with
  | g :: l => if g =? 0 then S (zero_run l) else O
  | [] => O
  end.

(** The first longest run of at least two zero groups, as (start, length). *)
Fixpoint longest_zeros (i : nat) (l : list Z) (best : nat * nat) : nat * nat :=
  match l with
  | [] => best
  | _ :: l' =>
      let n := zero_run l in
      longest_zeros (S i) l'
        (if (2 <=? n)%nat && (snd best <? n)%nat then (i, n) else best)
  end.

Definition string6 (b : Z) : string :=
  let gs := groups16 b in
  let '(start, n) := longest_zeros 0 gs (8%nat, 0%nat) in
  match n with
  | O => join_with ":" (hex16 <$> gs)
  | _ => join_with ":" (hex16 <$> take start gs) +:+ "::"
         +:+ join_with ":" (hex16 <$> drop (start + n) gs)
  end.

Definition zone_suffix (z : string) : string := match z with "" => "" | _ => "%" +:+ z end.

Definition Addr_String (a : Addr) : string :=
  match addr_z a with
  | Z0mark => "invalid IP"
  | Z4mark => string4 (v4_val a)
  | Z6mark z =>
      if Is4In6 a then "::ffff:" +:+ string4 (v4_val a) +:+ zone_suffix z
      else string6 (addr_bits a) +:+ zone_suffix z
  end.

Definition Prefix_String (p : Prefix) : string :=
  if IsValid p then Addr_String (pfx_ip p) +:+ "/" +:+ itoa (Bits p) else "invalid Prefix".

(** ** Parsing *)

(** [parseIPv4Fields]: [prev] says whether the byte before is a dot or there is
    none; [fields] are the octets read so far. *)
Fixpoint parse4_go (prev : bool) (val : Z) (digLen : nat) (fields : list Z) (s : string)
    : result (list Z) :=
  match s with
  | "" =>
      if (length fields <? 3)%nat then Err (Errorf "IPv4 address too short")
      else Ok (fields ++ [val])
  | String c s' =>
      if is_digit c then
        if (digLen =? 1)%nat && (val =? 0) then Err (Errorf "IPv4 field has octet with leading zero")
        else
          let val' := val * 10 + digit_val c in
          if 255 <? val' then Err (Errorf "IPv4 field has value >255")
          else parse4_go false val' (S digLen) fields s'
      else if decide (c = "."%char) then
        if prev || bool_decide (s' = "") then Err (Errorf "IPv4 field must have at least one digit")
        else if (length fields =? 3)%nat then Err (Errorf "IPv4 address too long")
        else parse4_go true 0 0 (fields ++ [val]) s'
      else Err (Errorf "unexpected character")
  end.

Definition parseIPv4Fields (s : string) : result (list Z) := parse4_go true 0 0 [] s.

Definition octets_val (l : list Z) : Z := fold_left (λ acc o, acc * 256 + o) l 0.

(** The hexadecimal digits at the head of [s]: their number, value, the rest. *)
Fixpoint hex_run (off : nat) (acc : Z) (s : string) : result (nat * Z * string) :=
  match s with
  | "" => Ok (off, acc, s)
  | String c s' =>
      match hex_val c with
      | Some d =>
          if (3 <? off)%nat then Err (Errorf "each group must have 4 or less digits")
          else hex_run (S off) (Z.shiftl acc 4 + d) s'
      | None => Ok (off, acc, s)
      end
  end.

(** The loop over groups: [n] groups may still be read. *)
Fixpoint parse6_loop (n : nat) (groups : list Z) (ell : option nat) (s : string)
    : result (list Z * option nat * string) :=
  match n with
  | O => Ok (groups, ell, s)
  | S n' =>
      match hex_run 0 0 s with
      | Err e => Err e
      | Ok (off, acc, rest) =>
          if (off =? 0)%nat
          then Err (Errorf "each colon-separated field must have at least one digit")
          else
          match rest with
          | "" => Ok (groups ++ [acc], ell, "")
          | String "." _ =>
              if bool_decide (ell = None) && negb (length groups =? 6)%nat then
                Err (Errorf "embedded IPv4 address must replace the final 2 fields of the address")
              else if (6 <? length groups)%nat then
                Err (Errorf "too many hex fields to fit an embedded IPv4 at the end of the address")
              else
                f ← parseIPv4Fields s;
                let v := octets_val f in Ok (groups ++ [v / 65536; v mod 65536], ell, "")
          | String ":" "" => Err (Errorf "colon must be followed by more characters")
          | String ":" (String ":" rest2) =>
              if bool_decide (is_Some ell) then Err (Errorf "multiple :: in address")
              else
                let groups' := groups ++ [acc] in
                match rest2 with
                | "" => Ok (groups', Some (length groups'), "")
                | _ => parse6_loop n' groups' (Some (length groups')) rest2
                end
          | String ":" rest1 => parse6_loop n' (groups ++ [acc]) ell rest1
          | _ => Err (Errorf "unexpected character, want colon")
          end
      end
  end.

Definition groups_val (l : list Z) : Z := fold_left (λ acc g, acc * 65536 + g) l 0.

(** The groups with the ellipsis expanded to the full eight. *)
Definition expand6 (groups : list Z) (ell : option nat) : result (list Z) :=
  if (length groups <? 8)%nat then
    match ell with
    | None => Err (Errorf "address string too short")
    | Some e => Ok (take e groups ++ replicate (8 - length groups) 0 ++ drop e groups)
    end
  else match ell with
       | Some _ => Err (Errorf "the :: must expand to at least one field of zeros")
       | None => Ok groups
       end.

Definition parse6_body (s zone : string) : result Addr :=
  let start :=
    match s with
    | String ":" (String ":" r) => (Some 0%nat, r)
    | _ => (None, s)
    end in
  match start with
  | (Some _, "") => Ok (mkAddr 0 (Z6mark zone))
  | (ell, s') =>
      '(groups, ell', rest) ← parse6_loop 8 [] ell s';
      match rest with
      | "" => gs ← expand6 groups ell'; Ok (mkAddr (groups_val gs) (Z6mark zone))
      | _ => Err (Errorf "trailing garbage after address")
      end
  end.

Definition parseIPv6 (s : string) : result Addr :=
  match cut_first "%" s with
  | Some (_, "") => Err (Errorf "zone must be a non-empty string")
  | Some (s', zone) => parse6_body s' zone
  | None => parse6_body s ""
  end.

Definition parseIPv4 (s : string) : result Addr :=
  f ← parseIPv4Fields s; Ok (AddrFrom4 (octets_val f)).

(** [ParseAddr] looks for the first of the bytes dot, colon and percent. *)
Fixpoint addr_kind (s : string) : option ascii :=
  match s with
  | "" => None
  | String c s' =>
      if decide (c = "."%char) then Some c
      else if decide (c = ":"%char) then Some c
      else if decide (c = "%"%char) then Some c
      else addr_kind s'
  end.

Definition ParseAddr (s : string) : result Addr :=
  match addr_kind s with
  | Some "."%char => parseIPv4 s
  | Some ":"%char => parseIPv6 s
  | Some _ => Err (Errorf "missing IPv6 address")
  | None => Err (Errorf "unable to parse IP")
  end.

Definition bits_prefix_ok (s : string) : bool :=
  match s with
  | String c (String _ _) =>
      (49 <=? Z.of_N (N_of_ascii c)) && (Z.of_N (N_of_ascii c) <=? 57)
  | _ => true
  end.

Definition ParsePrefix (s : string) : result Prefix :=
  match cut_last "/" s with
  | None => Err (Errorf "no '/'")
  | Some (ips, bitsStr) =>
      ip ← ParseAddr ips;
      if Is6 ip && negb (bool_decide (Zone ip = ""))
      then Err (Errorf "IPv6 zones cannot be present in a prefix")
      else if negb (bits_prefix_ok bitsStr) then Err (Errorf "bad bits after slash")
      else match Atoi bitsStr with
           | Err _ => Err (Errorf "bad bits after slash")
           | Ok bits =>
               if (bits <? 0) || ((if Is6 ip then 128 else 32) <? bits)
               then Err (Errorf "prefix length out of range")
               else Ok (PrefixFrom ip bits)
           end
  end.

Example parse_v6 : Prefix_String <$> (match ParsePrefix "2a02:168:656d:8000::100/128" with
  Ok p => Some p | Err _ => None end) = Some "2a02:168:656d:8000::100/128".
Proof. vm_compute. reflexivity. Qed.
Example parse_v6_all : ParseAddr "::" = Ok (mkAddr 0 (Z6mark "")).
Proof. vm_compute. reflexivity. Qed.
Example parse_4in6 : Addr_String <$> (match ParseAddr "::ffff:192.0.2.1%eth0" with
  Ok p => Some p | Err _ => None end) = Some "::ffff:192.0.2.1%eth0".
Proof. vm_compute. reflexivity. Qed.
Example parse_v6_bad : is_ok (ParseAddr "1::2::3") = false ∧ is_ok (ParseAddr "12345::") = false
  ∧ is_ok (ParseAddr "1:2:3:4:5:6:7") = false ∧ is_ok (ParseAddr "01.2.3.4") = false.
Proof. vm_compute. done. Qed.

(** ** IPv4 text round trips *)

(** Scanning the decimal text of an octet reads that octet, whatever follows.
    Checked value by value. *)
Definition octet_scans (n : Z) : Prop := ∀ fs rest,
  parse4_go true 0 0 fs (itoa n +:+ rest) = parse4_go false n (String.length (itoa n)) fs rest.

Lemma octet_scans_all n : 0 ≤ n < 256 → octet_scans n.
Proof.
  intros Hn. assert (n ∈ seqZ 0 256) as Hin by (apply elem_of_seqZ; lia).
  revert n Hin Hn. cut (Forall octet_scans (seqZ 0 256)).
  { intros H n Hin _. by rewrite Forall_forall in H; apply H. }
  let l := eval vm_compute in (seqZ 0 256) in change (seqZ 0 256) with l.
  repeat (constructor; [intros fs rest; reflexivity|]). constructor.
Qed.

Lemma parse4_go_dot n fs rest : 0 ≤ n < 256 → (length fs < 3)%nat → rest ≠ "" →
  parse4_go true 0 0 fs (itoa n +:+ "." +:+ rest) = parse4_go true 0 0 (fs ++ [n]) rest.
Proof.
  intros Hn Hl Hr. rewrite octet_scans_all by done. simpl.
  rewrite bool_decide_eq_false_2 by done. destruct (Nat.eqb_spec (length fs) 3); [lia|]. done.
Qed.

Lemma parse4_go_last n fs : 0 ≤ n < 256 → length fs = 3%nat →
  parse4_go true 0 0 fs (itoa n) = Ok (fs ++ [n]).
Proof.
  intros Hn Hl. rewrite <-(str_app_nil_r (itoa n)), octet_scans_all by done.
  simpl. by rewrite Hl.
Qed.

Lemma itoa_octet n : 0 ≤ n < 256 → str_forall is_digit (itoa n) = true ∧ itoa n ≠ "".
Proof.
  intros Hn. assert (n ∈ seqZ 0 256) as Hin by (apply elem_of_seqZ; lia).
  revert n Hin Hn.
  cut (Forall (λ n, str_forall is_digit (itoa n) = true ∧ itoa n ≠ "") (seqZ 0 256)).
  { intros H n Hin _. rewrite Forall_forall in H. by apply H. }
  apply (bool_decide_unpack _). vm_compute. done.
Qed.

Lemma str_app_ne_l s t : s ≠ "" → s +:+ t ≠ "".
Proof. by destruct s. Qed.

Lemma parseIPv4Fields_octets a b c d :
  0 ≤ a < 256 → 0 ≤ b < 256 → 0 ≤ c < 256 → 0 ≤ d < 256 →
  parseIPv4Fields (itoa a +:+ "." +:+ itoa b +:+ "." +:+ itoa c +:+ "." +:+ itoa d)
  = Ok [a; b; c; d].
Proof.
  intros Ha Hb Hc Hd. unfold parseIPv4Fields.
  pose proof (proj2 (itoa_octet b Hb)). pose proof (proj2 (itoa_octet c Hc)).
  pose proof (proj2 (itoa_octet d Hd)).
  rewrite !parse4_go_dot by (simpl; eauto using str_app_ne_l with lia).
  by rewrite parse4_go_last.
Qed.

(** A decimal text holds none of the bytes the scanners look for. *)
Lemma addr_kind_digits s rest : str_forall is_digit s = true →
  addr_kind (s +:+ "." +:+ rest) = Some "."%char.
Proof.
  induction s as [|x s IH]; simpl; [done|]. intros [Hx Hs]%andb_true_iff.
  destruct (decide (x = "."%char)) as [->|]; [done|].
  rewrite decide_False by (intros ->; done). rewrite decide_False by (intros ->; done). auto.
Qed.

Lemma octets_val_4 v : 0 ≤ v < 2 ^ 32 →
  octets_val [v / 2 ^ 24 mod 256; v / 2 ^ 16 mod 256; v / 2 ^ 8 mod 256; v mod 256] = v.
Proof.
  intros Hv. unfold octets_val; simpl.
  change (2 ^ 24) with 16777216. change (2 ^ 16) with 65536. change (2 ^ 8) with 256.
  change (2 ^ 32) with 4294967296 in Hv.
  assert (v / 65536 = v / 256 / 256) as -> by (by rewrite Z.div_div).
  assert (v / 16777216 = v / 256 / 256 / 256) as -> by (by rewrite !Z.div_div).
  set (a := v / 256). set (b := a / 256). set (c := b / 256).
  assert (0 ≤ c < 256) by (subst c b a; rewrite !Z.div_div by lia; split;
    [apply Z.div_pos; lia|apply Z.div_lt_upper_bound; lia]).
  rewrite (Z.mod_small c) by done.
  pose proof (Z.div_mod v 256). pose proof (Z.div_mod a 256). pose proof (Z.div_mod b 256).
  lia.
Qed.

Lemma octet_bound v : 0 ≤ v mod 256 < 256.
Proof. apply Z.mod_pos_bound; lia. Qed.

Lemma parse_string4 v : 0 ≤ v < 2 ^ 32 → ParseAddr (string4 v) = Ok (AddrFrom4 v).
Proof.
  intros Hv. unfold ParseAddr, string4.
  rewrite addr_kind_digits by apply itoa_octet, octet_bound. unfold parseIPv4.
  rewrite parseIPv4Fields_octets by apply octet_bound.
  change (Ok (AddrFrom4 (octets_val [v / 2 ^ 24 mod 256; v / 2 ^ 16 mod 256; v / 2 ^ 8 mod 256;
    v mod 256])) = Ok (AddrFrom4 v)). by rewrite octets_val_4.
Qed.

(** *** Prefix lengths *)

Lemma bits_text_ok n : 0 ≤ n < 256 →
  bits_prefix_ok (itoa n) = true ∧ Atoi (itoa n) = Ok n ∧ str_has "/" (itoa n) = false.
Proof.
  intros Hn. assert (n ∈ seqZ 0 256) as Hin by (apply elem_of_seqZ; lia).
  revert n Hin Hn.
  cut (Forall (λ n, bits_prefix_ok (itoa n) = true ∧ Atoi (itoa n) = Ok n
    ∧ str_has "/" (itoa n) = false) (seqZ 0 256)).
  { intros H n Hin _. rewrite Forall_forall in H. by apply H. }
  let l := eval vm_compute in (seqZ 0 256) in change (seqZ 0 256) with l.
  repeat (constructor; [vm_compute; done|]). constructor.
Qed.

Lemma ParsePrefix_text ip s n : ParseAddr s = Ok ip → Zone ip = "" → 0 ≤ n < 256 →
  ParsePrefix (s +:+ "/" +:+ itoa n)
  = if (if Is6 ip then 128 else 32) <? n then Err (Errorf "prefix length out of range")
    else Ok (PrefixFrom ip n).
Proof.
  intros Hs Hz Hn. destruct (bits_text_ok n Hn) as (Hb & Ha & Hf). unfold ParsePrefix.
  change ("/" +:+ itoa n) with (String "/" (itoa n)).
  rewrite cut_last_app by done. rewrite Hs. cbn [mbind result_bind].
  rewrite Hz, bool_decide_eq_true_2 by done. cbn [negb]. rewrite andb_false_r, Hb, Ha.
  cbn [negb]. destruct (Z.ltb_spec n 0); [lia|]. done.
Qed.

(** Printing and parsing an IPv4 prefix gives it back. *)
Lemma parse_prefix_string4 v b : 0 ≤ v < 2 ^ 32 → 0 ≤ b ≤ 32 →
  ParsePrefix (Prefix_String (PrefixFrom (AddrFrom4 v) b)) = Ok (PrefixFrom (AddrFrom4 v) b).
Proof.
  intros Hv Hb. unfold Prefix_String.
  rewrite Bits_from4 by done. assert (IsValid (PrefixFrom (AddrFrom4 v) b) = true) as ->.
  { pose proof (Bits_from4 v b Hb) as E. unfold Bits in E. unfold IsValid. apply Z.ltb_lt. lia. }
  change (pfx_ip (PrefixFrom (AddrFrom4 v) b)) with (AddrFrom4 v).
  unfold Addr_String. cbn [AddrFrom4 addr_z].
  change (mkAddr (v4_off + v) Z4mark) with (AddrFrom4 v). rewrite v4_val_from by done.
  rewrite (ParsePrefix_text (AddrFrom4 v)) by (done || lia || by apply parse_string4).
  change (Is6 (AddrFrom4 v)) with false. cbn. destruct (Z.ltb_spec 32 b); [lia|]. done.
Qed.

Lemma Addr_String_from4 v : 0 ≤ v < 2 ^ 32 → Addr_String (AddrFrom4 v) = string4 v.
Proof.
  intros Hv. unfold Addr_String. cbn [AddrFrom4 addr_z].
  change (mkAddr (v4_off + v) Z4mark) with (AddrFrom4 v). by rewrite v4_val_from.
Qed.

(** An IPv4 address is written with digits and points only. *)
Lemma string4_free c v : is_digit c = false → c ≠ "."%char → str_has c (string4 v) = false.
Proof.
  intros Hd Hc. unfold string4.
  assert (∀ x, str_has c (itoa (x mod 256)) = false) as Ho.
  { intros x. eapply str_forall_has; [|exact Hd]. apply itoa_octet, octet_bound. }
  rewrite !str_has_app, !Ho. cbn [str_has]. by rewrite bool_decide_eq_false_2.
Qed.
