(* ===== verification/NetipRoundtrip.v ===== *)
(** * Addresses survive being printed

    Reading back the text of an address or a prefix gives it back, for IPv4, IPv6
    with its compression of zeros, IPv4-mapped addresses and zones; whatever the
    parsers accept is well formed, so that printing normalises it. *)

From S2P Require Import Prelude GoStrings Netip NetipText.

Local Open Scope Z_scope.

(** ** Hexadecimal groups *)

(** What may follow a group: nothing, or no hexadecimal digit. *)
Definition stops (s : string) : Prop :=
  match s with "" => True | String c _ => hex_val c = None end.

Definition group (g : Z) : Prop := 0 ≤ g < 65536.

Lemma hex_val_digit d : 0 ≤ d < 16 → hex_val (hex_digit d) = Some d.
Proof.
  intros Hd. assert (d ∈ seqZ 0 16) as Hin by (apply elem_of_seqZ; lia). revert d Hin Hd.
  cut (Forall (λ d, hex_val (hex_digit d) = Some d) (seqZ 0 16)).
  { intros H d Hin _. rewrite Forall_forall in H. by apply H. }
  apply (bool_decide_unpack _). by vm_compute.
Qed.

Lemma hex_run_stop off acc s : stops s → hex_run off acc s = Ok (off, acc, s).
Proof. destruct s as [|c s]; simpl; [done|]. by intros ->. Qed.

Lemma hex_run_digit off acc d s : 0 ≤ d < 16 → (off < 4)%nat →
  hex_run off acc (String (hex_digit d) s) = hex_run (S off) (acc * 16 + d) s.
Proof.
  intros Hd Hoff. cbn [hex_run]. rewrite hex_val_digit by done.
  destruct (Nat.ltb_spec 3 off); [lia|]. by rewrite Z.shiftl_mul_pow2.
Qed.

(** The digits of a group, in the three ways they are cut. *)
Lemma hex_byte_digits b : 0 ≤ b < 256 → ∃ d e, 0 ≤ d < 16 ∧ 0 ≤ e < 16 ∧ b = d * 16 + e
  ∧ hex_byte b = String (hex_digit d) (String (hex_digit e) "").
Proof.
  intros Hb. exists (b / 16), (b mod 16). pose proof (Z.div_mod b 16). pose proof (Z.mod_pos_bound b 16).
  split_and!; [apply Z.div_pos|apply Z.div_lt_upper_bound|..|done]; lia.
Qed.

(** A group is written as one to four digits. *)
Lemma hex16_digits g : group g → ∃ ds, Forall (λ d, 0 ≤ d < 16) ds ∧ (1 ≤ length ds ≤ 4)%nat
  ∧ fold_left (λ a d, a * 16 + d) ds 0 = g
  ∧ hex16 g = foldr (λ d s, String (hex_digit d) s) "" ds.
Proof.
  intros Hg. unfold group in Hg. unfold hex16. pose proof (Z.div_mod g 256). pose proof (Z.mod_pos_bound g 256).
  assert (0 ≤ g / 256 < 256) by (split; [apply Z.div_pos|apply Z.div_lt_upper_bound]; lia).
  destruct (hex_byte_digits (g mod 256)) as (d2 & d3 & ? & ? & E1 & ->); [lia|].
  destruct (hex_byte_digits (g / 256)) as (d0 & d1 & ? & ? & E2 & ->); [lia|].
  destruct (Z.ltb_spec g 16); [|destruct (Z.ltb_spec g 256); [|destruct (Z.ltb_spec g 4096)]].
  - exists [g]. split_and!; simpl; [repeat constructor; lia|lia..|done].
  - destruct (hex_byte_digits g) as (d & e & ? & ? & E & ->); [lia|].
    exists [d; e]. split_and!; simpl; [repeat constructor; lia|lia..|done].
  - assert (0 ≤ g / 256 < 16) by (split; [apply Z.div_pos|apply Z.div_lt_upper_bound]; lia).
    exists [g / 256; d2; d3]. split_and!; simpl; [repeat constructor; lia|lia..|done].
  - exists [d0; d1; d2; d3]. split_and!; simpl; [repeat constructor; lia|lia..|done].
Qed.

Lemma hex_run_digits ds off acc s : Forall (λ d, 0 ≤ d < 16) ds → (off + length ds ≤ 4)%nat → stops s →
  hex_run off acc (foldr (λ d s, String (hex_digit d) s) "" ds +:+ s)
  = Ok ((off + length ds)%nat, fold_left (λ a d, a * 16 + d) ds acc, s).
Proof.
  intros Hds. revert off acc. induction Hds as [|d ds Hd _ IH]; intros off acc Hb Hs;
    cbn [foldr length fold_left] in *.
  - rewrite str_app_nil_l, hex_run_stop by done. by rewrite Nat.add_0_r.
  - rewrite str_app_cons, hex_run_digit by (simpl in *; lia). rewrite IH by (done || lia).
    by rewrite Nat.add_succ_comm.
Qed.

Lemma hex16_scans g s : group g → stops s →
  ∃ k, (0 < k)%nat ∧ hex_run 0 0 (hex16 g +:+ s) = Ok (k, g, s).
Proof.
  intros Hg Hs. destruct (hex16_digits g Hg) as (ds & Hds & Hl & Ev & ->). exists (length ds).
  split; [lia|]. rewrite hex_run_digits by (done || simpl; lia). by rewrite Ev.
Qed.

Definition hexadecimal (c : ascii) : bool := bool_decide (is_Some (hex_val c)).

Lemma hex16_hexadecimal g : group g → hex16 g ≠ "" ∧ str_forall hexadecimal (hex16 g) = true.
Proof.
  intros Hg. destruct (hex16_digits g Hg) as (ds & Hds & Hl & _ & ->).
  split; [by destruct ds as [|d ds]; [simpl in Hl; lia|]|]. clear Hl.
  induction Hds as [|d ds Hd _ IH]; simpl; [done|]. unfold hexadecimal at 1.
  by rewrite hex_val_digit, bool_decide_eq_true_2.
Qed.

(** ** The loop over groups *)

(** What a group that is not the last is followed by. *)
Definition no_colon (s : string) : Prop := match s with "" => False | String c _ => c ≠ ":"%char end.

Lemma hex16_no_colon g s : group g → no_colon (hex16 g +:+ s).
Proof.
  intros Hg. destruct (hex16_hexadecimal g Hg) as [Hne Hh]. destruct (hex16 g) as [|c t]; [done|].
  simpl in *. by intros ->.
Qed.

Lemma join_colon g gs : gs ≠ [] →
  join_with ":" (hex16 <$> g :: gs) = hex16 g +:+ String ":" (join_with ":" (hex16 <$> gs)).
Proof. by destruct gs. Qed.

Lemma join_no_colon gs s : Forall group gs → gs ≠ [] → no_colon (join_with ":" (hex16 <$> gs) +:+ s).
Proof.
  intros Hgs Hne. destruct Hgs as [|g gs Hg _]; [done|]. destruct gs as [|h gs].
  - by apply hex16_no_colon.
  - rewrite join_colon by done. rewrite str_app_assoc. by apply hex16_no_colon.
Qed.

Lemma parse6_last n acc ell g : group g →
  parse6_loop (S n) acc ell (hex16 g) = Ok (acc ++ [g], ell, "").
Proof.
  intros Hg. destruct (hex16_scans g "" Hg I) as (k & Hk & E). rewrite str_app_nil_r in E.
  cbn [parse6_loop]. rewrite E. by destruct k; [lia|].
Qed.

Lemma parse6_step n acc ell g s : group g → no_colon s →
  parse6_loop (S n) acc ell (hex16 g +:+ String ":" s) = parse6_loop n (acc ++ [g]) ell s.
Proof.
  intros Hg Hs. destruct (hex16_scans g (String ":" s) Hg eq_refl) as (k & Hk & E).
  cbn [parse6_loop]. rewrite E. destruct k; [lia|]. destruct s as [|c s]; [done|]. cbn [Nat.eqb].
  simpl in Hs. destruct c as [[] [] [] [] [] [] [] []]; done.
Qed.

Lemma parse6_ellipsis n acc g s : group g →
  parse6_loop (S n) acc None (hex16 g +:+ String ":" (String ":" s)) =
  match s with
  | "" => Ok (acc ++ [g], Some (length (acc ++ [g])), "")
  | _ => parse6_loop n (acc ++ [g]) (Some (length (acc ++ [g]))) s
  end.
Proof.
  intros Hg. destruct (hex16_scans g (String ":" (String ":" s)) Hg eq_refl) as (k & Hk & E).
  cbn [parse6_loop]. rewrite E. by destruct k; [lia|].
Qed.

(** All the groups of a text without an ellipsis, or after it. *)
Lemma parse6_groups gs n acc ell : Forall group gs → gs ≠ [] → (length gs ≤ n)%nat →
  parse6_loop n acc ell (join_with ":" (hex16 <$> gs)) = Ok (acc ++ gs, ell, "").
Proof.
  intros Hgs. revert n acc. induction Hgs as [|g gs Hg Hgs IH]; intros n acc Hne Hn; [done|].
  destruct n as [|n]; [simpl in Hn; lia|]. destruct (decide (gs = [])) as [->|Hne'].
  - by apply parse6_last.
  - rewrite join_colon by done. rewrite parse6_step, IH by
      (done || (simpl in *; lia) || (rewrite <-str_app_nil_r; by apply join_no_colon)).
    by rewrite <-app_assoc.
Qed.

(** The groups before an ellipsis. *)
Lemma parse6_before gs n acc s : Forall group gs → gs ≠ [] → (length gs ≤ n)%nat →
  parse6_loop n acc None (join_with ":" (hex16 <$> gs) +:+ "::" +:+ s) =
  match s with
  | "" => Ok (acc ++ gs, Some (length (acc ++ gs)), "")
  | _ => parse6_loop (n - length gs) (acc ++ gs) (Some (length (acc ++ gs))) s
  end.
Proof.
  intros Hgs. revert n acc. induction Hgs as [|g gs Hg Hgs IH]; intros n acc Hne Hn; [done|].
  destruct n as [|n]; [simpl in Hn; lia|]. destruct (decide (gs = [])) as [->|Hne'].
  - replace (S n - length [g])%nat with n by (simpl; lia). by apply parse6_ellipsis.
  - rewrite join_colon, str_app_assoc, str_app_cons by done.
    rewrite parse6_step, IH by (done || (simpl in *; lia) || by apply join_no_colon).
    rewrite <-app_assoc. done.
Qed.

(** ** The compression of zeros *)

Lemma zero_run_prefix l : ∃ l', l = replicate (zero_run l) 0 ++ l'.
Proof.
  induction l as [|g l [l' IH]]; simpl; [by exists []|]. destruct (Z.eqb_spec g 0) as [->|].
  - exists l'. simpl. by rewrite <-IH.
  - by exists (g :: l).
Qed.

(** A run of zeros, or none. *)
Definition zeros_at (gs : list Z) (r : nat * nat) : Prop :=
  snd r = O ∨ (2 ≤ snd r)%nat ∧ ∃ l1 l2, gs = l1 ++ replicate (snd r) 0 ++ l2 ∧ length l1 = fst r.

Lemma longest_zeros_at gs i l best : l = drop i gs → (i ≤ length gs)%nat → zeros_at gs best →
  zeros_at gs (longest_zeros i l best).
Proof.
  revert i best. induction l as [|g l IH]; intros i best El Hi Hb; [done|].
  assert (i < length gs)%nat as Hlt.
  { destruct (Nat.eq_dec i (length gs)) as [->|]; [|lia]. by rewrite drop_all in El. }
  cbn [longest_zeros]. apply IH; [|lia|].
  - by rewrite <-Nat.add_1_r, <-drop_drop, <-El.
  - destruct (Nat.leb_spec 2 (zero_run (g :: l))); [|done]. destruct (snd best <? _)%nat; [|done].
    right. cbn [andb]. split; [done|]. destruct (zero_run_prefix (g :: l)) as [l2 E].
    exists (take i gs), l2. cbn [fst snd andb]. rewrite <-E, El, take_drop, length_take. split; [done|lia].
Qed.

Lemma string6_cases gs b : gs = groups16 b →
  (string6 b = join_with ":" (hex16 <$> gs))
  ∨ ∃ l1 n l2, gs = l1 ++ replicate n 0 ++ l2 ∧ (2 ≤ n)%nat
    ∧ string6 b = join_with ":" (hex16 <$> l1) +:+ "::" +:+ join_with ":" (hex16 <$> l2).
Proof.
  intros ->. unfold string6. pose proof (longest_zeros_at (groups16 b) 0 (groups16 b) (8%nat, 0%nat)) as H.
  destruct (longest_zeros 0 (groups16 b) (8%nat, 0%nat)) as [start n].
  destruct H as [H|(Hn & l1 & l2 & E & Hl)]; [done|lia|by left|simpl in H; subst; by left|].
  cbn [fst snd] in *. destruct n as [|n]; [lia|]. right. exists l1, (S n), l2. split; [done|]. split; [done|].
  rewrite E, <-Hl, take_app_length, app_assoc, drop_app_length' by (by rewrite length_app, length_replicate).
  done.
Qed.

(** ** The value of the groups *)

Lemma groups16_eq b : groups16 b =
  [b / 65536 / 65536 / 65536 / 65536 / 65536 / 65536 / 65536 mod 65536;
   b / 65536 / 65536 / 65536 / 65536 / 65536 / 65536 mod 65536;
   b / 65536 / 65536 / 65536 / 65536 / 65536 mod 65536;
   b / 65536 / 65536 / 65536 / 65536 mod 65536;
   b / 65536 / 65536 / 65536 mod 65536; b / 65536 / 65536 mod 65536;
   b / 65536 mod 65536; b mod 65536].
Proof. rewrite !Z.div_div by lia. unfold groups16. simpl. by rewrite Z.div_1_r. Qed.

Lemma groups16_groups b : length (groups16 b) = 8%nat ∧ Forall group (groups16 b).
Proof.
  split; [done|]. rewrite groups16_eq. unfold group.
  repeat (constructor; [apply Z.mod_pos_bound; lia|]). constructor.
Qed.

Lemma groups_val_16 b : 0 ≤ b < 2 ^ 128 → groups_val (groups16 b) = b.
Proof.
  intros Hb. rewrite groups16_eq. unfold groups_val. cbn [fold_left].
  set (b1 := b / 65536). set (b2 := b1 / 65536). set (b3 := b2 / 65536). set (b4 := b3 / 65536).
  set (b5 := b4 / 65536). set (b6 := b5 / 65536). set (b7 := b6 / 65536).
  assert (0 ≤ b7 < 65536) as H7.
  { subst b7 b6 b5 b4 b3 b2 b1. rewrite !Z.div_div by lia.
    split; [apply Z.div_pos; lia|apply Z.div_lt_upper_bound; lia]. }
  rewrite (Z.mod_small b7) by done.
  pose proof (Z.div_mod b 65536). pose proof (Z.div_mod b1 65536). pose proof (Z.div_mod b2 65536).
  pose proof (Z.div_mod b3 65536). pose proof (Z.div_mod b4 65536). pose proof (Z.div_mod b5 65536).
  pose proof (Z.div_mod b6 65536). lia.
Qed.

Lemma groups_val_zeros n : groups_val (replicate n 0) = 0.
Proof. unfold groups_val. by induction n as [|n IH]. Qed.

(** ** Reading an IPv6 text *)

(** The groups around the ellipsis, expanded. *)
Lemma expand6_zeros l1 n l2 : length (l1 ++ replicate n 0 ++ l2) = 8%nat → (0 < n)%nat →
  expand6 (l1 ++ l2) (Some (length l1)) = Ok (l1 ++ replicate n 0 ++ l2).
Proof.
  intros Hl Hn. rewrite !length_app, length_replicate in Hl. unfold expand6. rewrite length_app.
  destruct (Nat.ltb_spec (length l1 + length l2) 8); [|lia]. rewrite take_app_length, drop_app_length.
  do 4 f_equal. lia.
Qed.

Lemma join_nonempty gs : Forall group gs → gs ≠ [] → join_with ":" (hex16 <$> gs) ≠ "".
Proof. intros H1 H2 E. pose proof (join_no_colon gs "" H1 H2) as H. by rewrite E in H. Qed.

(** A text that does not start with an ellipsis. *)
Lemma no_ellipsis s : no_colon s →
  match s with String ":" (String ":" r) => (Some 0%nat, r) | _ => (None, s) end = (None, s).
Proof.
  destruct s as [|c s]; [done|]. simpl. intros Hc.
  destruct c as [[] [] [] [] [] [] [] []]; done.
Qed.

Lemma parse6_body_start s zone : no_colon s →
  parse6_body s zone =
    '(groups, ell, rest) ← parse6_loop 8 [] None s;
    match rest with
    | "" => gs ← expand6 groups ell; Ok (mkAddr (groups_val gs) (Z6mark zone))
    | _ => Err (Errorf "trailing garbage after address")
    end.
Proof.
  intros Hs. unfold parse6_body. rewrite no_ellipsis by done. reflexivity.
Qed.

(** One that does, and goes on. *)
Lemma parse6_body_ellipsis s zone : s ≠ "" →
  parse6_body ("::" +:+ s) zone =
    '(groups, ell, rest) ← parse6_loop 8 [] (Some 0%nat) s;
    match rest with
    | "" => gs ← expand6 groups ell; Ok (mkAddr (groups_val gs) (Z6mark zone))
    | _ => Err (Errorf "trailing garbage after address")
    end.
Proof. destruct s; [done|]. reflexivity. Qed.

Lemma parse6_body_string6 b zone : 0 ≤ b < 2 ^ 128 →
  parse6_body (string6 b) zone = Ok (mkAddr b (Z6mark zone)).
Proof.
  intros Hb. destruct (groups16_groups b) as [Hl Hg]. pose proof (groups_val_16 b Hb) as Hv.
  destruct (string6_cases (groups16 b) b eq_refl) as [-> |(l1 & n & l2 & E & Hn & ->)].
  - rewrite parse6_body_start by (rewrite <-str_app_nil_r; apply join_no_colon; [done|by destruct (groups16 b)]).
    rewrite parse6_groups by (done || by destruct (groups16 b)). cbn [mbind result_bind].
    rewrite app_nil_l. unfold expand6. rewrite Hl. cbn [Nat.ltb Nat.leb mbind result_bind]. by rewrite Hv.
  - rewrite E in Hl, Hg, Hv. pose proof (expand6_zeros l1 n l2 Hl ltac:(lia)) as He.
    apply Forall_app in Hg as [H1 [_ H2]%Forall_app]. rewrite !length_app, length_replicate in Hl.
    destruct (decide (l1 = [])) as [->|Hl1].
    + cbn [fmap list_fmap join_with]. rewrite str_app_nil_l.
      destruct (decide (l2 = [])) as [->|Hl2].
      { rewrite app_nil_l, app_nil_r, groups_val_zeros in Hv. by rewrite <-Hv. }
      rewrite parse6_body_ellipsis by by apply join_nonempty.
      rewrite parse6_groups by (done || (simpl in Hl; lia)). cbn [mbind result_bind].
      rewrite app_nil_l. change (length (@nil Z)) with 0%nat in He. rewrite app_nil_l in He at 1.
      rewrite He. cbn [mbind result_bind]. by rewrite Hv.
    + rewrite parse6_body_start by by apply join_no_colon.
      rewrite parse6_before by (done || lia). destruct (decide (l2 = [])) as [->|Hl2].
      { cbn [fmap list_fmap join_with mbind result_bind]. rewrite app_nil_l. rewrite app_nil_r in He.
        rewrite He. cbn [mbind result_bind]. by rewrite Hv. }
      pose proof (join_nonempty l2 H2 Hl2).
      destruct (join_with ":" (hex16 <$> l2)) eqn:Ej; [done|]. rewrite <-Ej.
      rewrite parse6_groups by (done || lia). cbn [mbind result_bind]. rewrite app_nil_l, He.
      cbn [mbind result_bind]. by rewrite Hv.
Qed.

(** ** IPv4-mapped addresses *)

Definition hex_of (s : string) : Z := match hex_run 0 0 s with Ok (_, a, _) => a | Err _ => 0 end.

(** An octet is scanned as a group before the point shows that it is none. *)
Lemma octet_hex n s : 0 ≤ n < 256 →
  hex_run 0 0 (itoa n +:+ String "." s) = Ok (String.length (itoa n), hex_of (itoa n), String "." s).
Proof.
  intros Hn. assert (n ∈ seqZ 0 256) as Hin by (apply elem_of_seqZ; lia).
  revert n Hin Hn s.
  cut (Forall (λ n, ∀ s, hex_run 0 0 (itoa n +:+ String "." s)
    = Ok (String.length (itoa n), hex_of (itoa n), String "." s)) (seqZ 0 256)).
  { intros H n Hin _. rewrite Forall_forall in H. by apply H. }
  let l := eval vm_compute in (seqZ 0 256) in change (seqZ 0 256) with l.
  repeat (constructor; [intros s; reflexivity|]). constructor.
Qed.

Lemma string4_no_colon v s : no_colon (string4 v +:+ s).
Proof.
  unfold string4. destruct (itoa_octet (v / 2 ^ 24 mod 256) (octet_bound _)) as [Hd Hne].
  destruct (itoa _) as [|c t]; [done|]. simpl in *. by intros ->.
Qed.

Lemma parseIPv4Fields_string4 v : 0 ≤ v < 2 ^ 32 →
  ∃ f, parseIPv4Fields (string4 v) = Ok f ∧ octets_val f = v.
Proof.
  intros Hv. eexists. split; [|by apply octets_val_4].
  unfold string4. apply parseIPv4Fields_octets; apply octet_bound.
Qed.

Lemma parse6_embedded n acc ell v : 0 ≤ v < 2 ^ 32 → (length acc ≤ 6)%nat →
  (ell = None → length acc = 6%nat) →
  parse6_loop (S n) acc ell (string4 v) = Ok (acc ++ [v / 65536; v mod 65536], ell, "").
Proof.
  intros Hv Hl Hell. destruct (parseIPv4Fields_string4 v Hv) as (f & Ef & Ev).
  cbn [parse6_loop]. unfold string4 at 1.
  change ("." +:+ ?s) with (String "." s). rewrite octet_hex by apply octet_bound.
  destruct (itoa_octet (v / 2 ^ 24 mod 256) (octet_bound _)) as [_ Hne].
  destruct (itoa (v / 2 ^ 24 mod 256)) as [|c t]; [done|]. cbn [String.length Nat.eqb].
  assert (bool_decide (ell = None) && negb (length acc =? 6)%nat = false) as ->.
  { case_bool_decide as E; [|done]. by rewrite (Hell E). }
  destruct (Nat.ltb_spec 6 (length acc)); [lia|]. rewrite Ef. cbn [mbind result_bind]. by rewrite Ev.
Qed.

Lemma parse6_body_mapped v zone : 0 ≤ v < 2 ^ 32 →
  parse6_body ("::ffff:" +:+ string4 v) zone = Ok (mkAddr (v4_off + v) (Z6mark zone)).
Proof.
  intros Hv. change ("::ffff:" +:+ string4 v) with ("::" +:+ (hex16 65535 +:+ String ":" (string4 v))).
  rewrite parse6_body_ellipsis by done.
  rewrite parse6_step by (done || rewrite <-(str_app_nil_r (string4 v)); apply string4_no_colon).
  rewrite parse6_embedded by (done || simpl; lia). cbn [mbind result_bind].
  change (expand6 (([] ++ [65535]) ++ [v / 65536; v mod 65536]) (Some 0%nat))
    with (Ok [0; 0; 0; 0; 0; 65535; v / 65536; v mod 65536]).
  cbn [mbind result_bind]. do 2 f_equal. unfold groups_val, v4_off. cbn [fold_left].
  pose proof (Z.div_mod v 65536). lia.
Qed.

(** ** Reading any address back *)

(** The addresses that have a text. *)
Definition wf_addr (a : Addr) : Prop :=
  match addr_z a with
  | Z0mark => False
  | Z4mark => valid4 a
  | Z6mark _ => 0 ≤ addr_bits a < 2 ^ 128
  end.

(** The text without its zone. *)
Definition text6 (b : Z) : string :=
  if b / 2 ^ 32 =? 65535 then "::ffff:" +:+ string4 (b mod 2 ^ 32) else string6 b.

Lemma Addr_String_6 b z : Addr_String (mkAddr b (Z6mark z)) = text6 b +:+ zone_suffix z.
Proof.
  unfold Addr_String, text6, Is4In6, v4_val. cbn [addr_z addr_bits Is6 andb].
  destruct (_ =? _); [by rewrite str_app_assoc|done].
Qed.

Lemma parse6_body_text b zone : 0 ≤ b < 2 ^ 128 → parse6_body (text6 b) zone = Ok (mkAddr b (Z6mark zone)).
Proof.
  intros Hb. unfold text6. destruct (Z.eqb_spec (b / 2 ^ 32) 65535) as [E|_]; [|by apply parse6_body_string6].
  pose proof (Z.div_mod b (2 ^ 32)). pose proof (Z.mod_pos_bound b (2 ^ 32)).
  rewrite parse6_body_mapped by lia. do 2 f_equal. unfold v4_off. lia.
Qed.

(** The bytes of an IPv6 text without its zone. *)
Definition addr_byte (c : ascii) : bool :=
  hexadecimal c || bool_decide (c = ":"%char) || bool_decide (c = "."%char).

Lemma str_forall_impl (P Q : ascii → bool) s : (∀ c, P c = true → Q c = true) →
  str_forall P s = true → str_forall Q s = true.
Proof.
  intros H. induction s as [|c s IH]; simpl; [done|]. rewrite !andb_true_iff. intros [Hc Hs]. auto.
Qed.

Lemma join_bytes gs : Forall group gs → str_forall addr_byte (join_with ":" (hex16 <$> gs)) = true.
Proof.
  intros Hgs. assert (∀ g, group g → str_forall addr_byte (hex16 g) = true) as Hh.
  { intros g Hg. eapply str_forall_impl; [|by apply hex16_hexadecimal].
    intros c Hc. unfold addr_byte. by rewrite Hc. }
  induction Hgs as [|g gs Hg Hgs IH]; [done|]. destruct (decide (gs = [])) as [->|Hne]; [by apply Hh|].
  rewrite join_colon, str_forall_app, Hh by done. exact IH.
Qed.

Lemma string4_bytes v : str_forall addr_byte (string4 v) = true.
Proof.
  assert (∀ x, str_forall addr_byte (itoa (x mod 256)) = true) as Ho.
  { intros x. eapply str_forall_impl; [|apply itoa_octet, octet_bound].
    intros c Hc. unfold addr_byte, hexadecimal, hex_val, is_digit in *. rewrite Hc.
    by rewrite bool_decide_eq_true_2. }
  unfold string4. rewrite !str_forall_app, !Ho. done.
Qed.

Lemma text6_bytes b : str_forall addr_byte (text6 b) = true.
Proof.
  unfold text6. destruct (_ =? _); [rewrite str_forall_app, string4_bytes; done|].
  destruct (groups16_groups b) as [_ Hg].
  destruct (string6_cases _ b eq_refl) as [-> |(l1 & n & l2 & E & _ & ->)]; [by apply join_bytes|].
  rewrite E in Hg. apply Forall_app in Hg as [H1 [_ H2]%Forall_app].
  by rewrite !str_forall_app, !join_bytes.
Qed.

(** Hexadecimal digits up to a first colon. *)
Definition colon_first (s : string) : Prop :=
  ∃ h t, s = h +:+ String ":" t ∧ str_forall hexadecimal h = true.

Lemma join_colon_first gs s : Forall group gs → (2 ≤ length gs)%nat ∨ gs ≠ [] ∧ colon_first s →
  colon_first (join_with ":" (hex16 <$> gs) +:+ s).
Proof.
  intros Hgs Hs. destruct Hgs as [|g gs Hg Hgs]; [simpl in Hs; naive_solver lia|].
  destruct (hex16_hexadecimal g Hg) as [_ Hh]. destruct (decide (gs = [])) as [->|Hne].
  - destruct Hs as [Hs|[_ (h & t & -> & Hht)]]; [simpl in Hs; lia|].
    exists (hex16 g +:+ h), t. rewrite str_forall_app, Hh. split; [|done]. simpl. by rewrite str_app_assoc.
  - rewrite join_colon, str_app_assoc, str_app_cons by done. by eexists _, _.
Qed.

Lemma text6_colon_first b : colon_first (text6 b).
Proof.
  unfold text6. destruct (_ =? _); [by exists "", (":ffff:" +:+ string4 (b mod 2 ^ 32))|].
  destruct (groups16_groups b) as [Hl Hg].
  destruct (string6_cases _ b eq_refl) as [-> |(l1 & n & l2 & E & _ & ->)].
  - rewrite <-str_app_nil_r. apply join_colon_first; [done|left; lia].
  - rewrite E in Hg. apply Forall_app in Hg as [H1 _].
    destruct (decide (l1 = [])) as [->|Hne]; [by eexists "", _|].
    apply join_colon_first; [done|]. right. split; [done|]. by eexists "", _.
Qed.

Lemma addr_kind_colon s t : colon_first s → addr_kind (s +:+ t) = Some ":"%char.
Proof.
  intros (h & t' & -> & Hh). rewrite str_app_assoc, str_app_cons.
  induction h as [|c h IH]; [done|]. simpl in *. apply andb_true_iff in Hh as [Hc Hh].
  rewrite !decide_False by (intros ->; done). auto.
Qed.

(** Reading back the text of an address gives it back. *)
Lemma ParseAddr_String a : wf_addr a → ParseAddr (Addr_String a) = Ok a.
Proof.
  destruct a as [b [| |z]]; unfold wf_addr; cbn [addr_z addr_bits]; intros Ha; [done| |].
  - destruct Ha as (v & Hv & ->). rewrite Addr_String_from4 by done. by apply parse_string4.
  - rewrite Addr_String_6. unfold ParseAddr. rewrite addr_kind_colon by apply text6_colon_first.
    unfold parseIPv6. assert (str_has "%" (text6 b) = false) as Hp.
    { eapply str_forall_has; [apply text6_bytes|done]. }
    destruct z as [|c z]; cbn [zone_suffix].
    + rewrite str_app_nil_r. rewrite cut_first_free by done. by apply parse6_body_text.
    + change ("%" +:+ String c z) with (String "%" (String c z)). rewrite cut_first_app by done.
      by apply parse6_body_text.
Qed.

Lemma Addr_String_no_slash a : wf_addr a → Zone a = "" → str_has "/" (Addr_String a) = false.
Proof.
  destruct a as [b [| |z]]; unfold wf_addr, Zone; cbn [addr_z addr_bits]; intros Ha Hz; [done| |].
  - destruct Ha as (v & Hv & ->). rewrite Addr_String_from4 by done. by apply string4_free.
  - subst z. rewrite Addr_String_6. simpl. rewrite str_app_nil_r.
    eapply str_forall_has; [apply text6_bytes|done].
Qed.

Lemma PrefixFrom_fields a b : wf_addr a → Zone a = "" → 0 ≤ b ≤ BitLen a →
  PrefixFrom a b = mkPrefix a (b + 1).
Proof.
  intros Ha Hz Hb. unfold PrefixFrom.
  assert (withoutZone a = a) as ->.
  { destruct a as [x [| |z]]; try done. unfold Zone in Hz. simpl in Hz. by subst z. }
  rewrite bool_decide_eq_false_2 by (intros E; unfold wf_addr in Ha; by rewrite E in Ha).
  rewrite (proj2 (Z.leb_le 0 b)), (proj2 (Z.leb_le b (BitLen a))) by lia. done.
Qed.

(** Reading back the text of a prefix gives it back. *)
Lemma ParsePrefix_String a b : wf_addr a → Zone a = "" → 0 ≤ b ≤ BitLen a →
  ParsePrefix (Prefix_String (PrefixFrom a b)) = Ok (PrefixFrom a b).
Proof.
  intros Ha Hz Hb. assert (Prefix_String (PrefixFrom a b) = Addr_String a +:+ "/" +:+ itoa b) as ->.
  { rewrite PrefixFrom_fields by done. unfold Prefix_String, IsValid, Bits. cbn [pfx_ip pfx_bitsPlusOne].
    destruct (Z.ltb_spec 0 (b + 1)); [|lia]. do 3 f_equal. lia. }
  assert (BitLen a = if Is6 a then 128 else 32) as E by by destruct a as [? [| |?]].
  assert (BitLen a ≤ 128) by (rewrite E; destruct (Is6 a); lia).
  rewrite (ParsePrefix_text a) by (done || lia || by apply ParseAddr_String). rewrite <-E.
  destruct (Z.ltb_spec (BitLen a) b); [lia|done].
Qed.

(** ** What the parsers accept is well formed *)

Definition octet (o : Z) : Prop := 0 ≤ o < 256.

Lemma parse4_go_octets prev val dig fields s l : octet val → Forall octet fields → (length fields ≤ 3)%nat →
  parse4_go prev val dig fields s = Ok l → Forall octet l ∧ length l = 4%nat.
Proof.
  revert prev val dig fields. induction s as [|c s IH]; intros prev val dig fields Hv Hf Hl; simpl.
  - destruct (Nat.ltb_spec (length fields) 3); [done|]. intros [= <-]. rewrite Forall_app, length_app. simpl.
    repeat split; [done|by constructor|lia].
  - destruct (is_digit c) eqn:Ed.
    + destruct (_ && _); [done|]. destruct (Z.ltb_spec 255 (val * 10 + digit_val c)); [done|].
      apply IH; [|done..]. unfold octet in *. unfold is_digit in Ed. unfold digit_val in *. lia.
    + case_decide; [|done]. destruct (_ || _); [done|]. destruct (Nat.eqb_spec (length fields) 3); [done|].
      apply IH; [done| |rewrite length_app; simpl; lia]. apply Forall_app. split; [done|by constructor].
Qed.

Lemma parseIPv4Fields_value s f : parseIPv4Fields s = Ok f → 0 ≤ octets_val f < 2 ^ 32.
Proof.
  intros [Hf Hl]%parse4_go_octets; [|done|done|simpl; lia].
  destruct f as [|a [|b [|c [|d [|]]]]]; try done. unfold octets_val. cbn [fold_left].
  repeat match goal with H : Forall _ (_ :: _) |- _ => apply Forall_cons in H as [? H] end.
  unfold octet in *. lia.
Qed.

Lemma hex_val_bound c d : hex_val c = Some d → 0 ≤ d < 16.
Proof. unfold hex_val. repeat case_match; intros; simplify_eq; lia. Qed.

Lemma hex_run_bound off acc s k v rest : (off ≤ 4)%nat → 0 ≤ acc < 2 ^ (4 * Z.of_nat off) →
  hex_run off acc s = Ok (k, v, rest) → group v.
Proof.
  assert (∀ o a, (o ≤ 4)%nat → 0 ≤ a < 2 ^ (4 * Z.of_nat o) → group a) as Hend.
  { intros o a Ho Ha. unfold group. assert (2 ^ (4 * Z.of_nat o) ≤ 2 ^ 16); [|lia].
    apply Z.pow_le_mono_r; lia. }
  revert off acc. induction s as [|c s IH]; intros off acc Ho Ha; simpl.
  - intros [= _ <- _]. by eapply Hend.
  - destruct (hex_val c) as [d|] eqn:Ec; [|intros [= _ <- _]; by eapply Hend].
    destruct off as [|[|[|[|off]]]]; simpl; [..|done]; apply IH;
      first [lia|apply hex_val_bound in Ec; rewrite Z.shiftl_mul_pow2 by lia; simpl in *; lia].
Qed.

(** What the loop over groups has read. *)
Definition read6 (gs : list Z) (ell : option nat) : Prop :=
  Forall group gs ∧ (length gs ≤ 8)%nat ∧ (∀ e, ell = Some e → (e ≤ length gs)%nat).

Lemma read6_app gs ell new ell' : read6 gs ell → Forall group new → (length gs + length new ≤ 8)%nat →
  ell' = ell ∨ ell' = Some (length (gs ++ new)) → read6 (gs ++ new) ell'.
Proof.
  intros (Hg & _ & He) Hn Hl Hell. unfold read6. rewrite Forall_app, length_app in *. split; [done|].
  split; [done|]. intros e. destruct Hell as [-> | ->]; [|intros [= <-]; lia].
  intros H%He. lia.
Qed.

Lemma parse6_loop_read n gs ell s gs' ell' rest : read6 gs ell → (n + length gs ≤ 8)%nat →
  parse6_loop n gs ell s = Ok (gs', ell', rest) → read6 gs' ell'.
Proof.
  revert gs ell s. induction n as [|n IH]; intros gs ell s Hr Hn; cbn [parse6_loop].
  { intros [= <- <- _]. done. }
  destruct (hex_run 0 0 s) as [[[k v] r]|e] eqn:E; [|done].
  apply hex_run_bound in E; [|lia|simpl; lia]. destruct (k =? 0)%nat; [done|].
  assert (∀ ell1, ell1 = ell ∨ ell1 = Some (length (gs ++ [v])) → read6 (gs ++ [v]) ell1) as H1.
  { intros ell1 H. eapply read6_app; [done|by constructor|simpl; lia|done]. }
  assert (∀ ell1 r1, ell1 = ell ∨ ell1 = Some (length (gs ++ [v])) →
    parse6_loop n (gs ++ [v]) ell1 r1 = Ok (gs', ell', rest) → read6 gs' ell') as Hrec.
  { intros ell1 r1 H. apply IH; [by apply H1|rewrite length_app; simpl; lia]. }
  destruct r as [|c r]; [intros [= <- <- _]; by apply H1; left|].
  destruct (decide (c = ":"%char)) as [->|Hc].
  - destruct r as [|d r]; [done|]. destruct (decide (d = ":"%char)) as [->|Hd].
    + case_bool_decide; [done|]. destruct r; [intros [= <- <- _]; by apply H1; right|]. by apply Hrec; right.
    + destruct d as [[] [] [] [] [] [] [] []]; first [by apply Hrec; left|done].
  - destruct (decide (c = "."%char)) as [->|Hc'].
    + destruct (_ && _); [done|]. destruct (Nat.ltb_spec 6 (length gs)); [done|].
      destruct (parseIPv4Fields s) as [f|e] eqn:Ef; [|done]. cbn [mbind result_bind].
      apply parseIPv4Fields_value in Ef. intros [= <- <- _].
      eapply read6_app; [done| |simpl; lia|by left]. unfold group.
      repeat constructor; try apply Z.mod_pos_bound; try apply Z.div_pos; try apply Z.div_lt_upper_bound; lia.
    + destruct c as [[] [] [] [] [] [] [] []]; done.
Qed.

Lemma groups_val_bound gs : Forall group gs → length gs = 8%nat → 0 ≤ groups_val gs < 2 ^ 128.
Proof.
  intros Hg Hl. destruct gs as [|a [|b [|c [|d [|e [|f [|g [|h [|]]]]]]]]]; try done.
  unfold groups_val. cbn [fold_left].
  repeat match goal with H : Forall _ (_ :: _) |- _ => apply Forall_cons in H as [? H] end.
  unfold group in *. lia.
Qed.

Lemma expand6_bound gs ell gs' : read6 gs ell → expand6 gs ell = Ok gs' → 0 ≤ groups_val gs' < 2 ^ 128.
Proof.
  intros (Hg & Hl & He). unfold expand6. destruct (Nat.ltb_spec (length gs) 8), ell as [e|]; try done.
  - intros [= <-]. specialize (He e eq_refl). apply groups_val_bound.
    + rewrite !Forall_app. split_and!; [by apply Forall_take| |by apply Forall_drop].
      apply Forall_replicate. unfold group. lia.
    + rewrite !length_app, length_take, length_replicate, length_drop. lia.
  - intros [= <-]. apply groups_val_bound; [done|lia].
Qed.

Lemma parse6_body_wf s z a : parse6_body s z = Ok a → wf_addr a.
Proof.
  assert (∀ (ell : option nat) s', read6 [] ell →
    ('(groups, ell', rest) ← parse6_loop 8 [] ell s';
     match rest with
     | "" => gs ← expand6 groups ell'; Ok (mkAddr (groups_val gs) (Z6mark z))
     | _ => Err (Errorf "trailing garbage after address")
     end) = Ok a → wf_addr a) as Hgo.
  { intros ell s' Hr. destruct (parse6_loop 8 [] ell s') as [[[gs ell'] rest]|e] eqn:E; [|done].
    apply parse6_loop_read in E; [|done|done]. cbn [mbind result_bind]. destruct rest; [|done].
    destruct (expand6 gs ell') as [gs'|e] eqn:Ee; [|done]. cbn [mbind result_bind]. intros [= <-].
    by eapply expand6_bound. }
  unfold parse6_body. destruct (match s with String ":" (String ":" r) => _ | _ => _ end) as [[e|] s'] eqn:E.
  - assert (e = 0%nat) as ->.
    { revert E. clear. repeat case_match; congruence. }
    destruct s'; [intros [= <-]; unfold wf_addr; simpl; lia|].
    apply Hgo. split; [done|]. split; [simpl; lia|]. by intros e [= <-].
  - apply Hgo. split; [done|]. split; [simpl; lia|done].
Qed.

Lemma ParseAddr_wf s a : ParseAddr s = Ok a → wf_addr a.
Proof.
  unfold ParseAddr, parseIPv4, parseIPv6. destruct (addr_kind s) as [c|]; [|done].
  assert (c = "."%char ∨ c = ":"%char ∨ c ≠ "."%char ∧ c ≠ ":"%char) as Hc
    by (destruct (decide (c = "."%char)), (decide (c = ":"%char)); auto).
  destruct Hc as [-> |[-> |[H1 H2]]].
  - destruct (parseIPv4Fields s) as [f|e] eqn:E; [|done]. cbn [mbind result_bind]. intros [= <-].
    apply parseIPv4Fields_value in E. by exists (octets_val f).
  - destruct (cut_first "%" s) as [[s' [|c z]]|]; [done|apply parse6_body_wf..].
  - destruct c as [[] [] [] [] [] [] [] []]; done.
Qed.

(** A prefix that was read is made of such an address and a length it allows. *)
Lemma ParsePrefix_wf s p : ParsePrefix s = Ok p →
  ∃ a b, p = PrefixFrom a b ∧ wf_addr a ∧ Zone a = "" ∧ 0 ≤ b ≤ BitLen a.
Proof.
  unfold ParsePrefix. destruct (cut_last "/" s) as [[ips bits]|]; [|done].
  destruct (ParseAddr ips) as [a|e] eqn:Ea; [|done]. cbn [mbind result_bind].
  apply ParseAddr_wf in Ea. destruct (Is6 a && negb (bool_decide (Zone a = ""))) eqn:Ez; [done|].
  destruct (bits_prefix_ok bits); [|done]. cbn [negb].
  destruct (Atoi bits) as [b|e]; [|done]. destruct (_ || _) eqn:Eb; [done|]. intros [= <-].
  apply orb_false_iff in Eb as [H1 H2]. exists a, b. split; [done|]. split; [done|].
  destruct a as [x [| |z]]; [done|..]; unfold Zone, BitLen, Is6 in *; cbn [addr_z andb] in *.
  - split; [done|lia].
  - apply negb_false_iff, bool_decide_eq_true in Ez. split; [done|lia].
Qed.

(** Printing what was read and reading it again gives it back. *)
Lemma ParsePrefix_normal s p : ParsePrefix s = Ok p → ParsePrefix (Prefix_String p) = Ok p.
Proof. intros (a & b & -> & Ha & Hz & Hb)%ParsePrefix_wf. by apply ParsePrefix_String. Qed.

(** Prefixes that were read have different texts. *)
Lemma Prefix_String_inj s t p q : ParsePrefix s = Ok p → ParsePrefix t = Ok q →
  Prefix_String p = Prefix_String q → p = q.
Proof. intros Hp%ParsePrefix_normal Hq%ParsePrefix_normal E. congruence. Qed.
