(* ===== verification/Types.v ===== *)
(** * The API types ([api/v1alpha1/loadbalancerconfig_types.go])

    The custom resource the controller reconciles, and the fields of the
    Kubernetes objects it reads.  A pointer is an [option]; a Go map that may be
    [nil] is an [option] of a finite map; [TypeMeta] and the metadata the
    program never touches are left out. *)

From S2P Require Import Prelude.

(** ** Kubernetes objects *)

Record ObjectMeta : Type := {
  om_Name : string;
  om_Namespace : string;
  om_UID : string;
  om_Generation : Z;
  om_Labels : gmap string string;
}.

Record NamespacedName : Type := { nn_Namespace : string; nn_Name : string }.
#[export] Instance NamespacedName_eq_dec : EqDecision NamespacedName.
Proof. solve_decision. Defined.

Record LabelSelectorRequirement : Type := {
  lsr_Key : string;
  lsr_Operator : string;
  lsr_Values : list string;
}.
Record LabelSelector : Type := {
  MatchLabels : gmap string string;
  MatchExpressions : list LabelSelectorRequirement;
}.

Record NodeAddress : Type := { na_Type : string; na_Address : string }.
(** [corev1.NodeInternalIP] *)
Definition NodeInternalIP : string := "InternalIP".

Record Node : Type := { node_Meta : ObjectMeta; node_Addresses : list NodeAddress }.

Record Secret : Type := {
  sec_Meta : ObjectMeta;
  sec_Data : option (gmap string string);
  sec_StringData : gmap string string;
}.

Record Condition : Type := {
  cond_Type : string;
  cond_Status : string;
  cond_ObservedGeneration : Z;
  cond_LastTransitionTime : Z;
  cond_Reason : string;
  cond_Message : string;
}.

(** ** LoadBalancerConfig *)

Definition AddressTypePrivate : string := "private".
Definition AddressTypePublic : string := "public".

Record VirtualAddress : Type := { va_Type : string; va_Address : string }.

Record LoadBalancerConfigVIPs : Type := {
  vips_API : list VirtualAddress;
  vips_Ingress : list VirtualAddress;
  vips_NAT : option VirtualAddress;
}.

Record LoadBalancerConfigBackend : Type := { be_NodeSelector : LabelSelector }.

Record LoadBalancerConfigSpec : Type := {
  Cloud : string;
  CloudCredentials_Name : string;
  Distribution : string;
  VirtualAddresses : LoadBalancerConfigVIPs;
  APIBackend : LoadBalancerConfigBackend;
  IngressBackend : option LoadBalancerConfigBackend;
  FirewallRules : list string;
}.

Definition NodeStatusConfiguring : string := "Configuring".
Definition NodeStatusReady : string := "Ready".
Definition NodeStatusFailed : string := "Failed".

Record LoadBalancerNodeStatus : Type := {
  PublicIP : string;
  PrivateIP : string;
  VrrpIP : string;
  ConfigHashes : option (gmap string string);
  ns_Status : string;
}.

(** [&LoadBalancerNodeStatus{}] *)
Definition zeroNodeStatus : LoadBalancerNodeStatus := {|
  PublicIP := ""; PrivateIP := ""; VrrpIP := ""; ConfigHashes := None; ns_Status := "";
|}.

(** A map value is a pointer, which may be [nil].  The pointers of one map are
    those a decoder allocates: one object per key. *)
Record LoadBalancerConfigStatus : Type := {
  Nodes : option (gmap string (option LoadBalancerNodeStatus));
  Conditions : list Condition;
}.

Record LoadBalancerConfig : Type := {
  lbc_Meta : ObjectMeta;
  Spec : LoadBalancerConfigSpec;
  Status : LoadBalancerConfigStatus;
}.

(** ** Zero values and updates *)

Definition zeroMeta : ObjectMeta := {|
  om_Name := ""; om_Namespace := ""; om_UID := ""; om_Generation := 0; om_Labels := ∅ |}.
Definition zeroSelector : LabelSelector := {| MatchLabels := ∅; MatchExpressions := [] |}.

Definition zeroLBConfig : LoadBalancerConfig := {|
  lbc_Meta := zeroMeta;
  Spec := {|
    Cloud := ""; CloudCredentials_Name := ""; Distribution := "";
    VirtualAddresses := {| vips_API := []; vips_Ingress := []; vips_NAT := None |};
    APIBackend := {| be_NodeSelector := zeroSelector |};
    IngressBackend := None; FirewallRules := [] |};
  Status := {| Nodes := None; Conditions := [] |};
|}.

Definition set_Nodes (m : gmap string (option LoadBalancerNodeStatus)) (c : LoadBalancerConfig)
    : LoadBalancerConfig :=
  {| lbc_Meta := lbc_Meta c; Spec := Spec c;
     Status := {| Nodes := Some m; Conditions := Conditions (Status c) |} |}.

Definition set_ns_Status (s : string) (n : LoadBalancerNodeStatus) : LoadBalancerNodeStatus :=
  {| PublicIP := PublicIP n; PrivateIP := PrivateIP n; VrrpIP := VrrpIP n;
     ConfigHashes := ConfigHashes n; ns_Status := s |}.
Definition set_PublicIP (s : string) (n : LoadBalancerNodeStatus) : LoadBalancerNodeStatus :=
  {| PublicIP := s; PrivateIP := PrivateIP n; VrrpIP := VrrpIP n;
     ConfigHashes := ConfigHashes n; ns_Status := ns_Status n |}.
Definition set_PrivateIP (s : string) (n : LoadBalancerNodeStatus) : LoadBalancerNodeStatus :=
  {| PublicIP := PublicIP n; PrivateIP := s; VrrpIP := VrrpIP n;
     ConfigHashes := ConfigHashes n; ns_Status := ns_Status n |}.
Definition set_VrrpIP (s : string) (n : LoadBalancerNodeStatus) : LoadBalancerNodeStatus :=
  {| PublicIP := PublicIP n; PrivateIP := PrivateIP n; VrrpIP := s;
     ConfigHashes := ConfigHashes n; ns_Status := ns_Status n |}.
Definition set_ConfigHashes (h : gmap string string) (n : LoadBalancerNodeStatus)
    : LoadBalancerNodeStatus :=
  {| PublicIP := PublicIP n; PrivateIP := PrivateIP n; VrrpIP := VrrpIP n;
     ConfigHashes := Some h; ns_Status := ns_Status n |}.

(** [lbconfig.Status.Nodes[host]] as a pointer: reading a nil map or a missing
    key gives the nil pointer. *)
Definition node_status (host : string) (c : LoadBalancerConfig) : option LoadBalancerNodeStatus :=
  match Nodes (Status c) with
  | None => None
  | Some m => default None (m !! host)
  end.

(** Writing through that pointer changes the object it points to. *)
Definition put_node_status (host : string) (n : LoadBalancerNodeStatus) (c : LoadBalancerConfig)
    : LoadBalancerConfig :=
  match Nodes (Status c) with
  | None => c
  | Some m => set_Nodes (<[host := Some n]> m) c
  end.

Lemma node_status_put host n c s :
  node_status host c = Some s → node_status host (put_node_status host n c) = Some n.
Proof.
  unfold node_status, put_node_status. destruct (Nodes (Status c)) as [m|] eqn:E; [|done].
  intros _. simpl. by rewrite lookup_insert_eq.
Qed.

Lemma node_status_put_ne host host' n c :
  host ≠ host' → node_status host' (put_node_status host n c) = node_status host' c.
Proof.
  unfold node_status, put_node_status. destruct (Nodes (Status c)) as [m|] eqn:E;
    rewrite ?E; [|done]. intros. simpl. by rewrite lookup_insert_ne.
Qed.

Lemma put_node_status_twice host n n' c :
  put_node_status host n (put_node_status host n' c) = put_node_status host n c.
Proof.
  unfold put_node_status. destruct (Nodes (Status c)) as [m|] eqn:E; simpl; rewrite ?E; [|done].
  unfold set_Nodes. simpl. by rewrite insert_insert_eq.
Qed.

Lemma put_node_status_id host n c : node_status host c = Some n → put_node_status host n c = c.
Proof.
  unfold node_status, put_node_status. destruct (Nodes (Status c)) as [m|] eqn:E; [|done].
  intros H. destruct (m !! host) as [o|] eqn:Em; [|done]. simpl in H. subst o.
  rewrite insert_id by done. unfold set_Nodes. destruct c as [? ? []]; simpl in *. by subst.
Qed.

Lemma put_node_status_Spec host n c : Spec (put_node_status host n c) = Spec c.
Proof. unfold put_node_status. by case_match. Qed.
Lemma put_node_status_Meta host n c : lbc_Meta (put_node_status host n c) = lbc_Meta c.
Proof. unfold put_node_status. by case_match. Qed.

Create Rewrite HintDb lbc.
#[export] Hint Rewrite put_node_status_Spec put_node_status_Meta put_node_status_twice : lbc.
