(* ===== verification/Interfaces.v ===== *)
(** * What third-party packages promise

    [golang.org/x/exp/maps.Keys] returns the keys of a map in an order of its
    own; [go.uber.org/multierr.Combine] drops nil errors and returns nil exactly
    when nothing is left.  The program is proved against these two interfaces;
    an instance of each shows that the promises can be met. *)

From S2P Require Import Prelude.

Class MapIter : Type := {
  map_keys : ∀ {K : Type} `{Countable K}, gset K → list K;
  map_keys_perm : ∀ {K : Type} `{Countable K} (m : gset K), map_keys m ≡ₚ elements m;
}.

Class Multierr : Type := {
  Combine : list (option error) → option error;
  Combine_nil : ∀ es, Combine es = None ↔ Forall (λ e, e = None) es;
}.

Lemma map_keys_elem_of {MI : MapIter} `{Countable K} (m : gset K) x : x ∈ map_keys m ↔ x ∈ m.
Proof. by rewrite map_keys_perm, elem_of_elements. Qed.

Lemma map_keys_NoDup {MI : MapIter} `{Countable K} (m : gset K) : NoDup (map_keys m).
Proof. rewrite map_keys_perm. apply NoDup_elements. Qed.

(** [Combine(errors...)] of a slice of non-nil errors. *)
Lemma Combine_slice {ME : Multierr} (es : list error) : Combine (Some <$> es) = None ↔ es = [].
Proof.
  rewrite Combine_nil. destruct es; simpl; [by split|]. split; [|done].
  by intros [? _]%Forall_cons.
Qed.

Lemma Combine_slice_app {ME : Multierr} (es es' : list error) :
  Combine (Some <$> es ++ es') = None ↔ Combine (Some <$> es) = None ∧ Combine (Some <$> es') = None.
Proof. rewrite !Combine_slice. destruct es; simpl; naive_solver. Qed.

(** ** Instances *)

Definition map_iter_elements : MapIter := {|
  map_keys K _ _ m := elements m;
  map_keys_perm K _ _ m := reflexivity _;
|}.

Definition map_iter_reversed : MapIter.
Proof.
  refine {| map_keys K _ _ m := reverse (elements m) |}.
  intros. by rewrite reverse_Permutation.
Defined.

(** The first error that is not nil. *)
Fixpoint first_error (es : list (option error)) : option error :=
  match es with
  | [] => None
  | Some e :: _ => Some e
  | None :: es => first_error es
  end.

Definition multierr_first : Multierr.
Proof.
  refine {| Combine := first_error |}. induction es as [|[e|] es IH]; simpl.
  - by split.
  - split; [done|]. by intros [? _]%Forall_cons.
  - rewrite IH, Forall_cons. naive_solver.
Defined.
