(* ===== verification/Reconciler.v ===== *)
(** * The reconciler's configuration

    [LoadBalancerConfigReconciler] ([loadbalancerconfig_controller.go]) without
    the embedded client and scheme, [KeepalivedConfig] ([keepalived.go]) and the
    small structs of [vip.go]. *)

From S2P Require Import Prelude Netip.

Record KeepalivedConfig : Type := { IsPrimary : bool }.

Record LoadBalancerConfigReconciler : Type := {
  ConfigRoot : string;
  PublicInterface : string;
  ClusterNetwork : Prefix;
  WatchNamespace : string;
  Hostname : string;
  Keepalived : KeepalivedConfig;
}.

Record Backend : Type := { be_Name : string; be_Address : string }.
#[export] Instance Backend_eq_dec : EqDecision Backend.
Proof. solve_decision. Defined.

Record LocalBackendConfiguration : Type := { lb_API : list Backend; lb_Ingress : list Backend }.

Record FrontendData : Type := {
  fd_API : list Addr;
  fd_Ignition : list Addr;
  fd_Ingress : list Addr;
}.

Record InternalIPs : Type := {
  ii_ClusterNetwork : Prefix;
  DefaultGateway : Addr;
  Primary : Addr;
  Secondary : Addr;
}.
