(* ===== verification/Vip.v ===== *)
(** * Virtual addresses ([internal/controller/vip.go])

    Parsing and classifying the virtual addresses of a [LoadBalancerConfig],
    and the addresses derived from the cluster network.  Go maps used as sets
    are [gset]s, [maps.Keys] is the interface [MapIter]. *)

From S2P Require Import Prelude GoStrings Order Netip NetipText Types Interfaces Reconciler.

Local Open Scope Z_scope.

Definition parseVIP (addr : VirtualAddress) : result Prefix :=
  match ParsePrefix (va_Address addr) with
  | Err e => Err (Wrapf "failed to parse VIP" e)
  | Ok a =>
      if negb (IsSingleIP a) then Err (Errorf "address ranges not supported as VIP")
      else Ok a
  end.

Definition sortIPs (ips : list Addr) : list Addr := SortFunc Addr_compare ips.
Definition sortPrefixes (pfx : list Prefix) : list Prefix :=
  SortFunc (cmp_on pfx_ip Addr_compare) pfx.

(** One iteration of the loops of [privateVIPs] and [publicVIPs]: addresses of
    another type are skipped. *)
Definition collectVIP (t : string) (st : gset Prefix * list error) (address : VirtualAddress)
    : gset Prefix * list error :=
  let '(addrs, errors) := st in
  if negb (bool_decide (va_Type address = t)) then (addrs, errors)
  else match parseVIP address with
       | Ok a => ({[a]} ∪ addrs, errors)
       | Err e => (addrs, errors ++ [e])
       end.

Definition collectVIPs (t : string) (l : list VirtualAddress) (st : gset Prefix * list error)
    : gset Prefix * list error := fold_left (collectVIP t) l st.

(** [if vips.NAT != nil && vips.NAT.Type == t { ... }] *)
Definition collectNAT (t : string) (nat : option VirtualAddress) (st : gset Prefix * list error)
    : gset Prefix * list error :=
  match nat with
  | None => st
  | Some a => collectVIP t st a
  end.

Section vips.
Context {MI : MapIter} {ME : Multierr}.

Definition privateVIPs (vips : LoadBalancerConfigVIPs) (additionalVIPs : list Prefix)
    : list Prefix * option error :=
  let addrs := fold_left (λ (m : gset Prefix) a, {[a]} ∪ m) additionalVIPs ∅ in
  let st := collectVIPs AddressTypePrivate (vips_API vips) (addrs, []) in
  let st := collectVIPs AddressTypePrivate (vips_Ingress vips) st in
  let '(addrs, errors) := collectNAT AddressTypePrivate (vips_NAT vips) st in
  (sortPrefixes (map_keys addrs), Combine (Some <$> errors)).

Definition publicVIPs (vips : LoadBalancerConfigVIPs) : list Prefix * option error :=
  let st := collectVIPs AddressTypePublic (vips_API vips) (∅, []) in
  let st := collectVIPs AddressTypePublic (vips_Ingress vips) st in
  let '(addrs, errors) := collectNAT AddressTypePublic (vips_NAT vips) st in
  (sortPrefixes (map_keys addrs), Combine (Some <$> errors)).

(** The loop of [getHAProxyFrontends] over the API addresses. *)
Definition frontendAPI (st : gset Addr * gset Addr * list error) (address : VirtualAddress)
    : gset Addr * gset Addr * list error :=
  let '(api, ignition, errors) := st in
  match parseVIP address with
  | Ok addr =>
      ({[pfx_ip addr]} ∪ api,
       if bool_decide (va_Type address = AddressTypePrivate)
       then {[pfx_ip addr]} ∪ ignition else ignition,
       errors)
  | Err e => (api, ignition, errors ++ [e])
  end.

Definition frontendIngress (st : gset Addr * list error) (address : VirtualAddress)
    : gset Addr * list error :=
  let '(ingress, errors) := st in
  match parseVIP address with
  | Ok addr => ({[pfx_ip addr]} ∪ ingress, errors)
  | Err e => (ingress, errors ++ [e])
  end.

Definition getHAProxyFrontends (vips : LoadBalancerConfigVIPs) : FrontendData * option error :=
  let '(api, ignition, errors) := fold_left frontendAPI (vips_API vips) (∅, ∅, []) in
  let '(ingress, errors) := fold_left frontendIngress (vips_Ingress vips) (∅, errors) in
  ({| fd_API := sortIPs (map_keys api);
      fd_Ignition := sortIPs (map_keys ignition);
      fd_Ingress := sortIPs (map_keys ingress) |},
   Combine (Some <$> errors)).

End vips.

(** ** Addresses of the cluster network *)

Definition internalIPs (r : LoadBalancerConfigReconciler) : result InternalIPs :=
  let netaddr := pfx_ip (Masked (ClusterNetwork r)) in
  if negb (Is4 netaddr) then Err (Errorf "IPv6 cluster network isn't supported")
  else
    let defaultGateway := Next netaddr in
    let primaryIP := Next defaultGateway in
    let secondaryIP := Next primaryIP in
    Ok {| ii_ClusterNetwork := zeroPrefix;
          DefaultGateway := defaultGateway;
          Primary := primaryIP;
          Secondary := secondaryIP |}.

Definition myInternalIP (ip : InternalIPs) (isPrimary : bool) : string :=
  if isPrimary then Addr_String (Primary ip) else Addr_String (Secondary ip).

Definition peerInternalIP (ip : InternalIPs) (isPrimary : bool) : string :=
  if isPrimary then Addr_String (Secondary ip) else Addr_String (Primary ip).

(** ** What the loops collect *)

(** The addresses of type [t] that parse, and the errors of those that do not. *)
Definition parsed_of (t : string) (l : list VirtualAddress) : list Prefix :=
  omap (λ a, match parseVIP a with Ok p => Some p | Err _ => None end)
    (filter (λ a, va_Type a = t) l).
Definition errors_of (t : string) (l : list VirtualAddress) : list error :=
  omap (λ a, match parseVIP a with Ok _ => None | Err e => Some e end)
    (filter (λ a, va_Type a = t) l).

(** All virtual addresses of a configuration, in the order the loops visit them. *)
Definition all_vips (vips : LoadBalancerConfigVIPs) : list VirtualAddress :=
  vips_API vips ++ vips_Ingress vips ++ option_list (vips_NAT vips).

Lemma collectVIPs_spec t l addrs errors :
  collectVIPs t l (addrs, errors) = (list_to_set (parsed_of t l) ∪ addrs, errors ++ errors_of t l).
Proof.
  revert addrs errors. induction l as [|a l IH]; intros addrs errors.
  - simpl. by rewrite app_nil_r, (left_id_L ∅ (∪)).
  - unfold parsed_of, errors_of. rewrite !filter_cons.
    change (collectVIPs t (a :: l)) with (λ st, collectVIPs t l (collectVIP t st a)).
    unfold collectVIP.
    destruct (decide (va_Type a = t)).
    + rewrite bool_decide_eq_true_2 by done. simpl.
      destruct (parseVIP a) as [p|err]; rewrite IH; f_equal; [set_solver|].
      by rewrite <-app_assoc.
    + rewrite bool_decide_eq_false_2 by done. simpl. by rewrite IH.
Qed.

Lemma collectNAT_spec t nat st : collectNAT t nat st = collectVIPs t (option_list nat) st.
Proof. by destruct nat. Qed.

Lemma collectVIPs_app t l k st : collectVIPs t (l ++ k) st = collectVIPs t k (collectVIPs t l st).
Proof. apply fold_left_app. Qed.

Lemma collect_all t vips addrs :
  collectNAT t (vips_NAT vips)
    (collectVIPs t (vips_Ingress vips) (collectVIPs t (vips_API vips) (addrs, [])))
  = (list_to_set (parsed_of t (all_vips vips)) ∪ addrs, errors_of t (all_vips vips)).
Proof.
  rewrite collectNAT_spec, <-!collectVIPs_app. by rewrite collectVIPs_spec.
Qed.

Lemma parsed_of_elem t l p :
  p ∈ parsed_of t l ↔ ∃ a, a ∈ l ∧ va_Type a = t ∧ parseVIP a = Ok p.
Proof.
  unfold parsed_of. rewrite list_elem_of_omap. setoid_rewrite list_elem_of_filter.
  split; intros (a & H).
  - exists a. destruct (parseVIP a); naive_solver.
  - exists a. destruct H as (? & ? & ->). done.
Qed.

Lemma errors_of_nil t l :
  errors_of t l = [] ↔ ∀ a, a ∈ l → va_Type a = t → is_ok (parseVIP a) = true.
Proof.
  induction l as [|a l IH]; [by split; [intros _ ? ?%elem_of_nil|]|].
  unfold errors_of in *. rewrite filter_cons. setoid_rewrite elem_of_cons.
  destruct (decide (va_Type a = t)); simpl; [|naive_solver].
  destruct (parseVIP a) eqn:E.
  - rewrite IH. split; [intros H b [->|?] ?; [by rewrite E|by apply H]|naive_solver].
  - split; [done|]. intros H. specialize (H a (or_introl eq_refl)). rewrite E in H. naive_solver.
Qed.

Lemma parseVIP_single a p : parseVIP a = Ok p → IsSingleIP p = true.
Proof. unfold parseVIP. destruct (ParsePrefix _); [|done]. destruct (IsSingleIP a0) eqn:E; simpl; [|done]. by intros [= <-]. Qed.

(** A single-address prefix is determined by its address. *)
Lemma single_ip_inj p q :
  IsSingleIP p = true → IsSingleIP q = true → pfx_ip p = pfx_ip q → p = q.
Proof.
  unfold IsSingleIP, Bits. intros [_ Hp%Z.eqb_eq]%andb_true_iff [_ Hq%Z.eqb_eq]%andb_true_iff E.
  destruct p, q; simpl in *. subst. f_equal. lia.
Qed.

Lemma additional_set (l : list Prefix) (m : gset Prefix) :
  fold_left (λ (m : gset Prefix) a, {[a]} ∪ m) l m = list_to_set l ∪ m.
Proof.
  revert m. induction l as [|a l IH]; intros m; simpl; [set_solver|]. rewrite IH. set_solver.
Qed.
