(* ===== verification/VipFacts.v ===== *)
(** * Theorems about virtual addresses and internal addresses

    The lists [privateVIPs], [publicVIPs] and [getHAProxyFrontends] return are
    characterised by their members: strictly sorted, hence without duplicates
    and independent of the iteration order of Go maps.  The internal addresses
    are the first three of the cluster network. *)

From S2P Require Import Prelude GoStrings Order Netip NetipText NetipRoundtrip Types Interfaces.
From S2P Require Import Reconciler Vip.

Local Open Scope Z_scope.

Definition addr_lt (a b : Addr) : Prop := Addr_compare a b = Lt.
Definition pfx_lt (p q : Prefix) : Prop := addr_lt (pfx_ip p) (pfx_ip q).

(** [l] lists exactly the members of [P], in increasing address order. *)
Definition lists_prefixes (P : Prefix → Prop) (l : list Prefix) : Prop :=
  Sorted pfx_lt l ∧ ∀ p, p ∈ l ↔ P p.
Definition lists_addrs (P : Addr → Prop) (l : list Addr) : Prop :=
  Sorted addr_lt l ∧ ∀ a, a ∈ l ↔ P a.

(** The addresses the configuration gives with type [t]. *)
Definition is_vip (t : string) (vips : LoadBalancerConfigVIPs) (p : Prefix) : Prop :=
  ∃ a, a ∈ all_vips vips ∧ va_Type a = t ∧ parseVIP a = Ok p.

(** The addresses of the parsed members of [l] for which [P] holds. *)
Definition is_frontend (P : VirtualAddress → Prop) (l : list VirtualAddress) (a : Addr) : Prop :=
  ∃ v p, v ∈ l ∧ P v ∧ parseVIP v = Ok p ∧ pfx_ip p = a.

(** ** Strict order *)

#[export] Instance addr_lt_strict : StrictOrder addr_lt.
Proof.
  split.
  - intros a. unfold complement, addr_lt. by rewrite (cmp_refl Addr_compare).
  - intros a b c. apply cmp_lt_trans.
Qed.
#[export] Instance pfx_lt_strict : StrictOrder pfx_lt.
Proof.
  split; [intros p; apply (irreflexivity addr_lt)|intros p q r; apply (transitivity (R := addr_lt))].
Qed.

Section strict_sort.
Context {A : Type} (c : A → A → comparison) `{!CmpOrder c}.
Let lt a b := c a b = Lt.

(** A sorted list without duplicates, whose equal-comparing elements are equal,
    is strictly sorted. *)
Lemma sorted_strict l :
  (∀ a b, a ∈ l → b ∈ l → c a b = Eq → a = b) →
  NoDup l → Sorted (cmp_le c) l → Sorted lt l.
Proof.
  intros Hinj Hnd Hs. induction Hs as [|x l Hs IH Hhd]; [constructor|].
  apply NoDup_cons in Hnd as [Hx Hnd]. constructor.
  - apply IH; [|done]. intros a b Ha Hb. apply Hinj; by right.
  - destruct Hhd as [|y l Hy]; constructor. unfold lt, cmp_le in *.
    destruct (c x y) eqn:E; [|done..]. apply Hinj in E; [|left|right; left]. subst.
    by destruct Hx; left.
Qed.

Lemma strict_sorted_unique (l k : list A) :
  Sorted lt l → Sorted lt k → (∀ x, x ∈ l ↔ x ∈ k) → l = k.
Proof.
  assert (StrictOrder lt) as Hlt.
  { split; [intros a; unfold complement, lt; by rewrite (cmp_refl c)|intros a b d; apply cmp_lt_trans]. }
  intros Hl%(Sorted_StronglySorted lt) Hk%(Sorted_StronglySorted lt) E.
  apply (StronglySorted_unique_strong lt).
  - intros a b _ _ H1 H2. destruct (irreflexivity lt a). by transitivity b.
  - done.
  - done.
  - apply NoDup_Permutation; [| |done].
    + clear -Hl Hlt. induction Hl as [|x l Hl IH Hx]; constructor; [|done].
      intros Hin. rewrite Forall_forall in Hx. by apply (irreflexivity lt x), Hx.
    + clear -Hk Hlt. induction Hk as [|x l Hl IH Hx]; constructor; [|done].
      intros Hin. rewrite Forall_forall in Hx. by apply (irreflexivity lt x), Hx.
Qed.
End strict_sort.

Lemma lists_prefixes_unique P l k : lists_prefixes P l → lists_prefixes P k → l = k.
Proof.
  intros [Hl El] [Hk Ek]. apply (strict_sorted_unique (cmp_on pfx_ip Addr_compare)); [done..|].
  intros p. by rewrite El, Ek.
Qed.

Lemma lists_addrs_unique P l k : lists_addrs P l → lists_addrs P k → l = k.
Proof.
  intros [Hl El] [Hk Ek]. apply (strict_sorted_unique Addr_compare); [done..|].
  intros p. by rewrite El, Ek.
Qed.

Section facts.
Context {MI : MapIter} {ME : Multierr}.

Lemma sortPrefixes_lists (m : gset Prefix) :
  (∀ p, p ∈ m → IsSingleIP p = true) →
  lists_prefixes (λ p, p ∈ m) (sortPrefixes (map_keys m)).
Proof.
  intros Hs. unfold sortPrefixes. split.
  - apply (sorted_strict (cmp_on pfx_ip Addr_compare)).
    + intros a b. rewrite !(SortFunc_elem_of _), !map_keys_elem_of.
      intros Ha Hb E%Addr_compare_eq. by apply single_ip_inj; [apply Hs..|].
    + rewrite SortFunc_perm. apply map_keys_NoDup.
    + by apply SortFunc_sorted, _.
  - intros p. by rewrite (SortFunc_elem_of _), map_keys_elem_of.
Qed.

Lemma sortIPs_lists (m : gset Addr) : lists_addrs (λ a, a ∈ m) (sortIPs (map_keys m)).
Proof.
  unfold sortIPs. split.
  - apply (sorted_strict Addr_compare).
    + intros a b _ _. by apply Addr_compare_eq.
    + rewrite SortFunc_perm. apply map_keys_NoDup.
    + by apply SortFunc_sorted, _.
  - intros p. by rewrite (SortFunc_elem_of _), map_keys_elem_of.
Qed.

Lemma lists_prefixes_iff P Q l : (∀ p, P p ↔ Q p) → lists_prefixes P l → lists_prefixes Q l.
Proof. intros E [Hl Hm]. split; [done|]. intros p. by rewrite Hm. Qed.
Lemma lists_addrs_iff P Q l : (∀ p, P p ↔ Q p) → lists_addrs P l → lists_addrs Q l.
Proof. intros E [Hl Hm]. split; [done|]. intros p. by rewrite Hm. Qed.

Lemma is_vip_single t vips p : is_vip t vips p → IsSingleIP p = true.
Proof. intros (a & _ & _ & H). by eapply parseVIP_single. Qed.

Lemma errors_of_ok t vips :
  Combine (Some <$> errors_of t (all_vips vips)) = None ↔
  ∀ a, a ∈ all_vips vips → va_Type a = t → is_ok (parseVIP a) = true.
Proof. by rewrite Combine_slice, errors_of_nil. Qed.

(** ** privateVIPs and publicVIPs *)

(** C18: [privateVIPs] returns exactly the private virtual addresses that parse
    together with the additional prefixes, once each, in increasing address
    order (whatever the iteration order of Go maps), and its error is nil
    exactly when every private address parses. *)
Theorem privateVIPs_correct (vips : LoadBalancerConfigVIPs) (extra : list Prefix)
  (Hextra : Forall (λ p, IsSingleIP p = true) extra) :
  lists_prefixes (λ p, p ∈ extra ∨ is_vip AddressTypePrivate vips p) (fst (privateVIPs vips extra))
  ∧ (snd (privateVIPs vips extra) = None ↔
     ∀ a, a ∈ all_vips vips → va_Type a = AddressTypePrivate → is_ok (parseVIP a) = true).
Proof.
  unfold privateVIPs. rewrite collect_all, additional_set. simpl. split; [|apply errors_of_ok].
  rewrite Forall_forall in Hextra.
  eapply lists_prefixes_iff; [|apply sortPrefixes_lists].
  - intros p. cbv beta. rewrite !elem_of_union, !elem_of_list_to_set, parsed_of_elem. set_solver.
  - intros p. rewrite !elem_of_union, !elem_of_list_to_set, parsed_of_elem.
    intros [Hp|[Hp|Hp]]; [by eapply is_vip_single|by apply Hextra|set_solver].
Qed.

Lemma publicVIPs_lists vips : lists_prefixes (is_vip AddressTypePublic vips) (fst (publicVIPs vips)).
Proof.
  unfold publicVIPs. rewrite collect_all. simpl. eapply lists_prefixes_iff; [|apply sortPrefixes_lists].
  - intros p. cbv beta. rewrite elem_of_union, elem_of_list_to_set, parsed_of_elem. set_solver.
  - intros p. rewrite elem_of_union, elem_of_list_to_set, parsed_of_elem.
    intros [Hp|Hp]; [by eapply is_vip_single|set_solver].
Qed.

(** C19: [publicVIPs] returns exactly the public virtual addresses that parse,
    once each, in increasing address order, and its error is nil exactly when
    every public address parses. *)
Theorem publicVIPs_correct (vips : LoadBalancerConfigVIPs) :
  lists_prefixes (is_vip AddressTypePublic vips) (fst (publicVIPs vips))
  ∧ (snd (publicVIPs vips) = None ↔
     ∀ a, a ∈ all_vips vips → va_Type a = AddressTypePublic → is_ok (parseVIP a) = true).
Proof.
  split; [apply publicVIPs_lists|]. unfold publicVIPs. rewrite collect_all. apply errors_of_ok.
Qed.

(** ** getHAProxyFrontends *)

Lemma frontendAPI_spec l api ign errs :
  fold_left frontendAPI l (api, ign, errs) =
  (list_to_set (omap (λ v, match parseVIP v with Ok p => Some (pfx_ip p) | Err _ => None end) l) ∪ api,
   list_to_set (pfx_ip <$> parsed_of AddressTypePrivate l) ∪ ign,
   errs ++ omap (λ v, match parseVIP v with Ok _ => None | Err e => Some e end) l).
Proof.
  revert api ign errs. induction l as [|v l IH]; intros api ign errs; simpl.
  - by rewrite app_nil_r, !(left_id_L ∅ (∪)).
  - unfold parsed_of in *. rewrite filter_cons.
    destruct (parseVIP v) as [p|err] eqn:E; simpl.
    + destruct (decide (va_Type v = AddressTypePrivate)).
      * rewrite bool_decide_eq_true_2 by done. simpl. rewrite E. simpl. rewrite IH.
        repeat apply (f_equal2 pair); first [done|set_solver].
      * rewrite bool_decide_eq_false_2 by done. rewrite IH.
        repeat apply (f_equal2 pair); first [done|set_solver].
    + rewrite IH, <-app_assoc. destruct (decide _); simpl; [by rewrite E|done].
Qed.

Lemma frontendIngress_spec l ing errs :
  fold_left frontendIngress l (ing, errs) =
  (list_to_set (omap (λ v, match parseVIP v with Ok p => Some (pfx_ip p) | Err _ => None end) l) ∪ ing,
   errs ++ omap (λ v, match parseVIP v with Ok _ => None | Err e => Some e end) l).
Proof.
  revert ing errs. induction l as [|v l IH]; intros ing errs; simpl.
  - by rewrite app_nil_r, (left_id_L ∅ (∪)).
  - destruct (parseVIP v) as [p|err] eqn:E; simpl.
    + rewrite IH. apply (f_equal2 pair); [set_solver|done].
    + by rewrite IH, <-app_assoc.
Qed.

Lemma is_frontend_all l a :
  a ∈ (list_to_set (omap (λ v, match parseVIP v with Ok p => Some (pfx_ip p) | Err _ => None end) l)
    : gset Addr) ↔ is_frontend (λ _, True) l a.
Proof.
  rewrite elem_of_list_to_set, list_elem_of_omap. unfold is_frontend.
  split; [intros (v & ? & H)|intros (v & p & ? & _ & H & <-)]; exists v.
  - destruct (parseVIP v); naive_solver.
  - by rewrite H.
Qed.

Lemma is_frontend_private l a :
  a ∈ (list_to_set (pfx_ip <$> parsed_of AddressTypePrivate l) : gset Addr) ↔
  is_frontend (λ v, va_Type v = AddressTypePrivate) l a.
Proof.
  rewrite elem_of_list_to_set, list_elem_of_fmap. setoid_rewrite parsed_of_elem.
  unfold is_frontend. naive_solver.
Qed.

Lemma frontend_errors_nil l :
  omap (λ v, match parseVIP v with Ok _ => None | Err e => Some e end) l = [] ↔
  ∀ v, v ∈ l → is_ok (parseVIP v) = true.
Proof.
  induction l as [|v l IH]; [by split; [intros _ ? ?%elem_of_nil|]|]. simpl.
  setoid_rewrite elem_of_cons. destruct (parseVIP v) eqn:E.
  - rewrite IH. split; [|naive_solver]. intros H w [-> |Hw]; [by rewrite E|by apply H].
  - split; [done|]. intros H. specialize (H v (or_introl eq_refl)). by rewrite E in H.
Qed.

Lemma getHAProxyFrontends_lists vips :
  let fd := fst (getHAProxyFrontends vips) in
  lists_addrs (is_frontend (λ _, True) (vips_API vips)) (fd_API fd)
  ∧ lists_addrs (is_frontend (λ v, va_Type v = AddressTypePrivate) (vips_API vips)) (fd_Ignition fd)
  ∧ lists_addrs (is_frontend (λ _, True) (vips_Ingress vips)) (fd_Ingress fd).
Proof.
  unfold getHAProxyFrontends. rewrite frontendAPI_spec, frontendIngress_spec. simpl.
  split_and!; (eapply lists_addrs_iff; [|apply sortIPs_lists]); intros a; cbv beta;
    rewrite elem_of_union, ?is_frontend_all, ?is_frontend_private; set_solver.
Qed.

(** C20: the HAProxy frontends are the addresses of the configuration in
    increasing order: every API address binds the API port, only private API
    addresses bind the ignition port, every ingress address binds the ingress
    ports; the error is nil exactly when all of them parse. *)
Theorem getHAProxyFrontends_correct (vips : LoadBalancerConfigVIPs) :
  let fd := fst (getHAProxyFrontends vips) in
  lists_addrs (is_frontend (λ _, True) (vips_API vips)) (fd_API fd)
  ∧ lists_addrs (is_frontend (λ v, va_Type v = AddressTypePrivate) (vips_API vips)) (fd_Ignition fd)
  ∧ lists_addrs (is_frontend (λ _, True) (vips_Ingress vips)) (fd_Ingress fd)
  ∧ (snd (getHAProxyFrontends vips) = None ↔
     ∀ v, v ∈ vips_API vips ++ vips_Ingress vips → is_ok (parseVIP v) = true).
Proof.
  split_and!; [apply getHAProxyFrontends_lists..|].
  unfold getHAProxyFrontends. rewrite frontendAPI_spec, frontendIngress_spec. simpl.
  rewrite Combine_slice, app_nil, !frontend_errors_nil. setoid_rewrite elem_of_app. naive_solver.
Qed.

(** ** The texts of the addresses *)

Lemma strict_sorted_NoDup {A : Type} (R : relation A) `{!StrictOrder R} l : Sorted R l → NoDup l.
Proof.
  intros Hs. apply Sorted_StronglySorted in Hs; [|apply _].
  induction Hs as [|x l _ IH Hx]; constructor; [|done]. rewrite Forall_forall in Hx.
  intros Hin. by apply (irreflexivity R x), Hx.
Qed.

(** Whatever is accepted as a virtual address is accepted again as it is printed. *)
Lemma parseVIP_normal a p t : parseVIP a = Ok p →
  parseVIP {| va_Type := t; va_Address := Prefix_String p |} = Ok p.
Proof.
  unfold parseVIP. cbn [va_Address]. destruct (ParsePrefix (va_Address a)) as [q|e] eqn:E; [|done].
  destruct (IsSingleIP q) eqn:Es; [|done]. intros [= <-].
  apply ParsePrefix_normal in E. by rewrite E, Es.
Qed.

Lemma parseVIP_addr a p : parseVIP a = Ok p → wf_addr (pfx_ip p).
Proof.
  unfold parseVIP. destruct (ParsePrefix (va_Address a)) as [q|e] eqn:E; [|done].
  destruct (negb _); [done|]. intros [= <-]. apply ParsePrefix_wf in E as (b & n & -> & Hb & Hz & Hn).
  by rewrite PrefixFrom_fields.
Qed.

Lemma lists_prefixes_texts t vips l : lists_prefixes (is_vip t vips) l →
  (∀ p, p ∈ l → ∀ t', parseVIP {| va_Type := t'; va_Address := Prefix_String p |} = Ok p)
  ∧ NoDup (Prefix_String <$> l).
Proof.
  intros [Hs Hl]. assert (∀ p, p ∈ l → ∀ t', parseVIP {| va_Type := t'; va_Address := Prefix_String p |} = Ok p)
    as Hr.
  { intros p (a & _ & _ & Ha)%Hl t'. by eapply parseVIP_normal. }
  split; [done|]. apply NoDup_fmap_2_strong; [|by eapply strict_sorted_NoDup; [apply pfx_lt_strict|]].
  intros p q Hp%(λ H, Hr p H "") Hq%(λ H, Hr q H "") E. congruence.
Qed.

Lemma lists_addrs_texts P l fs : lists_addrs (is_frontend P fs) l →
  (∀ a, a ∈ l → ParseAddr (Addr_String a) = Ok a) ∧ NoDup (Addr_String <$> l).
Proof.
  intros [Hs Hl]. assert (∀ a, a ∈ l → ParseAddr (Addr_String a) = Ok a) as Hr.
  { intros a (v & p & _ & _ & Hp & <-)%Hl. by eapply ParseAddr_String, parseVIP_addr. }
  split; [done|]. apply NoDup_fmap_2_strong; [|by eapply strict_sorted_NoDup; [apply addr_lt_strict|]].
  intros p q Hp%Hr Hq%Hr E. congruence.
Qed.

(** C23 (round trip): the addresses in the configuration files can be read back.
    The text of every public address that floaty, the dummy connection and the
    firewall zone list is accepted again as a virtual address and denotes the same
    one, whatever notation the custom resource used (IPv6 with or without its
    zeros compressed, IPv4-mapped addresses); the addresses HAProxy binds are read
    back from their texts; and no list holds the same text twice, so that two
    notations of one address never give two entries. *)
Theorem written_addresses_read_back (vips : LoadBalancerConfigVIPs) :
  let l := fst (publicVIPs vips) in
  let fd := fst (getHAProxyFrontends vips) in
  (∀ p, p ∈ l → ∀ t, parseVIP {| va_Type := t; va_Address := Prefix_String p |} = Ok p)
  ∧ NoDup (Prefix_String <$> l)
  ∧ (∀ a, a ∈ fd_API fd ++ fd_Ignition fd ++ fd_Ingress fd → ParseAddr (Addr_String a) = Ok a)
  ∧ NoDup (Addr_String <$> fd_API fd) ∧ NoDup (Addr_String <$> fd_Ignition fd)
  ∧ NoDup (Addr_String <$> fd_Ingress fd).
Proof.
  destruct (lists_prefixes_texts _ _ _ (publicVIPs_lists vips)) as [H1 H2].
  destruct (getHAProxyFrontends_lists vips) as (Ha & Hi & Hg).
  apply lists_addrs_texts in Ha as [Ha1 Ha2], Hi as [Hi1 Hi2], Hg as [Hg1 Hg2].
  split_and!; try done. intros a. rewrite !elem_of_app. naive_solver.
Qed.

End facts.

(** ** Independence of Go's map order *)

(** C21: the three functions return the same lists whatever order [maps.Keys]
    uses, so an unchanged configuration renders to unchanged files. *)
Theorem vip_lists_order_independent (M : Multierr) (I J : MapIter)
  (vips : LoadBalancerConfigVIPs) (extra : list Prefix)
  (Hextra : Forall (λ p, IsSingleIP p = true) extra) :
  @privateVIPs I M vips extra = @privateVIPs J M vips extra
  ∧ @publicVIPs I M vips = @publicVIPs J M vips
  ∧ @getHAProxyFrontends I M vips = @getHAProxyFrontends J M vips.
Proof.
  split_and!.
  - unfold privateVIPs. rewrite !collect_all, additional_set. f_equal.
    eapply lists_prefixes_unique; apply sortPrefixes_lists; intros p;
      rewrite !elem_of_union, !elem_of_list_to_set, parsed_of_elem;
      rewrite Forall_forall in Hextra;
      (intros [Hp|[Hp|Hp]]; [by eapply is_vip_single|by apply Hextra|set_solver]).
  - unfold publicVIPs. rewrite !collect_all. f_equal.
    eapply lists_prefixes_unique; apply sortPrefixes_lists; intros p;
      rewrite elem_of_union, elem_of_list_to_set, parsed_of_elem;
      (intros [Hp|Hp]; [by eapply is_vip_single|set_solver]).
  - unfold getHAProxyFrontends. rewrite frontendAPI_spec, frontendIngress_spec.
    f_equal. f_equal; eapply lists_addrs_unique; apply sortIPs_lists.
Qed.

(** ** parseVIP *)

Lemma IsSingleIP_from4 v b : 0 ≤ b ≤ 32 → IsSingleIP (PrefixFrom (AddrFrom4 v) b) = (b =? 32).
Proof.
  intros Hb. unfold IsSingleIP. rewrite Bits_from4 by done.
  assert (IsValid (PrefixFrom (AddrFrom4 v) b) = true) as ->; [|done].
  pose proof (Bits_from4 v b Hb) as E. unfold Bits in E. unfold IsValid. apply Z.ltb_lt. lia.
Qed.

(** An IPv4 address written in CIDR notation is accepted as a virtual
    address and read back exactly when it denotes one address (/32); any
    shorter prefix is rejected as a range. *)
Theorem parseVIP_ipv4 (t : string) (v b : Z) (Hv : 0 ≤ v < 2 ^ 32) (Hb : 0 ≤ b ≤ 32) :
  parseVIP {| va_Type := t; va_Address := Prefix_String (PrefixFrom (AddrFrom4 v) b) |}
  = if b =? 32 then Ok (PrefixFrom (AddrFrom4 v) 32)
    else Err (Errorf "address ranges not supported as VIP").
Proof.
  unfold parseVIP. cbn [va_Address]. rewrite parse_prefix_string4 by done.
  rewrite IsSingleIP_from4 by done. by destruct (Z.eqb_spec b 32) as [->|].
Qed.

(** ** internalIPs *)

(** The network address of an IPv4 address and a prefix length. *)
Definition network4 (v b : Z) : Z := v / 2 ^ (32 - b) * 2 ^ (32 - b).

Lemma network4_bounds v b : 0 ≤ v < 2 ^ 32 → 0 ≤ b ≤ 32 →
  0 ≤ network4 v b ≤ v ∧ v < network4 v b + 2 ^ (32 - b) ∧ network4 v b + 2 ^ (32 - b) ≤ 2 ^ 32.
Proof.
  intros Hv Hb. unfold network4.
  assert (0 < 2 ^ (32 - b)) as Hp by (apply Z.pow_pos_nonneg; lia).
  pose proof (Z.div_mod v (2 ^ (32 - b))) as E.
  pose proof (Z.mod_pos_bound v (2 ^ (32 - b)) Hp).
  assert (0 ≤ v / 2 ^ (32 - b)) by (apply Z.div_pos; lia).
  assert (2 ^ 32 = 2 ^ b * 2 ^ (32 - b)) as E2.
  { rewrite <-Z.pow_add_r by lia. f_equal. lia. }
  assert (v / 2 ^ (32 - b) < 2 ^ b) by (apply Z.div_lt_upper_bound; lia).
  rewrite E2. split_and!; nia.
Qed.

Lemma netaddr_from4 r v b : ClusterNetwork r = PrefixFrom (AddrFrom4 v) b →
  0 ≤ v < 2 ^ 32 → 0 ≤ b ≤ 32 →
  pfx_ip (Masked (ClusterNetwork r)) = AddrFrom4 (network4 v b).
Proof. intros -> Hv Hb. by rewrite Masked_from4. Qed.

(** C22: for an IPv4 cluster network of at most 30 bits, with or without host
    bits in the flag's value, the default gateway, the primary and the
    secondary are the first, second and third address of the network, all
    three inside it; below 30 bits none of them is its broadcast address. *)
Theorem internalIPs_ipv4 (r : LoadBalancerConfigReconciler) (v b : Z)
  (Hr : ClusterNetwork r = PrefixFrom (AddrFrom4 v) b)
  (Hv : 0 ≤ v < 2 ^ 32) (Hb : 0 ≤ b ≤ 30) :
  let n := network4 v b in
  internalIPs r = Ok {| ii_ClusterNetwork := zeroPrefix;
                        DefaultGateway := AddrFrom4 (n + 1);
                        Primary := AddrFrom4 (n + 2);
                        Secondary := AddrFrom4 (n + 3) |}
  ∧ n ≤ v < n + 2 ^ (32 - b)
  ∧ n + 3 < n + 2 ^ (32 - b) ≤ 2 ^ 32
  ∧ (b ≤ 29 → n + 3 < n + 2 ^ (32 - b) - 1).
Proof.
  cbv zeta. destruct (network4_bounds v b) as (H1 & H2 & H3); [lia..|].
  assert (2 ^ 2 ≤ 2 ^ (32 - b)) by (apply Z.pow_le_mono_r; lia).
  change (2 ^ 2) with 4 in *. split_and!; [|lia..|].
  - unfold internalIPs. rewrite (netaddr_from4 r v b) by (done || lia).
    change (Is4 (AddrFrom4 (network4 v b))) with true. cbn [negb].
    rewrite !Next_from4 by lia. do 2 f_equal; f_equal; lia.
  - intros. assert (2 ^ 3 ≤ 2 ^ (32 - b)) by (apply Z.pow_le_mono_r; lia).
    change (2 ^ 3) with 8 in *. lia.
Qed.

(** On a network of that kind the two load balancers agree on the VRRP pair:
    what one node calls its own address the other calls its peer's, and the two
    addresses differ as text. *)
Theorem vrrp_pair (r : LoadBalancerConfigReconciler) (v b : Z) (ips : InternalIPs)
  (Hr : ClusterNetwork r = PrefixFrom (AddrFrom4 v) b)
  (Hv : 0 ≤ v < 2 ^ 32) (Hb : 0 ≤ b ≤ 30) (Hips : internalIPs r = Ok ips) (p : bool) :
  myInternalIP ips p = peerInternalIP ips (negb p)
  ∧ myInternalIP ips p ≠ peerInternalIP ips p.
Proof.
  destruct (network4_bounds v b) as (H1 & H2 & H3); [lia..|].
  assert (2 ^ 2 ≤ 2 ^ (32 - b)) by (apply Z.pow_le_mono_r; lia). change (2 ^ 2) with 4 in *.
  assert (ips = {| ii_ClusterNetwork := zeroPrefix;
    DefaultGateway := AddrFrom4 (network4 v b + 1); Primary := AddrFrom4 (network4 v b + 2);
    Secondary := AddrFrom4 (network4 v b + 3) |}) as ->.
  { revert Hips. unfold internalIPs. rewrite (netaddr_from4 r v b) by (done || lia).
    change (Is4 (AddrFrom4 (network4 v b))) with true. cbn [negb]. rewrite !Next_from4 by lia.
    intros [= <-]. f_equal; f_equal; lia. }
  assert (Addr_String (AddrFrom4 (network4 v b + 2)) ≠ Addr_String (AddrFrom4 (network4 v b + 3))).
  { unfold Addr_String. cbn [AddrFrom4 addr_z].
    change (mkAddr (v4_off + ?x) Z4mark) with (AddrFrom4 x).
    rewrite !v4_val_from by lia. intros E. apply (f_equal ParseAddr) in E.
    rewrite !parse_string4 in E by lia. injection E as E. lia. }
  unfold myInternalIP, peerInternalIP. cbn [Primary Secondary].
  destruct p; simpl; split; congruence.
Qed.

Lemma Prefix_family a b q : Addr_Prefix a b = Ok q → Is4 (pfx_ip q) = true → Is4 a = true.
Proof.
  unfold Addr_Prefix. case_match; [done|]. unfold Is4. destruct (addr_z a) eqn:E; [| |].
  - by intros [= <-].
  - done.
  - case_match; [done|]. by intros [= <-].
Qed.

(** A cluster network that is not IPv4 (IPv6 or invalid) is refused. *)
Lemma internalIPs_not_ipv4 (r : LoadBalancerConfigReconciler)
  (Hr : Is4 (pfx_ip (ClusterNetwork r)) = false) :
  internalIPs r = Err (Errorf "IPv6 cluster network isn't supported").
Proof.
  unfold internalIPs. destruct (Is4 (pfx_ip (Masked (ClusterNetwork r)))) eqn:E; [|done].
  unfold Masked in E. destruct (Addr_Prefix _ _) eqn:EP; [|done].
  apply Prefix_family in EP; [congruence|done].
Qed.
