(* ===== verification/Path.v ===== *)
(** * Go's [path/filepath] (Unix)

    [Clean], [Join], [Dir] and [Ext], and the facts the configuration files
    need: joining a file name below any root keeps its last element. *)

From S2P Require Import Prelude GoStrings.

(** ** Definitions *)

(** One path element against the stack of elements kept so far (innermost
    first): empty and dot elements vanish, dot-dot removes an element, or is
    kept at the front of a path that is not rooted. *)
Definition clean_step (rooted : bool) (st : list string) (w : string) : list string :=
  if bool_decide (w = "") || bool_decide (w = ".") then st
  else if bool_decide (w = "..") then
    match st with
    | [] => if rooted then [] else [".."]
    | t :: st' => if bool_decide (t = "..") then ".." :: st else st'
    end
  else w :: st.

Definition clean_stack (rooted : bool) (s : string) : list string :=
  fold_left (clean_step rooted) (split_on "/" s) [].

Definition is_rooted (s : string) : bool := match s with String "/" _ => true | _ => false end.

Definition Clean (s : string) : string :=
  let rooted := is_rooted s in
  match reverse (clean_stack rooted s) with
  | [] => if rooted then "/" else "."
  | l => (if rooted then "/" else "") +:+ join_with "/" l
  end.

(** [strings.Join(elem, "/")] of the elements from the first non-empty one. *)
Fixpoint Join (elem : list string) : string :=
  match elem with
  | [] => ""
  | "" :: elem => Join elem
  | _ => Clean (join_with "/" elem)
  end.

(** The text after the last slash. *)
Definition basename (s : string) : string :=
  match cut_last "/" s with Some (_, b) => b | None => s end.

Definition Dir (s : string) : string :=
  match cut_last "/" s with Some (d, _) => Clean (d +:+ "/") | None => Clean "" end.

Definition Ext (s : string) : string :=
  match cut_last "." (basename s) with Some (_, e) => "." +:+ e | None => "" end.

Example Join_ex : Join ["/"; "/etc/x.xml"] = "/etc/x.xml"
  ∧ Join [""; "/etc/x.xml"] = "/etc/x.xml"
  ∧ Join ["../a/./b/.."; "/etc//x.xml"] = "../a/etc/x.xml"
  ∧ Join ["config_templates"; ""; "t.tmpl"] = "config_templates/t.tmpl"
  ∧ Join ["config_templates"; "../.."; "t.tmpl"] = "../t.tmpl"
  ∧ Dir "/etc/x.xml" = "/etc" ∧ Dir "x" = "." ∧ Ext "/a.b/c" = "" ∧ Ext "/a.b/c.x.yz" = ".yz".
Proof. vm_compute. done. Qed.

(** ** The last element survives [Join] *)

(** An element that [Clean] keeps as it is. *)
Definition proper_name (w : string) : Prop :=
  w ≠ "" ∧ w ≠ "." ∧ w ≠ ".." ∧ str_has "/" w = false.

#[export] Instance proper_name_dec w : Decision (proper_name w).
Proof. unfold proper_name. apply _. Defined.

Lemma clean_step_proper rooted st w : proper_name w → clean_step rooted st w = w :: st.
Proof.
  intros (H1 & H2 & H3 & _). unfold clean_step. rewrite !bool_decide_eq_false_2 by done. done.
Qed.

Lemma split_on_snoc c s w : str_has c w = false →
  split_on c (s +:+ String c w) = split_on c s ++ [w].
Proof.
  intros Hw. induction s as [|a s IH].
  - simpl. rewrite decide_True by done. by rewrite split_on_free.
  - simpl. case_decide; simpl; rewrite IH; [done|].
    pose proof (split_on_ne c s). by destruct (split_on c s).
Qed.

Lemma join_with_snoc c l w : l ≠ [] → join_with c (l ++ [w]) = join_with c l +:+ String c w.
Proof.
  intros Hl. induction l as [|v l IH]; [done|]. destruct l as [|u l]; [done|].
  change (join_with c ((v :: u :: l) ++ [w])) with (v +:+ String c (join_with c ((u :: l) ++ [w]))).
  rewrite IH by done. change (join_with c (v :: u :: l)) with (v +:+ String c (join_with c (u :: l))).
  by rewrite str_app_assoc.
Qed.

Lemma is_rooted_snoc s w : is_rooted (s +:+ String "/" w) = is_rooted s || bool_decide (s = "").
Proof. destruct s as [|[[][][][][][][][]] s]; done. Qed.

Lemma clean_stack_snoc rooted s w : proper_name w →
  clean_stack rooted (s +:+ String "/" w) = w :: clean_stack rooted s.
Proof.
  intros Hw. unfold clean_stack. rewrite split_on_snoc by apply Hw.
  rewrite fold_left_app. simpl. by rewrite clean_step_proper.
Qed.

Lemma basename_free s : str_has "/" s = false → basename s = s.
Proof. intros H. unfold basename. by rewrite cut_last_free. Qed.

Lemma basename_app s w : str_has "/" w = false → basename (s +:+ String "/" w) = w.
Proof. intros H. unfold basename. by rewrite cut_last_app. Qed.

Lemma basename_Clean s w : proper_name w → basename (Clean (s +:+ String "/" w)) = w.
Proof.
  intros Hw. pose proof Hw as (_ & _ & _ & Hf). unfold Clean.
  rewrite clean_stack_snoc, reverse_cons by done.
  destruct (reverse (clean_stack (is_rooted (s +:+ String "/" w)) s)) as [|v l].
  - simpl. destruct (is_rooted _); [by apply (basename_app "")|by apply basename_free].
  - pose proof (join_with_snoc "/" (v :: l) w) as E.
    change ((v :: l) ++ [w]) with (v :: (l ++ [w])) in *. cbv beta match. rewrite E by done.
    rewrite <-str_app_assoc. by apply basename_app.
Qed.

(** Joining [f = d/w] below any root keeps the element [w]. *)
Lemma basename_Join root d w : proper_name w → basename (Join [root; d +:+ String "/" w]) = w.
Proof.
  intros Hw. destruct root as [|a root].
  - simpl. destruct (d +:+ String "/" w) eqn:E; [by destruct d|]. rewrite <-E.
    change (basename (Clean (d +:+ String "/" w)) = w). by apply basename_Clean.
  - change (basename (Clean (String a root +:+ String "/" (d +:+ String "/" w))) = w).
    rewrite <-str_app_cons, <-str_app_assoc. by apply basename_Clean.
Qed.

(** ** Appending an extension *)

Lemma cut_last_app_tail c s t : str_has c t = false →
  cut_last c (s +:+ t) = match cut_last c s with Some (l, r) => Some (l, r +:+ t) | None => None end.
Proof.
  intros Ht. induction s as [|a s IH]; simpl; [by apply cut_last_free|]. rewrite IH.
  destruct (cut_last c s) as [[]|]; [done|]. by case_decide.
Qed.

Lemma Dir_app s t : str_has "/" t = false → Dir (s +:+ t) = Dir s.
Proof. intros Ht. unfold Dir. rewrite cut_last_app_tail by done. by destruct (cut_last "/" s) as [[]|]. Qed.

Lemma basename_app_tail s t : str_has "/" t = false → basename (s +:+ t) = basename s +:+ t.
Proof.
  intros Ht. unfold basename. rewrite cut_last_app_tail by done.
  by destruct (cut_last "/" s) as [[]|].
Qed.
