(* ===== verification/Host.v ===== *)
(** * The host the program runs on, and the effects it has

    Everything outside the program that answers differently from call to call
    is a parameter ([Host]) indexed by the number of the call: the routing table
    (tailscale's [routetable]), the network interfaces, the Kubernetes client,
    command execution, and the failures of the file system.  The state ([World])
    holds what the program itself changes: files, directories, the custom
    resource it works on, and the log of commands run and statuses sent. *)

From S2P Require Import Prelude GoStrings Netip Types Path.

(** ** Interfaces to the outside *)

(** [routetable.RouteEntry] *)
Record RouteEntry : Type := { rt_Dst : Prefix; rt_Interface : string }.

(** [net.Interface] *)
Record NetInterface : Type := { if_Name : string; if_HardwareAddr : list Z }.

(** [net.HardwareAddr.String] *)
Definition HardwareAddr_String (a : list Z) : string := join_with ":" (hex_byte <$> a).

Inductive Syscall : Type :=
| SysReadFile (path : string)
| SysMkdirAll (path : string)
| SysOpenFile (path : string)
| SysWrite (path : string)
| SysClose (path : string).

Class Host : Type := {
  (** [routetable.Get(limit)] *)
  routetable_Get : nat → Z → result (list RouteEntry);
  (** [net.InterfaceByName] and [Interface.Addrs], each address as its text *)
  InterfaceByName : nat → string → result NetInterface;
  Interface_Addrs : nat → NetInterface → result (list string);
  (** whether a system call fails, and how much a failing write wrote *)
  os_fault : nat → Syscall → option error;
  os_short_write : nat → nat;
  umask : Z;
  (** [exec.Command(argv...).Run()] *)
  exec_Run : nat → list string → option error;
  (** the Kubernetes client *)
  client_Get_LoadBalancerConfig : nat → NamespacedName → result LoadBalancerConfig;
  client_Get_Secret : nat → NamespacedName → result Secret;
  client_Status_Update : nat → LoadBalancerConfig → option error;
  IsNotFound : error → bool;
  Selector : Type;
  LabelSelectorAsSelector : LabelSelector → result Selector;
  client_List_Nodes : nat → Selector → result (list Node);
  client_List_LoadBalancerConfigs : nat → result (list LoadBalancerConfig);
}.

(** [client.IgnoreNotFound] of a non-nil error *)
Definition IgnoreNotFound `{Host} (e : error) : option error :=
  if IsNotFound e then None else Some e.

(** The SHA-256 digest of a byte string as [%x] prints it.  The reconciler
    compares digests and relies on nothing else than that they are 64 digits
    long (a digest is never the empty string a missing map entry reads as). *)
Class Digest : Type := {
  sha256_hex : string → string;
  sha256_hex_length s : String.length (sha256_hex s) = 64%nat;
}.

Lemma sha256_hex_ne `{Digest} s : sha256_hex s ≠ "".
Proof. intros E. pose proof (sha256_hex_length s) as L. by rewrite E in L. Qed.

(** ** The state *)

Record File : Type := { f_content : string; f_mode : Z }.
#[export] Instance File_eq_dec : EqDecision File.
Proof. solve_decision. Defined.

Inductive Event : Type :=
| EvExec (argv : list string)
| EvStatusUpdate (c : LoadBalancerConfig).

Record World : Type := {
  w_tick : nat;
  w_files : gmap string File;
  w_dirs : gset string;
  w_lbc : LoadBalancerConfig;
  w_events : list Event;
}.

Abbreviation M := (ST World) (only parsing).

Definition set_tick (t : nat) (w : World) : World :=
  {| w_tick := t; w_files := w_files w; w_dirs := w_dirs w; w_lbc := w_lbc w;
     w_events := w_events w |}.
Definition set_files (f : gmap string File) (w : World) : World :=
  {| w_tick := w_tick w; w_files := f; w_dirs := w_dirs w; w_lbc := w_lbc w;
     w_events := w_events w |}.
Definition set_dirs (d : gset string) (w : World) : World :=
  {| w_tick := w_tick w; w_files := w_files w; w_dirs := d; w_lbc := w_lbc w;
     w_events := w_events w |}.
Definition set_lbc (c : LoadBalancerConfig) (w : World) : World :=
  {| w_tick := w_tick w; w_files := w_files w; w_dirs := w_dirs w; w_lbc := c;
     w_events := w_events w |}.
Definition add_event (e : Event) (w : World) : World :=
  {| w_tick := w_tick w; w_files := w_files w; w_dirs := w_dirs w; w_lbc := w_lbc w;
     w_events := w_events w ++ [e] |}.

(** The number of the call being made. *)
Definition tick : M nat := λ w, (Done (w_tick w), set_tick (S (w_tick w)) w).

Definition get_lbc : M LoadBalancerConfig := gets w_lbc.
Definition put_lbc (c : LoadBalancerConfig) : M unit := modify (set_lbc c).

(** ** Files *)

Definition empty_or_kept_mode (old : option File) (mode : Z) : Z :=
  match old with Some f => f_mode f | None => mode end.

Section os.
Context {HO : Host}.

(** [os.ReadFile] *)
Definition ReadFile (path : string) : M (result string) :=
  t ← tick;
  fs ← gets w_files;
  mret (match os_fault t (SysReadFile path) with
        | Some e => Err e
        | None =>
            match fs !! path with
            | Some f => Ok (f_content f)
            | None => Err (Errorf "no such file or directory")
            end
        end).

(** The path and its ancestors, as [os.MkdirAll] creates them. *)
Definition path_prefixes (s : string) : list string :=
  (λ n, match join_with "/" (take (S n) (split_on "/" s)) with "" => "/" | p => p end)
    <$> seq 0 (length (split_on "/" s)).

(** [os.MkdirAll(path, mode)] *)
Definition MkdirAll (path : string) : M (option error) :=
  t ← tick;
  match os_fault t (SysMkdirAll path) with
  | Some e => mret (Some e)
  | None =>
      modify (λ w, set_dirs (w_dirs w ∪ list_to_set (path :: path_prefixes path)) w);;
      mret None
  end.

(** [os.OpenFile(path, os.O_RDWR|os.O_CREATE|os.O_TRUNC, mode)]: the directory
    must exist; an existing file is emptied and keeps its mode, a new one gets
    [mode] less the umask. *)
Definition OpenFile (path : string) (mode : Z) : M (option error) :=
  t ← tick;
  w ← gets id;
  match os_fault t (SysOpenFile path) with
  | Some e => mret (Some e)
  | None =>
      if decide (Dir path ∈ w_dirs w) then
        modify (λ w, set_files (<[path := {|
          f_content := "";
          f_mode := empty_or_kept_mode (w_files w !! path) (Z.ldiff mode umask) |}]> (w_files w)) w);;
        mret None
      else mret (Some (Errorf "no such file or directory"))
  end.

(** [File.WriteString] on a file that was just opened: the bytes go to the end
    of what was written; a failing write leaves a prefix of them. *)
Definition WriteString (path s : string) : M (option error) :=
  t ← tick;
  let write s' := modify (λ w, set_files
    (alter (λ f, {| f_content := f_content f +:+ s'; f_mode := f_mode f |}) path (w_files w)) w) in
  match os_fault t (SysWrite path) with
  | Some e => write (String.substring 0 (os_short_write t) s);; mret (Some e)
  | None => write s;; mret None
  end.

(** [File.Close] *)
Definition Close (path : string) : M (option error) :=
  t ← tick; mret (os_fault t (SysClose path)).

(** [exec.Command(argv[0], argv[1:]...).Run()] *)
Definition Run (argv : list string) : M (option error) :=
  t ← tick;
  modify (add_event (EvExec argv));;
  mret (exec_Run t argv).

(** [r.Status().Update(ctx, &lbconfig)] *)
Definition Status_Update : M (option error) :=
  t ← tick;
  c ← get_lbc;
  modify (add_event (EvStatusUpdate c));;
  mret (client_Status_Update t c).

End os.

(** ** Quiet hosts *)

(** No system call fails. *)
Class NoFaults `{Host} : Prop := no_faults t sc : os_fault t sc = None.

(** The answers of the network, the routing table and the cluster do not change
    from call to call. *)
Class StableHost {HO : Host} : Prop := {
  stable_routes t t' n : routetable_Get t n = routetable_Get t' n;
  stable_iface t t' n : InterfaceByName t n = InterfaceByName t' n;
  stable_addrs t t' i : Interface_Addrs t i = Interface_Addrs t' i;
  stable_nodes t t' s : client_List_Nodes t s = client_List_Nodes t' s;
}.
