(* ===== verification/WriteConfig.v ===== *)
(** * Writing configuration files ([internal/controller/write_config.go],
    [CompareAndWrite] of [loadbalancerconfig_controller.go])

    A configuration file is written together with a digest file; the digest of
    the rendered data is kept in the custom resource's status.  [CompareAndWrite]
    writes when either digest says so. *)

From S2P Require Import Prelude GoStrings Path Types Netip Reconciler Host.

Local Open Scope Z_scope.

(** ** File names *)

Definition ConntrackdConfigFile : string := "/etc/conntrackd/conntrackd.conf".
Definition FloatyConfigFile : string := "/etc/floaty/global.yaml".
Definition HAProxyAPIConfigFile : string := "/etc/haproxy/conf.d/api.cfg".
Definition HAProxyIngressConfigFile : string := "/etc/haproxy/conf.d/ingress.cfg".
Definition KeepalivedConfigFile : string := "/etc/keepalived/conf.d/lb.conf".
Definition PublicNMConnectionFile : string :=
  "/etc/NetworkManager/system-connections/public.nmconnection".
Definition ClusterNetworkNMConnectionFile : string :=
  "/etc/NetworkManager/system-connections/cluster-net.nmconnection".
Definition KeepalivedDummyNMConnectionFile : string :=
  "/etc/NetworkManager/system-connections/keepalived.nmconnection".
Definition SysctlConfFile : string := "/etc/sysctl.d/50-lb.conf".
Definition FirewalldDirectFile : string := "/etc/firewalld/direct.xml".
Definition FirewalldExternalZone : string := "/etc/firewalld/zones/external.xml".

Definition fileHeader : string := "# Managed by bootc-loadbalancer-controller" +:+ nl.
Definition xmlFileHeader : string :=
  dq "<?xml version=`1.0` encoding=`utf-8`?>" +:+ nl +:+ nl
  +:+ "<!-- Managed by bootc-loadbalancer-controller -->" +:+ nl.
Definition digestExt : string := ".sha256".

(** ** Rendering the final contents *)

Definition stampYAML (namespace name uid : string) (generation : Z) : string :=
  "# Generated from LoadBalancerConfig " +:+ namespace +:+ "/" +:+ name
  +:+ " (UID " +:+ uid +:+ ", generation " +:+ itoa generation +:+ ")" +:+ nl +:+ nl.

Definition stampXML (namespace name uid : string) (generation : Z) : string :=
  "<!-- Generated from LoadBalancerConfig " +:+ namespace +:+ "/" +:+ name
  +:+ " (UID " +:+ uid +:+ ", generation " +:+ itoa generation +:+ ")-->" +:+ nl +:+ nl.

(** Writes to a [strings.Builder] do not fail, so neither does this function. *)
Definition RenderFinalConfig (cfgfilepath : string) (lbconfigMeta : ObjectMeta) (configdata : string)
    : result string :=
  let '(header, stamp) :=
    if decide (Ext cfgfilepath = ".xml") then (xmlFileHeader, stampXML)
    else (fileHeader, stampYAML) in
  Ok (header
      +:+ stamp (om_Namespace lbconfigMeta) (om_Name lbconfigMeta) (om_UID lbconfigMeta)
            (om_Generation lbconfigMeta)
      +:+ configdata).

Definition configfilePath (r : LoadBalancerConfigReconciler) (configfile : string) : string :=
  Join [ConfigRoot r; configfile].
Definition digestfilePath (r : LoadBalancerConfigReconciler) (configfile : string) : string :=
  configfilePath r configfile +:+ digestExt.

(** [if err := m; err != nil { return fmt.Errorf("msg: %w", err) }], then [k]. *)
Definition try (msg : string) (m k : M (option error)) : M (option error) :=
  e ← m;
  match e with
  | Some err => mret (Some (Wrapf msg err))
  | None => k
  end.

Section write.
Context {HO : Host} {DI : Digest}.

Definition WriteConfig (r : LoadBalancerConfigReconciler) (lbconfigMeta : ObjectMeta)
    (configfile configdata digestdata : string) (mode : Z) : M (option error) :=
  let mode := if mode =? 0 then 420 (* 0644 *) else mode in
  let cfgfilepath := configfilePath r configfile in
  let digestfilepath := digestfilePath r configfile in
  match RenderFinalConfig cfgfilepath lbconfigMeta configdata with
  | Err e => mret (Some (Wrapf "failed to render final file contents" e))
  | Ok cfgfilecontents =>
      try "failed to create director for config file" (MkdirAll (Dir cfgfilepath)) (
      try "failed to create or open config file" (OpenFile cfgfilepath mode) (
      try "failed to write config file" (WriteString cfgfilepath cfgfilecontents) (
      try "failed to close config file" (Close cfgfilepath) (
      try "failed to create or open config digest file" (OpenFile digestfilepath 420) (
      try "failed to write config file digest"
        (WriteString digestfilepath (sha256_hex cfgfilecontents)) (
      try "failed to close config digest file" (Close digestfilepath) (
      mret None)))))))
  end.

Definition IsFileModified (r : LoadBalancerConfigReconciler) (configfile : string) : M bool :=
  config ← ReadFile (configfilePath r configfile);
  match config with
  | Err _ => mret true
  | Ok config =>
      storeddigest ← ReadFile (digestfilePath r configfile);
      match storeddigest with
      | Err _ => mret true
      | Ok storeddigest => mret (negb (bool_decide (sha256_hex config = storeddigest)))
      end
  end.

Definition CompareAndWrite (r : LoadBalancerConfigReconciler) (configfile configdata : string)
    (mode : Z) : M (bool * option error) :=
  lbconfig ← get_lbc;
  match node_status (Hostname r) lbconfig with
  | None => panic "nil pointer dereference: nodeStatus.ConfigHashes"
  | Some nodeStatus =>
      let hashes := default ∅ (ConfigHashes nodeStatus) in
      let nodeStatus := set_ConfigHashes hashes nodeStatus in
      put_lbc (put_node_status (Hostname r) nodeStatus lbconfig);;
      let dataDigest := sha256_hex configdata in
      isDiskModified ← IsFileModified r configfile;
      if negb isDiskModified && bool_decide (default "" (hashes !! configfile) = dataDigest)
      then mret (false, None)
      else
        put_lbc (put_node_status (Hostname r)
          (set_ConfigHashes (<[configfile := dataDigest]> hashes) nodeStatus) lbconfig);;
        err ← WriteConfig r (lbc_Meta lbconfig) configfile configdata dataDigest mode;
        mret (true, err)
  end.

End write.
