(* ===== verification/HostFacts.v ===== *)
(** * Reasoning about effects

    How each system call runs, what it leaves alone ([touches]), and the rules
    for sequences of fallible calls. *)

From S2P Require Import Prelude GoStrings Path Types Netip Host WriteConfig.

Create HintDb host.

(** ** Running *)

Lemma run_bind {S A B : Type} (m : ST S A) (f : A → ST S B) s :
  (m ≫= f) s = match m s with (Done a, s') => f a s' | (Panic why, s') => (Panic why, s') end.
Proof. reflexivity. Qed.

Lemma run_bind_done {S A B : Type} (m : ST S A) (f : A → ST S B) s s' a :
  m s = (Done a, s') → (m ≫= f) s = f a s'.
Proof. rewrite run_bind. by intros ->. Qed.

(** Unfold the basic operations of the monad in a run. *)
Ltac mrun := unfold mbind, ST_bind, mret, ST_ret, tick, gets, modify, put_lbc, get_lbc; cbn.
Ltac mrun_in H := unfold mbind, ST_bind, mret, ST_ret, tick, gets, modify, put_lbc, get_lbc in H; cbn in H.

(** ** What a run leaves alone *)

(** Only the files of [S] change, no directory disappears, and neither the
    custom resource nor the event log is touched. *)
Definition touches (S : gset string) (w w' : World) : Prop :=
  (∀ p, p ∉ S → w_files w' !! p = w_files w !! p)
  ∧ w_lbc w' = w_lbc w ∧ w_events w' = w_events w ∧ w_dirs w ⊆ w_dirs w'.

#[export] Instance touches_preorder S : PreOrder (touches S).
Proof.
  split; [done|]. intros w1 w2 w3 (H1 & H2 & H3 & H4) (K1 & K2 & K3 & K4).
  split_and!; [|congruence..|set_solver]. intros p Hp. by rewrite K1, H1.
Qed.

Lemma touches_mono S S' w w' : S ⊆ S' → touches S w w' → touches S' w w'.
Proof. intros HS (H1 & H2). split; [|done]. intros p Hp. apply H1. set_solver. Qed.

(** [m] does not panic and relates its start and end by [R]. *)
Definition safe {A : Type} (R : World → World → Prop) (m : M A) : Prop :=
  ∀ w, ∃ a w', m w = (Done a, w') ∧ R w w'.

Lemma safe_ret {A : Type} (R : World → World → Prop) `{!Reflexive R} (a : A) : safe R (mret a : M A).
Proof. intros w. by exists a, w. Qed.

Lemma safe_bind {A B : Type} R `{!Transitive R} (m : M A) (f : A → M B) :
  safe R m → (∀ a, safe R (f a)) → safe R (m ≫= f).
Proof.
  intros Hm Hf w. destruct (Hm w) as (a & w1 & E1 & R1).
  destruct (Hf a w1) as (b & w2 & E2 & R2). exists b, w2.
  rewrite run_bind, E1. split; [done|by transitivity w1].
Qed.

Lemma safe_try R `{!PreOrder R} msg (m k : M (option error)) :
  safe R m → safe R k → safe R (try msg m k).
Proof. intros Hm Hk. apply safe_bind; [apply _|done|]. intros []; [apply safe_ret, _|done]. Qed.

Lemma try_ok msg (m k : M (option error)) w w' :
  try msg m k w = (Done None, w') → ∃ w1, m w = (Done None, w1) ∧ k w1 = (Done None, w').
Proof.
  unfold try. rewrite run_bind. destruct (m w) as [[[e|]|] w1]; [by mrun|by exists w1|done].
Qed.

Lemma try_run msg (m k : M (option error)) w w1 :
  m w = (Done None, w1) → try msg m k w = k w1.
Proof. unfold try. intros E. by rewrite run_bind, E. Qed.

Section os_facts.
Context {HO : Host}.

Lemma ReadFile_run p w : ReadFile p w =
  (Done (match os_fault (w_tick w) (SysReadFile p) with
         | Some e => Err e
         | None => match w_files w !! p with
                   | Some f => Ok (f_content f)
                   | None => Err (Errorf "no such file or directory")
                   end
         end), set_tick (S (w_tick w)) w).
Proof. reflexivity. Qed.

Lemma safe_ReadFile S p : safe (touches S) (ReadFile p).
Proof. intros w. eexists _, _. split; [apply ReadFile_run|done]. Qed.

Lemma MkdirAll_safe S p : safe (touches S) (MkdirAll p).
Proof.
  intros w. unfold MkdirAll. mrun. destruct (os_fault _ _); eexists _, _; (split; [done|]); [done|].
  split_and!; simpl; [done..|set_solver].
Qed.

Lemma MkdirAll_fails p w e : os_fault (w_tick w) (SysMkdirAll p) = Some e →
  MkdirAll p w = (Done (Some e), set_tick (S (w_tick w)) w).
Proof. intros E. unfold MkdirAll. mrun. by rewrite E. Qed.

Lemma MkdirAll_done p w : os_fault (w_tick w) (SysMkdirAll p) = None →
  ∃ w', MkdirAll p w = (Done None, w') ∧ p ∈ w_dirs w' ∧ w_files w' = w_files w
  ∧ w_lbc w' = w_lbc w ∧ w_tick w' = S (w_tick w).
Proof.
  intros E. unfold MkdirAll. mrun. rewrite E. mrun. eexists. split; [done|]. simpl.
  split_and!; [set_solver|done..].
Qed.

Lemma OpenFile_fails p m w e : os_fault (w_tick w) (SysOpenFile p) = Some e →
  OpenFile p m w = (Done (Some e), set_tick (S (w_tick w)) w).
Proof. intros E. unfold OpenFile. mrun. by rewrite E. Qed.

Lemma MkdirAll_ok p w w' : MkdirAll p w = (Done None, w') →
  p ∈ w_dirs w' ∧ w_files w' = w_files w.
Proof.
  unfold MkdirAll. mrun. destruct (os_fault _ _); [done|]. intros [= <-]. simpl. set_solver.
Qed.

Lemma OpenFile_safe (S : gset string) p m : p ∈ S → safe (touches S) (OpenFile p m).
Proof.
  intros Hp w. unfold OpenFile. mrun.
  destruct (os_fault _ _); [by eexists _, _|]. case_decide; [|by eexists _, _].
  eexists _, _. split; [done|]. split_and!; simpl; [|done..].
  intros q Hq. rewrite lookup_insert_ne; [done|]. by intros ->.
Qed.

(** The file an [OpenFile] leaves: emptied, with its old mode or the masked one. *)
Lemma OpenFile_ok p m w w' : OpenFile p m w = (Done None, w') →
  w_files w' = <[p := {| f_content := "";
    f_mode := empty_or_kept_mode (w_files w !! p) (Z.ldiff m umask) |}]> (w_files w)
  ∧ w_dirs w' = w_dirs w.
Proof.
  unfold OpenFile. mrun. destruct (os_fault _ _); [done|]. case_decide; [|done].
  by intros [= <-].
Qed.

Lemma alter_touches (S : gset string) p (f : File → File) w t :
  p ∈ S → touches S w (set_files (alter f p (w_files w)) (set_tick t w)).
Proof.
  intros Hp. split_and!; simpl; [|done..]. intros q Hq. rewrite lookup_alter_ne; [done|].
  by intros ->.
Qed.

Lemma WriteString_safe (S : gset string) p s : p ∈ S → safe (touches S) (WriteString p s).
Proof.
  intros Hp w. unfold WriteString. mrun.
  destruct (os_fault _ _); (eexists _, _; split; [done|]); by apply (alter_touches S p _ w).
Qed.

Lemma WriteString_ok p s w w' : WriteString p s w = (Done None, w') →
  w_files w' = alter (λ f, {| f_content := f_content f +:+ s; f_mode := f_mode f |}) p (w_files w)
  ∧ w_dirs w' = w_dirs w.
Proof.
  unfold WriteString. mrun. destruct (os_fault _ _); [done|]. by intros [= <-].
Qed.

Lemma Close_safe S p : safe (touches S) (Close p).
Proof. intros w. unfold Close. mrun. by eexists _, _. Qed.

Lemma Close_ok p w w' : Close p w = (Done None, w') → w_files w' = w_files w ∧ w_dirs w' = w_dirs w.
Proof. unfold Close. mrun. destruct (os_fault _ _); [done|]. by intros [= <-]. Qed.

(** ** Runs without faults *)

Section quiet.
Context {NF : NoFaults}.

Lemma MkdirAll_quiet p w : ∃ w', MkdirAll p w = (Done None, w') ∧ p ∈ w_dirs w'.
Proof. destruct (MkdirAll_done p w) as (w' & ? & ? & _); [apply no_faults|eauto]. Qed.

Lemma OpenFile_quiet p m w : Dir p ∈ w_dirs w → ∃ w', OpenFile p m w = (Done None, w').
Proof. intros Hd. unfold OpenFile. mrun. rewrite no_faults, decide_True by done. by eexists. Qed.

Lemma WriteString_quiet p s w : ∃ w', WriteString p s w = (Done None, w').
Proof. unfold WriteString. mrun. rewrite no_faults. by eexists. Qed.

Lemma Close_quiet p w : ∃ w', Close p w = (Done None, w').
Proof. unfold Close. mrun. rewrite no_faults. by eexists. Qed.

End quiet.
End os_facts.

#[export] Hint Resolve MkdirAll_safe OpenFile_safe WriteString_safe Close_safe safe_ReadFile : host.
