(* ===== verification/WriteFacts.v ===== *)
(** * Theorems about writing configuration files

    What a successful [WriteConfig] leaves on disk, when [IsFileModified]
    answers no, and the behaviour of [CompareAndWrite] on every branch,
    including the one that loses an update. *)

From S2P Require Import Prelude GoStrings Path Types Netip Reconciler Host WriteConfig HostFacts.

Local Open Scope Z_scope.

(** ** Paths *)

Lemma cfg_ne_digest r f : configfilePath r f ≠ digestfilePath r f.
Proof.
  unfold digestfilePath. intros E. apply (f_equal String.length) in E.
  rewrite str_length_app in E. simpl in E. lia.
Qed.

Lemma Dir_digest r f : Dir (digestfilePath r f) = Dir (configfilePath r f).
Proof. by apply Dir_app. Qed.

(** The two files that belong to one configuration file. *)
Definition paths (r : LoadBalancerConfigReconciler) (f : string) : gset string :=
  {[configfilePath r f; digestfilePath r f]}.

Section facts.
Context {HO : Host} {DI : Digest}.

(** ** The disk state of one configuration file *)

(** The file holds [content] and the digest file its digest. *)
Definition consistent (r : LoadBalancerConfigReconciler) (f content : string)
    (fs : gmap string File) : Prop :=
  (∃ md, fs !! configfilePath r f = Some {| f_content := content; f_mode := md |})
  ∧ ∃ md, fs !! digestfilePath r f = Some {| f_content := sha256_hex content; f_mode := md |}.

(** What a file with this data should hold: a header and a stamp, in the syntax of
    the file, and the data unchanged. *)
Definition final_content (r : LoadBalancerConfigReconciler) (f : string) (meta : ObjectMeta)
    (data : string) : string :=
  if decide (Ext (configfilePath r f) = ".xml") then
    xmlFileHeader
    +:+ stampXML (om_Namespace meta) (om_Name meta) (om_UID meta) (om_Generation meta) +:+ data
  else
    fileHeader
    +:+ stampYAML (om_Namespace meta) (om_Name meta) (om_UID meta) (om_Generation meta) +:+ data.

Lemma RenderFinalConfig_ok r f meta data :
  RenderFinalConfig (configfilePath r f) meta data = Ok (final_content r f meta data).
Proof. unfold final_content, RenderFinalConfig. by case_decide. Qed.

(** ** WriteConfig *)

(** The mode [WriteConfig] asks for. *)
Definition asked_mode (mode : Z) : Z := if mode =? 0 then 420 else mode.

(** The file table after both files were written. *)
Definition written (r : LoadBalancerConfigReconciler) (f content : string) (mode : Z)
    (fs : gmap string File) : gmap string File :=
  <[digestfilePath r f := {| f_content := sha256_hex content;
      f_mode := empty_or_kept_mode (fs !! digestfilePath r f) (Z.ldiff 420 umask) |}]>
  (<[configfilePath r f := {| f_content := content;
      f_mode := empty_or_kept_mode (fs !! configfilePath r f)
                  (Z.ldiff (asked_mode mode) umask) |}]> fs).

Lemma written_consistent r f content mode fs : consistent r f content (written r f content mode fs).
Proof.
  pose proof (cfg_ne_digest r f) as Hne. unfold consistent, written. split; eexists.
  - by rewrite lookup_insert_ne, lookup_insert_eq.
  - by rewrite lookup_insert_eq.
Qed.

Lemma WriteConfig_safe r meta f data dg mode :
  safe (touches (paths r f)) (WriteConfig r meta f data dg mode).
Proof.
  assert (configfilePath r f ∈ paths r f) by (unfold paths; set_solver).
  assert (digestfilePath r f ∈ paths r f) by (unfold paths; set_solver).
  unfold WriteConfig. rewrite RenderFinalConfig_ok.
  repeat (apply safe_try; [apply _|by eauto with host|]). apply safe_ret, _.
Qed.

Lemma WriteConfig_ok r meta f data dg mode w w' :
  WriteConfig r meta f data dg mode w = (Done None, w') →
  w_files w' = written r f (final_content r f meta data) mode (w_files w).
Proof.
  unfold WriteConfig. rewrite RenderFinalConfig_ok. pose proof (cfg_ne_digest r f) as Hne.
  intros (w1 & [_ E1]%MkdirAll_ok & H)%try_ok.
  apply try_ok in H as (w2 & [E2 _]%OpenFile_ok & H).
  apply try_ok in H as (w3 & [E3 _]%WriteString_ok & H).
  apply try_ok in H as (w4 & [E4 _]%Close_ok & H).
  apply try_ok in H as (w5 & [E5 _]%OpenFile_ok & H).
  apply try_ok in H as (w6 & [E6 _]%WriteString_ok & H).
  apply try_ok in H as (w7 & [E7 _]%Close_ok & [= <-]).
  rewrite E7, E6, E5, E4, E3, E2, E1. unfold written, asked_mode.
  rewrite !alter_insert_eq. simpl. rewrite lookup_insert_ne by done. reflexivity.
Qed.

Lemma WriteConfig_quiet `{!NoFaults} r meta f data dg mode w :
  ∃ w', WriteConfig r meta f data dg mode w = (Done None, w').
Proof.
  unfold WriteConfig. rewrite RenderFinalConfig_ok.
  destruct (MkdirAll_quiet (Dir (configfilePath r f)) w) as (w1 & E1 & Hd1).
  rewrite (try_run _ _ _ _ _ E1). clear E1.
  destruct (OpenFile_quiet (configfilePath r f) (if mode =? 0 then 420 else mode) w1) as [w2 E2];
    [done|]. rewrite (try_run _ _ _ _ _ E2).
  destruct (WriteString_quiet (configfilePath r f) (final_content r f meta data) w2) as [w3 E3].
  rewrite (try_run _ _ _ _ _ E3).
  destruct (Close_quiet (configfilePath r f) w3) as [w4 E4]. rewrite (try_run _ _ _ _ _ E4).
  apply OpenFile_ok in E2 as [_ E2]. apply WriteString_ok in E3 as [_ E3].
  apply Close_ok in E4 as [_ E4].
  destruct (OpenFile_quiet (digestfilePath r f) 420 w4) as [w5 E5].
  { rewrite Dir_digest. congruence. }
  rewrite (try_run _ _ _ _ _ E5).
  destruct (WriteString_quiet (digestfilePath r f) (sha256_hex (final_content r f meta data)) w5)
    as [w6 E6]. rewrite (try_run _ _ _ _ _ E6).
  destruct (Close_quiet (digestfilePath r f) w6) as [w7 E7]. rewrite (try_run _ _ _ _ _ E7).
  by exists w7.
Qed.

(** ** IsFileModified *)

(** Two worlds that differ in the number of calls made only. *)
Definition same_state (w w' : World) : Prop :=
  w_files w' = w_files w ∧ w_dirs w' = w_dirs w ∧ w_lbc w' = w_lbc w ∧ w_events w' = w_events w.

#[export] Instance same_state_preorder : PreOrder same_state.
Proof.
  split; [done|]. intros w1 w2 w3 (? & ? & ? & ?) (? & ? & ? & ?). split_and!; congruence.
Qed.

Lemma IsFileModified_safe r f : safe same_state (IsFileModified r f).
Proof.
  intros w. unfold IsFileModified. rewrite run_bind, ReadFile_run.
  destruct (match os_fault _ _ with Some _ => _ | None => _ end); [|by eexists _, _].
  rewrite run_bind, ReadFile_run.
  destruct (match os_fault _ _ with Some _ => _ | None => _ end); by eexists _, _.
Qed.

Lemma ReadFile_ok p w w' s : ReadFile p w = (Done (Ok s), w') →
  ∃ md, w_files w !! p = Some {| f_content := s; f_mode := md |}.
Proof.
  rewrite ReadFile_run. destruct (os_fault _ _); [done|].
  destruct (w_files w !! p) as [[c md]|]; [|done]. intros [= -> _]. by exists md.
Qed.

Lemma IsFileModified_false r f w w' :
  IsFileModified r f w = (Done false, w') → ∃ content, consistent r f content (w_files w).
Proof.
  unfold IsFileModified. rewrite run_bind.
  destruct (ReadFile (configfilePath r f) w) as [[[c|]|] w1] eqn:E1; [|done..].
  rewrite run_bind.
  destruct (ReadFile (digestfilePath r f) w1) as [[[d|]|] w2] eqn:E2; [|done..].
  intros [= Hd%negb_false_iff%bool_decide_eq_true _]. subst d. exists c.
  assert (w_files w1 = w_files w) as Ew.
  { rewrite ReadFile_run in E1. by injection E1 as _ <-. }
  apply ReadFile_ok in E1, E2. rewrite Ew in E2. by split.
Qed.

(** The two reads of [IsFileModified], made as calls [t] and [t+1], succeed. *)
Definition reads_ok (r : LoadBalancerConfigReconciler) (f : string) (t : nat) : Prop :=
  os_fault t (SysReadFile (configfilePath r f)) = None
  ∧ os_fault (S t) (SysReadFile (digestfilePath r f)) = None.

Lemma reads_ok_quiet `{!NoFaults} r f t : reads_ok r f t.
Proof. split; apply no_faults. Qed.

Lemma ReadFile_found p w f :
  os_fault (w_tick w) (SysReadFile p) = None → w_files w !! p = Some f →
  ReadFile p w = (Done (Ok (f_content f)), set_tick (S (w_tick w)) w).
Proof. intros E1 E2. by rewrite ReadFile_run, E1, E2. Qed.

Lemma IsFileModified_consistent r f content w :
  reads_ok r f (w_tick w) → consistent r f content (w_files w) →
  IsFileModified r f w = (Done false, set_tick (S (S (w_tick w))) w).
Proof.
  intros [R1 R2] [[md Hc] [md' Hd]]. unfold IsFileModified.
  rewrite run_bind, (ReadFile_found _ _ _ R1 Hc). rewrite run_bind.
  rewrite (ReadFile_found _ (set_tick (S (w_tick w)) w) _ R2 Hd). simpl.
  by rewrite bool_decide_eq_true_2.
Qed.

(** ** CompareAndWrite *)

Definition node_hashes (ns : LoadBalancerNodeStatus) : gmap string string :=
  default ∅ (ConfigHashes ns).

(** The digest the custom resource records for a file of this node. *)
Definition recorded (r : LoadBalancerConfigReconciler) (f : string) (c : LoadBalancerConfig)
    : option string :=
  ns ← node_status (Hostname r) c; node_hashes ns !! f.

(** The custom resource after the digest of [f] was recorded as [d]. *)
Definition record_hash (r : LoadBalancerConfigReconciler) (f d : string)
    (ns : LoadBalancerNodeStatus) (c : LoadBalancerConfig) : LoadBalancerConfig :=
  put_node_status (Hostname r) (set_ConfigHashes (<[f := d]> (node_hashes ns)) ns) c.

(** ... and after a nil map was replaced by an empty one. *)
Definition init_hashes (r : LoadBalancerConfigReconciler) (ns : LoadBalancerNodeStatus)
    (c : LoadBalancerConfig) : LoadBalancerConfig :=
  put_node_status (Hostname r) (set_ConfigHashes (node_hashes ns) ns) c.

Definition has_node (r : LoadBalancerConfigReconciler) (w : World) : Prop :=
  is_Some (node_status (Hostname r) (w_lbc w)).

Lemma recorded_record_hash r f g d ns c : node_status (Hostname r) c = Some ns →
  recorded r g (record_hash r f d ns c) = if decide (f = g) then Some d else recorded r g c.
Proof.
  intros E. unfold recorded, record_hash. rewrite (node_status_put _ _ _ _ E), E. simpl.
  unfold node_hashes at 1. simpl. by rewrite lookup_insert.
Qed.

Lemma recorded_init_hashes r g ns c : node_status (Hostname r) c = Some ns →
  recorded r g (init_hashes r ns c) = recorded r g c.
Proof.
  intros E. unfold recorded, init_hashes. by rewrite (node_status_put _ _ _ _ E), E.
Qed.

(** The two ways [CompareAndWrite] can go when the node has a status. *)
Inductive cmp_result (r : LoadBalancerConfigReconciler) (f data : string) (mode : Z)
    (ns : LoadBalancerNodeStatus) (w : World) : bool * option error → World → Prop :=
| cmp_skip w' content :
    consistent r f content (w_files w) →
    recorded r f (w_lbc w) = Some (sha256_hex data) →
    same_state (set_lbc (init_hashes r ns (w_lbc w)) w) w' →
    cmp_result r f data mode ns w (false, None) w'
| cmp_write w1 w' err :
    same_state (set_lbc (record_hash r f (sha256_hex data) ns (w_lbc w)) w) w1 →
    WriteConfig r (lbc_Meta (w_lbc w)) f data (sha256_hex data) mode w1 = (Done err, w') →
    cmp_result r f data mode ns w (true, err) w'.

Lemma CompareAndWrite_cases r f data mode ns w :
  node_status (Hostname r) (w_lbc w) = Some ns →
  ∃ res w', CompareAndWrite r f data mode w = (Done res, w') ∧ cmp_result r f data mode ns w res w'.
Proof.
  intros E. unfold CompareAndWrite. rewrite run_bind. change (get_lbc w) with (Done (w_lbc w), w).
  cbv beta iota. rewrite E. rewrite run_bind. unfold put_lbc at 1. unfold modify.
  rewrite run_bind. set (w0 := set_lbc _ w).
  destruct (IsFileModified_safe r f w0) as (b & w1 & E1 & Hs). rewrite E1.
  destruct (negb b && _) eqn:Ec.
  - eexists _, w1. split; [done|].
    apply andb_true_iff in Ec as [->%negb_true_iff Ec%bool_decide_eq_true].
    destruct (IsFileModified_false _ _ _ _ E1) as [content Hc].
    apply (cmp_skip _ _ _ _ _ _ _ content); [done| |done].
    unfold recorded. rewrite E. simpl. unfold node_hashes.
    destruct (default ∅ (ConfigHashes ns) !! f); simpl in Ec; [by rewrite Ec|].
    by destruct (sha256_hex_ne data).
  - rewrite run_bind. unfold put_lbc, modify. rewrite run_bind.
    set (w2 := set_lbc _ w1).
    destruct (WriteConfig_safe r (lbc_Meta (w_lbc w)) f data (sha256_hex data) mode w2)
      as (err & w3 & E3 & _). rewrite E3. eexists _, w3. split; [done|].
    apply (cmp_write _ _ _ _ _ _ w2); [|done].
    destruct Hs as (H1 & H2 & H3 & H4). split_and!; [done..| |done]. done.
Qed.

(** [CompareAndWrite] panics exactly when the custom resource has no status
    entry for this node (the pointer read from the map is nil). *)
Lemma CompareAndWrite_panics (r : LoadBalancerConfigReconciler) (f data : string) (mode : Z)
  (w : World) :
  (∃ why w', CompareAndWrite r f data mode w = (Panic why, w')) ↔
  node_status (Hostname r) (w_lbc w) = None.
Proof.
  split.
  - intros (why & w' & E). destruct (node_status (Hostname r) (w_lbc w)) as [ns|] eqn:En; [|done].
    destruct (CompareAndWrite_cases r f data mode ns w En) as (res & w1 & E1 & _). congruence.
  - intros E. unfold CompareAndWrite. rewrite run_bind. mrun. rewrite E. by eexists _, _.
Qed.

Lemma cmp_result_recorded r f data mode ns w res w' :
  node_status (Hostname r) (w_lbc w) = Some ns → cmp_result r f data mode ns w res w' →
  recorded r f (w_lbc w') = Some (sha256_hex data).
Proof.
  intros E [w1 content Hc Hr (_ & _ & Hl & _)|w1 w2 err (_ & _ & Hl & _) Hw].
  - rewrite Hl. simpl. by rewrite recorded_init_hashes.
  - pose proof (WriteConfig_safe r (lbc_Meta (w_lbc w)) f data (sha256_hex data) mode w1)
      as (a & w3 & E3 & (_ & Hl3 & _)). rewrite Hw in E3. injection E3 as <- <-.
    rewrite Hl3, Hl. simpl. rewrite recorded_record_hash by done. by rewrite decide_True.
Qed.

Lemma cmp_result_disk r f data mode ns w ch w' :
  cmp_result r f data mode ns w (ch, None) w' →
  if ch then w_files w' = written r f (final_content r f (lbc_Meta (w_lbc w)) data) mode (w_files w)
  else w_files w' = w_files w ∧ ∃ content, consistent r f content (w_files w).
Proof.
  inversion 1 as [w1 content Hc Hr (Hf & _)|w1 w2 err (Hf & _) Hw]; subst.
  - split; [done|]. by exists content.
  - apply WriteConfig_ok in Hw. rewrite Hw, Hf. done.
Qed.

(** [data] is what the node is configured with for [f]: the custom resource
    records its digest and the file on disk is the one its digest file was
    written for. *)
Definition in_sync (r : LoadBalancerConfigReconciler) (f data : string) (w : World) : Prop :=
  recorded r f (w_lbc w) = Some (sha256_hex data) ∧ ∃ content, consistent r f content (w_files w).

(** Of the files and of the custom resource only what belongs to the files of
    [F] changed: their paths, and their digests in this node's status. *)
Definition frame (r : LoadBalancerConfigReconciler) (F : gset string) (w w' : World) : Prop :=
  (∀ p, (∀ f, f ∈ F → p ∉ paths r f) → w_files w' !! p = w_files w !! p)
  ∧ (∀ g, g ∉ F → recorded r g (w_lbc w') = recorded r g (w_lbc w))
  ∧ (∀ host, host ≠ Hostname r → node_status host (w_lbc w') = node_status host (w_lbc w))
  ∧ (∀ ns, node_status (Hostname r) (w_lbc w) = Some ns →
       ∃ h, node_status (Hostname r) (w_lbc w') = Some (set_ConfigHashes h ns)
            ∨ w_lbc w' = w_lbc w)
  ∧ Spec (w_lbc w') = Spec (w_lbc w) ∧ lbc_Meta (w_lbc w') = lbc_Meta (w_lbc w)
  ∧ w_events w' = w_events w.

Lemma frame_refl r F w : frame r F w w.
Proof. split_and!; [done..| |done|done|done]. intros ns _. exists ∅. by right. Qed.

Lemma frame_trans r F1 F2 w1 w2 w3 : frame r F1 w1 w2 → frame r F2 w2 w3 → frame r (F1 ∪ F2) w1 w3.
Proof.
  intros (P1 & R1 & H1 & N1 & S1 & M1 & E1) (P2 & R2 & H2 & N2 & S2 & M2 & E2).
  split_and!; [| | | |congruence..].
  - intros p Hp. rewrite P2, P1; [done|set_solver..].
  - intros g Hg. rewrite R2, R1; [done|set_solver..].
  - intros host Hh. by rewrite H2, H1.
  - intros ns En. destruct (N1 ns En) as [h [E|E]].
    + destruct (N2 _ E) as [h' [E'|E']]; [by exists h'; left|]. exists h. left. by rewrite E'.
    + rewrite <-E in En. destruct (N2 ns En) as [h' [E'|E']]; [by exists h'; left|].
      exists ∅. right. congruence.
Qed.

Lemma frame_tick r F w t : frame r F w (set_tick t w).
Proof. apply (frame_refl r F w). Qed.

Lemma frame_has_node r F w w' : frame r F w w' → has_node r w → has_node r w'.
Proof.
  intros (_ & _ & _ & N & _) [ns E]. unfold has_node. destruct (N ns E) as [h [E'|E']].
  - rewrite E'. by eexists.
  - rewrite E', E. by eexists.
Qed.

Lemma cmp_result_frame r f data mode ns w res w' :
  node_status (Hostname r) (w_lbc w) = Some ns → cmp_result r f data mode ns w res w' →
  frame r {[f]} w w'.
Proof.
  intros En [w1 content _ _ (Hf & _ & Hl & Hev)|w1 w2 err (Hf & _ & Hl & Hev) Hw].
  - simpl in *. unfold frame. rewrite Hf, Hl, Hev. unfold init_hashes. autorewrite with lbc.
    split_and!; [done| |by intros; rewrite node_status_put_ne| |done..].
    + intros. by apply recorded_init_hashes.
    + intros ns' E'. rewrite En in E'. injection E' as <-. eexists. left.
      by rewrite (node_status_put _ _ _ _ En).
  - destruct (WriteConfig_safe r (lbc_Meta (w_lbc w)) f data (sha256_hex data) mode w1)
      as (a & w3 & E3 & (Hf3 & Hl3 & He3 & _)). rewrite Hw in E3. injection E3 as _ <-.
    unfold frame. rewrite Hl3, Hl, He3, Hev. simpl in *. unfold record_hash. autorewrite with lbc.
    split_and!; [|  |by intros; rewrite node_status_put_ne| |done..].
    + intros p Hp. rewrite Hf3, Hf; [done|]. set_solver.
    + intros g Hg. change (put_node_status _ _ _) with (record_hash r f (sha256_hex data) ns (w_lbc w)).
      rewrite recorded_record_hash by done. rewrite decide_False; [done|]. set_solver.
    + intros ns' E'. rewrite En in E'. injection E' as <-. eexists. left.
      by rewrite (node_status_put _ _ _ _ En).
Qed.

Lemma CompareAndWrite_done_node r f data mode w res w' :
  CompareAndWrite r f data mode w = (Done res, w') → has_node r w.
Proof.
  intros Hrun. unfold has_node. destruct (node_status (Hostname r) (w_lbc w)) as [ns|] eqn:En; [by eexists|].
  revert Hrun. unfold CompareAndWrite. rewrite run_bind. mrun. by rewrite En.
Qed.

Lemma CompareAndWrite_inv r f data mode w res w' :
  CompareAndWrite r f data mode w = (Done res, w') →
  ∃ ns, node_status (Hostname r) (w_lbc w) = Some ns ∧ cmp_result r f data mode ns w res w'.
Proof.
  intros Hrun. destruct (CompareAndWrite_done_node _ _ _ _ _ _ _ Hrun) as [ns En]. exists ns.
  destruct (CompareAndWrite_cases r f data mode ns w En) as (res' & w1 & E1 & Hc).
  rewrite Hrun in E1. injection E1 as <- <-. done.
Qed.

Lemma CompareAndWrite_frame_of r f data mode w res w' :
  CompareAndWrite r f data mode w = (Done res, w') → frame r {[f]} w w'.
Proof. intros (ns & En & Hc)%CompareAndWrite_inv. by eapply cmp_result_frame. Qed.

Lemma CompareAndWrite_sync r f data mode w ch w' :
  CompareAndWrite r f data mode w = (Done (ch, None), w') → in_sync r f data w'.
Proof.
  intros (ns & En & Hc)%CompareAndWrite_inv. split; [by eapply cmp_result_recorded|].
  apply cmp_result_disk in Hc. destruct ch.
  - rewrite Hc. eexists. apply written_consistent.
  - destruct Hc as [Ef Hc]. by rewrite Ef.
Qed.

(** C13: when [CompareAndWrite] reports no error the file is in sync with the
    rendered data: a rewritten file holds the header, the stamp of the current
    custom resource and the data, next to its digest, under the requested mode
    unless it existed before; a file that was not rewritten is untouched. *)
Theorem CompareAndWrite_success (r : LoadBalancerConfigReconciler) (f data : string) (mode : Z)
  (w w' : World) (ch : bool)
  (Hrun : CompareAndWrite r f data mode w = (Done (ch, None), w')) :
  in_sync r f data w'
  ∧ w_files w' = if ch then written r f (final_content r f (lbc_Meta (w_lbc w)) data) mode (w_files w)
                 else w_files w.
Proof.
  split; [by apply (CompareAndWrite_sync _ _ _ _ _ _ _ Hrun)|].
  apply CompareAndWrite_inv in Hrun as (ns & _ & Hc%cmp_result_disk).
  destruct ch; [done|]. by destruct Hc.
Qed.

Lemma CompareAndWrite_skips r f data mode w :
  in_sync r f data w → reads_ok r f (w_tick w) →
  ∃ w', CompareAndWrite r f data mode w = (Done (false, None), w') ∧ same_state w w'.
Proof.
  intros [Hr [content Hc]] Hok. unfold recorded in Hr.
  destruct (node_status (Hostname r) (w_lbc w)) as [ns|] eqn:En; [|done]. simpl in Hr.
  unfold CompareAndWrite. rewrite run_bind. change (get_lbc w) with (Done (w_lbc w), w).
  cbv beta iota. rewrite En, run_bind. unfold put_lbc at 1. unfold modify. rewrite run_bind.
  rewrite (IsFileModified_consistent r f content) by done. cbn [negb andb].
  unfold node_hashes in Hr. rewrite Hr. rewrite bool_decide_eq_true_2 by done.
  eexists. split; [done|]. split_and!; [done..| |done]. simpl. rewrite put_node_status_id; [done|].
  rewrite En. f_equal. unfold set_ConfigHashes. destruct ns as [? ? ? [h|] ?]; [done|]. by simpl in Hr.
Qed.

(** On a host whose system calls succeed, a file that is in sync is left
    alone: the next [CompareAndWrite] with the same data reports no change. *)
Theorem CompareAndWrite_idempotent (NF : NoFaults) (r : LoadBalancerConfigReconciler)
  (f data : string) (mode : Z) (w : World) (Hs : in_sync r f data w) :
  ∃ w', CompareAndWrite r f data mode w = (Done (false, None), w') ∧ same_state w w'.
Proof. apply CompareAndWrite_skips; [done|apply reads_ok_quiet]. Qed.

(** C14: a file that was edited, truncated or removed behind the controller's
    back, or whose digest file was, is rewritten whatever the custom resource
    records. *)
Theorem CompareAndWrite_repairs (NF : NoFaults) (r : LoadBalancerConfigReconciler)
  (f data : string) (mode : Z) (w : World)
  (Hnode : is_Some (node_status (Hostname r) (w_lbc w)))
  (Hbad : ∀ content, ¬ consistent r f content (w_files w)) :
  ∃ w', CompareAndWrite r f data mode w = (Done (true, None), w')
  ∧ w_files w' = written r f (final_content r f (lbc_Meta (w_lbc w)) data) mode (w_files w)
  ∧ in_sync r f data w'.
Proof.
  destruct Hnode as [ns En]. destruct (CompareAndWrite_cases r f data mode ns w En)
    as (res & w1 & E1 & Hc). pose proof (cmp_result_recorded _ _ _ _ _ _ _ _ En Hc) as Hrec.
  destruct Hc as [w2 content Hcons|w2 w3 err Hs Hw].
  - by destruct (Hbad content).
  - destruct (WriteConfig_quiet r (lbc_Meta (w_lbc w)) f data (sha256_hex data) mode w2) as [w4 E4].
    rewrite Hw in E4. injection E4 as -> <-. apply WriteConfig_ok in Hw.
    destruct Hs as (Hf & _). simpl in Hf. rewrite Hf in Hw. exists w3. split; [done|].
    split; [done|]. split; [done|]. rewrite Hw. eexists. apply written_consistent.
Qed.

(** C15: [CompareAndWrite] is local: it changes no file but the configuration
    file and its digest file, records no digest but that file's, leaves the
    status of every other node, the spec and the metadata alone, runs no
    command and sends no status. *)
Theorem CompareAndWrite_frame (r : LoadBalancerConfigReconciler) (f data : string) (mode : Z)
  (w w' : World) (res : bool * option error)
  (Hrun : CompareAndWrite r f data mode w = (Done res, w')) :
  (∀ p, p ∉ paths r f → w_files w' !! p = w_files w !! p)
  ∧ (∀ g, g ≠ f → recorded r g (w_lbc w') = recorded r g (w_lbc w))
  ∧ (∀ host, host ≠ Hostname r → node_status host (w_lbc w') = node_status host (w_lbc w))
  ∧ Spec (w_lbc w') = Spec (w_lbc w) ∧ lbc_Meta (w_lbc w') = lbc_Meta (w_lbc w)
  ∧ w_events w' = w_events w.
Proof.
  destruct (CompareAndWrite_frame_of _ _ _ _ _ _ _ Hrun) as (P & R & H & _ & HS & HM & HE).
  split_and!; [intros p Hp; apply P; set_solver|intros g Hg; apply R; set_solver|done..].
Qed.

(** The first system call of [WriteConfig] that can fail without changing the
    file fails, as call [t]: creating the directory, or opening the file. *)
Definition write_refused (r : LoadBalancerConfigReconciler) (f : string) (t : nat) : Prop :=
  is_Some (os_fault t (SysMkdirAll (Dir (configfilePath r f))))
  ∨ os_fault t (SysMkdirAll (Dir (configfilePath r f))) = None
    ∧ is_Some (os_fault (S t) (SysOpenFile (configfilePath r f))).

Lemma WriteConfig_refused r meta f data dg mode w : write_refused r f (w_tick w) →
  ∃ e w', WriteConfig r meta f data dg mode w = (Done (Some e), w')
  ∧ w_files w' = w_files w ∧ w_lbc w' = w_lbc w.
Proof.
  unfold WriteConfig. rewrite RenderFinalConfig_ok. intros [[e He]|[Hm [e He]]].
  - unfold try at 1. rewrite run_bind, (MkdirAll_fails _ _ _ He). by eexists _, _.
  - destruct (MkdirAll_done _ _ Hm) as (w1 & E1 & _ & Hf & Hl & Ht).
    rewrite (try_run _ _ _ _ _ E1). unfold try at 1. rewrite run_bind.
    rewrite <-Ht in He. rewrite (OpenFile_fails _ _ _ _ He). by eexists _, _.
Qed.

(** C38 (a lost update): the digest is recorded before the file is written, so
    when the write is refused over an intact older file, the file keeps its old
    contents, the call reports the error, and yet the file now counts as in
    sync: the next call with the same data skips it and reports success. *)
Theorem CompareAndWrite_lost_update (r : LoadBalancerConfigReconciler) (f data old : string)
  (mode : Z) (w : World)
  (Hnode : is_Some (node_status (Hostname r) (w_lbc w)))
  (Hold : consistent r f old (w_files w))
  (Hnew : recorded r f (w_lbc w) ≠ Some (sha256_hex data))
  (Hread : reads_ok r f (w_tick w))
  (Hfail : write_refused r f (S (S (w_tick w)))) :
  ∃ e w1, CompareAndWrite r f data mode w = (Done (true, Some e), w1)
  ∧ w_files w1 = w_files w
  ∧ in_sync r f data w1
  ∧ (reads_ok r f (w_tick w1) →
     ∃ w2, CompareAndWrite r f data mode w1 = (Done (false, None), w2) ∧ w_files w2 = w_files w).
Proof.
  destruct Hnode as [ns En]. unfold CompareAndWrite at 1. rewrite run_bind.
  change (get_lbc w) with (Done (w_lbc w), w). cbv beta iota. rewrite En.
  rewrite run_bind. unfold put_lbc at 1. unfold modify. rewrite run_bind.
  rewrite (IsFileModified_consistent r f old) by done. cbn [negb andb].
  rewrite bool_decide_eq_false_2.
  2: { intros E. apply Hnew. unfold recorded. rewrite En. simpl. unfold node_hashes.
       destruct (default ∅ (ConfigHashes ns) !! f); simpl in E; [by rewrite E|].
       by destruct (sha256_hex_ne data). }
  rewrite run_bind. unfold put_lbc, modify. rewrite run_bind.
  match goal with |- context [WriteConfig r ?m f data ?d mode ?w2] =>
    destruct (WriteConfig_refused r m f data d mode w2 Hfail) as (e & w1 & E1 & Hf1 & Hl1) end.
  exists e, w1. rewrite E1. simpl in Hf1, Hl1.
  assert (in_sync r f data w1) as Hsync.
  { split; [|rewrite Hf1; by exists old]. rewrite Hl1.
    change (put_node_status _ _ _) with (record_hash r f (sha256_hex data) ns (w_lbc w)).
    rewrite recorded_record_hash by done. by rewrite decide_True. }
  split_and!; [done..|]. intros Hok.
  destruct (CompareAndWrite_skips r f data mode w1 Hsync Hok) as (w2 & E2 & (Hf2 & _)).
  exists w2. split; [done|]. by rewrite Hf2.
Qed.

End facts.
