(* ===== verification/FileNames.v ===== *)
(** * The managed files

    Below any configuration root the eleven configuration files and their digest
    files are pairwise different, and the XML header goes to the XML files. *)

From S2P Require Import Prelude GoStrings Path Types Netip Reconciler Host WriteConfig WriteFacts.

Definition managed_files : list string := [
  HAProxyAPIConfigFile; HAProxyIngressConfigFile; KeepalivedConfigFile; FloatyConfigFile;
  ConntrackdConfigFile; PublicNMConnectionFile; ClusterNetworkNMConnectionFile;
  KeepalivedDummyNMConnectionFile; SysctlConfFile; FirewalldExternalZone; FirewalldDirectFile].

(** [f] ends in the proper element [basename f]. *)
Definition well_named (f : string) : Prop :=
  proper_name (basename f) ∧ cut_last "/" f = Some (Dir f, basename f).

#[export] Instance well_named_dec f : Decision (well_named f).
Proof. unfold well_named. apply _. Defined.

Lemma managed_well_named f : f ∈ managed_files → well_named f.
Proof.
  assert (Forall well_named managed_files) as H by (apply (bool_decide_unpack _); vm_compute; done).
  rewrite Forall_forall in H. apply H.
Qed.

Lemma basename_config r f : well_named f → basename (configfilePath r f) = basename f.
Proof.
  intros [Hp [E _]%cut_last_Some]. unfold configfilePath. rewrite E at 1. by apply basename_Join.
Qed.

Lemma basename_digest r f : well_named f →
  basename (digestfilePath r f) = basename f +:+ digestExt.
Proof.
  intros H. unfold digestfilePath. rewrite basename_app_tail by done. by rewrite basename_config.
Qed.

(** Base names that tell the managed files and their digest files apart. *)
Lemma managed_basenames f g : f ∈ managed_files → g ∈ managed_files →
  basename f ≠ basename g +:+ digestExt ∧ (basename f = basename g → f = g).
Proof.
  assert (Forall (λ f, Forall (λ g, basename f ≠ basename g +:+ digestExt
    ∧ (basename f = basename g → f = g)) managed_files) managed_files) as H
    by (apply (bool_decide_unpack _); vm_compute; done).
  intros Hf Hg. rewrite Forall_forall in H. specialize (H f Hf).
  rewrite Forall_forall in H. by apply H.
Qed.

Lemma managed_paths_apart r f g : f ∈ managed_files → g ∈ managed_files → f ≠ g →
  paths r f ## paths r g.
Proof.
  intros Hf Hg Hne.
  pose proof (managed_basenames f g Hf Hg) as [H1 H2].
  pose proof (managed_basenames g f Hg Hf) as [H3 _].
  pose proof (basename_config r f (managed_well_named f Hf)) as Ef.
  pose proof (basename_config r g (managed_well_named g Hg)) as Eg.
  pose proof (basename_digest r f (managed_well_named f Hf)) as Df.
  pose proof (basename_digest r g (managed_well_named g Hg)) as Dg.
  intros p. unfold paths. rewrite !elem_of_union, !elem_of_singleton.
  intros [-> | ->] [E | E]; apply (f_equal basename) in E.
  - apply Hne, H2. congruence.
  - apply H1. congruence.
  - apply H3. congruence.
  - rewrite Df, Dg in E. apply Hne, H2. by apply str_app_inv_tail in E.
Qed.

Lemma in_sync_frame {HO : Host} {DI : Digest} r (F : gset string) f data w w' :
  f ∈ managed_files → (∀ g, g ∈ F → g ∈ managed_files) → f ∉ F →
  frame r F w w' → in_sync r f data w → in_sync r f data w'.
Proof.
  intros Hf HF Hn (Hp & Hr & _) [H1 [content [[m1 C1] [m2 C2]]]]. split; [by rewrite Hr|].
  exists content. assert (∀ g, g ∈ F → paths r f ## paths r g) as Hd.
  { intros g Hg. apply managed_paths_apart; [done|by apply HF|set_solver]. }
  split; eexists; (rewrite Hp; [done|]); intros g Hg; specialize (Hd g Hg); unfold paths in *; set_solver.
Qed.

(** C29: below any configuration root, two different managed files share
    neither their path nor their digest file's path, so writing one never
    disturbs the other: what was in sync stays so. *)
Theorem managed_paths_disjoint {HO : Host} {DI : Digest} (r : LoadBalancerConfigReconciler)
  (f g : string) (Hf : f ∈ managed_files) (Hg : g ∈ managed_files) (Hne : f ≠ g) :
  paths r f ## paths r g
  ∧ ∀ (data data' : string) (mode : Z) (w w' : World) (res : bool * option error),
      CompareAndWrite r g data' mode w = (Done res, w') →
      in_sync r f data w → in_sync r f data w'.
Proof.
  split; [by apply managed_paths_apart|]. intros data data' mode w w' res Hrun.
  apply CompareAndWrite_frame_of in Hrun as Hfr. apply (in_sync_frame r {[g]}); set_solver.
Qed.

(** Whatever the configuration root, the file contents start with the XML
    prologue for the two firewalld files and with the comment header for all
    others, and they always end with the rendered data. *)
Theorem header_by_extension (r : LoadBalancerConfigReconciler) (f : string) (meta : ObjectMeta)
  (data : string) (Hf : f ∈ managed_files) :
  RenderFinalConfig (configfilePath r f) meta data = Ok (
    if decide (f = FirewalldDirectFile ∨ f = FirewalldExternalZone)
    then xmlFileHeader +:+ stampXML (om_Namespace meta) (om_Name meta) (om_UID meta)
           (om_Generation meta) +:+ data
    else fileHeader +:+ stampYAML (om_Namespace meta) (om_Name meta) (om_UID meta)
           (om_Generation meta) +:+ data).
Proof.
  assert (Forall (λ f, Ext f = ".xml" ↔ f = FirewalldDirectFile ∨ f = FirewalldExternalZone)
    managed_files) as H by (apply (bool_decide_unpack _); vm_compute; done).
  rewrite Forall_forall in H. specialize (H f Hf).
  assert (Ext (configfilePath r f) = Ext f) as E.
  { unfold Ext. by rewrite (basename_config r f (managed_well_named f Hf)). }
  unfold RenderFinalConfig. rewrite E.
  destruct (decide (Ext f = ".xml")); destruct (decide (f = _ ∨ _)); tauto || reflexivity.
Qed.
