(* ===== verification/Service.v ===== *)
(** * Node services ([internal/controller/service.go])

    The services the controller reloads or restarts, and the command that does
    it. *)

From S2P Require Import Prelude GoStrings Types Netip Path Host.

Definition NodeService : Type := string.

Definition HAProxy : NodeService := "haproxy".
Definition KeepalivedService : NodeService := "keepalived".
Definition Conntrackd : NodeService := "conntrackd".
Definition NetworkManager : NodeService := "networkmanager".
Definition Sysctl : NodeService := "sysctl".
Definition Firewalld : NodeService := "firewalld".

Definition ReloadCommand (s : NodeService) : result string :=
  if decide (s = HAProxy) then Ok "systemctl reload haproxy"
  else if decide (s = KeepalivedService) then Ok "systemctl reload keepalived"
  else if decide (s = Conntrackd) then Ok "systemctl restart conntrackd"
  else if decide (s = NetworkManager) then Ok "nmcli connection reload"
  else if decide (s = Sysctl) then Ok "sysctl --system"
  else if decide (s = Firewalld) then Ok "firewall-cmd --reload"
  else Err (Errorf "missing reload/restart command").

Definition Reload {HO : Host} (s : NodeService) : M (option error) :=
  match ReloadCommand s with
  | Err err => mret (Some err)
  | Ok commandString =>
      err ← Run (split_on " " commandString);
      match err with
      | Some err => mret (Some (Wrapf "restart/reload failed" err))
      | None => mret None
      end
  end.

(** The services the program knows. *)
Definition services : list NodeService :=
  [HAProxy; KeepalivedService; Conntrackd; NetworkManager; Sysctl; Firewalld].

(** Each has a command, whose words are the program and its arguments. *)
Lemma ReloadCommand_known s : s ∈ services → ∃ cmd, ReloadCommand s = Ok cmd.
Proof.
  assert (Forall (λ s, is_ok (ReloadCommand s) = true) services) as H
    by (apply (bool_decide_unpack _); vm_compute; done).
  rewrite Forall_forall in H. intros Hs. specialize (H s Hs).
  destruct (ReloadCommand s); [eauto|done].
Qed.

(** The command line of a service that has one. *)
Definition reload_argv (s : NodeService) : list string :=
  match ReloadCommand s with Ok cmd => split_on " " cmd | Err _ => [] end.

Lemma Reload_run {HO : Host} s w : s ∈ services →
  Reload s w = (Done (Wrapf "restart/reload failed" <$> exec_Run (w_tick w) (reload_argv s)),
    add_event (EvExec (reload_argv s)) (set_tick (S (w_tick w)) w)).
Proof.
  intros Hs. destruct (ReloadCommand_known s Hs) as [cmd E]. unfold Reload, reload_argv.
  rewrite E. unfold Run, mbind, ST_bind, tick, modify, mret, ST_ret. by destruct (exec_Run _ _).
Qed.
