(* ===== verification/Network.v ===== *)
(** * Routes and interfaces ([internal/controller/network.go])

    Finding the cluster network's interface in the routing table, and the MAC
    and first IPv4 address of an interface. *)

From S2P Require Import Prelude GoStrings Order Netip NetipText Types Path Reconciler Host.

Local Open Scope Z_scope.

(** The loop over the routes stops at the first whose destination is [net]. *)
Fixpoint find_route (net : Prefix) (routes : list RouteEntry) : string :=
  match routes with
  | [] => ""
  | rt :: routes =>
      match Prefix_compare (rt_Dst rt) net with
      | Eq => rt_Interface rt
      | _ => find_route net routes
      end
  end.

(** The loop over the addresses of an interface: IPv6 addresses are skipped, an
    address that does not parse ends it, and the first IPv4 address is taken
    whose length is that of [ifaceNet], if one is given. *)
Fixpoint find_primary (ifaceNet : option Prefix) (addrs : list string) : result string :=
  match addrs with
  | [] => Ok ""
  | addr :: addrs =>
      let '(ip, err) :=
        match ParsePrefix addr with Ok ip => (ip, None) | Err e => (zeroPrefix, Some e) end in
      if Is6 (pfx_ip ip) then find_primary ifaceNet addrs
      else match err with
           | Some e => Err (Wrapf "failed to parse IP" e)
           | None =>
               match ifaceNet with
               | Some n =>
                   if Bits ip =? Bits n then Ok (Prefix_String ip)
                   else find_primary ifaceNet addrs
               | None => Ok (Prefix_String ip)
               end
           end
  end.

Section network.
Context {HO : Host}.

Definition ClusterNetworkInterface (r : LoadBalancerConfigReconciler) : M (result string) :=
  t ← tick;
  match routetable_Get t 200 with
  | Err e => mret (Err (Wrapf "failed to list system routes" e))
  | Ok routes =>
      let clusterIface := find_route (ClusterNetwork r) routes in
      if bool_decide (clusterIface = "")
      then mret (Err (Errorf "failed to find interface for cluster network"))
      else mret (Ok clusterIface)
  end.

Definition macAddressForInterface (interfaceName : string) : M (result string) :=
  t ← tick;
  match InterfaceByName t interfaceName with
  | Err e => mret (Err (Wrapf "unable to find interface" e))
  | Ok iface => mret (Ok (HardwareAddr_String (if_HardwareAddr iface)))
  end.

Definition primaryIPAddressForInterface (interfaceName : string) (ifaceNet : option Prefix)
    : M (result string) :=
  t ← tick;
  match InterfaceByName t interfaceName with
  | Err e => mret (Err (Wrapf "unable to find interface" e))
  | Ok iface =>
      t' ← tick;
      match Interface_Addrs t' iface with
      | Err e => mret (Err (Wrapf "failed to get addresses for interface" e))
      | Ok addrs =>
          if (length addrs =? 0)%nat then mret (Err (Errorf "interface has no addresses"))
          else
            mret (match find_primary ifaceNet addrs with
                  | Err e => Err e
                  | Ok primaryIP =>
                      if bool_decide (primaryIP = "")
                      then Err (Errorf "didn't find an IP which matches interface network prefix length")
                      else Ok primaryIP
                  end)
      end
  end.

End network.

(** ** Facts *)

(** [find_route] looks at the first route to [net] only. *)
Lemma find_route_spec net routes :
  find_route net routes =
  match head (filter (λ rt, rt_Dst rt = net) routes) with
  | Some rt => rt_Interface rt
  | None => ""
  end.
Proof.
  induction routes as [|rt routes IH]; [done|]. simpl. rewrite filter_cons.
  destruct (Prefix_compare (rt_Dst rt) net) eqn:E.
  - apply Prefix_compare_eq in E. by rewrite decide_True.
  - rewrite decide_False; [done|]. intros H%Prefix_compare_eq. congruence.
  - rewrite decide_False; [done|]. intros H%Prefix_compare_eq. congruence.
Qed.

(** The interface found for the cluster network is the one of the first
    route whose destination is that very prefix (address, length and host bits
    alike); there is an error when the table cannot be read, when no route
    matches and when the first match names no interface. *)
Theorem ClusterNetworkInterface_first_match {HO : Host} (r : LoadBalancerConfigReconciler)
  (w : World) (iface : string) (w' : World) :
  ClusterNetworkInterface r w = (Done (Ok iface), w') ↔
  w' = set_tick (S (w_tick w)) w ∧ iface ≠ "" ∧
  ∃ routes, routetable_Get (w_tick w) 200 = Ok routes
  ∧ rt_Interface <$> head (filter (λ rt, rt_Dst rt = ClusterNetwork r) routes) = Some iface.
Proof.
  unfold ClusterNetworkInterface, mbind, ST_bind, tick, mret, ST_ret.
  destruct (routetable_Get (w_tick w) 200) as [routes|e].
  2: { split; [done|]. by intros (_ & _ & ? & ? & _). }
  rewrite find_route_spec.
  destruct (head (filter _ routes)) as [rt|] eqn:Eh; simpl.
  - case_bool_decide as Hi; split.
    + done.
    + intros (_ & Hne & routes' & [= <-] & E). rewrite Eh in E. by injection E as <-.
    + intros [= <- <-]. split_and!; [done..|]. exists routes. by rewrite Eh.
    + intros (-> & _ & routes' & [= <-] & E). rewrite Eh in E. by injection E as <-.
  - split; [done|]. intros (_ & _ & routes' & [= <-] & E). by rewrite Eh in E.
Qed.

Lemma ClusterNetworkInterface_tick {HO : Host} r w :
  ∃ res, ClusterNetworkInterface r w = (Done res, set_tick (S (w_tick w)) w).
Proof.
  unfold ClusterNetworkInterface, mbind, ST_bind, tick, mret, ST_ret.
  destruct (routetable_Get _ _); [|by eexists]. case_bool_decide; by eexists.
Qed.

(** The flag's value must be the network itself: with host bits set (say
    [172.18.200.5/24]) it equals no route of a table whose destinations are
    masked, as the kernel's are, and the lookup fails. *)
Theorem unmasked_cluster_network_not_found {HO : Host} (r : LoadBalancerConfigReconciler)
  (w : World) (routes : list RouteEntry)
  (Hroutes : routetable_Get (w_tick w) 200 = Ok routes)
  (Hmasked : Forall (λ rt, Masked (rt_Dst rt) = rt_Dst rt) routes)
  (Hhost : Masked (ClusterNetwork r) ≠ ClusterNetwork r) :
  ClusterNetworkInterface r w =
    (Done (Err (Errorf "failed to find interface for cluster network")), set_tick (S (w_tick w)) w).
Proof.
  unfold ClusterNetworkInterface, mbind, ST_bind, tick, mret, ST_ret. rewrite Hroutes.
  rewrite find_route_spec. destruct (filter _ routes) as [|rt l] eqn:E; [done|].
  assert (rt ∈ filter (λ rt, rt_Dst rt = ClusterNetwork r) routes) as Hin by (rewrite E; left).
  apply list_elem_of_filter in Hin as [Hd Hin]. rewrite Forall_forall in Hmasked.
  specialize (Hmasked rt Hin). congruence.
Qed.
