(* ===== verification/Template.v ===== *)
(** * The part of Go's [text/template] the configuration templates use

    A lexer for actions with trim markers, a parser for fields, variables,
    pipelines, [range] and [if], and an executor over a small universe of values.
    Comments, string literals, [else], [with], [define] and printing of composite
    values do not occur in the templates and are not modelled (they are errors
    here). *)

From S2P Require Import Prelude GoStrings.

Local Open Scope Z_scope.

(** ** Lexing *)

Definition is_space (c : ascii) : bool :=
  bool_decide (c = " "%char) || bool_decide (c = "009"%char)
  || bool_decide (c = "010"%char) || bool_decide (c = "013"%char).

Fixpoint trim_left (s : string) : string :=
  match s with
  | String c s' => if is_space c then trim_left s' else s
  | "" => ""
  end.

(** The string without its trailing white space. *)
Fixpoint trim_right (s : string) : string :=
  match s with
  | "" => ""
  | String c s' =>
      match trim_right s' with
      | "" => if is_space c then "" else String c ""
      | t => String c t
      end
  end.

(** The text before and after the first occurrence of the two bytes [a b]. *)
Fixpoint cut2 (a b : ascii) (s : string) : option (string * string) :=
  match s with
  | String c ((String d s'') as s') =>
      if decide (c = a) then
        if decide (d = b) then Some ("", s'')
        else match cut2 a b s' with Some (l, r) => Some (String c l, r) | None => None end
      else match cut2 a b s' with Some (l, r) => Some (String c l, r) | None => None end
  | _ => None
  end.

Inductive item : Type :=
| Text (s : string)
| Act (s : string).

(** Whether an action ends in the right trim marker, and its text without it. *)
Definition right_trim (act : string) : bool * string :=
  match cut_last " " act with
  | Some (a, "-") => (true, a)
  | _ => (false, act)
  end.

(** [fuel] bounds the number of actions; the length of the text is enough. *)
Fixpoint lex_go (fuel : nat) (trim : bool) (s : string) : result (list item) :=
  match fuel with
  | O => Err (Errorf "out of fuel")
  | S fuel' =>
      match cut2 "{" "{" s with
      | None => Ok [Text (if trim then trim_left s else s)]
      | Some (txt, rest) =>
          let txt := if trim then trim_left txt else txt in
          let '(txt, rest) :=
            match rest with
            | String "-" (String c rest') =>
                if is_space c then (trim_right txt, rest') else (txt, rest)
            | _ => (txt, rest)
            end in
          match cut2 "}" "}" rest with
          | None => Err (Errorf "unclosed action")
          | Some (act, rest') =>
              let '(trim', act) := right_trim act in
              items ← lex_go fuel' trim' rest';
              Ok (Text txt :: Act act :: items)
          end
      end
  end.

Definition lex (s : string) : result (list item) := lex_go (S (String.length s)) false s.

(** The words of an action; parentheses, commas and bars stand alone. *)
Fixpoint tokens_go (cur : string) (s : string) : list string :=
  let flush := if bool_decide (cur = "") then [] else [cur] in
  match s with
  | "" => flush
  | String c s' =>
      if is_space c then flush ++ tokens_go "" s'
      else if bool_decide (c ∈ ["("%char; ")"%char; ","%char; "|"%char])
      then flush ++ String c "" :: tokens_go "" s'
      else tokens_go (cur +:+ String c "") s'
  end.

Definition tokens (s : string) : list string := tokens_go "" s.

(** ** Parsing *)

(** [EField fs] is [.f1.f2...] ([EField []] is the dot); [EVar x fs] is
    [$x.f1...]; [ECall f args] is a function call, the value piped into it being
    its last argument. *)
Inductive expr : Type :=
| EField (fs : list string)
| EVar (x : string) (fs : list string)
| ENum (z : Z)
| ECall (f : string) (args : list expr).

Inductive node : Type :=
| NText (s : string)
| NAction (e : expr)
| NRange (vars : list string) (e : expr) (body : list node)
| NIf (e : expr) (body : list node).

(** An operand is an expression or the name of a function. *)
Inductive operand : Type :=
| OExpr (e : expr)
| OFun (f : string).

Definition parse_operand (w : string) : result operand :=
  match w with
  | "." => Ok (OExpr (EField []))
  | String "." fs => Ok (OExpr (EField (split_on "." fs)))
  | String "$" x =>
      match split_on "." x with
      | y :: fs => Ok (OExpr (EVar ("$" +:+ y) fs))
      | [] => Err (Errorf "bad variable")
      end
  | String c _ =>
      if is_digit c then z ← Atoi w; Ok (OExpr (ENum z))
      else if bool_decide (w ∈ ["len"; "gt"; "idx1"]) then Ok (OFun w)
      else Err (Errorf "function not defined")
  | "" => Err (Errorf "missing value for command")
  end.

Definition operand_expr (o : operand) : expr :=
  match o with OExpr e => e | OFun f => ECall f [] end.

(** One command of a pipeline, [final] being the value piped into it. *)
Definition mk_cmd (ops : list operand) (final : option expr) : result expr :=
  match ops, final with
  | OFun f :: args, _ => Ok (ECall f ((operand_expr <$> args) ++ option_list final))
  | [OExpr e], None => Ok e
  | [], _ => Err (Errorf "missing value for command")
  | _, _ => Err (Errorf "can't give argument to non-function")
  end.

Fixpoint parse_pipe (fuel : nat) (final : option expr) (ops : list operand) (ts : list string)
    : result (expr * list string) :=
  match fuel with
  | O => Err (Errorf "out of fuel")
  | S fuel' =>
      match ts with
      | [] => e ← mk_cmd (reverse ops) final; Ok (e, [])
      | ")" :: _ => e ← mk_cmd (reverse ops) final; Ok (e, ts)
      | "|" :: ts' => e ← mk_cmd (reverse ops) final; parse_pipe fuel' (Some e) [] ts'
      | "(" :: ts' =>
          '(e, rest) ← parse_pipe fuel' None [] ts';
          match rest with
          | ")" :: rest' => parse_pipe fuel' final (OExpr e :: ops) rest'
          | _ => Err (Errorf "unclosed left paren")
          end
      | w :: ts' => o ← parse_operand w; parse_pipe fuel' final (o :: ops) ts'
      end
  end.

Definition parse_pipeline (ts : list string) : result expr :=
  '(e, rest) ← parse_pipe (S (length ts)) None [] ts;
  match rest with [] => Ok e | _ => Err (Errorf "unexpected right paren") end.

(** What an action is. *)
Inductive action : Type :=
| ARange (vars : list string) (e : expr)
| AIf (e : expr)
| AEnd
| APipe (e : expr).

Definition parse_action (ts : list string) : result action :=
  match ts with
  | ["end"] => Ok AEnd
  | "if" :: ts => e ← parse_pipeline ts; Ok (AIf e)
  | "range" :: x :: "," :: y :: ":=" :: ts => e ← parse_pipeline ts; Ok (ARange [x; y] e)
  | "range" :: x :: ":=" :: ts => e ← parse_pipeline ts; Ok (ARange [x] e)
  | "range" :: ts => e ← parse_pipeline ts; Ok (ARange [] e)
  | _ => e ← parse_pipeline ts; Ok (APipe e)
  end.

(** The nodes up to the matching [end] (or the end of the text), whether an
    [end] was met, and the items after it. *)
Fixpoint parse_nodes (fuel : nat) (items : list item) : result (list node * bool * list item) :=
  match fuel with
  | O => Err (Errorf "out of fuel")
  | S fuel' =>
      match items with
      | [] => Ok ([], false, [])
      | Text s :: items' =>
          '(ns, b, rest) ← parse_nodes fuel' items';
          Ok (if bool_decide (s = "") then ns else NText s :: ns, b, rest)
      | Act s :: items' =>
          a ← parse_action (tokens s);
          match a with
          | AEnd => Ok ([], true, items')
          | APipe e => '(ns, b, rest) ← parse_nodes fuel' items'; Ok (NAction e :: ns, b, rest)
          | ARange vars e =>
              '(body, closed, rest) ← parse_nodes fuel' items';
              if negb closed then Err (Errorf "unexpected EOF")
              else '(ns, b, rest') ← parse_nodes fuel' rest; Ok (NRange vars e body :: ns, b, rest')
          | AIf e =>
              '(body, closed, rest) ← parse_nodes fuel' items';
              if negb closed then Err (Errorf "unexpected EOF")
              else '(ns, b, rest') ← parse_nodes fuel' rest; Ok (NIf e body :: ns, b, rest')
          end
      end
  end.

Definition Parse (text : string) : result (list node) :=
  items ← lex text;
  '(ns, closed, _) ← parse_nodes (S (length items)) items;
  if closed : bool then Err (Errorf "unexpected {{end}}") else Ok ns.

(** ** Execution *)

(** Values: a string (or anything whose [String] method prints it), an integer,
    a boolean, a slice, a struct, a map with string keys, and the value of a
    missing map entry. *)
Inductive tval : Type :=
| VStr (s : string)
| VInt (z : Z)
| VBool (b : bool)
| VList (l : list tval)
| VStruct (fs : list (string * tval))
| VMap (fs : list (string * tval))
| VNoValue.

Fixpoint assoc {A : Type} (x : string) (l : list (string * A)) : option A :=
  match l with
  | [] => None
  | (y, v) :: l => if bool_decide (x = y) then Some v else assoc x l
  end.

Definition eval_field (v : tval) (f : string) : result tval :=
  match v with
  | VMap fs => Ok (default VNoValue (assoc f fs))
  | VStruct fs =>
      match assoc f fs with
      | Some v => Ok v
      | None => Err (Errorf "can't evaluate field")
      end
  | VNoValue => Err (Errorf "nil data; no entry for key")
  | _ => Err (Errorf "can't evaluate field")
  end.

Fixpoint eval_chain (v : tval) (fs : list string) : result tval :=
  match fs with
  | [] => Ok v
  | f :: fs => v' ← eval_field v f; eval_chain v' fs
  end.

Definition call (f : string) (args : list tval) : result tval :=
  match f, args with
  | "len", [VList l] => Ok (VInt (Z.of_nat (length l)))
  | "len", [VStr s] => Ok (VInt (Z.of_nat (String.length s)))
  | "gt", [VInt a; VInt b] => Ok (VBool (b <? a))
  | "idx1", [VInt i] => Ok (VInt (i + 1))
  | _, _ => Err (Errorf "error calling function")
  end.

Fixpoint eval (e : expr) (dot : tval) (vars : list (string * tval)) : result tval :=
  match e with
  | EField fs => eval_chain dot fs
  | EVar x fs =>
      match assoc x vars with
      | Some v => eval_chain v fs
      | None => Err (Errorf "undefined variable")
      end
  | ENum z => Ok (VInt z)
  | ECall f args =>
      vs ← (fix go l := match l with
            | [] => Ok []
            | e :: l => v ← eval e dot vars; vs ← go l; Ok (v :: vs)
            end) args;
      call f vs
  end.

Definition print_value (v : tval) : result string :=
  match v with
  | VStr s => Ok s
  | VInt z => Ok (itoa z)
  | VBool b => Ok (if b then "true" else "false")
  | VNoValue => Ok "<no value>"
  | _ => Err (Errorf "composite value")
  end.

Definition truth (v : tval) : bool :=
  match v with
  | VStr s => negb (bool_decide (s = ""))
  | VInt z => negb (z =? 0)
  | VBool b => b
  | VList l => negb (length l =? 0)%nat
  | VStruct _ => true
  | VMap fs => negb (length fs =? 0)%nat
  | VNoValue => false
  end.

(** The variables of one iteration. *)
Definition range_vars (xs : list string) (i : Z) (v : tval) : list (string * tval) :=
  match xs with
  | [x; y] => [(y, v); (x, VInt i)]
  | [x] => [(x, v)]
  | _ => []
  end.

Fixpoint exec (n : node) (dot : tval) (vars : list (string * tval)) : result string :=
  let exec_list :=
    fix go (l : list node) (dot : tval) (vars : list (string * tval)) : result string :=
      match l with
      | [] => Ok ""
      | n :: l => s ← exec n dot vars; t ← go l dot vars; Ok (s +:+ t)
      end in
  match n with
  | NText s => Ok s
  | NAction e => v ← eval e dot vars; print_value v
  | NIf e body => v ← eval e dot vars; if truth v then exec_list body dot vars else Ok ""
  | NRange xs e body =>
      v ← eval e dot vars;
      match v with
      | VList l =>
          (fix iter (i : Z) (l : list tval) : result string :=
             match l with
             | [] => Ok ""
             | v :: l =>
                 s ← exec_list body v (range_vars xs i v ++ vars);
                 t ← iter (i + 1) l; Ok (s +:+ t)
             end) 0 l
      | _ => Err (Errorf "range can't iterate over value")
      end
  end.

Fixpoint exec_list (l : list node) (dot : tval) (vars : list (string * tval)) : result string :=
  match l with
  | [] => Ok ""
  | n :: l => s ← exec n dot vars; t ← exec_list l dot vars; Ok (s +:+ t)
  end.

(** [t.Execute(&buf, data)]: the dot and the variable [$] start as the data. *)
Definition Execute (ns : list node) (data : tval) : result string :=
  exec_list ns data [("$", data)].

Definition ExecuteText (text : string) (data : tval) : result string :=
  ns ← Parse text; Execute ns data.
