(* ===== verification/Templates.v ===== *)
(** * The embedded configuration templates ([config_templates/], [template.go])

    The files of the embedded file system, byte for byte (a backquote stands for
    a double quote, see [dq]), the file pattern matching of [ParseFS], and
    [renderTemplate]. *)

From S2P Require Import Prelude GoStrings Path Template.

Local Open Scope Z_scope.

Definition tmpl_cloudscale_floaty_yaml : string := dq "provider: cloudscale
cloudscale:
  token: `{{ .Token }}`
lock-file-template: `/var/run/keepalived.floaty.%s.lock`
managed-addresses:
{{- range $vip := .VIPs }}
- {{ $vip }}
{{- end }}
".

Definition tmpl_cluster_net_nmconnection : string := dq "[connection]
id=cluster-net
type=ethernet
autoconnect-priority=-999
zone=internal

[user]
org.freedesktop.NetworkManager.origin=bootc-loadbalancer-controller

[ethernet]
mac-address={{ .MACAddress }}

[ipv4]
method=auto
never-default=yes
address1={{ .IPAddress }}/32

[ipv6]
addr-gen-mode=default
method=auto
".

Definition tmpl_conntrackd_conf : string := dq "General {
  HashSize 8192
  HashLimit 65535
  Syslog On
  LockFile /var/lock/conntrackd.lock
  UNIX {
    Path /var/run/conntrackd.sock
  }
  SocketBufferSize 262142
  SocketBufferSizeMaxGrown 655355
  Filter {
    Protocol Accept {
      TCP 
    }
    Address Ignore {
      IPv4_address 127.0.0.1
    }
  }
}
Sync {
  Mode FTFW {

  }
  UDP Default {
    IPv4_address {{ .SrcIP }}
    IPv4_Destination_Address {{ .DstIP }}
    Port 3780
    Interface {{ .Interface }}
    SndSocketBuffer 24985600
    RcvSocketBuffer 24985600
    Checksum On
  }
}
".

Definition tmpl_exoscale_floaty_yaml : string := dq "provider: exoscale
exoscale:
  key: `{{ .Key }}`
  secret: `{{ .Secret }}`
lock-file-template: `/var/run/keepalived.floaty.%s.lock`
managed-addresses:
{{- range $vip := .VIPs }}
- {{ $vip }}
{{- end }}
".

Definition tmpl_firewalld_direct_xml : string := dq "<direct>
  <rule ipv=`ipv4` table=`nat` chain=`POSTROUTING` priority=`0`>-o {{ .PublicInterface }} -s {{ .ClusterNetwork }} -p tcp -j SNAT --to-source {{ .NATAddress }}</rule>
</direct>
".

Definition tmpl_firewalld_zone_external_xml : string := dq "<zone>
  <short>External</short>
  <description>For use on external networks. You do not trust the other computers on networks to not harm your computer. Only selected incoming connections are accepted.</description>
  <masquerade/>
  <forward/>
  <service name=`ssh`/>
  <service name=`http`/>
  <service name=`https`/>
  <service name=`kube-apiserver`/>
{{- range $ip := .IPv4 }}
  <rule family=`ipv4`>
    <destination address=`{{ $ip }}`/>
    <service name=`ssh`/>
    <reject/>
  </rule>
{{- end }}
{{- range $ip := .IPv6 }}
  <rule family=`ipv6`>
    <destination address=`{{ $ip }}`/>
    <service name=`ssh`/>
    <reject/>
  </rule>
{{- end }}
</zone>
".

Definition tmpl_keepalived_conf : string := dq "vrrp_instance lb {
  interface                 {{ .Interface }}
  state                     BACKUP
  virtual_router_id         100
  priority                  {{ .Priority }}
  advert_int                3
  garp_master_delay         5

  garp_master_refresh       30

  authentication {
    auth_type PASS
    auth_pass insec_0
  }

  virtual_ipaddress {
{{- range $vip := .VIPs }}
    {{ $vip }} dev {{ $.Interface }}
{{- end }}
  }

  unicast_src_ip {{ .SrcIP }}
  unicast_peer {
    {{ .DstIP }}
  }
}
".

Definition tmpl_keepalived_nmconnection : string := dq "[connection]
id=keepalived
type=dummy
interface-name=keepalived

[user]
org.freedesktop.NetworkManager.origin=bootc-loadbalancer-controller

[dummy]

[ipv4]
method=manual
{{- range $index, $vip := .VIPs4 }}
address{{ idx1 $index }}={{ $vip }}
{{- end }}

{{- if gt (.VIPs6 | len) 0 }}
[ipv6]
method=manual
{{- range $index, $vip := .VIPs6 }}
address{{ idx1 $index }}={{ $vip }}
{{- end }}
{{- end }}
".

Definition tmpl_openshift_haproxy_api_cfg : string := dq "frontend fe-api
  mode tcp
  default_backend be-api
{{- range .Frontends.API }}
  bind {{ . }}:6443
{{- end }}

frontend fe-ign
  mode tcp
  default_backend be-ign
{{- range .Frontends.Ignition }}
  bind {{ . }}:22623
{{- end }}

backend be-api
  option httpchk GET /readyz
{{- range $index, $backend := .Backends }}
  server server_{{ $index }} {{ $backend.Address }}:6443 check check-ssl verify none resolvers localdns
{{- end }}

backend be-ign
  balance roundrobin
{{- range $index, $backend := .Backends }}
  server server_{{ $index }} {{ $backend.Address }}:22623 check check-ssl verify none resolvers localdns
{{- end }}
".

Definition tmpl_openshift_haproxy_ingress_cfg : string := dq "frontend fe-router-http
  mode tcp
  default_backend be-router-http
{{- range .Frontends.Ingress }}
  bind {{ . }}:80
{{- end }}

frontend fe-router-https
  mode tcp
  default_backend be-router-https
{{- range .Frontends.Ingress }}
  bind {{ . }}:443
{{- end }}

backend be-router-http
  option httpchk GET /healthz/ready
{{- range $index, $backend := .Backends }}
  server server_{{ $index }} {{ $backend.Address }}:80 check port 1936 check-ssl verify none resolvers localdns send-proxy-v2
{{- end }}

backend be-router-https
  option httpchk GET /healthz/ready
{{- range $index, $backend := .Backends }}
  server server_{{ $index }} {{ $backend.Address }}:443 check port 1936 check-ssl verify none resolvers localdns send-proxy-v2
{{- end }}
".

Definition tmpl_public_nmconnection : string := dq "[connection]
id=public
autoconnect-priority=-999
type=ethernet
zone=external

[user]
org.freedesktop.NetworkManager.origin=bootc-loadbalancer-controller

[ethernet]
mac-address={{ .MACAddress }}

[ipv4]
method=auto
may-fail=true

[ipv6]
method=auto
may-fail=true
".

Definition tmpl_sysctl_conf : string := dq "# Accept router advertisements on public interfac
net.ipv6.conf.{{ .Interface }}.accept_ra = 2
".

Definition tmpl_talos_haproxy_api_cfg : string := dq "frontend fe-api
  mode tcp
  default_backend be-api
{{- range .Frontends.API }}
  bind {{ . }}:6443
{{- end }}

backend be-api
  option tcp-check
{{- range $index, $backend := .Backends }}
  server server_{{ $index }} {{ $backend.Address }}:6443 check fall 3 rise 2 inter 10s
{{- end }}
".

Definition tmpl_talos_haproxy_ingress_cfg : string := dq "frontend fe-router-http
  mode tcp
  default_backend be-router-http
{{- range .Frontends.Ingress }}
  bind {{ . }}:80
{{- end }}

frontend fe-router-https
  mode tcp
  default_backend be-router-https
{{- range .Frontends.Ingress }}
  bind {{ . }}:443
{{- end }}

backend be-router-http
  option httpchk GET /metrics
  http-check expect status 426
{{- range $index, $backend := .Backends }}
  server server_{{ $index }} {{ $backend.Address }}:30080 check port 30091 send-proxy-v2
{{- end }}

backend be-router-https
  option httpchk GET /metrics
  http-check expect status 426
{{- range $index, $backend := .Backends }}
  server server_{{ $index }} {{ $backend.Address }}:30443 check port 30091 send-proxy-v2
{{- end }}
".

(** [configTemplates]: the paths in the order directory listings give them. *)
Definition configTemplates : list (string * string) := [
  ("config_templates/cloudscale/floaty.yaml.tmpl", tmpl_cloudscale_floaty_yaml);
  ("config_templates/cluster-net.nmconnection.tmpl", tmpl_cluster_net_nmconnection);
  ("config_templates/conntrackd.conf.tmpl", tmpl_conntrackd_conf);
  ("config_templates/exoscale/floaty.yaml.tmpl", tmpl_exoscale_floaty_yaml);
  ("config_templates/firewalld/direct.xml.tmpl", tmpl_firewalld_direct_xml);
  ("config_templates/firewalld/zone-external.xml.tmpl", tmpl_firewalld_zone_external_xml);
  ("config_templates/keepalived.conf.tmpl", tmpl_keepalived_conf);
  ("config_templates/keepalived.nmconnection.tmpl", tmpl_keepalived_nmconnection);
  ("config_templates/openshift/haproxy.api.cfg.tmpl", tmpl_openshift_haproxy_api_cfg);
  ("config_templates/openshift/haproxy.ingress.cfg.tmpl", tmpl_openshift_haproxy_ingress_cfg);
  ("config_templates/public.nmconnection.tmpl", tmpl_public_nmconnection);
  ("config_templates/sysctl.conf.tmpl", tmpl_sysctl_conf);
  ("config_templates/talos/haproxy.api.cfg.tmpl", tmpl_talos_haproxy_api_cfg);
  ("config_templates/talos/haproxy.ingress.cfg.tmpl", tmpl_talos_haproxy_ingress_cfg)].

(** ** [fs.Glob] *)

(** One possibly escaped character of a class. *)
Definition class_char (p : string) : option (ascii * string) :=
  match p with
  | "" => None
  | String "-" _ | String "]" _ => None
  | String "\" (String c p) => Some (c, p)
  | String "\" "" => None
  | String c p => Some (c, p)
  end.

(** The ranges of a character class up to its closing bracket: whether [c] is in
    one of them, and the pattern after the bracket; [None] for a bad pattern. *)
Fixpoint class_match (fuel : nat) (n : nat) (hit : bool) (c : ascii) (p : string)
    : option (bool * string) :=
  match fuel with
  | O => None
  | S fuel' =>
      match p with
      | String "]" p' => if (n =? 0)%nat then None else Some (hit, p')
      | _ =>
          '(lo, p1) ← class_char p;
          '(hi, p2) ← match p1 with
                      | String "-" p' => class_char p'
                      | _ => Some (lo, p1)
                      end;
          let inside := (N_of_ascii lo <=? N_of_ascii c)%N && (N_of_ascii c <=? N_of_ascii hi)%N in
          class_match fuel' (S n) (hit || inside) c p2
      end
  end.

(** [path.Match] of one path element; a bad pattern matches nothing.  The fuel
    bounds the characters consumed from pattern and name together. *)
Fixpoint match_elem (fuel : nat) (p s : string) : bool :=
  match fuel with
  | O => false
  | S fuel' =>
      match p, s with
      | "", _ => bool_decide (s = "")
      | String "*" p', _ =>
          match_elem fuel' p' s
          || match s with String _ s' => match_elem fuel' p s' | "" => false end
      | String "?" p', String _ s' => match_elem fuel' p' s'
      | String "[" p', String c s' =>
          let '(neg, p') := match p' with String "^" p'' => (true, p'') | _ => (false, p') end in
          match class_match fuel' 0 false c p' with
          | Some (hit, p'') => negb (Bool.eqb hit neg) && match_elem fuel' p'' s'
          | None => false
          end
      | String "\" (String c p'), String d s' => bool_decide (c = d) && match_elem fuel' p' s'
      | String "\" "", _ => false
      | String c p', String d s' => bool_decide (c = d) && match_elem fuel' p' s'
      | _, "" => false
      end
  end.

Fixpoint match_elems (ps ss : list string) : bool :=
  match ps, ss with
  | [], [] => true
  | p :: ps, s :: ss =>
      match_elem (S (String.length p + String.length s)) p s && match_elems ps ss
  | _, _ => false
  end.

(** The contents of the files whose path matches. *)
Definition Glob (pattern : string) (files : list (string * string)) : list string :=
  snd <$> filter (λ f, match_elems (split_on "/" pattern) (split_on "/" (fst f)) = true) files.

(** ** [renderTemplate]

    [ParseFS] fails when no file matches; when several do they all have the base
    name of the template, and the last one parsed is the one executed. *)
Fixpoint parse_last (t : string) (l : list string) : result (list node) :=
  match l with
  | [] => Parse t
  | t' :: l => _ ← Parse t; parse_last t' l
  end.

Definition loadTemplate (prefix templateName : string) : result (list node) :=
  match Glob (Join ["config_templates"; prefix; templateName]) configTemplates with
  | [] => Err (Errorf "pattern matches no files")
  | text :: texts => parse_last text texts
  end.

Definition renderTemplate (prefix templateName : string) (templateData : list (string * tval))
    : result string :=
  match loadTemplate prefix templateName with
  | Err e => Err (Wrapf "failed to parse config template" e)
  | Ok t =>
      match Execute t (VMap templateData) with
      | Err e => Err (Wrapf "failed to execute template" e)
      | Ok s => Ok s
      end
  end.

(** Every embedded file parses. *)
Lemma templates_parse : Forall (λ f, is_ok (Parse (snd f)) = true) configTemplates.
Proof. apply (bool_decide_unpack _). vm_compute. done. Qed.

Example render_sysctl :
  renderTemplate "" "sysctl.conf.tmpl" [("Interface", VStr "eth0")]
  = Ok ("# Accept router advertisements on public interfac" +:+ nl
        +:+ "net.ipv6.conf.eth0.accept_ra = 2" +:+ nl).
Proof. vm_compute. reflexivity. Qed.

Example render_glob :
  renderTemplate "op*[a-t]h[^a]ft" "haproxy.api.cfg.tmpl" []
  = Err (Wrapf "failed to execute template" (Errorf "nil data; no entry for key"))
  ∧ renderTemplate "x" "haproxy.api.cfg.tmpl" []
  = Err (Wrapf "failed to parse config template" (Errorf "pattern matches no files")).
Proof. vm_compute. done. Qed.
