(* ===== verification/Fuel.v ===== *)
(** * Fuel

    The recursions with fuel never run out of it: the lexer and the parser of the
    templates on any text, and the matcher of file names on any pattern and
    name. *)

From S2P Require Import Prelude GoStrings Path Template Templates.

Local Open Scope Z_scope.

Definition out_of_fuel : error := Errorf "out of fuel".

(** [x] ended by itself, and well when [P] holds of its result. *)
Definition ends {A : Type} (P : A → Prop) (x : result A) : Prop :=
  match x with Ok a => P a | Err e => e ≠ out_of_fuel end.

Lemma ends_bind {A B : Type} (P : A → Prop) (Q : B → Prop) (x : result A) (f : A → result B) :
  ends P x → (∀ a, P a → ends Q (f a)) → ends Q (x ≫= f).
Proof. destruct x; simpl; auto. Qed.

Lemma ends_impl {A : Type} (P Q : A → Prop) (x : result A) :
  ends P x → (∀ a, P a → Q a) → ends Q x.
Proof. destruct x; simpl; auto. Qed.

(** ** The lexer *)

Lemma cut2_length a b s l r : cut2 a b s = Some (l, r) →
  String.length s = (String.length l + 2 + String.length r)%nat.
Proof.
  revert l r. induction s as [|c [|d s] IH]; intros l r H; [done..|].
  change (cut2 a b (String c (String d s))) with
    (if decide (c = a) then
       if decide (d = b) then Some ("", s)
       else match cut2 a b (String d s) with Some (l, r) => Some (String c l, r) | None => None end
     else match cut2 a b (String d s) with Some (l, r) => Some (String c l, r) | None => None end) in H.
  assert (∀ l r, match cut2 a b (String d s) with Some (l, r) => Some (String c l, r) | None => None end
    = Some (l, r) → String.length (String c (String d s)) = (String.length l + 2 + String.length r)%nat) as Hc.
  { intros l' r' H'. destruct (cut2 a b (String d s)) as [[l0 r0]|]; [|done].
    injection H' as <- <-. specialize (IH l0 r0 eq_refl). simpl in *. lia. }
  destruct (decide (c = a)); [destruct (decide (d = b))|]; [injection H as <- <-; simpl; lia|by apply Hc..].
Qed.

Lemma lex_go_ends fuel trim s : (String.length s < fuel)%nat → ends (λ _, True) (lex_go fuel trim s).
Proof.
  revert trim s. induction fuel as [|fuel IH]; intros trim s Hs; [lia|]. simpl.
  destruct (cut2 "{" "{" s) as [[txt rest]|] eqn:E1; [|done]. apply cut2_length in E1.
  assert (∀ t r, (String.length r ≤ String.length rest)%nat →
    ends (λ _, True)
      match cut2 "}" "}" r with
      | None => Err (Errorf "unclosed action")
      | Some (act, rest') =>
          let '(trim', act) := right_trim act in
          items ← lex_go fuel trim' rest'; Ok (Text t :: Act act :: items)
      end) as Hr.
  { intros t r Hr. destruct (cut2 "}" "}" r) as [[act rest']|] eqn:E2; [|done].
    apply cut2_length in E2. destruct (right_trim act) as [trim' act'].
    eapply ends_bind; [apply IH; lia|done]. }
  set (t0 := if trim then trim_left txt else txt). clearbody t0.
  match goal with |- ends _ (let '(t, r) := ?m in _) => set (tr := m) end.
  assert (String.length tr.2 ≤ String.length rest)%nat as Htr.
  { unfold tr. destruct rest as [|c1 [|c2 rest2]]; simpl;
      repeat case_match; simplify_eq/=; lia. }
  destruct tr as [t r]. by apply Hr.
Qed.

(** ** The parser *)

Lemma parse_operand_ends w : ends (λ _, True) (parse_operand w).
Proof.
  unfold parse_operand. repeat case_match; simpl; try done.
  all: unfold Atoi in *; repeat case_match; simplify_eq/=; done.
Qed.

Lemma mk_cmd_ends ops final : ends (λ _, True) (mk_cmd ops final).
Proof. unfold mk_cmd. by repeat case_match. Qed.

Lemma parse_pipe_ends fuel final ops ts : (length ts < fuel)%nat →
  ends (λ r, (length (snd r) ≤ length ts)%nat) (parse_pipe fuel final ops ts).
Proof.
  revert final ops ts. induction fuel as [|fuel IH]; intros final ops ts Hts; [lia|].
  assert (∀ ts', (length ts' < length ts)%nat → ∀ final ops,
    ends (λ r, (length (snd r) ≤ length ts)%nat) (parse_pipe fuel final ops ts')) as Hgo.
  { intros ts' Hl f o. eapply ends_impl; [apply IH; lia|]. intros a Ha. simpl in Ha |- *. lia. }
  assert (∀ ops final (ts' : list string), (length ts' ≤ length ts)%nat → ends (λ r, (length (snd r) ≤ length ts)%nat)
    (e ← mk_cmd ops final; Ok (e, ts'))) as Hend.
  { intros. eapply ends_bind; [apply mk_cmd_ends|done]. }
  destruct ts as [|w ts']; [by apply Hend|]. cbn [parse_pipe].
  assert (ends (λ r, (length (snd r) ≤ length (w :: ts'))%nat)
    (o ← parse_operand w; parse_pipe fuel final (o :: ops) ts')) as Hop.
  { eapply ends_bind; [apply parse_operand_ends|]. intros. apply Hgo. simpl. lia. }
  destruct (decide (w = ")")) as [->|H1]; [by apply Hend|].
  destruct (decide (w = "|")) as [->|H2].
  { eapply ends_bind; [apply mk_cmd_ends|]. intros. apply Hgo. simpl. lia. }
  destruct (decide (w = "(")) as [->|H3].
  { eapply ends_bind; [apply (IH None [] ts'); simpl in *; lia|]. intros [e rest] Hrest. simpl in Hrest.
    destruct rest as [|x rest]; [done|]. destruct (decide (x = ")")) as [->|Hx].
    - apply Hgo. simpl in *. lia.
    - destruct x as [|c [|? ?]]; try done; destruct c as [[] [] [] [] [] [] [] []]; done. }
  destruct w as [|c [|? ?]]; try exact Hop;
    destruct c as [[] [] [] [] [] [] [] []]; first [exact Hop|done].
Qed.

Lemma parse_pipeline_ends ts : ends (λ _, True) (parse_pipeline ts).
Proof.
  eapply ends_bind; [apply parse_pipe_ends; lia|]. intros [e rest] _. by destruct rest.
Qed.

Lemma parse_action_ends ts : ends (λ _, True) (parse_action ts).
Proof.
  assert (∀ ts (f : expr → action), ends (λ _, True) (e ← parse_pipeline ts; Ok (f e))) as Hp.
  { intros. eapply ends_bind; [apply parse_pipeline_ends|done]. }
  unfold parse_action. repeat case_match; first [done|apply Hp].
Qed.

Lemma parse_nodes_ends fuel items : (length items < fuel)%nat →
  ends (λ r, (length (snd r) ≤ length items)%nat) (parse_nodes fuel items).
Proof.
  revert items. induction fuel as [|fuel IH]; intros items Hi; [lia|].
  destruct items as [|[s|s] items]; simpl; [done| |].
  - eapply ends_bind; [apply IH; simpl in *; lia|]. intros [[ns b] rest] Hr. simpl in *. lia.
  - eapply ends_bind; [apply parse_action_ends|]. intros a _.
    assert (∀ (f : list node → node),
      ends (λ r, (length (snd r) ≤ S (length items))%nat)
        ('(body, closed, rest) ← parse_nodes fuel items;
         if negb closed then Err (Errorf "unexpected EOF")
         else '(ns, b, rest') ← parse_nodes fuel rest; Ok (f body :: ns, b, rest'))) as Hblock.
    { intros f. eapply ends_bind; [apply IH; simpl in *; lia|]. intros [[body closed] rest] Hr.
      simpl in Hr. destruct closed; simpl; [|done].
      eapply ends_bind; [apply IH; simpl in *; lia|]. intros [[ns b] rest'] Hr'. simpl in *. lia. }
    destruct a as [vars e|e| |e].
    + apply (Hblock (NRange vars e)).
    + apply (Hblock (NIf e)).
    + simpl. lia.
    + eapply ends_bind; [apply IH; simpl in *; lia|]. intros [[ns b] rest] Hr. simpl in *. lia.
Qed.

Lemma Parse_ends text : ends (λ _, True) (Parse text).
Proof.
  unfold Parse. eapply ends_bind; [apply lex_go_ends; lia|]. intros items _.
  eapply ends_bind; [apply parse_nodes_ends; lia|]. intros [[ns closed] rest] _. by destruct closed.
Qed.

Lemma parse_last_ends t l : ends (λ _, True) (parse_last t l).
Proof.
  revert t. induction l as [|t' l IH]; intros t; [apply Parse_ends|].
  simpl. eapply ends_bind; [apply Parse_ends|]. intros. apply IH.
Qed.

(** ** The matcher *)

Lemma class_char_length p c p' : class_char p = Some (c, p') → (String.length p' < String.length p)%nat.
Proof.
  unfold class_char. repeat case_match; intros; simplify_eq/=; simpl; lia.
Qed.

(** What one more range of a class leaves. *)
Lemma class_match_ends fuel n hit c p : (String.length p < fuel)%nat → ∀ k,
  class_match (fuel + k) n hit c p = class_match fuel n hit c p
  ∧ ∀ h p', class_match fuel n hit c p = Some (h, p') → (String.length p' < String.length p)%nat.
Proof.
  revert n hit p. induction fuel as [|fuel IH]; intros n hit p Hp k; [lia|]. simpl.
  assert (∀ q, (String.length q < String.length p)%nat → ∀ m h,
    class_match (fuel + k) m h c q = class_match fuel m h c q
    ∧ ∀ h' p', class_match fuel m h c q = Some (h', p') → (String.length p' < String.length p)%nat) as Hgo.
  { intros q Hq m h. destruct (IH m h q ltac:(lia) k) as [H1 H2]. split; [done|].
    intros h' p' E. specialize (H2 h' p' E). lia. }
  set (body := λ fuel : nat, '(lo, p1) ← class_char p;
    '(hi, p2) ← match p1 with String "-" p' => class_char p' | _ => Some (lo, p1) end;
    class_match fuel (S n) (hit || (N_of_ascii lo <=? N_of_ascii c)%N && (N_of_ascii c <=? N_of_ascii hi)%N) c p2).
  assert (body (fuel + k)%nat = body fuel
    ∧ ∀ h p', body fuel = Some (h, p') → (String.length p' < String.length p)%nat) as Hbody.
  { unfold body. destruct (class_char p) as [[lo p1]|] eqn:E1; [|done]. apply class_char_length in E1. simpl.
    assert (∀ hi p2, match p1 with String "-" p' => class_char p' | _ => Some (lo, p1) end = Some (hi, p2) →
      (String.length p2 < String.length p)%nat) as H2.
    { intros hi p2. destruct p1 as [|d p1']; [by intros [= _ <-]|].
      destruct (decide (d = "-"%char)) as [->|Hd].
      - intros H%class_char_length. simpl in E1. lia.
      - destruct d as [[] [] [] [] [] [] [] []]; try (by intros [= _ <-]); done. }
    destruct (match p1 with String "-" p' => class_char p' | _ => Some (lo, p1) end) as [[hi p2]|]; [|done].
    apply Hgo. by eapply H2. }
  destruct p as [|d p']; [exact Hbody|]. destruct (decide (d = "]"%char)) as [->|Hd].
  - destruct (n =? 0)%nat; [done|]. split; [done|]. intros h q [= _ <-]. simpl. lia.
  - destruct d as [[] [] [] [] [] [] [] []]; try exact Hbody; done.
Qed.

Lemma neg_split_length p : (String.length
  (match p with String "^" p' => (true, p') | _ => (false, p) end).2 ≤ String.length p)%nat.
Proof. destruct p as [|c p]; simpl; repeat case_match; simplify_eq/=; lia. Qed.

Lemma match_elem_fuel fuel p s k : (String.length p + String.length s < fuel)%nat →
  match_elem (fuel + k) p s = match_elem fuel p s.
Proof.
  revert p s. induction fuel as [|fuel IH]; intros p s Hps; [lia|].
  destruct p as [|a p]; [done|].
  assert (∀ d s', match_elem fuel p s' = match_elem (fuel + k) p s' →
    bool_decide (a = d) && match_elem (fuel + k) p s' = bool_decide (a = d) && match_elem fuel p s') as Hchr.
  { by intros d s' ->. }
  simpl in Hps. cbn [match_elem plus].
  assert (∀ q t, (String.length q + String.length t ≤ String.length p + String.length s)%nat →
    match_elem (fuel + k) q t = match_elem fuel q t) as Hgo by (intros; apply IH; lia).
  destruct (decide (a = "*"%char)) as [->|H1].
  { rewrite Hgo by lia. destruct s as [|b s]; [done|]. f_equal. apply Hgo. simpl in *. lia. }
  destruct (decide (a = "?"%char)) as [->|H2].
  { destruct s as [|b s]; [done|]. apply Hgo. simpl. lia. }
  destruct (decide (a = "["%char)) as [->|H3].
  { destruct s as [|b s]; [done|]. pose proof (neg_split_length p) as Hn. revert Hn.
    destruct (match p with String "^" p' => (true, p') | _ => (false, p) end) as [neg q].
    intros Hq. simpl in Hq, Hps.
    destruct (class_match_ends fuel 0 false b q ltac:(lia) k) as [-> Hl].
    destruct (class_match fuel 0 false b q) as [[hit q']|]; [|done].
    specialize (Hl hit q' eq_refl). rewrite Hgo by (simpl; lia). done. }
  destruct (decide (a = "\"%char)) as [->|H4].
  { destruct p as [|c p]; [done|]. destruct s as [|d s]; [done|]. f_equal. apply Hgo. simpl. lia. }
  destruct s as [|d s]; (destruct a as [[] [] [] [] [] [] [] []]; try done);
    apply Hchr; symmetry; apply Hgo; simpl; lia.
Qed.

(** None of the recursions with fuel ends for lack of it.  Loading a template
    under any name below any prefix (the distribution of the load balancer), and
    parsing any text, never returns the error that stands for exhausted fuel, and
    the matcher of file names has with its fuel the result it has with any
    larger one: [renderTemplate] of the model terminates as the Go function does,
    and every error it returns is one of the template library. *)
Theorem loadTemplate_terminates prefix templateName :
  loadTemplate prefix templateName ≠ Err out_of_fuel
  ∧ (∀ text, Parse text ≠ Err out_of_fuel)
  ∧ ∀ p s k,
      match_elem (S (String.length p + String.length s) + k) p s
      = match_elem (S (String.length p + String.length s)) p s.
Proof.
  assert (∀ A (x : result A), ends (λ _, True) x → x ≠ Err out_of_fuel) as He by (by intros A [] H [= ->]).
  split; [|split].
  - apply He. unfold loadTemplate. destruct (Glob _ _) as [|t l]; [done|apply parse_last_ends].
  - intros text. apply He, Parse_ends.
  - intros p s k. apply match_elem_fuel. lia.
Qed.
