(* ===== verification/Keepalived.v ===== *)
(** * Keepalived and Floaty ([internal/controller/keepalived.go]) and
    conntrackd ([internal/controller/conntrackd.go]) *)

From S2P Require Import Prelude GoStrings Netip NetipText Types Interfaces Reconciler Vip.
From S2P Require Import Path Host Network Template Templates.

Local Open Scope Z_scope.

Definition vip_values (vips : list Prefix) : tval := VList ((λ p, VStr (Prefix_String p)) <$> vips).

Section keepalived.
Context {HO : Host} {MI : MapIter} {ME : Multierr}.

Definition RenderKeepalivedConfig (r : LoadBalancerConfigReconciler) (lbconfig : LoadBalancerConfig)
    : M (result string) :=
  match internalIPs r with
  | Err err => mret (Err (Wrapf "failed to compute internal VIPs" err))
  | Ok ips =>
      iface ← ClusterNetworkInterface r;
      match iface with
      | Err err => mret (Err err)
      | Ok clusterInterface =>
          let primary := IsPrimary (Keepalived r) in
          let prio := if primary then 200 else 100 in
          let extraVips :=
            match vips_NAT (VirtualAddresses (Spec lbconfig)) with
            | None => []
            | Some _ =>
                match Addr_Prefix (DefaultGateway ips) 32 with
                | Ok gwPrefix => [gwPrefix]
                | Err _ => []
                end
            end in
          let '(vips, err) := privateVIPs (VirtualAddresses (Spec lbconfig)) extraVips in
          match err with
          | Some err => mret (Err (Wrapf "failed to prepare Keepalived VIPs" err))
          | None =>
              mret (renderTemplate "" "keepalived.conf.tmpl" [
                ("Interface", VStr clusterInterface);
                ("Priority", VInt prio);
                ("SrcIP", VStr (myInternalIP ips primary));
                ("DstIP", VStr (peerInternalIP ips primary));
                ("VIPs", vip_values vips)])
          end
      end
  end.

(** Reading a missing key of a Go map, or any key of a nil one, says so. *)
Definition secret_field (s : Secret) (k : string) : option string :=
  match sec_Data s with None => None | Some m => m !! k end.

Definition RenderFloatyConfig (lbconfig : LoadBalancerConfig) (credentialSecret : Secret)
    : result string :=
  let '(vips, err) := publicVIPs (VirtualAddresses (Spec lbconfig)) in
  match err with
  | Some err => Err (Wrapf "failed to compute public floating IPs" err)
  | None =>
      let cloud := Cloud (Spec lbconfig) in
      credentials ←
        (if decide (cloud = "cloudscale") then
           match secret_field credentialSecret "token" with
           | Some token => Ok [("Token", VStr token)]
           | None => Err (Errorf "cloudscale credentials secret is missing field 'token'")
           end
         else if decide (cloud = "exoscale") then
           match secret_field credentialSecret "key" with
           | None => Err (Errorf "exoscale credentials secret is missing field 'key'")
           | Some key =>
               match secret_field credentialSecret "secret" with
               | None => Err (Errorf "exoscale credentials secret is missing field 'secret'")
               | Some secret => Ok [("Key", VStr key); ("Secret", VStr secret)]
               end
           end
         else Err (Errorf "unknown cloud provider"));
      renderTemplate cloud "floaty.yaml.tmpl" (("VIPs", vip_values vips) :: credentials)
  end.

(** The error of the interface lookup is dropped: an empty configuration is
    returned as if it had been rendered. *)
Definition RenderConntrackdConfig (r : LoadBalancerConfigReconciler) (_ : LoadBalancerConfig)
    : M (result string) :=
  match internalIPs r with
  | Err err => mret (Err (Wrapf "failed to compute internal IPs" err))
  | Ok ips =>
      iface ← ClusterNetworkInterface r;
      match iface with
      | Err _ => mret (Ok "")
      | Ok clusterInterface =>
          let primary := IsPrimary (Keepalived r) in
          mret (renderTemplate "" "conntrackd.conf.tmpl" [
            ("Interface", VStr clusterInterface);
            ("SrcIP", VStr (myInternalIP ips primary));
            ("DstIP", VStr (peerInternalIP ips primary))])
      end
  end.

End keepalived.
