(* ===== verification/Haproxy.v ===== *)
(** * HAProxy ([internal/controller/haproxy.go], [getHAProxyBackends] of
    [vip.go]) *)

From S2P Require Import Prelude GoStrings Netip NetipText Types Interfaces Reconciler Vip.
From S2P Require Import Path Host Template Templates.

(** The first internal address of a node, if it has one. *)
Fixpoint node_backend (name : string) (addrs : list NodeAddress) : list Backend :=
  match addrs with
  | [] => []
  | addr :: addrs =>
      if decide (na_Type addr = NodeInternalIP)
      then [{| be_Name := name; be_Address := na_Address addr |}]
      else node_backend name addrs
  end.

Definition node_backends (nodes : list Node) : list Backend :=
  concat ((λ n, node_backend (om_Name (node_Meta n)) (node_Addresses n)) <$> nodes).

Definition backend_value (b : Backend) : tval :=
  VStruct [("Name", VStr (be_Name b)); ("Address", VStr (be_Address b))].

Definition addr_values (l : list Addr) : tval := VList ((λ a, VStr (Addr_String a)) <$> l).

Definition frontend_value (fd : FrontendData) : tval :=
  VStruct [("API", addr_values (fd_API fd)); ("Ignition", addr_values (fd_Ignition fd));
           ("Ingress", addr_values (fd_Ingress fd))].

Section haproxy.
Context {HO : Host} {MI : MapIter} {ME : Multierr}.

Definition getHAProxyBackends (ls : LabelSelector) : M (result (list Backend)) :=
  match LabelSelectorAsSelector ls with
  | Err err => mret (Err (Wrapf "failed to convert node selector" err))
  | Ok nodeSelector =>
      t ← tick;
      match client_List_Nodes t nodeSelector with
      | Err err => mret (Err (Wrapf "failed to list nodes" err))
      | Ok nodes => mret (Ok (node_backends nodes))
      end
  end.

Definition haproxyTemplateData (lbconfig : LoadBalancerConfig) (ls : LabelSelector)
    (localBackends : option (list Backend)) : M (result (list (string * tval))) :=
  let '(frontends, err) := getHAProxyFrontends (VirtualAddresses (Spec lbconfig)) in
  match err with
  | Some err => mret (Err (Wrapf "failed to prepare ingress HAProxy frontends" err))
  | None =>
      backends ← (match localBackends with
                  | Some backends => mret (Ok backends)
                  | None => getHAProxyBackends ls
                  end);
      match backends with
      | Err err => mret (Err (Wrapf "failed to prepare ingress HAProxy backends" err))
      | Ok backends =>
          mret (Ok [("Frontends", frontend_value frontends);
                    ("Backends", VList (backend_value <$> backends))])
      end
  end.

Definition RenderHAProxyAPIConfig (lbconfig : LoadBalancerConfig)
    (localBackends : option LocalBackendConfiguration) : M (result string) :=
  templateData ← haproxyTemplateData lbconfig (be_NodeSelector (APIBackend (Spec lbconfig)))
                   (lb_API <$> localBackends);
  match templateData with
  | Err err => mret (Err err)
  | Ok data => mret (renderTemplate (Distribution (Spec lbconfig)) "haproxy.api.cfg.tmpl" data)
  end.

(** [&lbconfig.Spec.IngressBackend.NodeSelector] panics when the optional
    pointer is nil, with local backends too. *)
Definition RenderHAProxyIngressConfig (lbconfig : LoadBalancerConfig)
    (localBackends : option LocalBackendConfiguration) : M (result string) :=
  match IngressBackend (Spec lbconfig) with
  | None => panic "nil pointer dereference: lbconfig.Spec.IngressBackend"
  | Some backend =>
      templateData ← haproxyTemplateData lbconfig (be_NodeSelector backend)
                       (lb_Ingress <$> localBackends);
      match templateData with
      | Err err => mret (Err err)
      | Ok data => mret (renderTemplate (Distribution (Spec lbconfig)) "haproxy.ingress.cfg.tmpl" data)
      end
  end.

End haproxy.
