(* ===== verification/NetworkManager.v ===== *)
(** * NetworkManager, sysctl and firewalld ([network_manager.go], [RenderSysctlConf]
    of [network.go], [firewalld.go]) *)

From S2P Require Import Prelude GoStrings Netip NetipText Types Interfaces Reconciler Vip.
From S2P Require Import Path Host Network Template Templates.

(** The split of the public addresses by family, in order. *)
Fixpoint split_family (vips : list Prefix) (vips4 vips6 : list Prefix) : list Prefix * list Prefix :=
  match vips with
  | [] => (vips4, vips6)
  | vip :: vips =>
      if Is4 (pfx_ip vip) then split_family vips (vips4 ++ [vip]) vips6
      else split_family vips vips4 (vips6 ++ [vip])
  end.

Definition prefix_values (vips : list Prefix) : tval :=
  VList ((λ p, VStr (Prefix_String p)) <$> vips).

Section network_manager.
Context {HO : Host} {MI : MapIter} {ME : Multierr}.

Definition RenderKeepalivedDummyNMConnection (lbconfig : LoadBalancerConfig) : M (result string) :=
  let '(vips, err) := publicVIPs (VirtualAddresses (Spec lbconfig)) in
  match err with
  | Some err => mret (Err (Wrapf "failed to prepare public IPv4 VIPs" err))
  | None =>
      let '(vips4, vips6) := split_family vips [] [] in
      mret (renderTemplate "" "keepalived.nmconnection.tmpl" [
        ("VIPs4", prefix_values vips4); ("VIPs6", prefix_values vips6)])
  end.

Definition RenderPublicNMConnection (r : LoadBalancerConfigReconciler) (_ : LoadBalancerConfig)
    : M (result string) :=
  mac ← macAddressForInterface (PublicInterface r);
  match mac with
  | Err err => mret (Err err)
  | Ok macAddress =>
      mret (renderTemplate "" "public.nmconnection.tmpl" [("MACAddress", VStr macAddress)])
  end.

Definition RenderClusterNetNMConnection (r : LoadBalancerConfigReconciler) (_ : LoadBalancerConfig)
    : M (result string) :=
  iface ← ClusterNetworkInterface r;
  match iface with
  | Err err => mret (Err err)
  | Ok clusterInterface =>
      mac ← macAddressForInterface clusterInterface;
      match mac with
      | Err err => mret (Err err)
      | Ok macAddress =>
          match internalIPs r with
          | Err err => mret (Err (Wrapf "failed to compute internal IPs" err))
          | Ok ips =>
              mret (renderTemplate "" "cluster-net.nmconnection.tmpl" [
                ("MACAddress", VStr macAddress);
                ("IPAddress", VStr (myInternalIP ips (IsPrimary (Keepalived r))))])
          end
      end
  end.

Definition RenderSysctlConf (r : LoadBalancerConfigReconciler) (_ : LoadBalancerConfig)
    : M (result string) :=
  mret (renderTemplate "" "sysctl.conf.tmpl" [("Interface", VStr (PublicInterface r))]).

(** [lbconfig.Spec.VirtualAddresses.NAT.Address] panics when the optional
    address is absent. *)
Definition RenderFirewallDirectRules (r : LoadBalancerConfigReconciler)
    (lbconfig : LoadBalancerConfig) : M (result string) :=
  match vips_NAT (VirtualAddresses (Spec lbconfig)) with
  | None => panic "nil pointer dereference: lbconfig.Spec.VirtualAddresses.NAT"
  | Some nat =>
      match ParsePrefix (va_Address nat) with
      | Err err => mret (Err (Wrapf "failed to parse NAT VIP" err))
      | Ok natVip =>
          mret (renderTemplate "firewalld" "direct.xml.tmpl" [
            ("PublicInterface", VStr (PublicInterface r));
            ("ClusterNetwork", VStr (Prefix_String (ClusterNetwork r)));
            ("NATAddress", VStr (Addr_String (pfx_ip natVip)))])
      end
  end.

Definition RenderFirewallExternalZone (lbconfig : LoadBalancerConfig) : M (result string) :=
  let '(vips, err) := publicVIPs (VirtualAddresses (Spec lbconfig)) in
  match err with
  | Some err => mret (Err (Wrapf "failed to prepare VIPs" err))
  | None =>
      let '(vips4, vips6) := split_family vips [] [] in
      mret (renderTemplate "firewalld" "zone-external.xml.tmpl" [
        ("IPv4", prefix_values vips4); ("IPv6", prefix_values vips6)])
  end.

End network_manager.
