(* ===== verification/Reconcile.v ===== *)
(** * The reconciler ([internal/controller/loadbalancerconfig_controller.go])

    [Reconcile] reads the custom resource and its credentials, renders and
    writes eleven files, reloads the services whose files changed and stores the
    node's status.  The custom resource being worked on is [w_lbc]. *)

From S2P Require Import Prelude GoStrings Netip Types Interfaces Reconciler Vip Path Host.
From S2P Require Import WriteConfig Service Network Keepalived Haproxy NetworkManager.

Local Open Scope Z_scope.

(** The error slice and the set of updated services of [ReconcileLBConfig]. *)
Definition Acc : Type := gset NodeService * list error.

(** [if err != nil { errors = append(errors, err) } else if changed {
    updated[svc] = struct{}{} }] *)
Definition note (svc : NodeService) (res : bool * option error) (acc : Acc) : Acc :=
  let '(updated, errors) := acc in
  match res with
  | (_, Some err) => (updated, errors ++ [err])
  | (changed, None) => (if changed : bool then {[svc]} ∪ updated else updated, errors)
  end.

Section reconcile.
Context {HO : Host} {MI : MapIter} {ME : Multierr} {DI : Digest}.

Definition RenderConfig (r : LoadBalancerConfigReconciler)
    (renderFunc : LoadBalancerConfig → M (result string)) (configFile : string) (mode : Z)
    : M (bool * option error) :=
  lbconfig ← get_lbc;
  config ← renderFunc lbconfig;
  match config with
  | Err err => mret (false, Some err)
  | Ok config => CompareAndWrite r configFile config mode
  end.

Definition InitializeNodeStatus (r : LoadBalancerConfigReconciler) : M (option error) :=
  lbconfig ← get_lbc;
  match Nodes (Status lbconfig) with
  | None => put_lbc (set_Nodes {[Hostname r := Some zeroNodeStatus]} lbconfig)
  | Some _ => mret tt
  end;;
  match internalIPs r with
  | Err err => mret (Some (Wrapf "failed to compute internal IPs" err))
  | Ok ips =>
      publicIP ← primaryIPAddressForInterface (PublicInterface r) None;
      match publicIP with
      | Err err => mret (Some (Wrapf "failed to determine primary IP for public interface" err))
      | Ok publicIP =>
          clusterIface ← ClusterNetworkInterface r;
          match clusterIface with
          | Err err => mret (Some (Wrapf "failed to find cluster network interface" err))
          | Ok clusterIface =>
              privateIP ← primaryIPAddressForInterface clusterIface (Some (ClusterNetwork r));
              match privateIP with
              | Err err =>
                  mret (Some (Wrapf "failed to determine primary IP for cluster network interface" err))
              | Ok privateIP =>
                  lbconfig ← get_lbc;
                  match node_status (Hostname r) lbconfig with
                  | None => panic "nil pointer dereference: lbconfig.Status.Nodes[r.Hostname]"
                  | Some ns =>
                      put_lbc (put_node_status (Hostname r)
                        (set_VrrpIP (myInternalIP ips (IsPrimary (Keepalived r)))
                          (set_PrivateIP privateIP
                            (set_PublicIP publicIP (set_ns_Status NodeStatusConfiguring ns))))
                        lbconfig);;
                      mret None
                  end
              end
          end
      end
  end.

(** A file rendered by a function with more arguments than [RenderConfig] takes. *)
Definition renderAndWrite (r : LoadBalancerConfigReconciler) (svc : NodeService)
    (configFile : string) (mode : Z) (render : LoadBalancerConfig → M (result string)) (acc : Acc)
    : M Acc :=
  lbconfig ← get_lbc;
  data ← render lbconfig;
  match data with
  | Ok data => res ← CompareAndWrite r configFile data mode; mret (note svc res acc)
  | Err err => mret (note svc (false, Some err) acc)
  end.

(** [if changed, err := r.RenderConfig(...); err != nil ... else if changed ...] *)
Definition renderConfigStep (r : LoadBalancerConfigReconciler) (svc : NodeService)
    (configFile : string) (mode : Z) (render : LoadBalancerConfig → M (result string)) (acc : Acc)
    : M Acc :=
  res ← RenderConfig r render configFile mode; mret (note svc res acc).

Definition ReconcileLBConfig (r : LoadBalancerConfigReconciler) (credentialSecret : Secret)
    (localBackends : option LocalBackendConfiguration) : M (gset NodeService * option error) :=
  err ← InitializeNodeStatus r;
  match err with
  | Some err => mret (∅, Some (Wrapf "failed to initialize node status" err))
  | None =>
      acc ← renderAndWrite r HAProxy HAProxyAPIConfigFile 420
              (λ c, RenderHAProxyAPIConfig c localBackends) (∅, []);
      acc ← renderAndWrite r HAProxy HAProxyIngressConfigFile 420
              (λ c, RenderHAProxyIngressConfig c localBackends) acc;
      acc ← renderConfigStep r KeepalivedService KeepalivedConfigFile 420
              (RenderKeepalivedConfig r) acc;
      acc ← renderAndWrite r KeepalivedService FloatyConfigFile 420
              (λ c, mret (RenderFloatyConfig c credentialSecret)) acc;
      acc ← renderConfigStep r Conntrackd ConntrackdConfigFile 420 (RenderConntrackdConfig r) acc;
      acc ← renderConfigStep r NetworkManager PublicNMConnectionFile 384
              (RenderPublicNMConnection r) acc;
      acc ← renderConfigStep r NetworkManager ClusterNetworkNMConnectionFile 384
              (RenderClusterNetNMConnection r) acc;
      acc ← renderConfigStep r NetworkManager KeepalivedDummyNMConnectionFile 384
              RenderKeepalivedDummyNMConnection acc;
      acc ← renderConfigStep r Sysctl SysctlConfFile 420 (RenderSysctlConf r) acc;
      acc ← renderConfigStep r Firewalld FirewalldExternalZone 420 RenderFirewallExternalZone acc;
      acc ← renderConfigStep r Firewalld FirewalldDirectFile 420 (RenderFirewallDirectRules r) acc;
      let '(updated, errors) := acc in
      mret (updated, Combine (Some <$> errors))
  end.

(** The loop over [maps.Keys(updated)]; outside the real root nothing is run. *)
Fixpoint reloadComponents (r : LoadBalancerConfigReconciler) (components : list NodeService)
    (errors : list error) : M (list error) :=
  match components with
  | [] => mret errors
  | component :: components =>
      if negb (bool_decide (ConfigRoot r = "/")) then reloadComponents r components errors
      else
        err ← Reload component;
        reloadComponents r components (errors ++ option_list err)
  end.

Definition Reconcile (r : LoadBalancerConfigReconciler) (req : NamespacedName) : M (option error) :=
  t ← tick;
  match client_Get_LoadBalancerConfig t req with
  | Err err => mret (IgnoreNotFound err)
  | Ok lbconfig =>
      put_lbc lbconfig;;
      t ← tick;
      match client_Get_Secret t {| nn_Namespace := om_Namespace (lbc_Meta lbconfig);
                                   nn_Name := CloudCredentials_Name (Spec lbconfig) |} with
      | Err err => mret (Some (Wrapf "failed to read cloud provider credentials" err))
      | Ok credentialSecret =>
          '(updated, err) ← ReconcileLBConfig r credentialSecret None;
          errors ← reloadComponents r (map_keys updated) (option_list err);
          lbconfig ← get_lbc;
          match node_status (Hostname r) lbconfig with
          | None => panic "nil pointer dereference: lbconfig.Status.Nodes[r.Hostname]"
          | Some ns =>
              put_lbc (put_node_status (Hostname r)
                (set_ns_Status (if (length errors =? 0)%nat then NodeStatusReady
                                else NodeStatusFailed) ns) lbconfig);;
              statuserr ← Status_Update;
              mret (Combine [err; statuserr])
          end
      end
  end.

End reconcile.
