(* ===== verification/Jobs.v ===== *)
(** * The eleven files as jobs

    Every step of [ReconcileLBConfig] renders one file for one service and hands
    it to [CompareAndWrite].  Rendering reads the host and changes nothing; on a
    host whose answers are stable it is a function of the spec. *)

From S2P Require Import Prelude GoStrings Netip Types Interfaces Reconciler Vip Path Host.
From S2P Require Import WriteConfig HostFacts WriteFacts FileNames Service Network.
From S2P Require Import Keepalived Haproxy NetworkManager Reconcile.

Local Open Scope Z_scope.

(** ** Computations that only ask questions *)

(** [m] changes nothing but the number of calls made, and ends in [o]. *)
Definition answers {A : Type} (m : M A) (o : outcome A) : Prop :=
  ∀ w, ∃ t, m w = (o, set_tick t w).

(** [m] changes nothing; its end may depend on when it is called. *)
Definition reads {A : Type} (m : M A) : Prop := ∀ w, ∃ o t, m w = (o, set_tick t w).

Definition stable {A : Type} (m : M A) : Prop := ∃ o, answers m o.

Lemma set_tick_id w : set_tick (w_tick w) w = w.
Proof. by destruct w. Qed.

Lemma stable_reads {A : Type} (m : M A) : stable m → reads m.
Proof. intros [o H] w. destruct (H w) as [t E]. by exists o, t. Qed.

Lemma reads_ret {A : Type} (a : A) : reads (mret a).
Proof. intros w. exists (Done a), (w_tick w). by rewrite set_tick_id. Qed.
Lemma reads_panic {A : Type} why : reads (panic (A := A) why).
Proof. intros w. exists (Panic why), (w_tick w). by rewrite set_tick_id. Qed.
Lemma reads_tick : reads tick.
Proof. intros w. by eexists _, _. Qed.

Lemma reads_bind {A B : Type} (m : M A) (f : A → M B) : reads m → (∀ a, reads (f a)) → reads (m ≫= f).
Proof.
  intros Hm Hf w. rewrite run_bind. destruct (Hm w) as ([a|why] & t & ->); [|by eexists _, _].
  destruct (Hf a (set_tick t w)) as (o & t' & ->). by exists o, t'.
Qed.

Lemma stable_ret {A : Type} (a : A) : stable (mret a).
Proof. exists (Done a). intros w. exists (w_tick w). by rewrite set_tick_id. Qed.
Lemma stable_panic {A : Type} why : stable (panic (A := A) why).
Proof. exists (Panic why). intros w. exists (w_tick w). by rewrite set_tick_id. Qed.

Lemma stable_bind {A B : Type} (m : M A) (f : A → M B) :
  stable m → (∀ a, stable (f a)) → stable (m ≫= f).
Proof.
  intros [[a|why] Hm] Hf.
  - destruct (Hf a) as [o Ho]. exists o. intros w. rewrite run_bind.
    destruct (Hm w) as [t ->]. destruct (Ho (set_tick t w)) as [t' ->]. by exists t'.
  - exists (Panic why). intros w. rewrite run_bind. destruct (Hm w) as [t ->]. by exists t.
Qed.

(** A question whose answer does not depend on the number of the call. *)
Lemma stable_tick {A : Type} (f : nat → M A) : (∀ t, f t = f O) → stable (f O) → stable (tick ≫= f).
Proof.
  intros Hf [o Ho]. exists o. intros w. rewrite run_bind. unfold tick. rewrite Hf.
  destruct (Ho (set_tick (S (w_tick w)) w)) as [t ->]. by exists t.
Qed.

Create HintDb reads.
#[export] Hint Resolve reads_ret reads_panic reads_tick reads_bind : reads.
#[export] Hint Resolve stable_ret stable_panic stable_bind : reads.

(** Go through the cases of a rendering function. *)
Ltac reads_tac :=
  repeat first
    [ progress intros
    | progress cbv beta zeta
    | solve [eauto with reads]
    | apply reads_bind
    | apply stable_bind
    | case_match ].

Section readers.
Context {HO : Host} {MI : MapIter} {ME : Multierr}.

Lemma ClusterNetworkInterface_reads r : reads (ClusterNetworkInterface r).
Proof. unfold ClusterNetworkInterface. reads_tac. Qed.
Lemma macAddress_reads i : reads (macAddressForInterface i).
Proof. unfold macAddressForInterface. reads_tac. Qed.
Lemma primaryIP_reads i n : reads (primaryIPAddressForInterface i n).
Proof. unfold primaryIPAddressForInterface. reads_tac. Qed.
Lemma getHAProxyBackends_reads ls : reads (getHAProxyBackends ls).
Proof. unfold getHAProxyBackends. reads_tac. Qed.

Section stable.
Context {SH : StableHost}.

Lemma ClusterNetworkInterface_stable r : stable (ClusterNetworkInterface r).
Proof.
  apply stable_tick; [intros t; by rewrite (stable_routes t 0)|]. reads_tac.
Qed.
Lemma macAddress_stable i : stable (macAddressForInterface i).
Proof. apply stable_tick; [intros t; by rewrite (stable_iface t 0)|]. reads_tac. Qed.
Lemma primaryIP_stable i n : stable (primaryIPAddressForInterface i n).
Proof.
  apply stable_tick; [intros t; by rewrite (stable_iface t 0)|].
  case_match; [|reads_tac]. apply stable_tick; [intros t; by rewrite (stable_addrs t 0)|]. reads_tac.
Qed.
Lemma getHAProxyBackends_stable ls : stable (getHAProxyBackends ls).
Proof.
  unfold getHAProxyBackends. case_match; [|reads_tac].
  apply stable_tick; [intros t; by rewrite (stable_nodes t 0)|]. reads_tac.
Qed.

End stable.
End readers.

#[export] Hint Resolve ClusterNetworkInterface_reads macAddress_reads primaryIP_reads
  getHAProxyBackends_reads : reads.
#[export] Hint Resolve ClusterNetworkInterface_stable macAddress_stable primaryIP_stable
  getHAProxyBackends_stable : reads.

(** ** Jobs *)

Record Job {HO : Host} : Type := {
  j_svc : NodeService;
  j_file : string;
  j_mode : Z;
  j_render : LoadBalancerConfig → M (result string);
}.

Section jobs.
Context {HO : Host} {MI : MapIter} {ME : Multierr} {DI : Digest}.
Variable r : LoadBalancerConfigReconciler.

(** The files in the order they are written, with the service each belongs to. *)
Definition jobs (credentialSecret : Secret) (localBackends : option LocalBackendConfiguration)
    : list Job := [
  {| j_svc := HAProxy; j_file := HAProxyAPIConfigFile; j_mode := 420;
     j_render c := RenderHAProxyAPIConfig c localBackends |};
  {| j_svc := HAProxy; j_file := HAProxyIngressConfigFile; j_mode := 420;
     j_render c := RenderHAProxyIngressConfig c localBackends |};
  {| j_svc := KeepalivedService; j_file := KeepalivedConfigFile; j_mode := 420;
     j_render := RenderKeepalivedConfig r |};
  {| j_svc := KeepalivedService; j_file := FloatyConfigFile; j_mode := 420;
     j_render c := mret (RenderFloatyConfig c credentialSecret) |};
  {| j_svc := Conntrackd; j_file := ConntrackdConfigFile; j_mode := 420;
     j_render := RenderConntrackdConfig r |};
  {| j_svc := NetworkManager; j_file := PublicNMConnectionFile; j_mode := 384;
     j_render := RenderPublicNMConnection r |};
  {| j_svc := NetworkManager; j_file := ClusterNetworkNMConnectionFile; j_mode := 384;
     j_render := RenderClusterNetNMConnection r |};
  {| j_svc := NetworkManager; j_file := KeepalivedDummyNMConnectionFile; j_mode := 384;
     j_render := RenderKeepalivedDummyNMConnection |};
  {| j_svc := Sysctl; j_file := SysctlConfFile; j_mode := 420; j_render := RenderSysctlConf r |};
  {| j_svc := Firewalld; j_file := FirewalldExternalZone; j_mode := 420;
     j_render := RenderFirewallExternalZone |};
  {| j_svc := Firewalld; j_file := FirewalldDirectFile; j_mode := 420;
     j_render := RenderFirewallDirectRules r |}].

Definition run_job (j : Job) (acc : Acc) : M Acc :=
  renderAndWrite r (j_svc j) (j_file j) (j_mode j) (j_render j) acc.

Fixpoint run_jobs (js : list Job) (acc : Acc) : M Acc :=
  match js with
  | [] => mret acc
  | j :: js => acc ← run_job j acc; run_jobs js acc
  end.

(** The two shapes of step are one. *)
Lemma renderConfigStep_job svc f mode render acc w :
  renderConfigStep r svc f mode render acc w = renderAndWrite r svc f mode render acc w.
Proof.
  unfold renderConfigStep, renderAndWrite, RenderConfig. rewrite !run_bind.
  change (get_lbc w) with (Done (w_lbc w), w). cbv beta iota. rewrite !run_bind.
  destruct (render (w_lbc w) w) as [[[data|err]|why] w1]; reflexivity.
Qed.

(** [ReconcileLBConfig] is the jobs, after the node's status was set up. *)
Lemma ReconcileLBConfig_jobs sec lb w :
  ReconcileLBConfig r sec lb w =
  (err ← InitializeNodeStatus r;
   match err with
   | Some err => mret (∅, Some (Wrapf "failed to initialize node status" err))
   | None =>
       acc ← run_jobs (jobs sec lb) (∅, []);
       mret (acc.1, Combine (Some <$> acc.2))
   end) w.
Proof.
  unfold ReconcileLBConfig. rewrite !run_bind.
  destruct (InitializeNodeStatus r w) as [[[e|]|why] w0]; [done| |done].
  cbn [jobs run_jobs]. unfold run_job. cbn [j_svc j_file j_mode j_render].
  repeat (repeat rewrite run_bind; rewrite ?renderConfigStep_job;
    match goal with |- context [renderAndWrite ?r ?s ?f ?m ?c ?a ?w] =>
      destruct (renderAndWrite r s f m c a w) as [[?acc|?why] ?w']; [|reflexivity] end).
  match goal with |- _ = (let (_, _) := mret ?a _ in _) => by destruct a end.
Qed.

(** What the jobs' renderings rely on. *)
Record job_spec (j : Job) : Prop := {
  job_file : j_file j ∈ managed_files;
  job_svc : j_svc j ∈ services;
  job_reads c : reads (j_render j c);
  job_Spec c c' : Spec c = Spec c' → j_render j c = j_render j c';
  job_stable : StableHost → ∀ c, stable (j_render j c);
}.

Ltac render_tac :=
  reads_tac; unfold RenderHAProxyAPIConfig, RenderHAProxyIngressConfig, haproxyTemplateData,
    RenderKeepalivedConfig, RenderConntrackdConfig, RenderPublicNMConnection,
    RenderClusterNetNMConnection, RenderKeepalivedDummyNMConnection, RenderSysctlConf,
    RenderFirewallExternalZone, RenderFirewallDirectRules; reads_tac.

Ltac spec_tac :=
  intros c c' E; unfold RenderHAProxyAPIConfig, RenderHAProxyIngressConfig, haproxyTemplateData,
    RenderKeepalivedConfig, RenderFloatyConfig, RenderConntrackdConfig, RenderPublicNMConnection,
    RenderClusterNetNMConnection, RenderKeepalivedDummyNMConnection, RenderSysctlConf,
    RenderFirewallExternalZone, RenderFirewallDirectRules; rewrite ?E; reflexivity.

Lemma jobs_spec sec lb : Forall job_spec (jobs sec lb).
Proof.
  repeat (apply Forall_cons; split); [..|apply Forall_nil; done];
    (split; cbn [j_file j_svc j_render];
      [apply (bool_decide_unpack _); vm_compute; done..|render_tac|spec_tac|render_tac]).
Qed.

Lemma jobs_files sec lb : j_file <$> jobs sec lb = managed_files.
Proof. reflexivity. Qed.

End jobs.
