(* ===== verification/JobFacts.v ===== *)
(** * What running the jobs does

    One job in a stable, faultless host either reports the error of its rendering
    or leaves its file in sync; a sequence of jobs on different files does so for
    each of them. *)

From S2P Require Import Prelude GoStrings Netip Types Interfaces Reconciler Vip Path Host.
From S2P Require Import WriteConfig HostFacts WriteFacts FileNames Service Reconcile Jobs.

Lemma answers_det {A : Type} (m : M A) o o' (w : World) : answers m o → answers m o' → o = o'.
Proof. intros H H'. destruct (H w) as [t E], (H' w) as [t' E']. congruence. Qed.

Lemma answers_run {A : Type} (m : M A) o w o' w' : answers m o → m w = (o', w') → o' = o.
Proof. intros H E. destruct (H w) as [t E']. congruence. Qed.

Section facts.
Context {HO : Host} {MI : MapIter} {ME : Multierr} {DI : Digest}.
Variable r : LoadBalancerConfigReconciler.

(** ** Any host *)

Lemma run_job_inv j acc w acc' w' : job_spec j → run_job r j acc w = (Done acc', w') →
  ∃ t res, j_render j (w_lbc w) w = (Done res, set_tick t w) ∧
  match res with
  | Ok data => ∃ cres, CompareAndWrite r (j_file j) data (j_mode j) (set_tick t w) = (Done cres, w')
               ∧ acc' = note (j_svc j) cres acc
  | Err e => w' = set_tick t w ∧ acc' = note (j_svc j) (false, Some e) acc
  end.
Proof.
  intros Hj. unfold run_job, renderAndWrite. rewrite run_bind.
  change (get_lbc w) with (Done (w_lbc w), w). cbv beta iota. rewrite run_bind.
  destruct (job_reads j Hj (w_lbc w) w) as ([res|why] & t & E); rewrite E; [|done].
  intros H. exists t, res. split; [done|]. destruct res as [data|e].
  - rewrite run_bind in H. destruct (CompareAndWrite _ _ _ _ _) as [[cres|] w1] eqn:Ec; [|done].
    injection H as <- <-. by exists cres.
  - by injection H as <- <-.
Qed.

Lemma run_job_frame j acc w acc' w' :
  job_spec j → run_job r j acc w = (Done acc', w') → frame r {[j_file j]} w w'.
Proof.
  intros Hj (t & [data|e] & _ & H)%run_job_inv; [|destruct H as [-> _]; apply frame_tick|done].
  destruct H as (cres & H & _). by apply CompareAndWrite_frame_of in H.
Qed.

Lemma run_jobs_cons j js acc w acc' w' : run_jobs r (j :: js) acc w = (Done acc', w') →
  ∃ acc1 w1, run_job r j acc w = (Done acc1, w1) ∧ run_jobs r js acc1 w1 = (Done acc', w').
Proof.
  simpl. rewrite run_bind. destruct (run_job r j acc w) as [[acc1|why] w1]; [|done]. eauto.
Qed.

Lemma run_jobs_app js js' acc w : run_jobs r (js ++ js') acc w =
  (acc ← run_jobs r js acc; run_jobs r js' acc) w.
Proof.
  revert acc w. induction js as [|j js IH]; intros acc w; [done|]. simpl. rewrite !run_bind.
  destruct (run_job r j acc w) as [[acc1|] w1]; [|done]. by rewrite IH.
Qed.

Lemma run_jobs_frame js acc w acc' w' : Forall job_spec js →
  run_jobs r js acc w = (Done acc', w') → frame r (list_to_set (j_file <$> js)) w w'.
Proof.
  intros H. revert acc w. induction H as [|j js Hj _ IH]; intros acc w Hrun.
  - injection Hrun as _ <-. apply frame_refl.
  - apply run_jobs_cons in Hrun as (acc1 & w1 & E1 & E2).
    apply (frame_trans _ _ _ _ w1); [by eapply run_job_frame|by eapply IH].
Qed.

(** Errors and updated services only grow. *)
Lemma run_job_grows j acc w acc' w' : job_spec j → run_job r j acc w = (Done acc', w') →
  acc.1 ⊆ acc'.1 ∧ ∃ es, acc'.2 = acc.2 ++ es.
Proof.
  intros Hj (t & res & _ & H)%run_job_inv; [|done]. destruct acc as [u es].
  assert (∀ x, u ⊆ (note (j_svc j) x (u, es)).1 ∧ ∃ es', (note (j_svc j) x (u, es)).2 = es ++ es').
  { intros [[] [e|]]; simpl; (split; [set_solver|]);
      first [by exists [e]|by exists []; rewrite app_nil_r]. }
  destruct res; [destruct H as (? & _ & ->)|destruct H as [_ ->]]; done.
Qed.

Lemma run_jobs_grows js acc w acc' w' : Forall job_spec js →
  run_jobs r js acc w = (Done acc', w') → acc.1 ⊆ acc'.1 ∧ ∃ es, acc'.2 = acc.2 ++ es.
Proof.
  intros H. revert acc w. induction H as [|j js Hj _ IH]; intros acc w Hrun.
  - injection Hrun as <- _. split; [done|]. exists []. by rewrite app_nil_r.
  - apply run_jobs_cons in Hrun as (acc1 & w1 & [U1 [e1 E1]]%run_job_grows & [U2 [e2 E2]]%IH);
      [|done]. split; [set_solver|]. exists (e1 ++ e2). by rewrite E2, E1, app_assoc.
Qed.

(** ** A stable host without faults *)

Section quiet.
Context {NF : NoFaults} {SH : StableHost}.

Lemma CompareAndWrite_quiet f data mode w ch err w' :
  CompareAndWrite r f data mode w = (Done (ch, err), w') →
  err = None ∧ (ch = true ↔ ¬ in_sync r f data w).
Proof.
  intros Hrun. assert (in_sync r f data w → ch = false ∧ err = None) as Hs.
  { intros Hs. destruct (CompareAndWrite_skips r f data mode w Hs (reads_ok_quiet r f _))
      as (w1 & E & _). rewrite Hrun in E. by injection E as -> -> _. }
  apply CompareAndWrite_inv in Hrun as (ns & En & Hc). inversion Hc; subst.
  - split; [done|]. split; [done|]. intros H. destruct H. split; [done|]. by eexists.
  - match goal with H : WriteConfig r ?m f data ?d mode ?w1 = _ |- _ =>
      destruct (WriteConfig_quiet r m f data d mode w1) as [w2 E]; rewrite H in E end.
    injection E as -> _. split; [done|]. split; [|done]. by intros _ [? _]%Hs.
Qed.

(** The three ends of a job. *)
Lemma run_job_quiet j acc w acc' w' : job_spec j → run_job r j acc w = (Done acc', w') →
  (∃ e, answers (j_render j (w_lbc w)) (Done (Err e)) ∧ acc' = (acc.1, acc.2 ++ [e])
        ∧ w_files w' = w_files w ∧ w_lbc w' = w_lbc w)
  ∨ (∃ data, answers (j_render j (w_lbc w)) (Done (Ok data)) ∧ in_sync r (j_file j) data w' ∧
       (in_sync r (j_file j) data w ∧ acc' = acc ∨
        ¬ in_sync r (j_file j) data w ∧ acc' = ({[j_svc j]} ∪ acc.1, acc.2))).
Proof.
  intros Hj (t & res & E & H)%run_job_inv; [|done].
  destruct (job_stable j Hj SH (w_lbc w)) as [o Ho].
  pose proof (answers_run _ _ _ _ _ Ho E) as <-. destruct acc as [u es].
  destruct res as [data|e]; [right|left].
  - destruct H as ([ch err] & Hrun & ->). exists data. split; [done|].
    destruct (CompareAndWrite_quiet _ _ _ _ _ _ _ Hrun) as [-> Hch].
    split; [by eapply CompareAndWrite_sync|].
    change (in_sync r (j_file j) data (set_tick t w)) with (in_sync r (j_file j) data w) in Hch.
    destruct ch; simpl; [right|left]; (split; [|done]); [by apply Hch|].
    apply CompareAndWrite_inv in Hrun as (ns & En & Hc). inversion Hc; subst.
    split; [done|]. by eexists.
  - destruct H as [-> ->]. by exists e.
Qed.

(** [j] renders something for the spec of [w]'s custom resource, and it is not
    what the node is configured with. *)
Definition stale (w : World) (j : Job) : Prop :=
  ∃ data, answers (j_render j (w_lbc w)) (Done (Ok data)) ∧ ¬ in_sync r (j_file j) data w.

Definition renders_ok (w : World) (j : Job) : Prop :=
  ∃ data, answers (j_render j (w_lbc w)) (Done (Ok data)).

(** Another job does not change whether [j] is stale. *)
Lemma render_frame j F w w' : job_spec j → frame r F w w' →
  j_render j (w_lbc w') = j_render j (w_lbc w).
Proof. intros Hj (_ & _ & _ & _ & HS & _). by apply job_Spec. Qed.

Lemma frame_sym_sync (F : gset string) f data w w' : f ∈ managed_files →
  (∀ g, g ∈ F → g ∈ managed_files) → f ∉ F → frame r F w w' →
  in_sync r f data w' → in_sync r f data w.
Proof.
  intros Hf HF Hn (Hp & Hr & _) [H1 [content [[m1 C1] [m2 C2]]]]. split; [by rewrite <-Hr|].
  exists content. assert (∀ g, g ∈ F → paths r f ## paths r g) as Hd.
  { intros g Hg. apply managed_paths_apart; [done|by apply HF|set_solver]. }
  split; eexists; (rewrite <-Hp; [done|]); intros g Hg; specialize (Hd g Hg); unfold paths in *;
    set_solver.
Qed.

Lemma stale_frame j (F : gset string) w w' : job_spec j → (∀ g, g ∈ F → g ∈ managed_files) →
  j_file j ∉ F → frame r F w w' → stale w' j ↔ stale w j.
Proof.
  intros Hj HF Hn Hfr. unfold stale. rewrite (render_frame j F w w' Hj Hfr).
  pose proof (job_file j Hj) as Hf.
  split; intros (data & Ha & Hs); exists data; (split; [done|]); intros H; apply Hs.
  - by eapply in_sync_frame.
  - by eapply frame_sym_sync.
Qed.

Lemma renders_ok_frame j (F : gset string) w w' : job_spec j → frame r F w w' →
  renders_ok w' j ↔ renders_ok w j.
Proof. intros Hj Hfr. unfold renders_ok. by rewrite (render_frame j F w w' Hj Hfr). Qed.

Lemma job_files_managed js g : Forall job_spec js →
  g ∈@{gset string} list_to_set (j_file <$> js) → g ∈ managed_files.
Proof.
  rewrite elem_of_list_to_set, list_elem_of_fmap, Forall_forall. intros H (j & -> & Hj).
  by apply job_file, H.
Qed.

(** All jobs: each file whose rendering succeeds ends in sync, the updated
    services are those of the stale files, and there are new errors exactly when
    some rendering failed. *)
Lemma run_jobs_quiet js acc w acc' w' :
  Forall job_spec js → NoDup (j_file <$> js) → run_jobs r js acc w = (Done acc', w') →
  (∀ j data, j ∈ js → answers (j_render j (w_lbc w)) (Done (Ok data)) → in_sync r (j_file j) data w')
  ∧ (∀ s, s ∈ acc'.1 ↔ s ∈ acc.1 ∨ ∃ j, j ∈ js ∧ j_svc j = s ∧ stale w j)
  ∧ (acc'.2 = acc.2 ↔ ∀ j, j ∈ js → renders_ok w j).
Proof.
  intros H. revert acc w. induction H as [|j js Hj Hjs IH]; intros acc w Hnd Hrun.
  { injection Hrun as <- <-. split_and!; [set_solver|set_solver|split; [set_solver|done]]. }
  rewrite fmap_cons, NoDup_cons in Hnd. destruct Hnd as [Hn Hnd].
  apply run_jobs_cons in Hrun as (acc1 & w1 & E1 & E2).
  pose proof (run_job_frame _ _ _ _ _ Hj E1) as F1.
  pose proof (run_jobs_frame _ _ _ _ _ Hjs E2) as F2.
  destruct (IH acc1 w1 Hnd E2) as (S2 & U2 & R2). clear IH.
  pose proof (run_jobs_grows _ _ _ _ _ Hjs E2) as [_ [es Ees]].
  assert (∀ j', j' ∈ js → stale w1 j' ↔ stale w j') as Hst.
  { intros j' Hj'. rewrite Forall_forall in Hjs. apply (stale_frame j' {[j_file j]}); [by apply Hjs| | |done].
    - intros g ->%elem_of_singleton. by apply job_file.
    - intros Ef%elem_of_singleton. apply Hn. rewrite <-Ef. by apply list_elem_of_fmap_2. }
  assert (∀ j', j' ∈ js → renders_ok w1 j' ↔ renders_ok w j') as Hro.
  { intros j' Hj'. rewrite Forall_forall in Hjs. apply (renders_ok_frame j' {[j_file j]}); [by apply Hjs|done]. }
  assert (∀ data, in_sync r (j_file j) data w1 → in_sync r (j_file j) data w') as Hkeep.
  { intros data. apply (in_sync_frame r (list_to_set (j_file <$> js))); [by apply job_file| | |done].
    - intros g Hg. by apply (job_files_managed js).
    - by rewrite elem_of_list_to_set. }
  apply run_job_quiet in E1; [|done]. destruct F1 as (_ & _ & _ & _ & HS & _).
  split_and!.
  - intros j' data [->|Hj']%elem_of_cons Ha.
    + destruct E1 as [(e & He & _)|(d & Hd & Hs & _)].
      * pose proof (answers_det _ _ _ w Ha He). done.
      * pose proof (answers_det _ _ _ w Ha Hd) as [= <-]. by apply Hkeep.
    + apply S2; [done|]. rewrite Forall_forall in Hjs.
      by rewrite (job_Spec j' (Hjs j' Hj') (w_lbc w1) (w_lbc w)).
  - intros s. rewrite U2. setoid_rewrite elem_of_cons.
    destruct E1 as [(e & He & -> & _)|(d & Hd & _ & [[Hs ->]|[Hs ->]])]; simpl.
    + assert (¬ stale w j) by (intros (d & Hd & _); pose proof (answers_det _ _ _ w Hd He); done).
      naive_solver.
    + assert (¬ stale w j) by (intros (d' & Hd' & Hs');
        pose proof (answers_det _ _ _ w Hd Hd') as [= ->]; done). naive_solver.
    + assert (stale w j) by (by exists d). set_solver.
  - setoid_rewrite elem_of_cons.
    destruct E1 as [(e & He & -> & _)|(d & Hd & _ & Hs)].
    + split.
      * simpl in Ees. rewrite Ees. intros E%(f_equal length). rewrite !length_app in E. simpl in E. lia.
      * intros Hall. destruct (Hall j) as [d Hd]; [by left|].
        pose proof (answers_det _ _ _ w Hd He). done.
    + assert (acc1.2 = acc.2) as <- by (by destruct Hs as [[_ ->]|[_ ->]]).
      rewrite R2. assert (renders_ok w j) by (by exists d). naive_solver.
Qed.

Lemma run_job_synced j acc w data : job_spec j →
  answers (j_render j (w_lbc w)) (Done (Ok data)) → in_sync r (j_file j) data w →
  ∃ w', run_job r j acc w = (Done acc, w') ∧ same_state w w'.
Proof.
  intros Hj Ha Hs. unfold run_job, renderAndWrite. rewrite run_bind.
  change (get_lbc w) with (Done (w_lbc w), w). cbv beta iota. rewrite run_bind.
  destruct (Ha w) as [t ->]. rewrite run_bind.
  destruct (CompareAndWrite_skips r (j_file j) data (j_mode j) (set_tick t w) Hs (reads_ok_quiet r _ _))
    as (w' & -> & Hw). exists w'. split; [by destruct acc|done].
Qed.

Lemma run_jobs_synced js acc w : Forall job_spec js →
  (∀ j, j ∈ js → ∃ data, answers (j_render j (w_lbc w)) (Done (Ok data)) ∧ in_sync r (j_file j) data w) →
  ∃ w', run_jobs r js acc w = (Done acc, w') ∧ same_state w w'.
Proof.
  intros H. revert w. induction H as [|j js Hj _ IH]; intros w Hall; [by exists w|].
  destruct (Hall j) as (data & Ha & Hs); [by left|].
  destruct (run_job_synced j acc w data Hj Ha Hs) as (w1 & E1 & Hw1).
  destruct Hw1 as (Hf & Hd & Hl & He).
  destruct (IH w1) as (w2 & E2 & Hw2).
  { intros j' Hj'. destruct (Hall j') as (d & Ha' & Hs'); [by right|]. exists d. rewrite Hl.
    split; [done|]. unfold in_sync. by rewrite Hl, Hf. }
  exists w2. simpl. rewrite run_bind, E1. split; [done|]. etrans; [|done]. done.
Qed.

End quiet.
End facts.
