(* ===== verification/Faults.v ===== *)
(** * Interrupted writes

    On a host whose system calls may fail at any point, and whose failing writes
    may leave any prefix, what [CompareAndWrite] can leave of a configuration file
    and its digest file, and what the next run makes of it. *)

From S2P Require Import Prelude GoStrings Path Types Netip Reconciler Host WriteConfig HostFacts.
From S2P Require Import WriteFacts JobFacts.

Local Open Scope Z_scope.

Lemma substring_full s : String.substring 0 (String.length s) s = s.
Proof. induction s as [|c s IH]; simpl; [done|by rewrite IH]. Qed.

Lemma substring_length n s : String.length (String.substring 0 n s) = Nat.min n (String.length s).
Proof. revert s. induction n as [|n IH]; intros [|c s]; simpl; [done..|by rewrite IH]. Qed.

Lemma substring_empty n : String.substring 0 n "" = "".
Proof. by destruct n. Qed.

Lemma try_inv {HO : Host} msg (m k : M (option error)) w err w' :
  try msg m k w = (Done err, w') → ∃ e w1, m w = (Done e, w1) ∧
  match e with Some _ => w' = w1 ∧ is_Some err | None => k w1 = (Done err, w') end.
Proof.
  unfold try. rewrite run_bind. destruct (m w) as [[[e|]|] w1]; [|by exists None, w1|done].
  mrun. intros [= <- <-]. exists (Some e), w1. done.
Qed.

Section faults.
Context {HO : Host} {DI : Digest}.

(** What a file holds. *)
Definition content_at (fs : gmap string File) (p : string) : option string := f_content <$> fs !! p.

Lemma MkdirAll_files p w e w' : MkdirAll p w = (Done e, w') → w_files w' = w_files w.
Proof. unfold MkdirAll. mrun. by destruct (os_fault _ _); intros [= _ <-]. Qed.

Lemma Close_files p w e w' : Close p w = (Done e, w') → w_files w' = w_files w.
Proof. unfold Close. mrun. by intros [= _ <-]. Qed.

Lemma OpenFile_contents p m w e w' : OpenFile p m w = (Done e, w') →
  match e with
  | Some _ => w_files w' = w_files w
  | None => content_at (w_files w') p = Some ""
            ∧ ∀ q, q ≠ p → content_at (w_files w') q = content_at (w_files w) q
  end.
Proof.
  destruct e as [e|].
  - unfold OpenFile. mrun. destruct (os_fault _ _); [by intros [= _ <-]|].
    case_decide; [done|by intros [= _ <-]].
  - intros [-> _]%OpenFile_ok. unfold content_at. rewrite lookup_insert_eq. split; [done|].
    intros q Hq. by rewrite lookup_insert_ne by congruence.
Qed.

(** A write to an empty file: a prefix, the whole when it succeeds. *)
Lemma WriteString_contents p s w e w' : content_at (w_files w) p = Some "" →
  WriteString p s w = (Done e, w') →
  (∃ n, content_at (w_files w') p = Some (String.substring 0 n s))
  ∧ (e = None → content_at (w_files w') p = Some s)
  ∧ ∀ q, q ≠ p → content_at (w_files w') q = content_at (w_files w) q.
Proof.
  unfold content_at. intros H0. destruct (w_files w !! p) as [[c md]|] eqn:Ep; [|done].
  injection H0 as Hc. simpl in Hc. subst c. unfold WriteString. mrun.
  destruct (os_fault _ _); intros [= <- <-]; simpl; rewrite lookup_alter_eq, Ep; simpl;
    (split; [|split; [done|intros q Hq; by rewrite lookup_alter_ne by congruence]]).
  - by eexists.
  - exists (String.length s). by rewrite substring_full.
Qed.

(** What an attempt to write [content] can leave of [f]: nothing happened, a
    prefix of the contents next to the old digest, or all of the contents next to
    a prefix of its digest. *)
Inductive attempted (r : LoadBalancerConfigReconciler) (f content : string)
    (fs fs' : gmap string File) : Prop :=
| attempted_nothing :
    content_at fs' (configfilePath r f) = content_at fs (configfilePath r f) →
    content_at fs' (digestfilePath r f) = content_at fs (digestfilePath r f) →
    attempted r f content fs fs'
| attempted_content n :
    content_at fs' (configfilePath r f) = Some (String.substring 0 n content) →
    content_at fs' (digestfilePath r f) = content_at fs (digestfilePath r f) →
    attempted r f content fs fs'
| attempted_digest n :
    content_at fs' (configfilePath r f) = Some content →
    content_at fs' (digestfilePath r f) = Some (String.substring 0 n (sha256_hex content)) →
    attempted r f content fs fs'.

Lemma WriteConfig_attempts r meta f data dg mode w err w' :
  WriteConfig r meta f data dg mode w = (Done err, w') →
  attempted r f (final_content r f meta data) (w_files w) (w_files w').
Proof.
  unfold WriteConfig. rewrite RenderFinalConfig_ok. pose proof (cfg_ne_digest r f) as Hne.
  set (c := final_content r f meta data). intros H.
  apply try_inv in H as (e1 & w1 & F1%MkdirAll_files & H).
  destruct e1; [destruct H as [-> _]; apply attempted_nothing; by rewrite F1|].
  apply try_inv in H as (e2 & w2 & F2%OpenFile_contents & H).
  destruct e2; [destruct H as [-> _]; apply attempted_nothing; by rewrite F2, F1|]. destruct F2 as [F2 G2].
  assert (content_at (w_files w2) (digestfilePath r f) = content_at (w_files w) (digestfilePath r f)) as D2
    by (rewrite G2 by congruence; by rewrite F1).
  apply try_inv in H as (e3 & w3 & F3 & H).
  destruct (WriteString_contents _ _ _ _ _ F2 F3) as ([n Fn] & Fall & G3).
  assert (content_at (w_files w3) (digestfilePath r f) = content_at (w_files w) (digestfilePath r f)) as D3
    by (by rewrite G3 by congruence).
  destruct e3; [destruct H as [-> _]; by apply (attempted_content _ _ _ _ _ n)|].
  specialize (Fall eq_refl).
  apply try_inv in H as (e4 & w4 & F4%Close_files & H). rewrite <-F4 in Fall, D3.
  assert (attempted r f c (w_files w) (w_files w4)) as A4.
  { apply (attempted_content _ _ _ _ _ (String.length c)); [by rewrite substring_full|done]. }
  destruct e4; [by destruct H as [-> _]|].
  apply try_inv in H as (e5 & w5 & F5%OpenFile_contents & H).
  destruct e5; [destruct H as [-> _]; by rewrite F5|]. destruct F5 as [F5 G5].
  rewrite <-(G5 (configfilePath r f)) in Fall by congruence.
  apply try_inv in H as (e6 & w6 & F6 & H).
  destruct (WriteString_contents _ _ _ _ _ F5 F6) as ([m Fm] & _ & G6).
  rewrite <-(G6 (configfilePath r f)) in Fall by congruence.
  assert (attempted r f c (w_files w) (w_files w6)) as A6 by by apply (attempted_digest _ _ _ _ _ m).
  destruct e6; [by destruct H as [-> _]|].
  apply try_inv in H as (e7 & w7 & F7%Close_files & H). destruct e7.
  - destruct H as [-> _]. by rewrite F7.
  - mrun_in H. injection H as _ <-. by rewrite F7.
Qed.

(** [CompareAndWrite] on any host: skipped, or attempted. *)
Lemma CompareAndWrite_attempts r f data mode w res w' :
  CompareAndWrite r f data mode w = (Done res, w') →
  recorded r f (w_lbc w') = Some (sha256_hex data)
  ∧ has_node r w' ∧ lbc_Meta (w_lbc w') = lbc_Meta (w_lbc w)
  ∧ attempted r f (final_content r f (lbc_Meta (w_lbc w)) data) (w_files w) (w_files w').
Proof.
  intros H. pose proof (CompareAndWrite_frame_of _ _ _ _ _ _ _ H) as Hfr.
  pose proof (CompareAndWrite_done_node _ _ _ _ _ _ _ H) as Hn.
  pose proof (frame_has_node _ _ _ _ Hfr Hn) as Hn'. destruct Hfr as (_ & _ & _ & _ & _ & HM & _).
  apply CompareAndWrite_inv in H as (ns & En & Hc). split; [by eapply cmp_result_recorded|].
  split; [done|]. split; [done|]. destruct Hc as [w1 content _ _ (Hf & _)|w1 w2 err (Hf & _) Hw].
  - apply attempted_nothing; by rewrite Hf.
  - apply WriteConfig_attempts in Hw. by rewrite Hf in Hw.
Qed.

(** The digest file vouches for what the configuration file holds. *)
Definition vouched (r : LoadBalancerConfigReconciler) (f : string) (fs : gmap string File) : Prop :=
  ∃ content, consistent r f content fs.

Lemma consistent_contents r f content fs : consistent r f content fs ↔
  content_at fs (configfilePath r f) = Some content
  ∧ content_at fs (digestfilePath r f) = Some (sha256_hex content).
Proof.
  unfold consistent, content_at. split.
  - intros [[m1 ->] [m2 ->]]. done.
  - intros [H1 H2]. split.
    + destruct (_ !! configfilePath r f) as [[c m]|]; [|done]. injection H1 as ->. by eexists.
    + destruct (_ !! digestfilePath r f) as [[c m]|]; [|done]. injection H2 as ->. by eexists.
Qed.

(** An attempt that leaves the two files in agreement either finished, or left
    the old digest file in place. *)
Lemma attempted_vouched r f content c fs fs' : attempted r f content fs fs' → consistent r f c fs' →
  c = content ∨ content_at fs' (digestfilePath r f) = content_at fs (digestfilePath r f).
Proof.
  intros Ha [H1 H2]%consistent_contents. destruct Ha as [_ Hd|n _ Hd|n Hc Hd]; [by right..|].
  left. congruence.
Qed.

End faults.

(** C12 (interrupted writes): whatever fails, and wherever, when a file is written
    on some host, the next run with the same data on a host without faults leaves
    the file complete with what should be in it, unless the digest file of before
    is still there and agrees with what the first attempt left (the old contents
    when it was refused: the lost update; or a prefix of the new contents with the
    digest of the old). *)
Theorem interrupted_write_completed (DI : Digest) (HO1 HO2 : Host) (NF : @NoFaults HO2)
  (r : LoadBalancerConfigReconciler) (f data : string) (mode : Z) (w w1 : World)
  (res : bool * option error)
  (Hrun : CompareAndWrite (HO := HO1) r f data mode w = (Done res, w1)) :
  let content := final_content r f (lbc_Meta (w_lbc w)) data in
  ∃ ch w2, CompareAndWrite (HO := HO2) r f data mode w1 = (Done (ch, None), w2)
  ∧ (consistent r f content (w_files w2)
     ∨ ch = false ∧ w_files w2 = w_files w1
       ∧ content_at (w_files w2) (digestfilePath r f) = content_at (w_files w) (digestfilePath r f)
       ∧ ∃ old, content_at (w_files w2) (configfilePath r f) = Some old
           ∧ content_at (w_files w) (digestfilePath r f) = Some (sha256_hex old)
           ∧ (content_at (w_files w) (configfilePath r f) = Some old
              ∨ ∃ n, old = String.substring 0 n content)).
Proof.
  intros content. destruct (CompareAndWrite_attempts _ _ _ _ _ _ _ Hrun) as (Hrec & [ns En] & HM & Ha).
  destruct (CompareAndWrite_cases (HO := HO2) r f data mode ns w1 En) as ([ch err] & w2 & E2 & Hc).
  destruct (CompareAndWrite_quiet _ _ _ _ _ _ _ _ E2) as [-> _].
  exists ch, w2. split; [done|]. apply cmp_result_disk in Hc. destruct ch.
  - left. rewrite Hc, HM. apply written_consistent.
  - destruct Hc as [Hf [c Hcons]]. rewrite Hf.
    destruct (attempted_vouched _ _ _ _ _ _ Ha Hcons) as [->|Hd]; [by left|]. right.
    apply consistent_contents in Hcons as [H1 H2]. split_and!; [done..|]. exists c.
    split; [done|]. split; [congruence|]. destruct Ha as [Hc _|n Hc _|n Hc _].
    + left. congruence.
    + right. exists n. unfold content. congruence.
    + right. exists (String.length content). rewrite substring_full. unfold content. congruence.
Qed.
