(* ===== verification/ReconcileFacts.v ===== *)
(** * Theorems about [ReconcileLBConfig]

    Which files end in sync, which services are reported as updated, when a
    second run has nothing to do, and the inputs on which the run panics. *)

From S2P Require Import Prelude GoStrings Netip Types Interfaces Reconciler Vip Path Host.
From S2P Require Import WriteConfig HostFacts WriteFacts FileNames Service Network.
From S2P Require Import Keepalived Haproxy NetworkManager Reconcile Jobs JobFacts.

Section facts.
Context {HO : Host} {MI : MapIter} {ME : Multierr} {DI : Digest}.
Variable r : LoadBalancerConfigReconciler.

(** ** The node's status *)

(** The custom resource after a nil status map was replaced. *)
Definition ensure_nodes (c : LoadBalancerConfig) : LoadBalancerConfig :=
  match Nodes (Status c) with
  | None => set_Nodes {[Hostname r := Some zeroNodeStatus]} c
  | Some _ => c
  end.

(** The public, private and VRRP address, as [InitializeNodeStatus] finds them. *)
Definition init_values : M (result (string * string * string)) :=
  match internalIPs r with
  | Err err => mret (Err (Wrapf "failed to compute internal IPs" err))
  | Ok ips =>
      publicIP ← primaryIPAddressForInterface (PublicInterface r) None;
      match publicIP with
      | Err err => mret (Err (Wrapf "failed to determine primary IP for public interface" err))
      | Ok publicIP =>
          clusterIface ← ClusterNetworkInterface r;
          match clusterIface with
          | Err err => mret (Err (Wrapf "failed to find cluster network interface" err))
          | Ok clusterIface =>
              privateIP ← primaryIPAddressForInterface clusterIface (Some (ClusterNetwork r));
              mret (match privateIP with
                    | Err err => Err (Wrapf
                        "failed to determine primary IP for cluster network interface" err)
                    | Ok privateIP =>
                        Ok (publicIP, privateIP, myInternalIP ips (IsPrimary (Keepalived r)))
                    end)
          end
      end
  end.

Definition init_ns (v : string * string * string) (ns : LoadBalancerNodeStatus)
    : LoadBalancerNodeStatus :=
  set_VrrpIP v.2 (set_PrivateIP v.1.2 (set_PublicIP v.1.1 (set_ns_Status NodeStatusConfiguring ns))).

Lemma init_values_reads : reads init_values.
Proof. unfold init_values. reads_tac. Qed.
Lemma init_values_stable {SH : StableHost} : stable init_values.
Proof. unfold init_values. reads_tac. Qed.

Lemma InitializeNodeStatus_values w : InitializeNodeStatus r w =
  (v ← init_values;
   match v with
   | Err e => mret (Some e)
   | Ok v =>
       lbconfig ← get_lbc;
       match node_status (Hostname r) lbconfig with
       | None => panic "nil pointer dereference: lbconfig.Status.Nodes[r.Hostname]"
       | Some ns => put_lbc (put_node_status (Hostname r) (init_ns v ns) lbconfig);; mret None
       end
   end) (set_lbc (ensure_nodes (w_lbc w)) w).
Proof.
  unfold InitializeNodeStatus. rewrite run_bind. change (get_lbc w) with (Done (w_lbc w), w).
  cbv beta iota. rewrite run_bind. set (w0 := set_lbc _ w).
  replace ((match Nodes (Status (w_lbc w)) with None => _ | Some _ => _ end) w)
    with (Done tt, w0).
  2: { unfold w0, ensure_nodes. destruct (Nodes _); [|done]. by destruct w. }
  unfold init_values. destruct (internalIPs r); [|done]. rewrite !run_bind.
  destruct (primaryIPAddressForInterface _ _ _) as [[[?|?]|?] w1]; [|done..].
  rewrite !run_bind. destruct (ClusterNetworkInterface _ _) as [[[?|?]|?] w2]; [|done..].
  rewrite !run_bind. destruct (primaryIPAddressForInterface _ _ w2) as [[[?|?]|?] w3]; reflexivity.
Qed.

(** A successful initialisation. *)
Lemma InitializeNodeStatus_inv w w' : InitializeNodeStatus r w = (Done None, w') →
  ∃ v t ns, init_values (set_lbc (ensure_nodes (w_lbc w)) w)
              = (Done (Ok v), set_tick t (set_lbc (ensure_nodes (w_lbc w)) w))
  ∧ node_status (Hostname r) (ensure_nodes (w_lbc w)) = Some ns
  ∧ w' = set_tick t (set_lbc (put_node_status (Hostname r) (init_ns v ns)
                               (ensure_nodes (w_lbc w))) w).
Proof.
  rewrite InitializeNodeStatus_values, run_bind.
  destruct (init_values_reads (set_lbc (ensure_nodes (w_lbc w)) w)) as ([[v|e]|why] & t & ->);
    [|done..]. rewrite run_bind. mrun.
  destruct (node_status _ _) as [ns|] eqn:En; [|done]. intros [= <-]. by exists v, t, ns.
Qed.

Lemma InitializeNodeStatus_no_entry w : node_status (Hostname r) (ensure_nodes (w_lbc w)) = None →
  ∃ w', w_lbc w' = ensure_nodes (w_lbc w) ∧
    ((∃ e, InitializeNodeStatus r w = (Done (Some e), w')) ∨
     ∃ why, InitializeNodeStatus r w = (Panic why, w')).
Proof.
  intros En. rewrite InitializeNodeStatus_values, run_bind.
  destruct (init_values_reads (set_lbc (ensure_nodes (w_lbc w)) w)) as ([[v|e]|why] & t & ->).
  - rewrite run_bind. mrun. rewrite En. eexists. split; [|right; by eexists]. done.
  - eexists. split; [|left; by eexists]. done.
  - eexists. split; [|right; by eexists]. done.
Qed.

Lemma ensure_nodes_Spec c : Spec (ensure_nodes c) = Spec c.
Proof. unfold ensure_nodes. by case_match. Qed.
Lemma ensure_nodes_Meta c : lbc_Meta (ensure_nodes c) = lbc_Meta c.
Proof. unfold ensure_nodes. by case_match. Qed.

Lemma ensure_nodes_recorded f c : recorded r f (ensure_nodes c) = recorded r f c.
Proof.
  unfold ensure_nodes, recorded, node_status. destruct (Nodes (Status c)) eqn:E; rewrite ?E; [done|].
  simpl. by rewrite lookup_singleton_eq.
Qed.

(** Initialisation leaves the disk and everything the jobs look at alone. *)
Lemma InitializeNodeStatus_keeps w w' : InitializeNodeStatus r w = (Done None, w') →
  w_files w' = w_files w ∧ w_dirs w' = w_dirs w ∧ w_events w' = w_events w
  ∧ Spec (w_lbc w') = Spec (w_lbc w) ∧ lbc_Meta (w_lbc w') = lbc_Meta (w_lbc w)
  ∧ (∀ f, recorded r f (w_lbc w') = recorded r f (w_lbc w)).
Proof.
  intros (v & t & ns & _ & En & ->)%InitializeNodeStatus_inv. simpl. autorewrite with lbc.
  rewrite ensure_nodes_Spec, ensure_nodes_Meta. split_and!; [done..|].
  intros f. rewrite <-(ensure_nodes_recorded f (w_lbc w)). unfold recorded.
  by rewrite (node_status_put _ _ _ _ En), En.
Qed.

Lemma init_in_sync f data w w' : InitializeNodeStatus r w = (Done None, w') →
  in_sync r f data w' ↔ in_sync r f data w.
Proof.
  intros (Hf & _ & _ & _ & _ & Hr)%InitializeNodeStatus_keeps. unfold in_sync. by rewrite Hf, Hr.
Qed.

Lemma ReconcileLBConfig_inv sec lb w w0 u err w' :
  InitializeNodeStatus r w = (Done None, w0) →
  ReconcileLBConfig r sec lb w = (Done (u, err), w') →
  ∃ es, run_jobs r (jobs r sec lb) (∅, []) w0 = (Done (u, es), w') ∧ err = Combine (Some <$> es).
Proof.
  intros E. rewrite ReconcileLBConfig_jobs, run_bind, E, run_bind.
  destruct (run_jobs _ _ _ _) as [[[u1 es]|] w1]; [|done]. intros [= <- <- <-]. by exists es.
Qed.

Lemma jobs_NoDup sec lb : NoDup (j_file <$> jobs r sec lb).
Proof. rewrite jobs_files. apply (bool_decide_unpack _). by vm_compute. Qed.

(** The jobs look at the same spec before and after initialisation. *)
Lemma jobs_init_render sec lb j w w0 : InitializeNodeStatus r w = (Done None, w0) →
  j ∈ jobs r sec lb → j_render j (w_lbc w0) = j_render j (w_lbc w).
Proof.
  intros (_ & _ & _ & HS & _)%InitializeNodeStatus_keeps Hj.
  pose proof (jobs_spec r sec lb) as H. rewrite Forall_forall in H. by apply (job_Spec j (H j Hj)).
Qed.

(** ** A run that changed a file says so *)

Lemma run_job_changed j acc w acc' w' : job_spec j → run_job r j acc w = (Done acc', w') →
  acc'.2 = acc.2 → ∀ p, w_files w' !! p ≠ w_files w !! p → p ∈ paths r (j_file j) ∧ j_svc j ∈ acc'.1.
Proof.
  intros Hj Hrun He p Hp. pose proof (run_job_frame _ _ _ _ _ _ Hj Hrun) as (Hfr & _).
  split.
  { destruct (decide (p ∈ paths r (j_file j))); [done|]. destruct Hp. apply Hfr. set_solver. }
  destruct acc as [u es]. apply run_job_inv in Hrun as (t & [data|e] & _ & H); [|..|done].
  - destruct H as ([ch [e|]] & Hc & ->); simpl in He.
    + apply (f_equal length) in He. rewrite length_app in He. simpl in He. lia.
    + apply CompareAndWrite_inv in Hc as (ns & _ & Hc%cmp_result_disk).
      destruct ch; simpl; [set_solver|]. by destruct Hc as [Hc _], Hp; rewrite Hc.
  - destruct H as [-> ->]. by destruct Hp.
Qed.

Lemma run_jobs_changed js acc w acc' w' : Forall job_spec js →
  run_jobs r js acc w = (Done acc', w') → acc'.2 = acc.2 →
  ∀ p, w_files w' !! p ≠ w_files w !! p → ∃ j, j ∈ js ∧ p ∈ paths r (j_file j) ∧ j_svc j ∈ acc'.1.
Proof.
  intros H. revert acc w. induction H as [|j js Hj Hjs IH]; intros acc w Hrun He p Hp.
  { by injection Hrun as _ <-. }
  apply run_jobs_cons in Hrun as (acc1 & w1 & E1 & E2).
  pose proof (run_job_grows _ _ _ _ _ _ Hj E1) as [U1 [e1 He1]].
  pose proof (run_jobs_grows _ _ _ _ _ _ Hjs E2) as [U2 [e2 He2]].
  assert (acc1.2 = acc.2 ∧ acc'.2 = acc1.2) as [Ea Eb].
  { rewrite He2, He1, <-app_assoc in He. apply (f_equal length) in He as Hl.
    rewrite !length_app in Hl. destruct e1, e2; simpl in Hl; try lia.
    by rewrite He2, He1, !app_nil_r. }
  destruct (decide (w_files w1 !! p = w_files w !! p)) as [Eq|Hne].
  - destruct (IH acc1 w1 E2 Eb p) as (j' & Hj' & H'); [congruence|]. exists j'.
    split; [by right|done].
  - destruct (run_job_changed _ _ _ _ _ Hj E1 Ea p Hne) as [Hpj Hu]. exists j.
    split; [by left|]. split; [done|]. by apply U2.
Qed.

Lemma run_jobs_services js acc w acc' w' : Forall job_spec js →
  run_jobs r js acc w = (Done acc', w') → (∀ s, s ∈ acc.1 → s ∈ services) →
  ∀ s, s ∈ acc'.1 → s ∈ services.
Proof.
  intros H. revert acc w. induction H as [|j js Hj Hjs IH]; intros acc w Hrun Ha.
  { by injection Hrun as <- _. }
  apply run_jobs_cons in Hrun as (acc1 & w1 & E1 & E2). apply (IH acc1 w1 E2).
  apply run_job_inv in E1 as (t & res & _ & E1); [|done]. destruct acc as [u es].
  assert (∀ x, ∀ s, s ∈ (note (j_svc j) x (u, es)).1 → s ∈ services) as Hn.
  { pose proof (job_svc j Hj). intros [[] [e|]] s; simpl in *; set_solver. }
  destruct res; [destruct E1 as (? & _ & ->)|destruct E1 as [_ ->]]; apply Hn.
Qed.

(** ** Every end of the run *)

Lemma ReconcileLBConfig_done sec lb w u err w' :
  ReconcileLBConfig r sec lb w = (Done (u, err), w') →
  (u = ∅ ∧ (∃ e, err = Some (Wrapf "failed to initialize node status" e)) ∧
   w_files w' = w_files w ∧ w_events w' = w_events w)
  ∨ ∃ w0 es, InitializeNodeStatus r w = (Done None, w0)
    ∧ run_jobs r (jobs r sec lb) (∅, []) w0 = (Done (u, es), w') ∧ err = Combine (Some <$> es).
Proof.
  intros Hrun. destruct (InitializeNodeStatus r w) as [[[e|]|why] w0] eqn:E.
  - left. revert Hrun. rewrite ReconcileLBConfig_jobs, run_bind, E. intros [= <- <- <-].
    split; [done|]. split; [by eexists|]. revert E. rewrite InitializeNodeStatus_values, run_bind.
    destruct (init_values_reads (set_lbc (ensure_nodes (w_lbc w)) w)) as ([[v|e']|why] & t & ->).
    + rewrite run_bind. mrun. by destruct (node_status _ _).
    + by intros [= _ <-].
    + done.
  - right. destruct (ReconcileLBConfig_inv _ _ _ _ _ _ _ E Hrun) as (es & H & ->). by exists w0, es.
  - revert Hrun. by rewrite ReconcileLBConfig_jobs, run_bind, E.
Qed.

Lemma ReconcileLBConfig_events sec lb w u err w' :
  ReconcileLBConfig r sec lb w = (Done (u, err), w') → w_events w' = w_events w.
Proof.
  intros [(_ & _ & _ & H)|(w0 & es & Hi & Hj & _)]%ReconcileLBConfig_done; [done|].
  apply InitializeNodeStatus_keeps in Hi as (_ & _ & <- & _).
  by apply run_jobs_frame in Hj as (_ & _ & _ & _ & _ & _ & Hj); [|apply jobs_spec].
Qed.

Lemma ReconcileLBConfig_services sec lb w u err w' s :
  ReconcileLBConfig r sec lb w = (Done (u, err), w') → s ∈ u → s ∈ services.
Proof.
  intros [(-> & _)|(w0 & es & _ & Hj & _)]%ReconcileLBConfig_done; [set_solver|].
  eapply (run_jobs_services _ _ _ _ _ (jobs_spec r sec lb) Hj). set_solver.
Qed.

(** A run without errors: everything was rendered and is in sync. *)
Lemma ReconcileLBConfig_ok {NF : NoFaults} {SH : StableHost} sec lb w u w' :
  ReconcileLBConfig r sec lb w = (Done (u, None), w') →
  ∃ v n, answers (init_values) (Done (Ok v))
  ∧ node_status (Hostname r) (w_lbc w') = Some n ∧ init_ns v n = n
  ∧ ∀ j, j ∈ jobs r sec lb →
      ∃ data, answers (j_render j (w_lbc w')) (Done (Ok data)) ∧ in_sync r (j_file j) data w'.
Proof.
  intros [(_ & [e ?] & _)|(w0 & es & Hi & Hj & He)]%ReconcileLBConfig_done; [done|].
  symmetry in He. apply Combine_slice in He as ->.
  pose proof (run_jobs_quiet _ _ _ _ _ _ (jobs_spec r sec lb) (jobs_NoDup sec lb) Hj)
    as (Hsync & _ & Hok). simpl in Hok. destruct Hok as [Hok _]. specialize (Hok eq_refl).
  pose proof (run_jobs_frame _ _ _ _ _ _ (jobs_spec r sec lb) Hj) as Hfr.
  apply InitializeNodeStatus_inv in Hi as (v & t & ns & Hv & En & ->).
  destruct init_values_stable as [o Ho]. pose proof (answers_run _ _ _ _ _ Ho Hv) as <-.
  pose proof Hfr as (_ & _ & _ & Hn & _).
  destruct (Hn (init_ns v ns)) as [h Hh]; [by cbn [w_lbc set_tick set_lbc]; rewrite (node_status_put _ _ _ _ En)|].
  assert (∃ n, node_status (Hostname r) (w_lbc w') = Some n ∧ init_ns v n = n) as (n & En' & Hv').
  { destruct Hh as [-> | ->]; [by eexists|]. exists (init_ns v ns). split; [|done].
    cbn [w_lbc set_tick set_lbc]. by rewrite (node_status_put _ _ _ _ En). }
  exists v, n. split_and!; [done..|]. intros j Hj'. destruct (Hok j Hj') as [data Hd].
  exists data. split; [|by apply Hsync].
  pose proof (jobs_spec r sec lb) as H. rewrite Forall_forall in H.
  by rewrite (render_frame _ _ _ _ _ (H j Hj') Hfr).
Qed.

(** A run that has nothing to do. *)
Lemma ReconcileLBConfig_noop {NF : NoFaults} sec lb w v n :
  answers init_values (Done (Ok v)) → node_status (Hostname r) (w_lbc w) = Some n →
  (∀ j, j ∈ jobs r sec lb →
     ∃ data, answers (j_render j (w_lbc w)) (Done (Ok data)) ∧ in_sync r (j_file j) data w) →
  ∃ w', ReconcileLBConfig r sec lb w = (Done (∅, None), w')
  ∧ same_state (set_lbc (put_node_status (Hostname r) (init_ns v n) (w_lbc w)) w) w'.
Proof.
  intros Hv En Hall. assert (ensure_nodes (w_lbc w) = w_lbc w) as Een.
  { unfold ensure_nodes. revert En. unfold node_status. by case_match. }
  assert (∃ t, InitializeNodeStatus r w = (Done None,
    set_tick t (set_lbc (put_node_status (Hostname r) (init_ns v n) (w_lbc w)) w))) as [t Hi].
  { rewrite InitializeNodeStatus_values, Een, run_bind.
    destruct (Hv (set_lbc (w_lbc w) w)) as [t ->]. rewrite run_bind. mrun. rewrite En. by exists t. }
  destruct (run_jobs_synced r (jobs r sec lb) (∅, [])
    (set_tick t (set_lbc (put_node_status (Hostname r) (init_ns v n) (w_lbc w)) w))
    (jobs_spec r sec lb)) as (w' & Ej & Hs).
  { intros j Hj. destruct (Hall j Hj) as (data & Ha & Hs). exists data.
    rewrite (jobs_init_render _ _ _ _ _ Hi Hj). split; [done|]. by rewrite (init_in_sync _ _ _ _ Hi). }
  exists w'. rewrite ReconcileLBConfig_jobs, run_bind, Hi, run_bind, Ej. split; [|exact Hs].
  simpl. unfold mret, ST_ret. by rewrite (proj2 (Combine_slice [])).
Qed.

End facts.
