(* ===== verification/Convergence.v ===== *)
(** * What [Reconcile] and [ReconcileLBConfig] guarantee

    The theorems about whole runs: which files end in sync, which services are
    reloaded, when a repeated run has nothing to do, which status is sent, and
    the inputs on which the controller panics. *)

From S2P Require Import Prelude GoStrings Netip Types Interfaces Reconciler Vip Path Host.
From S2P Require Import WriteConfig HostFacts WriteFacts FileNames Service Network.
From S2P Require Import Keepalived Haproxy NetworkManager Reconcile Jobs JobFacts ReconcileFacts.

Local Open Scope Z_scope.

(** ** [ReconcileLBConfig] *)

Section lbconfig.
Context {HO : Host} {MI : MapIter} {ME : Multierr} {DI : Digest}.

(** Errors are isolated.  On a host that answers stably and whose system
    calls succeed, every file whose rendering succeeds ends in sync with what
    was rendered, whatever became of the others, and the run reports an error
    exactly when some rendering failed. *)
Theorem ReconcileLBConfig_in_sync {NF : NoFaults} {SH : StableHost}
  (r : LoadBalancerConfigReconciler) (sec : Secret) (lb : option LocalBackendConfiguration)
  (w w0 w' : World) (u : gset NodeService) (err : option error)
  (Hinit : InitializeNodeStatus r w = (Done None, w0))
  (Hrun : ReconcileLBConfig r sec lb w = (Done (u, err), w')) :
  (∀ j data, j ∈ jobs r sec lb → answers (j_render j (w_lbc w)) (Done (Ok data)) →
     in_sync r (j_file j) data w')
  ∧ (err = None ↔ ∀ j, j ∈ jobs r sec lb →
       ∃ data, answers (j_render j (w_lbc w)) (Done (Ok data))).
Proof.
  destruct (ReconcileLBConfig_inv _ _ _ _ _ _ _ _ Hinit Hrun) as (es & Hj & ->).
  destruct (run_jobs_quiet _ _ _ _ _ _ (jobs_spec r sec lb) (jobs_NoDup r sec lb) Hj)
    as (Hs & _ & He). simpl in He. split.
  - intros j data Hin Ha. apply Hs; [done|]. by rewrite (jobs_init_render r sec lb _ _ _ Hinit).
  - rewrite Combine_slice, He. unfold renders_ok. split; intros H j Hin; specialize (H j Hin);
      by rewrite (jobs_init_render r sec lb _ _ _ Hinit Hin) in *.
Qed.

(** C10: no missed and no spurious reload.  On such a host a service is reported
    as updated exactly when one of its files could be rendered and was not
    already in sync, in the custom resource and on disk, with what was rendered. *)
Theorem ReconcileLBConfig_updated_iff {NF : NoFaults} {SH : StableHost}
  (r : LoadBalancerConfigReconciler) (sec : Secret) (lb : option LocalBackendConfiguration)
  (w w0 w' : World) (u : gset NodeService) (err : option error) (s : NodeService)
  (Hinit : InitializeNodeStatus r w = (Done None, w0))
  (Hrun : ReconcileLBConfig r sec lb w = (Done (u, err), w')) :
  s ∈ u ↔ ∃ j data, j ∈ jobs r sec lb ∧ j_svc j = s
    ∧ answers (j_render j (w_lbc w)) (Done (Ok data)) ∧ ¬ in_sync r (j_file j) data w.
Proof.
  destruct (ReconcileLBConfig_inv _ _ _ _ _ _ _ _ Hinit Hrun) as (es & Hj & ->).
  destruct (run_jobs_quiet _ _ _ _ _ _ (jobs_spec r sec lb) (jobs_NoDup r sec lb) Hj)
    as (_ & Hu & _). rewrite Hu. unfold stale. split.
  - intros [?%elem_of_empty|(j & Hin & <- & data & Ha & Hs)]; [done|]. exists j, data.
    rewrite (jobs_init_render r sec lb _ _ _ Hinit Hin) in Ha. by rewrite (init_in_sync _ _ _ _ _ Hinit) in Hs.
  - intros (j & data & Hin & <- & Ha & Hs). right. exists j. split_and!; [done..|]. exists data.
    rewrite (jobs_init_render r sec lb _ _ _ Hinit Hin). by rewrite (init_in_sync _ _ _ _ _ Hinit).
Qed.

(** C11: whatever the host does, a run that reports no error reports the service
    of every file it changed on disk, and changed only managed files. *)
Theorem ReconcileLBConfig_reports_changes
  (r : LoadBalancerConfigReconciler) (sec : Secret) (lb : option LocalBackendConfiguration)
  (w w' : World) (u : gset NodeService) (p : string)
  (Hrun : ReconcileLBConfig r sec lb w = (Done (u, None), w'))
  (Hp : w_files w' !! p ≠ w_files w !! p) :
  ∃ j, j ∈ jobs r sec lb ∧ p ∈ paths r (j_file j) ∧ j_svc j ∈ u.
Proof.
  apply ReconcileLBConfig_done in Hrun as [(_ & [e ?] & _)|(w0 & es & Hi & Hj & He)]; [done|].
  symmetry in He. apply Combine_slice in He as ->.
  apply InitializeNodeStatus_keeps in Hi as (Hf & _). rewrite <-Hf in Hp.
  by apply (run_jobs_changed _ _ _ _ _ _ (jobs_spec r sec lb) Hj).
Qed.

(** Convergence.  On a stable, faultless host, repeating a run that reported
    no error changes no file and nothing in the custom resource, and reports
    neither an updated service nor an error. *)
Theorem ReconcileLBConfig_converges {NF : NoFaults} {SH : StableHost}
  (r : LoadBalancerConfigReconciler) (sec : Secret) (lb : option LocalBackendConfiguration)
  (w w' : World) (u : gset NodeService)
  (Hrun : ReconcileLBConfig r sec lb w = (Done (u, None), w')) :
  ∃ w'', ReconcileLBConfig r sec lb w' = (Done (∅, None), w'') ∧ same_state w' w''.
Proof.
  destruct (ReconcileLBConfig_ok _ _ _ _ _ _ Hrun) as (v & n & Hv & En & Hn & Hall).
  destruct (ReconcileLBConfig_noop r sec lb w' v n Hv En Hall) as (w'' & E & Hs).
  exists w''. split; [done|]. rewrite Hn, put_node_status_id in Hs by done.
  etrans; [|exact Hs]. done.
Qed.

Lemma job_panics_run js j acc w (Hjs : Forall job_spec js)
  (Hp : ∀ c, Spec c = Spec (w_lbc w) → ∃ why, j_render j c = panic why) r :
  ∀ js', ∃ why w', run_jobs r (js ++ j :: js') acc w = (Panic why, w').
Proof.
  intros js'. rewrite run_jobs_app, run_bind.
  destruct (run_jobs r js acc w) as [[acc1|why] w1] eqn:E; [|by eexists _, _].
  apply run_jobs_frame in E as (_ & _ & _ & _ & HS & _); [|done]. simpl. rewrite run_bind.
  unfold run_job, renderAndWrite. rewrite run_bind. change (get_lbc w1) with (Done (w_lbc w1), w1).
  cbv beta iota. rewrite run_bind. destruct (Hp (w_lbc w1) HS) as [why ->]. by eexists _, _.
Qed.

Lemma jobs_split sec lb r n j : nth_error (jobs r sec lb) n = Some j →
  ∃ js js', jobs r sec lb = js ++ j :: js' ∧ Forall job_spec js.
Proof.
  intros (js & js' & E & _)%nth_error_split. exists js, js'. split; [done|].
  pose proof (jobs_spec r sec lb) as H. rewrite E in H. by apply Forall_app in H as [H _].
Qed.

(** C37 (a nil dereference): the NAT address and the ingress backend are optional
    in the API, but without either of them no run that gets past the
    initialisation ever returns: it panics in [RenderFirewallDirectRules] or in
    [RenderHAProxyIngressConfig]. *)
Theorem ReconcileLBConfig_optional_fields_panic
  (r : LoadBalancerConfigReconciler) (sec : Secret) (lb : option LocalBackendConfiguration)
  (w w0 : World)
  (Hinit : InitializeNodeStatus r w = (Done None, w0))
  (Hnil : vips_NAT (VirtualAddresses (Spec (w_lbc w))) = None
          ∨ IngressBackend (Spec (w_lbc w)) = None) :
  ∃ why w', ReconcileLBConfig r sec lb w = (Panic why, w').
Proof.
  rewrite ReconcileLBConfig_jobs, run_bind, Hinit, run_bind.
  apply InitializeNodeStatus_keeps in Hinit as (_ & _ & _ & HS & _). rewrite <-HS in Hnil.
  assert (∃ n j, nth_error (jobs r sec lb) n = Some j ∧
    ∀ c, Spec c = Spec (w_lbc w0) → ∃ why, j_render j c = panic why) as (n & j & Hj & Hp).
  { destruct Hnil as [Hn|Hn]; [exists 10%nat|exists 1%nat]; eexists; (split; [reflexivity|]);
      intros c Ec; cbn [j_render]; unfold RenderFirewallDirectRules, RenderHAProxyIngressConfig;
      rewrite Ec, Hn; by eexists. }
  destruct (jobs_split _ _ _ _ _ Hj) as (js & js' & -> & Hjs).
  destruct (job_panics_run js j (∅, []) w0 Hjs Hp r js') as (why & w' & ->). by eexists _, _.
Qed.

End lbconfig.

(** ** [Reconcile] *)

Section reconcile.
Context {HO : Host} {MI : MapIter} {ME : Multierr} {DI : Digest}.
Variable r : LoadBalancerConfigReconciler.

(** The failures of reloading [cs] from call number [t] on. *)
Fixpoint reload_failures (t : nat) (cs : list NodeService) : list error :=
  match cs with
  | [] => []
  | s :: cs => option_list (Wrapf "restart/reload failed" <$> exec_Run t (reload_argv s))
               ++ reload_failures (S t) cs
  end.

(** On the real root each component is reloaded once; elsewhere nothing is run. *)
Definition reload_events (cs : list NodeService) : list Event :=
  if bool_decide (ConfigRoot r = "/") then (λ s, EvExec (reload_argv s)) <$> cs else [].
Definition reload_errors (t : nat) (cs : list NodeService) : list error :=
  if bool_decide (ConfigRoot r = "/") then reload_failures t cs else [].

Lemma reloadComponents_run cs es w : (∀ s, s ∈ cs → s ∈ services) →
  ∃ t, reloadComponents r cs es w = (Done (es ++ reload_errors (w_tick w) cs),
    {| w_tick := t; w_files := w_files w; w_dirs := w_dirs w; w_lbc := w_lbc w;
       w_events := w_events w ++ reload_events cs |}).
Proof.
  unfold reload_errors, reload_events. case_bool_decide as Hr.
  - revert es w. induction cs as [|s cs IH]; intros es w Hs.
    + exists (w_tick w). simpl. rewrite !app_nil_r. by destruct w.
    + simpl. rewrite bool_decide_eq_true_2 by done. simpl. rewrite run_bind, Reload_run by set_solver.
      match goal with |- context [reloadComponents r cs ?es' ?w'] => destruct (IH es' w') as [t E] end.
      { intros. apply Hs. set_solver. }
      exists t. rewrite E. simpl. by rewrite <-!app_assoc.
  - intros. exists (w_tick w). rewrite !app_nil_r. revert es.
    induction cs as [|s cs IH]; intros es; [by destruct w|]. simpl.
    rewrite bool_decide_eq_false_2 by done. simpl. apply IH. set_solver.
Qed.

(** The key of the credentials of [c]. *)
Definition secret_key (c : LoadBalancerConfig) : NamespacedName :=
  {| nn_Namespace := om_Namespace (lbc_Meta c); nn_Name := CloudCredentials_Name (Spec c) |}.

(** The world [ReconcileLBConfig] starts in. *)
Definition fetched (c : LoadBalancerConfig) (w : World) : World :=
  set_tick (S (S (w_tick w))) (set_lbc c w).

Lemma Reconcile_fetched req c sec w :
  client_Get_LoadBalancerConfig (w_tick w) req = Ok c →
  client_Get_Secret (S (w_tick w)) (secret_key c) = Ok sec →
  Reconcile r req w =
  ('(updated, err) ← ReconcileLBConfig r sec None;
   errors ← reloadComponents r (map_keys updated) (option_list err);
   lbconfig ← get_lbc;
   match node_status (Hostname r) lbconfig with
   | None => panic "nil pointer dereference: lbconfig.Status.Nodes[r.Hostname]"
   | Some ns =>
       put_lbc (put_node_status (Hostname r)
         (set_ns_Status (if (length errors =? 0)%nat then NodeStatusReady
                         else NodeStatusFailed) ns) lbconfig);;
       statuserr ← Status_Update;
       mret (Combine [err; statuserr])
   end) (fetched c w).
Proof.
  intros E1 E2. unfold secret_key in E2. unfold Reconcile, mbind at 1, ST_bind at 1, tick at 1.
  cbv beta iota. rewrite E1. rewrite run_bind. unfold put_lbc at 1, modify at 1.
  unfold mbind at 1, ST_bind at 1, tick at 1. cbn [w_tick set_lbc set_tick]. by rewrite E2.
Qed.

(** The status the run sends. *)
Definition final_status (err : option error) (fails : list error) (ns : LoadBalancerNodeStatus)
    : LoadBalancerNodeStatus :=
  set_ns_Status (if bool_decide (err = None ∧ fails = []) then NodeStatusReady
                 else NodeStatusFailed) ns.

Lemma Reconcile_run req c sec w u err w1 ns :
  client_Get_LoadBalancerConfig (w_tick w) req = Ok c →
  client_Get_Secret (S (w_tick w)) (secret_key c) = Ok sec →
  ReconcileLBConfig r sec None (fetched c w) = (Done (u, err), w1) →
  node_status (Hostname r) (w_lbc w1) = Some ns →
  let c' := put_node_status (Hostname r)
    (final_status err (reload_errors (w_tick w1) (map_keys u)) ns) (w_lbc w1) in
  ∃ t w', Reconcile r req w = (Done (Combine [err; client_Status_Update t c']), w')
  ∧ w_files w' = w_files w1
  ∧ w_events w' = w_events w ++ reload_events (map_keys u) ++ [EvStatusUpdate c'].
Proof.
  intros E1 E2 Hrun En. rewrite (Reconcile_fetched _ _ _ _ E1 E2), run_bind, Hrun.
  cbv beta iota zeta. rewrite run_bind.
  destruct (reloadComponents_run (map_keys u) (option_list err) w1) as [t ->].
  { intros s Hs%map_keys_elem_of. by eapply ReconcileLBConfig_services. }
  rewrite run_bind. mrun. rewrite En. eexists t, _.
  assert ((length (option_list err ++ reload_errors (w_tick w1) (map_keys u)) =? 0)%nat
    = bool_decide (err = None ∧ reload_errors (w_tick w1) (map_keys u) = [])) as ->.
  { destruct err, (reload_errors _ _); case_bool_decide as Hb; naive_solver. }
  fold (final_status err (reload_errors (w_tick w1) (map_keys u)) ns).
  apply ReconcileLBConfig_events in Hrun. simpl in Hrun.
  split; [reflexivity|]. split; [done|]. simpl. by rewrite Hrun, <-app_assoc.
Qed.

(** C9: what a run does, once it has read the custom resource and its
    credentials and [ReconcileLBConfig] returned: on the real root it runs the
    reload command of each updated service, in the order of the map iteration,
    and elsewhere no command; then it sends the status, which says [Ready]
    exactly when neither the rendering and writing nor any reload failed; it
    returns the errors of the former and of the status update, but not those of
    the reloads. *)
Theorem Reconcile_outcome (req : NamespacedName) (c : LoadBalancerConfig) (sec : Secret)
  (w w1 : World) (u : gset NodeService) (err : option error) (ns : LoadBalancerNodeStatus)
  (Hget : client_Get_LoadBalancerConfig (w_tick w) req = Ok c)
  (Hsec : client_Get_Secret (S (w_tick w)) (secret_key c) = Ok sec)
  (Hrun : ReconcileLBConfig r sec None (fetched c w) = (Done (u, err), w1))
  (Hns : node_status (Hostname r) (w_lbc w1) = Some ns) :
  let c' := put_node_status (Hostname r)
    (final_status err (reload_errors (w_tick w1) (map_keys u)) ns) (w_lbc w1) in
  ∃ t w', Reconcile r req w = (Done (Combine [err; client_Status_Update t c']), w')
  ∧ w_files w' = w_files w1
  ∧ w_events w' = w_events w ++ reload_events (map_keys u) ++ [EvStatusUpdate c'].
Proof. by apply (Reconcile_run req c sec). Qed.

(** C36 (a nil dereference): a node that finds a status of other nodes in the
    custom resource but none of its own, as the second load balancer of a pair
    does, never completes a run: whatever the host answers, [Reconcile] panics,
    because the entry is only created when there is no map at all. *)
Theorem Reconcile_second_node_panics (req : NamespacedName) (c : LoadBalancerConfig)
  (sec : Secret) (nodes : gmap string (option LoadBalancerNodeStatus)) (w : World)
  (Hget : client_Get_LoadBalancerConfig (w_tick w) req = Ok c)
  (Hsec : client_Get_Secret (S (w_tick w)) (secret_key c) = Ok sec)
  (Hnodes : Nodes (Status c) = Some nodes)
  (Hmissing : nodes !! Hostname r = None) :
  ∃ why w', Reconcile r req w = (Panic why, w').
Proof.
  assert (ensure_nodes r c = c) as Ec by (unfold ensure_nodes; by rewrite Hnodes).
  assert (node_status (Hostname r) c = None) as En
    by (unfold node_status; by rewrite Hnodes, Hmissing).
  rewrite (Reconcile_fetched _ _ _ _ Hget Hsec), run_bind, ReconcileLBConfig_jobs, run_bind.
  destruct (InitializeNodeStatus_no_entry r (fetched c w)) as (w' & Hl & [[e ->]|[why ->]]);
    [by simpl; rewrite Ec| |by eexists _, _].
  cbn [w_lbc fetched set_tick set_lbc] in Hl. rewrite Ec in Hl.
  unfold mret at 1, ST_ret at 1. cbv beta iota. rewrite run_bind.
  destruct (reloadComponents_run (map_keys ∅)
    (option_list (Some (Wrapf "failed to initialize node status" e))) w')
    as [t E]; [intros s Hs%map_keys_elem_of; set_solver|].
  rewrite E. mrun. rewrite Hl, En. by eexists _, _.
Qed.

(** Inversion of a run that completed. *)
Lemma Reconcile_inv req c sec w res w2 :
  client_Get_LoadBalancerConfig (w_tick w) req = Ok c →
  client_Get_Secret (S (w_tick w)) (secret_key c) = Ok sec →
  Reconcile r req w = (Done res, w2) →
  ∃ u err w1 ns t,
    ReconcileLBConfig r sec None (fetched c w) = (Done (u, err), w1)
    ∧ node_status (Hostname r) (w_lbc w1) = Some ns
    ∧ let fails := reload_errors (w_tick w1) (map_keys u) in
      let c' := put_node_status (Hostname r) (final_status err fails ns) (w_lbc w1) in
      res = Combine [err; client_Status_Update t c'] ∧ w_files w2 = w_files w1
      ∧ w_events w2 = w_events w ++ reload_events (map_keys u) ++ [EvStatusUpdate c'].
Proof.
  intros E1 E2 Hrun. pose proof Hrun as Hrun'.
  rewrite (Reconcile_fetched _ _ _ _ E1 E2), run_bind in Hrun'.
  destruct (ReconcileLBConfig r sec None (fetched c w)) as [[[u err]|why] w1] eqn:E; [|done].
  cbv beta iota zeta in Hrun'. rewrite run_bind in Hrun'.
  destruct (reloadComponents_run (map_keys u) (option_list err) w1) as [t Er].
  { intros s Hs%map_keys_elem_of. by eapply ReconcileLBConfig_services. }
  rewrite Er in Hrun'. revert Hrun'. rewrite run_bind. mrun.
  destruct (node_status (Hostname r) (w_lbc w1)) as [ns|] eqn:En; [|done]. intros _.
  destruct (Reconcile_run _ _ _ _ _ _ _ _ E1 E2 E En) as (t' & w' & Hr & Hf & He).
  rewrite Hrun in Hr. injection Hr as -> ->. by exists u, err, w1, ns, t'.
Qed.

(** A run on the custom resource that an error-free run sent. *)
Lemma Reconcile_again {NF : NoFaults} {SH : StableHost} req c1 sec w w1 u n s0 w2 :
  ReconcileLBConfig r sec None w = (Done (u, None), w1) →
  node_status (Hostname r) (w_lbc w1) = Some n →
  c1 = put_node_status (Hostname r) (set_ns_Status s0 n) (w_lbc w1) →
  w_files w2 = w_files w1 →
  client_Get_LoadBalancerConfig (w_tick w2) req = Ok c1 →
  client_Get_Secret (S (w_tick w2)) (secret_key c1) = Ok sec →
  ∃ res c2 w3, Reconcile r req w2 = (Done res, w3) ∧ w_files w3 = w_files w2
  ∧ w_events w3 = w_events w2 ++ [EvStatusUpdate c2]
  ∧ ns_Status <$> node_status (Hostname r) c2 = Some NodeStatusReady.
Proof.
  intros Hrun En -> Hf E1 E2.
  destruct (ReconcileLBConfig_ok _ _ _ _ _ _ Hrun) as (v & n' & Hv & En' & Hn & Hall).
  rewrite En in En'. injection En' as <-. set (c1 := put_node_status _ _ _) in *.
  assert (node_status (Hostname r) c1 = Some (set_ns_Status s0 n)) as En1
    by apply (node_status_put _ _ _ _ En).
  destruct (ReconcileLBConfig_noop r sec None (fetched c1 w2) v (set_ns_Status s0 n) Hv En1)
    as (w3 & Erun & Hs).
  { intros j Hj. destruct (Hall j Hj) as (data & Ha & Hr & content & Hc). exists data.
    pose proof (jobs_spec r sec None) as Hjs. rewrite Forall_forall in Hjs.
    rewrite (job_Spec j (Hjs j Hj) _ (w_lbc w1)) by (simpl; unfold c1; by autorewrite with lbc).
    split; [done|]. split; [|exists content; simpl; by rewrite Hf].
    revert Hr. unfold recorded. simpl. by rewrite En1, En. }
  destruct Hs as (Hf3 & _ & Hl3 & _). simpl in Hf3, Hl3.
  assert (node_status (Hostname r) (w_lbc w3) = Some (init_ns v (set_ns_Status s0 n))) as En3
    by (rewrite Hl3; by apply (node_status_put _ _ _ _ En1)).
  destruct (Reconcile_run _ _ _ _ _ _ _ _ E1 E2 Erun En3) as (t & w4 & Er & Hf4 & He4).
  assert (map_keys (∅ : gset NodeService) = []) as Emk.
  { apply Permutation_nil. symmetry. rewrite map_keys_perm. by rewrite elements_empty. }
  eexists _, _, w4. split; [exact Er|]. split; [congruence|]. rewrite Emk in *. split.
  - rewrite He4. unfold reload_events. by case_bool_decide.
  - rewrite (node_status_put _ _ _ _ En3). unfold reload_errors. simpl. f_equal.
    rewrite bool_decide_eq_true_2; [done|]. by case_match.
Qed.

(** C4: convergence of the controller.  On a stable, faultless host, when a run
    returned no error and the cluster then serves the custom resource with the
    status the run sent, the next run changes no file, runs no command, and
    sends the status [Ready]. *)
Theorem Reconcile_converges {NF : NoFaults} {SH : StableHost} (req : NamespacedName)
  (c c1 : LoadBalancerConfig) (sec : Secret) (w w1 : World)
  (Hget : client_Get_LoadBalancerConfig (w_tick w) req = Ok c)
  (Hsec : client_Get_Secret (S (w_tick w)) (secret_key c) = Ok sec)
  (Hrun : Reconcile r req w = (Done None, w1))
  (Hsent : last (w_events w1) = Some (EvStatusUpdate c1))
  (Hget1 : client_Get_LoadBalancerConfig (w_tick w1) req = Ok c1)
  (Hsec1 : client_Get_Secret (S (w_tick w1)) (secret_key c1) = Ok sec) :
  ∃ res c2 w2, Reconcile r req w1 = (Done res, w2) ∧ w_files w2 = w_files w1
  ∧ w_events w2 = w_events w1 ++ [EvStatusUpdate c2]
  ∧ ns_Status <$> node_status (Hostname r) c2 = Some NodeStatusReady.
Proof.
  destruct (Reconcile_inv _ _ _ _ _ _ Hget Hsec Hrun) as (u & err & w' & ns & t & E & En & Hc & Hf & He).
  symmetry in Hc. apply Combine_nil in Hc. apply Forall_cons in Hc as [-> _].
  rewrite He, app_assoc, last_snoc in Hsent. injection Hsent as Hsent.
  by apply (Reconcile_again req c1 sec _ w' u ns _ w1 E En (eq_sym Hsent) Hf Hget1).
Qed.

Lemma reload_failures_some t cs : reload_failures t cs ≠ [] →
  ∃ t' s, s ∈ cs ∧ is_Some (exec_Run t' (reload_argv s)).
Proof.
  revert t. induction cs as [|s cs IH]; intros t; simpl; [done|].
  destruct (exec_Run t (reload_argv s)) eqn:E.
  - intros _. exists t, s. rewrite E. set_solver.
  - simpl. intros (t' & s' & Hs & Hx)%IH. exists t', s'. set_solver.
Qed.

(** C39 (a forgotten failure): when a reload command fails, the run says [Failed]
    in the status but returns no error, so it is not retried; the next run finds
    every file in sync, runs no command, and sends [Ready], though the service
    never reloaded its configuration. *)
Theorem Reconcile_forgets_failed_reload {NF : NoFaults} {SH : StableHost} (req : NamespacedName)
  (c c1 : LoadBalancerConfig) (sec : Secret) (w w1 : World)
  (Hget : client_Get_LoadBalancerConfig (w_tick w) req = Ok c)
  (Hsec : client_Get_Secret (S (w_tick w)) (secret_key c) = Ok sec)
  (Hrun : Reconcile r req w = (Done None, w1))
  (Hsent : last (w_events w1) = Some (EvStatusUpdate c1))
  (Hfailed : ns_Status <$> node_status (Hostname r) c1 = Some NodeStatusFailed)
  (Hget1 : client_Get_LoadBalancerConfig (w_tick w1) req = Ok c1)
  (Hsec1 : client_Get_Secret (S (w_tick w1)) (secret_key c1) = Ok sec) :
  (∃ t s, EvExec (reload_argv s) ∈ w_events w1 ∧ is_Some (exec_Run t (reload_argv s)))
  ∧ ∃ res c2 w2, Reconcile r req w1 = (Done res, w2)
    ∧ w_events w2 = w_events w1 ++ [EvStatusUpdate c2]
    ∧ ns_Status <$> node_status (Hostname r) c2 = Some NodeStatusReady.
Proof.
  destruct (Reconcile_inv _ _ _ _ _ _ Hget Hsec Hrun) as (u & err & w' & ns & t & E & En & Hc & Hf & He).
  symmetry in Hc. apply Combine_nil in Hc. apply Forall_cons in Hc as [-> _].
  pose proof Hsent as Hsent'. rewrite He, app_assoc, last_snoc in Hsent. injection Hsent as Hsent.
  split.
  - rewrite <-Hsent, (node_status_put _ _ _ _ En) in Hfailed. unfold final_status in Hfailed.
    simpl in Hfailed. case_bool_decide as Hb; [done|].
    rewrite He. unfold reload_errors, reload_events in *. case_bool_decide; [|naive_solver].
    destruct (reload_failures_some (w_tick w') (map_keys u)) as (t' & s & Hs & Hx); [naive_solver|].
    exists t', s. split; [|done]. apply elem_of_app. right. apply elem_of_app. left.
    by apply (list_elem_of_fmap_2 (λ s, EvExec (reload_argv s))).
  - destruct (Reconcile_again req c1 sec _ w' u ns _ w1 E En (eq_sym Hsent) Hf Hget1 Hsec1)
      as (res & c2 & w2 & ? & _ & ? & ?). by exists res, c2, w2.
Qed.

End reconcile.
