(* ===== verification/Slots.v ===== *)
(** * One run, file by file

    What a run does to each file and its recorded digest, to the other nodes'
    entries, and when it completes: the view of [ReconcileLBConfig] on which the
    theorems about several nodes are built. *)

From S2P Require Import Prelude GoStrings Netip Types Interfaces Reconciler Vip Path Host.
From S2P Require Import WriteConfig HostFacts WriteFacts FileNames Service Reconcile Jobs JobFacts.
From S2P Require Import ReconcileFacts.

Section slots.
Context {HO : Host} {MI : MapIter} {ME : Multierr} {DI : Digest}.
Variable r : LoadBalancerConfigReconciler.

(** What belongs to one file: the two files on disk and the recorded digest. *)
Definition slot (f : string) (w : World) : option File * option File * option string :=
  (w_files w !! configfilePath r f, w_files w !! digestfilePath r f, recorded r f (w_lbc w)).

Lemma slot_in_sync f data w w' : slot f w = slot f w' → in_sync r f data w ↔ in_sync r f data w'.
Proof. unfold slot, in_sync, consistent. by intros [= -> -> ->]. Qed.

Lemma slot_frame (F : gset string) f w w' : f ∈ managed_files →
  (∀ g, g ∈ F → g ∈ managed_files) → f ∉ F → frame r F w w' → slot f w' = slot f w.
Proof.
  intros Hf HF Hn (Hp & Hr & _). unfold slot. rewrite Hr by done.
  assert (∀ p, p ∈ paths r f → w_files w' !! p = w_files w !! p) as Hsame.
  { intros p Hpf. apply Hp. intros g Hg Hpg.
    apply (managed_paths_apart r f g Hf (HF g Hg) ltac:(by intros ->) p); done. }
  by rewrite !Hsame by (unfold paths; set_solver).
Qed.

Lemma slot_init f w w0 : InitializeNodeStatus r w = (Done None, w0) → slot f w0 = slot f w.
Proof. intros (Hf & _ & _ & _ & _ & Hr)%InitializeNodeStatus_keeps. unfold slot. by rewrite Hf, Hr. Qed.

(** The custom resource when the initialisation fails. *)
Lemma InitializeNodeStatus_failed w e w0 : InitializeNodeStatus r w = (Done (Some e), w0) →
  w_lbc w0 = ensure_nodes r (w_lbc w) ∧ w_files w0 = w_files w.
Proof.
  rewrite InitializeNodeStatus_values, run_bind.
  destruct (init_values_reads r (set_lbc (ensure_nodes r (w_lbc w)) w)) as ([[v|e']|why] & t & ->).
  - rewrite run_bind. mrun. by destruct (node_status _ _).
  - by intros [= _ <-].
  - done.
Qed.

Lemma ensure_nodes_others m c : m ≠ Hostname r → node_status m (ensure_nodes r c) = node_status m c.
Proof.
  intros Hm. unfold ensure_nodes, node_status. destruct (Nodes (Status c)) eqn:E; rewrite ?E; [done|].
  simpl. by rewrite lookup_singleton_ne.
Qed.

(** A run of [ReconcileLBConfig], as the other nodes see it. *)
Lemma ReconcileLBConfig_others sec w u err w' :
  ReconcileLBConfig r sec None w = (Done (u, err), w') →
  (∀ m, m ≠ Hostname r → node_status m (w_lbc w') = node_status m (w_lbc w))
  ∧ Spec (w_lbc w') = Spec (w_lbc w) ∧ lbc_Meta (w_lbc w') = lbc_Meta (w_lbc w).
Proof.
  intros Hrun. destruct (InitializeNodeStatus r w) as [[[e|]|why] w0] eqn:E.
  - pose proof (InitializeNodeStatus_failed _ _ _ E) as [Hl Hf].
    revert Hrun. rewrite ReconcileLBConfig_jobs, run_bind, E. intros [= <- <- <-].
    rewrite Hl, ensure_nodes_Spec, ensure_nodes_Meta.
    split_and!; [by intros; apply ensure_nodes_others|done..].
  - destruct (ReconcileLBConfig_inv _ _ _ _ _ _ _ _ E Hrun) as (es & Hj & _).
    pose proof (run_jobs_frame _ _ _ _ _ _ (jobs_spec r sec None) Hj) as (_ & _ & Ho & _ & HS & HM & _).
    pose proof (InitializeNodeStatus_keeps _ _ _ E) as (_ & _ & _ & HS0 & HM0 & _).
    pose proof (InitializeNodeStatus_inv _ _ _ E) as (v & t & ns & _ & _ & E0).
    split_and!; [|congruence..].
    intros m Hm. rewrite Ho by done. rewrite E0. simpl.
    rewrite node_status_put_ne by congruence. by apply ensure_nodes_others.
  - revert Hrun. by rewrite ReconcileLBConfig_jobs, run_bind, E.
Qed.

(** [f] was written with [data], which the node did not hold before. *)
Definition wrote (f data : string) (w w' : World) : Prop :=
  ¬ in_sync r f data w
  ∧ consistent r f (final_content r f (lbc_Meta (w_lbc w)) data) (w_files w')
  ∧ recorded r f (w_lbc w') = Some (sha256_hex data).

Context {NF : NoFaults} {SH : StableHost}.

Lemma run_job_slot j acc w acc' w' : job_spec j → run_job r j acc w = (Done acc', w') →
  slot (j_file j) w' = slot (j_file j) w
  ∨ ∃ data, answers (j_render j (w_lbc w)) (Done (Ok data)) ∧ wrote (j_file j) data w w'.
Proof.
  intros Hj (t & res & E & H)%run_job_inv; [|done].
  destruct (job_stable j Hj SH (w_lbc w)) as [o Ho].
  pose proof (answers_run _ _ _ _ _ Ho E) as <-.
  destruct res as [data|e]; [|by destruct H as [-> _]; left].
  destruct H as ([ch err] & Hrun & _).
  destruct (CompareAndWrite_quiet _ _ _ _ _ _ _ _ Hrun) as [-> Hch].
  destruct (CompareAndWrite_inv _ _ _ _ _ _ _ Hrun) as (ns & En & Hc).
  pose proof (cmp_result_recorded _ _ _ _ _ _ _ _ En Hc) as Hrec.
  apply cmp_result_disk in Hc as Hd. destruct ch.
  - right. exists data. split; [done|]. split; [by apply Hch|]. split; [|done].
    rewrite Hd. apply written_consistent.
  - left. destruct Hd as [Hf _]. unfold slot. rewrite Hf, Hrec. f_equal.
    inversion Hc; subst. symmetry. done.
Qed.

Lemma run_jobs_slot js acc w acc' w' f : Forall job_spec js → NoDup (j_file <$> js) →
  f ∈ managed_files → run_jobs r js acc w = (Done acc', w') →
  slot f w' = slot f w
  ∨ ∃ j data, j ∈ js ∧ j_file j = f ∧ answers (j_render j (w_lbc w)) (Done (Ok data)) ∧ wrote f data w w'.
Proof.
  intros H. revert acc w. induction H as [|j js Hj Hjs IH]; intros acc w Hnd Hf Hrun.
  { injection Hrun as _ <-. by left. }
  rewrite fmap_cons, NoDup_cons in Hnd. destruct Hnd as [Hn Hnd].
  apply run_jobs_cons in Hrun as (acc1 & w1 & E1 & E2).
  pose proof (run_job_frame _ _ _ _ _ _ Hj E1) as F1.
  pose proof (run_jobs_frame _ _ _ _ _ _ Hjs E2) as F2.
  pose proof F1 as (_ & _ & _ & _ & HS & HM & _).
  destruct (decide (j_file j = f)) as [<-|Hne].
  - assert (slot (j_file j) w' = slot (j_file j) w1) as Es.
    { apply (slot_frame (list_to_set (j_file <$> js))); [done| | |done].
      - intros g Hg. by apply (job_files_managed js).
      - by rewrite elem_of_list_to_set. }
    destruct (run_job_slot _ _ _ _ _ Hj E1) as [E|(data & Ha & Hs & Hc & Hr)].
    + left. congruence.
    + right. exists j, data. split_and!; [by left|done|done|]. revert Es. unfold slot.
      intros [= Ec Ed Er]. split; [done|]. unfold consistent. by rewrite Ec, Ed, Er.
  - assert (slot f w1 = slot f w) as Es.
    { apply (slot_frame {[j_file j]}); [done| |set_solver|done].
      intros g ->%elem_of_singleton. by apply job_file. }
    destruct (IH _ _ Hnd Hf E2) as [E|(j' & data & Hj' & Ef & Ha & Hs & Hc)].
    + left. congruence.
    + right. exists j', data. split_and!; [by right|done| |].
      * rewrite Forall_forall in Hjs. by rewrite (job_Spec j' (Hjs _ Hj') _ (w_lbc w1)).
      * rewrite HM in Hc. split; [|done]. by rewrite <-(slot_in_sync _ _ _ _ Es).
Qed.

(** A run of [ReconcileLBConfig], as each file and the other nodes see it. *)
Lemma ReconcileLBConfig_slots sec w u err w' :
  ReconcileLBConfig r sec None w = (Done (u, err), w') →
  (∀ m, m ≠ Hostname r → node_status m (w_lbc w') = node_status m (w_lbc w))
  ∧ Spec (w_lbc w') = Spec (w_lbc w) ∧ lbc_Meta (w_lbc w') = lbc_Meta (w_lbc w)
  ∧ ∀ f, f ∈ managed_files → slot f w' = slot f w
     ∨ ∃ j data, j ∈ jobs r sec None ∧ j_file j = f
         ∧ answers (j_render j (w_lbc w)) (Done (Ok data)) ∧ wrote f data w w'.
Proof.
  intros Hrun. destruct (ReconcileLBConfig_others _ _ _ _ _ Hrun) as (H1 & H2 & H3).
  split_and!; [done..|]. intros f Hf.
  destruct (InitializeNodeStatus r w) as [[[e|]|why] w0] eqn:E.
  - pose proof (InitializeNodeStatus_failed _ _ _ E) as [Hl Hfs].
    revert Hrun. rewrite ReconcileLBConfig_jobs, run_bind, E. intros [= <- <- <-].
    left. unfold slot. by rewrite Hl, Hfs, ensure_nodes_recorded.
  - destruct (ReconcileLBConfig_inv _ _ _ _ _ _ _ _ E Hrun) as (es & Hj & _).
    pose proof (InitializeNodeStatus_keeps _ _ _ E) as (_ & _ & _ & _ & HM0 & _).
    pose proof (slot_init f _ _ E) as Es.
    destruct (run_jobs_slot _ _ _ _ _ f (jobs_spec r sec None) (jobs_NoDup r sec None) Hf Hj)
      as [Es'|(j & data & Hj' & Ef & Ha & Hs & Hc)]; [left; congruence|]. right.
    exists j, data. split_and!; [done..| |].
    + by rewrite <-(jobs_init_render r sec None _ _ _ E Hj').
    + rewrite HM0 in Hc. split; [|done]. by rewrite <-(slot_in_sync _ _ _ _ Es).
  - revert Hrun. by rewrite ReconcileLBConfig_jobs, run_bind, E.
Qed.

(** A run that gets through its initialisation when it can. *)
Lemma ReconcileLBConfig_init_ok sec w u err w' v : answers (init_values r) (Done (Ok v)) →
  ReconcileLBConfig r sec None w = (Done (u, err), w') →
  ∃ w0, InitializeNodeStatus r w = (Done None, w0).
Proof.
  intros Hv. rewrite ReconcileLBConfig_jobs, run_bind, InitializeNodeStatus_values, run_bind.
  destruct (Hv (set_lbc (ensure_nodes r (w_lbc w)) w)) as [t ->]. rewrite run_bind. mrun.
  destruct (node_status _ _); [|done]. by eexists.
Qed.

(** What it can render is deployed. *)
Lemma ReconcileLBConfig_jobs_synced sec w u err w' w0 : InitializeNodeStatus r w = (Done None, w0) →
  ReconcileLBConfig r sec None w = (Done (u, err), w') →
  ∀ j data, j ∈ jobs r sec None → answers (j_render j (w_lbc w)) (Done (Ok data)) →
  in_sync r (j_file j) data w'.
Proof.
  intros Ei E j data Hj Ha. destruct (ReconcileLBConfig_inv _ _ _ _ _ _ _ _ Ei E) as (es & Hjs & _).
  destruct (run_jobs_quiet _ _ _ _ _ _ (jobs_spec r sec None) (jobs_NoDup r sec None) Hjs) as (Hs & _).
  apply Hs; [done|]. by rewrite (jobs_init_render r sec None _ _ _ Ei Hj).
Qed.

(** When everything is deployed already, nothing happens. *)
Lemma ReconcileLBConfig_nothing_to_do sec w u err w' w0 :
  InitializeNodeStatus r w = (Done None, w0) →
  ReconcileLBConfig r sec None w = (Done (u, err), w') →
  (∀ j, j ∈ jobs r sec None →
    ∃ data, answers (j_render j (w_lbc w)) (Done (Ok data)) ∧ in_sync r (j_file j) data w) →
  u = ∅ ∧ err = None ∧ w_files w' = w_files w ∧ w_lbc w' = w_lbc w0.
Proof.
  intros Ei E Hall. destruct (ReconcileLBConfig_inv _ _ _ _ _ _ _ _ Ei E) as (es & Hj & ->).
  destruct (run_jobs_synced r (jobs r sec None) (∅, []) w0 (jobs_spec r sec None))
    as (w2 & E2 & Hf & _ & Hl & _).
  { intros j Hin. destruct (Hall j Hin) as (data & Ha & Hs). exists data.
    rewrite (jobs_init_render r sec None _ _ _ Ei Hin). split; [done|]. by rewrite (init_in_sync _ _ _ _ _ Ei). }
  rewrite Hj in E2. injection E2 as -> -> ->. apply InitializeNodeStatus_keeps in Ei as (Hf0 & _).
  split; [done|]. split; [by apply Combine_slice|]. split; congruence.
Qed.

(** Each file has one job. *)
Lemma jobs_file_inj sec j j' : j ∈ jobs r sec None → j' ∈ jobs r sec None → j_file j = j_file j' → j = j'.
Proof.
  intros [i Hi]%list_elem_of_lookup [i' Hi']%list_elem_of_lookup E.
  pose proof (jobs_NoDup r sec None) as Hnd. rewrite NoDup_alt in Hnd.
  assert (i = i') as ->; [|congruence].
  apply (Hnd i i' (j_file j)); rewrite list_lookup_fmap; [by rewrite Hi|by rewrite Hi', E].
Qed.

(** *** Runs that complete *)

Lemma run_job_total j acc w data : job_spec j → has_node r w →
  answers (j_render j (w_lbc w)) (Done (Ok data)) →
  ∃ acc' w', run_job r j acc w = (Done acc', w').
Proof.
  intros Hj [ns En] Ha. unfold run_job, renderAndWrite. rewrite run_bind.
  change (get_lbc w) with (Done (w_lbc w), w). cbv beta iota. rewrite run_bind.
  destruct (Ha w) as [t ->]. rewrite run_bind.
  destruct (CompareAndWrite_cases r (j_file j) data (j_mode j) ns (set_tick t w) En)
    as (res & w' & -> & _). by eexists _, _.
Qed.

Lemma run_jobs_total js acc w : Forall job_spec js → has_node r w →
  (∀ j, j ∈ js → ∃ data, answers (j_render j (w_lbc w)) (Done (Ok data))) →
  ∃ acc' w', run_jobs r js acc w = (Done acc', w').
Proof.
  intros H. revert acc w. induction H as [|j js Hj Hjs IH]; intros acc w Hn Hall; [by eexists _, _|].
  destruct (Hall j) as [data Ha]; [by left|].
  destruct (run_job_total j acc w data Hj Hn Ha) as (acc1 & w1 & E1).
  pose proof (run_job_frame _ _ _ _ _ _ Hj E1) as Hfr.
  destruct (IH acc1 w1) as (acc' & w' & E2); [by eapply frame_has_node| |].
  - intros j' Hj'. destruct (Hall j') as [d Ha']; [by right|]. exists d.
    rewrite Forall_forall in Hjs. by rewrite (render_frame _ _ _ _ _ (Hjs j' Hj') Hfr).
  - exists acc', w'. simpl. by rewrite run_bind, E1.
Qed.

(** The custom resource has an entry for this node, or no map of entries at all. *)
Definition admits (c : LoadBalancerConfig) : Prop := is_Some (node_status (Hostname r) (ensure_nodes r c)).

Lemma ReconcileLBConfig_total sec w v : answers (init_values r) (Done (Ok v)) → admits (w_lbc w) →
  (∀ j, j ∈ jobs r sec None → ∃ data, answers (j_render j (w_lbc w)) (Done (Ok data))) →
  ∃ u w', ReconcileLBConfig r sec None w = (Done (u, None), w') ∧ has_node r w'.
Proof.
  intros Hv [ns En] Hall.
  assert (∃ w0, InitializeNodeStatus r w = (Done None, w0)) as [w0 Ei].
  { rewrite InitializeNodeStatus_values, run_bind.
    destruct (Hv (set_lbc (ensure_nodes r (w_lbc w)) w)) as [t ->]. rewrite run_bind. mrun.
    rewrite En. by eexists. }
  assert (has_node r w0) as Hn.
  { destruct (InitializeNodeStatus_inv _ _ _ Ei) as (v' & t & ns' & _ & En' & ->). unfold has_node. simpl.
    rewrite (node_status_put _ _ _ _ En'). by eexists. }
  destruct (run_jobs_total (jobs r sec None) (∅, []) w0 (jobs_spec r sec None) Hn) as ([u es] & w' & E).
  { intros j Hj. destruct (Hall j Hj) as [data Ha]. exists data.
    by rewrite (jobs_init_render r sec None _ _ _ Ei Hj). }
  pose proof (run_jobs_frame _ _ _ _ _ _ (jobs_spec r sec None) E) as Hfr.
  destruct (run_jobs_quiet _ _ _ _ _ _ (jobs_spec r sec None) (jobs_NoDup r sec None) E)
    as (_ & _ & Hok). simpl in Hok. assert (es = []) as ->.
  { apply Hok. intros j Hj. destruct (Hall j Hj) as [data Ha]. exists data.
    by rewrite (jobs_init_render r sec None _ _ _ Ei Hj). }
  exists u, w'. rewrite ReconcileLBConfig_jobs, run_bind, Ei, run_bind, E. split; [|by eapply frame_has_node].
  simpl. unfold mret, ST_ret. by rewrite (proj2 (Combine_slice [])).
Qed.

End slots.
