(* ===== verification/Outage.v ===== *)
(** * An outage in the middle of a run

    What becomes of the files when the cluster network's interface is found while
    the node's status is set up, and no longer afterwards.  Calls are numbered, so
    "afterwards" is a bound on the number of the call; no operation of a run sets
    the count of calls back. *)

From S2P Require Import Prelude GoStrings Netip Types Interfaces Reconciler Vip Path Host.
From S2P Require Import WriteConfig HostFacts WriteFacts FileNames Service Network.
From S2P Require Import Keepalived Haproxy NetworkManager Reconcile Jobs JobFacts ReconcileFacts Slots.

Local Open Scope Z_scope.

(** ** The count of calls *)

(** [m] does not set the count of calls back. *)
Definition later {A : Type} (m : M A) : Prop := ∀ w o w', m w = (o, w') → (w_tick w ≤ w_tick w')%nat.

Lemma later_ret {A : Type} (a : A) : later (mret a).
Proof. by intros w o w' [= _ <-]. Qed.
Lemma later_panic {A : Type} why : later (panic (A := A) why).
Proof. by intros w o w' [= _ <-]. Qed.
Lemma later_gets {A : Type} (f : World → A) : later (gets f).
Proof. by intros w o w' [= _ <-]. Qed.
Lemma later_tick : later tick.
Proof. intros w o w' [= _ <-]. simpl. lia. Qed.
Lemma later_modify (f : World → World) : (∀ w, w_tick (f w) = w_tick w) → later (modify f).
Proof. intros Hf w o w' [= _ <-]. by rewrite Hf. Qed.
Lemma later_bind {A B : Type} (m : M A) (f : A → M B) : later m → (∀ a, later (f a)) → later (m ≫= f).
Proof.
  intros Hm Hf w o w'. rewrite run_bind. destruct (m w) as [[a|why] w1] eqn:E.
  - intros H. apply Hm in E. apply Hf in H. lia.
  - intros [= _ <-]. by apply Hm in E.
Qed.

Create HintDb later.
#[export] Hint Resolve later_ret later_panic later_gets later_tick later_bind : later.

(** Go through the cases of an operation. *)
Ltac later_tac :=
  repeat first
    [ progress intros
    | progress cbv beta zeta
    | solve [eauto with later]
    | apply later_modify; reflexivity
    | apply later_bind
    | case_match ].

Section later.
Context {HO : Host} {MI : MapIter} {ME : Multierr} {DI : Digest}.

Lemma ReadFile_later p : later (ReadFile p).
Proof. unfold ReadFile. later_tac. Qed.
Lemma MkdirAll_later p : later (MkdirAll p).
Proof. unfold MkdirAll. later_tac. Qed.
Lemma OpenFile_later p m : later (OpenFile p m).
Proof. unfold OpenFile. later_tac. Qed.
Lemma WriteString_later p s : later (WriteString p s).
Proof. unfold WriteString. later_tac. Qed.
Lemma Close_later p : later (Close p).
Proof. unfold Close. later_tac. Qed.
Lemma try_later msg m k : later m → later k → later (try msg m k).
Proof. unfold try. later_tac. Qed.

#[local] Hint Resolve ReadFile_later MkdirAll_later OpenFile_later WriteString_later Close_later
  try_later : later.

Lemma CompareAndWrite_later r f data mode : later (CompareAndWrite r f data mode).
Proof.
  unfold CompareAndWrite, IsFileModified, WriteConfig, put_lbc, get_lbc. later_tac.
Qed.

#[local] Hint Resolve CompareAndWrite_later : later.

Lemma jobs_later r sec lb : Forall (λ j, ∀ c, later (j_render j c)) (jobs r sec lb).
Proof.
  repeat (apply Forall_cons; split); [..|by apply Forall_nil]; intros c; cbn [j_render];
    unfold RenderHAProxyAPIConfig, RenderHAProxyIngressConfig, haproxyTemplateData,
      getHAProxyBackends, RenderKeepalivedConfig, RenderConntrackdConfig, RenderPublicNMConnection,
      RenderClusterNetNMConnection, RenderKeepalivedDummyNMConnection, RenderSysctlConf,
      RenderFirewallExternalZone, RenderFirewallDirectRules, ClusterNetworkInterface,
      macAddressForInterface; later_tac.
Qed.

Lemma run_jobs_later r js acc : Forall (λ j, ∀ c, later (j_render j c)) js → later (run_jobs r js acc).
Proof.
  intros H. revert acc. induction H as [|j js Hj _ IH]; intros acc; simpl; [later_tac|].
  apply later_bind; [|done]. unfold run_job, renderAndWrite, get_lbc. later_tac.
Qed.

(** ** One job among the others *)

(** What a job among others starts from and leaves. *)
Lemma run_jobs_visit r js j acc w acc' w' :
  Forall job_spec js → Forall (λ j, ∀ c, later (j_render j c)) js → NoDup (j_file <$> js) → j ∈ js →
  run_jobs r js acc w = (Done acc', w') →
  ∃ acc1 w1 acc2 w2, run_job r j acc1 w1 = (Done acc2, w2) ∧ (w_tick w ≤ w_tick w1)%nat
  ∧ slot r (j_file j) w1 = slot r (j_file j) w ∧ slot r (j_file j) w' = slot r (j_file j) w2
  ∧ lbc_Meta (w_lbc w1) = lbc_Meta (w_lbc w) ∧ acc2.1 ⊆ acc'.1 ∧ ∃ es, acc'.2 = acc2.2 ++ es.
Proof.
  intros Hjs Hl Hnd (js1 & js2 & ->)%list_elem_of_split Hrun.
  rewrite run_jobs_app, run_bind in Hrun.
  destruct (run_jobs r js1 acc w) as [[acc1|why] w1] eqn:E1; [|done].
  apply run_jobs_cons in Hrun as (acc2 & w2 & E2 & E3).
  apply Forall_app in Hjs as [Hs1 [Hj Hs2]%Forall_cons]. apply Forall_app in Hl as [Hl _].
  rewrite fmap_app, fmap_cons in Hnd. apply NoDup_app in Hnd as (_ & Hd & [Hn _]%NoDup_cons).
  pose proof (run_jobs_frame _ _ _ _ _ _ Hs1 E1) as F1.
  pose proof (run_jobs_frame _ _ _ _ _ _ Hs2 E3) as F3.
  pose proof (job_file j Hj) as Hf.
  exists acc1, w1, acc2, w2. split; [done|]. split; [by eapply run_jobs_later|].
  split; [|split; [|split; [by destruct F1 as (_ & _ & _ & _ & _ & HM & _)|
    exact (run_jobs_grows _ _ _ _ _ _ Hs2 E3)]]].
  - apply (slot_frame r (list_to_set (j_file <$> js1))); [done| | |done].
    + intros g. by apply job_files_managed.
    + rewrite elem_of_list_to_set. intros Hin. apply (Hd _ Hin). by left.
  - apply (slot_frame r (list_to_set (j_file <$> js2))); [done| | |done].
    + intros g. by apply job_files_managed.
    + by rewrite elem_of_list_to_set.
Qed.

(** ** The outage *)

(** From the call [t0] on no interface is found for the cluster network: the
    routing table cannot be read, or it has no matching route. *)
Definition outage_from (r : LoadBalancerConfigReconciler) (t0 : nat) : Prop :=
  ∀ t, (t0 ≤ t)%nat →
  match routetable_Get t 200 with Err _ => True | Ok routes => find_route (ClusterNetwork r) routes = "" end.

Lemma outage_not_found r t0 w : outage_from r t0 → (t0 ≤ w_tick w)%nat →
  ∃ e, ClusterNetworkInterface r w = (Done (Err e), set_tick (S (w_tick w)) w).
Proof.
  intros Ho Hw. specialize (Ho _ Hw).
  unfold ClusterNetworkInterface, mbind, ST_bind, tick, mret, ST_ret.
  destruct (routetable_Get _ _) as [routes|e]; [|by eexists]. rewrite Ho. by eexists.
Qed.

(** A job whose rendering fails leaves its file alone and adds an error. *)
Lemma run_job_failed r j acc w acc' w' e t : j_render j (w_lbc w) w = (Done (Err e), set_tick t w) →
  run_job r j acc w = (Done acc', w') → slot r (j_file j) w' = slot r (j_file j) w ∧ acc'.2 = acc.2 ++ [e].
Proof.
  intros E. unfold run_job, renderAndWrite. rewrite run_bind.
  change (get_lbc w) with (Done (w_lbc w), w). cbv beta iota. rewrite run_bind, E.
  intros [= <- <-]. by destruct acc.
Qed.

(** A job that renders what is not recorded writes it and reports its service. *)
Lemma run_job_writes {NF : NoFaults} r j acc w acc' w' data t :
  j_render j (w_lbc w) w = (Done (Ok data), set_tick t w) →
  recorded r (j_file j) (w_lbc w) ≠ Some (sha256_hex data) →
  run_job r j acc w = (Done acc', w') →
  consistent r (j_file j) (final_content r (j_file j) (lbc_Meta (w_lbc w)) data) (w_files w')
  ∧ recorded r (j_file j) (w_lbc w') = Some (sha256_hex data) ∧ j_svc j ∈ acc'.1.
Proof.
  intros E Hnew. unfold run_job, renderAndWrite. rewrite run_bind.
  change (get_lbc w) with (Done (w_lbc w), w). cbv beta iota. rewrite run_bind, E, run_bind.
  destruct (CompareAndWrite r (j_file j) data (j_mode j) (set_tick t w)) as [[[ch err]|why] w1] eqn:Ec;
    [|done]. intros [= <- <-].
  destruct (CompareAndWrite_quiet _ _ _ _ _ _ _ _ Ec) as [-> [_ Hch]].
  assert (ch = true) as -> by (apply Hch; by intros [Hr _]).
  destruct (CompareAndWrite_inv _ _ _ _ _ _ _ Ec) as (ns & En & Hc).
  pose proof (cmp_result_recorded _ _ _ _ _ _ _ _ En Hc) as Hrec. apply cmp_result_disk in Hc.
  rewrite Hc. split; [apply written_consistent|]. split; [done|]. destruct acc. simpl. set_solver.
Qed.

(** An outage from the start is an error of the initialisation, and nothing is
    written. *)
Lemma outage_at_start r sec lb w u err w' : outage_from r (w_tick w) →
  ReconcileLBConfig r sec lb w = (Done (u, err), w') →
  u = ∅ ∧ is_Some err ∧ w_files w' = w_files w.
Proof.
  intros Ho [(-> & [e ->] & Hf & _)|(w0 & es & Hi & _)]%ReconcileLBConfig_done; [done|].
  exfalso. apply InitializeNodeStatus_inv in Hi as (v & t & ns & Hv & _).
  revert Hv. unfold init_values. destruct (internalIPs r); [|done]. rewrite run_bind.
  set (w0' := set_lbc _ w).
  assert (later (primaryIPAddressForInterface (PublicInterface r) None)) as Hl.
  { unfold primaryIPAddressForInterface. later_tac. }
  destruct (primaryIPAddressForInterface _ _ w0') as [[[ip|e]|why] w1] eqn:E; [|done..].
  apply Hl in E. rewrite run_bind. destruct (outage_not_found r _ w1 Ho E) as [e ->]. done.
Qed.

Section run.
Variables (r : LoadBalancerConfigReconciler) (sec : Secret) (lb : option LocalBackendConfiguration).
Variables (w w0 w' : World) (u : gset NodeService) (es : list error).
Hypothesis Hinit : InitializeNodeStatus r w = (Done None, w0).
Hypothesis Hjs : run_jobs r (jobs r sec lb) (∅, []) w0 = (Done (u, es), w').

(** The [n]-th job of a run. *)
Lemma nth_job n j : jobs r sec lb !! n = Some j → ∃ acc1 w1 acc2 w2,
  run_job r j acc1 w1 = (Done acc2, w2) ∧ (w_tick w0 ≤ w_tick w1)%nat
  ∧ slot r (j_file j) w1 = slot r (j_file j) w ∧ slot r (j_file j) w' = slot r (j_file j) w2
  ∧ lbc_Meta (w_lbc w1) = lbc_Meta (w_lbc w) ∧ acc2.1 ⊆ u ∧ ∃ es', es = acc2.2 ++ es'.
Proof.
  intros Hn%list_elem_of_lookup_2.
  destruct (run_jobs_visit r _ j _ _ _ _ (jobs_spec r sec lb) (jobs_later r sec lb)
    (jobs_NoDup r sec lb) Hn Hjs) as (acc1 & w1 & acc2 & w2 & H1 & H2 & H3 & H4 & H5 & H6 & H7).
  pose proof (InitializeNodeStatus_keeps _ _ _ Hinit) as (_ & _ & _ & _ & HM & _).
  exists acc1, w1, acc2, w2. rewrite H3, (slot_init r _ _ _ Hinit), H5, HM. done.
Qed.

(** A job whose rendering fails from the end of the initialisation on. *)
Lemma nth_job_fails n j : jobs r sec lb !! n = Some j →
  (∀ c w1, (w_tick w0 ≤ w_tick w1)%nat → ∃ e t, j_render j c w1 = (Done (Err e), set_tick t w1)) →
  slot r (j_file j) w' = slot r (j_file j) w ∧ es ≠ [].
Proof.
  intros Hn Hr. destruct (nth_job n j Hn) as (acc1 & w1 & acc2 & w2 & Hrj & Ht & Hs & Hs' & _ & _ & es' & ->).
  destruct (Hr (w_lbc w1) w1 Ht) as (e & t & He).
  destruct (run_job_failed _ _ _ _ _ _ _ _ He Hrj) as [E ->]. split; [congruence|]. by destruct acc1.2.
Qed.

Hypothesis Houtage : outage_from r (w_tick w0).

Lemma keepalived_fails : slot r KeepalivedConfigFile w' = slot r KeepalivedConfigFile w ∧ es ≠ [].
Proof.
  apply (nth_job_fails 2%nat _ eq_refl). intros c w1 H1. cbn [j_render]. unfold RenderKeepalivedConfig.
  destruct (internalIPs r) as [ips|e]; [|by eexists _, (w_tick w1); rewrite set_tick_id].
  rewrite run_bind. destruct (outage_not_found r _ w1 Houtage H1) as [e ->]. by eexists _, _.
Qed.

Lemma cluster_connection_fails :
  slot r ClusterNetworkNMConnectionFile w' = slot r ClusterNetworkNMConnectionFile w ∧ es ≠ [].
Proof.
  apply (nth_job_fails 6%nat _ eq_refl). intros c w1 H1. cbn [j_render].
  unfold RenderClusterNetNMConnection. rewrite run_bind.
  destruct (outage_not_found r _ w1 Houtage H1) as [e ->]. by eexists _, _.
Qed.

End run.

Lemma init_internalIPs r w w0 : InitializeNodeStatus r w = (Done None, w0) → ∃ ips, internalIPs r = Ok ips.
Proof.
  intros (v & t & ns & Hv & _)%InitializeNodeStatus_inv. revert Hv. unfold init_values.
  destruct (internalIPs r) as [ips|]; [by exists ips|done].
Qed.

(** C40 (a dropped error): the interface of the cluster network is found while the
    node's status is set up, and from then on no longer, because the routing table
    cannot be read or has lost the route (an outage from the start is an error of
    the initialisation, and nothing is written).  Keepalived's configuration and
    the cluster connection keep what they hold, and the run returns an error; but
    [RenderConntrackdConfig] reports success with no text: conntrackd's file is
    replaced by a header and a stamp, that is recorded as its configuration, and
    conntrackd is among the services to be restarted. *)
Theorem conntrackd_outage_empties_file {NF : NoFaults} (r : LoadBalancerConfigReconciler)
  (sec : Secret) (lb : option LocalBackendConfiguration) (w w0 w' : World)
  (u : gset NodeService) (err : option error)
  (Hinit : InitializeNodeStatus r w = (Done None, w0))
  (Houtage : outage_from r (w_tick w0))
  (Hrun : ReconcileLBConfig r sec lb w = (Done (u, err), w'))
  (Hnew : recorded r ConntrackdConfigFile (w_lbc w) ≠ Some (sha256_hex "")) :
  consistent r ConntrackdConfigFile
    (final_content r ConntrackdConfigFile (lbc_Meta (w_lbc w)) "") (w_files w')
  ∧ recorded r ConntrackdConfigFile (w_lbc w') = Some (sha256_hex "")
  ∧ Conntrackd ∈ u
  ∧ slot r KeepalivedConfigFile w' = slot r KeepalivedConfigFile w
  ∧ slot r ClusterNetworkNMConnectionFile w' = slot r ClusterNetworkNMConnectionFile w
  ∧ is_Some err.
Proof.
  destruct (ReconcileLBConfig_inv _ _ _ _ _ _ _ _ Hinit Hrun) as (es & Hjs & ->).
  destruct (keepalived_fails _ _ _ _ _ _ _ _ Hinit Hjs Houtage) as [Hk Hes].
  destruct (cluster_connection_fails _ _ _ _ _ _ _ _ Hinit Hjs Houtage) as [Hc _].
  destruct (init_internalIPs _ _ _ Hinit) as [ips Hips].
  destruct (nth_job _ _ _ _ _ _ _ _ Hinit Hjs 4%nat _ eq_refl)
    as (acc1 & w1 & acc2 & w2 & Hrj & Ht & Hs & Hs' & HM & Hu & _).
  destruct (outage_not_found r _ w1 Houtage Ht) as [e He]. cbn [j_file] in Hs, Hs'.
  eapply run_job_writes in Hrj as (Hcons & Hr & Hsvc); cbn [j_file j_svc j_render] in *.
  - revert Hs'. unfold slot. intros [= E1 E2 ->].
    unfold consistent in *. rewrite E1, E2, <-HM. split; [exact Hcons|].
    split_and!; [done|by apply Hu|done|done|].
    destruct (Combine (Some <$> es)) eqn:Ee; [by eexists|]. by apply Combine_slice in Ee as ->.
  - unfold RenderConntrackdConfig. by rewrite Hips, run_bind, He.
  - revert Hs. unfold slot. intros [= _ _ ->]. exact Hnew.
Qed.

End later.
