(* ===== verification/TemplateFacts.v ===== *)
(** * Executing templates

    Rules that execute a template over symbolic data, one per kind of node, the
    parsed form of each embedded template, and which file a name loads. *)

From S2P Require Import Prelude GoStrings Path Template Templates.

Local Open Scope Z_scope.

(** The texts of the elements of [l], numbered from [i] on. *)
Fixpoint text_of {A : Type} (f : Z → A → string) (i : Z) (l : list A) : string :=
  match l with
  | [] => ""
  | a :: l => f i a +:+ text_of f (i + 1) l
  end.

Lemma text_of_app {A : Type} (f : Z → A → string) i l k :
  text_of f i (l ++ k) = text_of f i l +:+ text_of f (i + Z.of_nat (length l)) k.
Proof.
  revert i. induction l as [|a l IH]; intros i; simpl.
  - by rewrite Z.add_0_r.
  - rewrite IH, str_app_assoc. do 2 f_equal. f_equal. lia.
Qed.

Lemma text_of_ext {A : Type} (f g : Z → A → string) i l :
  (∀ j a, a ∈ l → f j a = g j a) → text_of f i l = text_of g i l.
Proof.
  revert i. induction l as [|a l IH]; intros i H; [done|]. simpl.
  rewrite (H i a) by left. rewrite IH; [done|]. intros. apply H. by right.
Qed.

Lemma exec_nil dot vars : exec_list [] dot vars = Ok "".
Proof. done. Qed.

Lemma exec_cons n l dot vars s t :
  exec n dot vars = Ok s → exec_list l dot vars = Ok t → exec_list (n :: l) dot vars = Ok (s +:+ t).
Proof. simpl. by intros -> ->. Qed.

Lemma exec_last n dot vars s : exec n dot vars = Ok s → exec_list [n] dot vars = Ok s.
Proof. simpl. intros ->. simpl. by rewrite str_app_nil_r. Qed.

Lemma exec_text s dot vars : exec (NText s) dot vars = Ok s.
Proof. done. Qed.

Lemma exec_action e dot vars v s :
  eval e dot vars = Ok v → print_value v = Ok s → exec (NAction e) dot vars = Ok s.
Proof. simpl. by intros ->. Qed.

Lemma exec_if e body dot vars b s : eval e dot vars = Ok (VBool b) →
  exec_list body dot vars = Ok s → exec (NIf e body) dot vars = Ok (if b then s else "").
Proof. simpl. intros -> H. simpl. destruct b; [|done]. exact H. Qed.

Definition iter_list (run : Z → tval → result string) : Z → list tval → result string :=
  fix iter i l :=
    match l with
    | [] => Ok ""
    | v :: l => s ← run i v; t ← iter (i + 1) l; Ok (s +:+ t)
    end.

Lemma exec_range_iter xs e body dot vars : exec (NRange xs e body) dot vars =
  (v ← eval e dot vars;
   match v with
   | VList l => iter_list (λ i v, exec_list body v (range_vars xs i v ++ vars)) 0 l
   | _ => Err (Errorf "range can't iterate over value")
   end).
Proof. reflexivity. Qed.

Lemma exec_range {A : Type} (g : A → tval) (f : Z → A → string) xs e body dot vars l :
  eval e dot vars = Ok (VList (g <$> l)) →
  (∀ i a, exec_list body (g a) (range_vars xs i (g a) ++ vars) = Ok (f i a)) →
  exec (NRange xs e body) dot vars = Ok (text_of f 0 l).
Proof.
  intros E H. rewrite exec_range_iter, E. cbn [mbind result_bind]. generalize 0. clear E.
  induction l as [|a l IH]; intros i; [done|]. simpl in *. rewrite H, IH. done.
Qed.

Lemma render_exec prefix name t d s :
  loadTemplate prefix name = Ok t → exec_list t (VMap d) [("$", VMap d)] = Ok s →
  renderTemplate prefix name d = Ok s.
Proof. unfold renderTemplate, Execute. by intros -> ->. Qed.

(** Execute a template whose parsed form is known, leaving the text open. *)
Ltac exec_tac :=
  repeat first
    [ apply exec_nil
    | eapply exec_last
    | eapply exec_cons
    | apply exec_text
    | eapply exec_action; [reflexivity|reflexivity]
    | eapply exec_range; [reflexivity|intros ? ?]
    | eapply exec_if; [reflexivity|] ].

(** Render the named template: its text is computed, the data stays symbolic. *)
Ltac render_text :=
  eapply eq_trans;
  [ eapply render_exec; [vm_compute; reflexivity|exec_tac]
  | reflexivity ].

(** ** Which file is loaded *)

(** No character means anything to the matcher of file names. *)
Definition literal (s : string) : bool :=
  negb (str_has "*" s || str_has "?" s || str_has "[" s || str_has "\" s).

Lemma match_elem_literal fuel p s : (String.length p + String.length s < fuel)%nat →
  literal p = true → match_elem fuel p s = bool_decide (p = s).
Proof.
  revert p s. induction fuel as [|fuel IH]; intros p s Hf Hp; [lia|].
  destruct p as [|a p]; [simpl; apply bool_decide_ext; naive_solver|].
  assert (literal p = true ∧ a ∉ ["*"; "?"; "["; "\"]%char) as [Hl Ha].
  { revert Hp. unfold literal. cbn [str_has]. rewrite !negb_true_iff, !orb_false_iff, !bool_decide_eq_false.
    intros ((([? ->] & [? ->]) & [? ->]) & [? ->]). split; [done|]. set_solver. }
  assert (match_elem (S fuel) (String a p) s =
    match s with String d s' => bool_decide (a = d) && match_elem fuel p s' | "" => false end) as ->.
  { destruct s as [|d s]; destruct a as [[][][][][][][][]]; try reflexivity; exfalso; apply Ha; set_solver. }
  destruct s as [|d s]; [by rewrite bool_decide_eq_false_2|]. simpl in Hf. rewrite IH by (done || lia).
  repeat case_bool_decide; naive_solver.
Qed.

Lemma match_elems_literal ps ss : Forall (λ p, literal p = true) ps →
  match_elems ps ss = bool_decide (ps = ss).
Proof.
  intros H. revert ss. induction H as [|p ps Hp _ IH]; intros [|s ss]; try done.
  cbn [match_elems]. rewrite match_elem_literal, IH by (done || lia).
  repeat case_bool_decide; naive_solver.
Qed.

Lemma filter_key {A : Type} (k : string) (l : list (string * A)) : NoDup l.*1 →
  snd <$> filter (λ f, fst f = k) l = option_list ((list_to_map l : gmap string A) !! k).
Proof.
  induction l as [|[k' a] l IH]; [done|]. rewrite fmap_cons, NoDup_cons. intros [Hk Hl].
  rewrite filter_cons. cbn [fst list_to_map foldr uncurry]. case_decide as E; simpl in E.
  - subst k'. rewrite fmap_cons, lookup_insert_eq, IH by done.
    by rewrite not_elem_of_list_to_map_1.
  - by rewrite lookup_insert_ne, IH.
Qed.

(** The embedded file at a path. *)
Definition embedded (path : string) : option string :=
  (list_to_map configTemplates : gmap string string) !! path.

Lemma Glob_literal ps : ps ≠ [] → Forall (λ p, literal p = true) ps →
  Forall (λ p, str_has "/" p = false) ps →
  Glob (join_with "/" ps) configTemplates = option_list (embedded (join_with "/" ps)).
Proof.
  intros Hne Hl Hs. unfold Glob, embedded. rewrite <-filter_key.
  2: { apply (bool_decide_unpack _). by vm_compute. }
  f_equal. apply list_filter_iff. intros [f t]. simpl.
  rewrite split_join, match_elems_literal, bool_decide_eq_true by done.
  split; [intros ->; symmetry; apply join_split|intros ->; symmetry; by apply split_join].
Qed.

(** A name that is found literally, in one directory. *)
Definition plain (s : string) : Prop := proper_name s ∧ literal s = true.

(** The path of a template: below [config_templates], in the directory of that
    name or, without one, at the top. *)
Definition template_path (prefix name : string) : list string :=
  "config_templates" :: (if decide (prefix = "") then [name] else [prefix; name]).

Lemma Join_template prefix name : prefix = "" ∨ proper_name prefix → proper_name name →
  Join ["config_templates"; prefix; name] = join_with "/" (template_path prefix name).
Proof.
  intros Hp Hn. pose proof Hn as (_ & _ & _ & Hfn).
  assert (str_has "/" prefix = false) as Hfp by (destruct Hp as [->|(_ & _ & _ & ?)]; done).
  change (Clean (join_with "/" ["config_templates"; prefix; name])
    = join_with "/" (template_path prefix name)).
  unfold Clean, clean_stack. rewrite split_join by (done || by repeat constructor).
  change (is_rooted _) with false. cbn [fold_left].
  rewrite (clean_step_proper false [] "config_templates") by (by vm_compute).
  unfold template_path. destruct Hp as [->|Hp].
  - change (clean_step false ["config_templates"] "") with ["config_templates"].
    by rewrite clean_step_proper.
  - rewrite !clean_step_proper, decide_False by (done || by destruct Hp). done.
Qed.

Lemma plain_path prefix name : prefix = "" ∨ plain prefix → plain name →
  loadTemplate prefix name =
  match embedded (join_with "/" (template_path prefix name)) with
  | Some text => Parse text
  | None => Err (Errorf "pattern matches no files")
  end.
Proof.
  intros Hp Hn. unfold loadTemplate. rewrite Join_template by (destruct Hp as [?|[? _]], Hn; tauto).
  rewrite Glob_literal.
  - by destruct (embedded _).
  - done.
  - unfold template_path. destruct Hn as [_ Hn]. destruct Hp as [->|[_ Hp]]; [by repeat constructor|].
    case_decide; by repeat constructor.
  - unfold template_path. destruct Hn as [(_ & _ & _ & Hn) _].
    destruct Hp as [->|[(_ & _ & _ & Hp) _]]; [by repeat constructor|].
    case_decide; by repeat constructor.
Qed.

(** C28: a template is looked up by its path.  For a name and a directory (a
    distribution or a cloud) without characters that mean anything in a path or a
    pattern, [renderTemplate] executes the embedded file of that name in that
    directory, or at the top without a directory, and no other; it is parsed
    without an error.  When there is no such file, as for an unknown
    distribution, nothing is rendered. *)
Theorem renderTemplate_by_path (prefix templateName : string) (templateData : list (string * tval))
  (Hprefix : prefix = "" ∨ plain prefix)
  (Hname : plain templateName) :
  match embedded (join_with "/" (template_path prefix templateName)) with
  | Some text =>
      ∃ t, Parse text = Ok t
      ∧ renderTemplate prefix templateName templateData
        = match Execute t (VMap templateData) with
          | Ok s => Ok s
          | Err e => Err (Wrapf "failed to execute template" e)
          end
  | None =>
      renderTemplate prefix templateName templateData
      = Err (Wrapf "failed to parse config template" (Errorf "pattern matches no files"))
  end.
Proof.
  unfold renderTemplate. rewrite plain_path by done.
  destruct (embedded _) as [text|] eqn:E; [|done].
  unfold embedded in E. apply elem_of_list_to_map_2 in E. pose proof templates_parse as H. rewrite Forall_forall in H.
  specialize (H _ E). simpl in H. destruct (Parse text) as [t|e]; [|done]. exists t. split; [done|].
  by destruct (Execute _ _).
Qed.
