(* ===== verification/Rendered.v ===== *)
(** * The rendered files *)

From S2P Require Import Prelude GoStrings Netip NetipText Types Interfaces Reconciler Vip Path Host.
From S2P Require Import Template Templates TemplateFacts Network Keepalived Haproxy NetworkManager.

Local Open Scope Z_scope.

Definition vip_line (iface : string) (p : Prefix) : string :=
  nl +:+ "    " +:+ Prefix_String p +:+ " dev " +:+ iface.

Definition keepalived_text (iface : string) (prio : Z) (src dst : string) (vips : list Prefix)
    : string :=
"vrrp_instance lb {
  interface                 " +:+ iface +:+ "
  state                     BACKUP
  virtual_router_id         100
  priority                  " +:+ itoa prio +:+ "
  advert_int                3
  garp_master_delay         5

  garp_master_refresh       30

  authentication {
    auth_type PASS
    auth_pass insec_0
  }

  virtual_ipaddress {" +:+ text_of (λ _, vip_line iface) 0 vips +:+ "
  }

  unicast_src_ip " +:+ src +:+ "
  unicast_peer {
    " +:+ dst +:+ "
  }
}
".

Lemma keepalived_render iface prio src dst vips :
  renderTemplate "" "keepalived.conf.tmpl" [
    ("Interface", VStr iface); ("Priority", VInt prio); ("SrcIP", VStr src); ("DstIP", VStr dst);
    ("VIPs", vip_values vips)] = Ok (keepalived_text iface prio src dst vips).
Proof.
  render_text.
Qed.

Definition conntrackd_text (iface src dst : string) : string :=
"General {
  HashSize 8192
  HashLimit 65535
  Syslog On
  LockFile /var/lock/conntrackd.lock
  UNIX {
    Path /var/run/conntrackd.sock
  }
  SocketBufferSize 262142
  SocketBufferSizeMaxGrown 655355
  Filter {
    Protocol Accept {
      TCP 
    }
    Address Ignore {
      IPv4_address 127.0.0.1
    }
  }
}
Sync {
  Mode FTFW {

  }
  UDP Default {
    IPv4_address " +:+ src +:+ "
    IPv4_Destination_Address " +:+ dst +:+ "
    Port 3780
    Interface " +:+ iface +:+ "
    SndSocketBuffer 24985600
    RcvSocketBuffer 24985600
    Checksum On
  }
}
".

Lemma conntrackd_render iface src dst :
  renderTemplate "" "conntrackd.conf.tmpl" [
    ("Interface", VStr iface); ("SrcIP", VStr src); ("DstIP", VStr dst)]
  = Ok (conntrackd_text iface src dst).
Proof. render_text. Qed.

(** *** Floaty *)

Definition managed_addresses (vips : list Prefix) : string :=
  dq "
lock-file-template: `/var/run/keepalived.floaty.%s.lock`
managed-addresses:" +:+ text_of (λ _ p, nl +:+ "- " +:+ Prefix_String p) 0 vips +:+ nl.

Definition cloudscale_text (token : string) (vips : list Prefix) : string :=
  dq "provider: cloudscale
cloudscale:
  token: `" +:+ token +:+ dq "`" +:+ managed_addresses vips.

Definition exoscale_text (key secret : string) (vips : list Prefix) : string :=
  dq "provider: exoscale
exoscale:
  key: `" +:+ key +:+ dq "`
  secret: `" +:+ secret +:+ dq "`" +:+ managed_addresses vips.

Lemma cloudscale_render token vips :
  renderTemplate "cloudscale" "floaty.yaml.tmpl" [("VIPs", vip_values vips); ("Token", VStr token)]
  = Ok (cloudscale_text token vips).
Proof. render_text. Qed.

Lemma exoscale_render key secret vips :
  renderTemplate "exoscale" "floaty.yaml.tmpl"
    [("VIPs", vip_values vips); ("Key", VStr key); ("Secret", VStr secret)]
  = Ok (exoscale_text key secret vips).
Proof. render_text. Qed.

(** *** HAProxy *)

Definition bind_lines (port : string) (l : list Addr) : string :=
  text_of (λ _ a, nl +:+ "  bind " +:+ Addr_String a +:+ ":" +:+ port) 0 l.

Definition server_lines (opts : string) (l : list Backend) : string :=
  text_of (λ i b, nl +:+ "  server server_" +:+ itoa i +:+ " " +:+ be_Address b +:+ ":" +:+ opts) 0 l.

(** One frontend and one backend section of a configuration. *)
Definition frontend_section (name port : string) (l : list Addr) : string :=
  "frontend fe-" +:+ name +:+ "
  mode tcp
  default_backend be-" +:+ name +:+ bind_lines port l +:+ nl.

Definition backend_section (name check opts : string) (l : list Backend) : string :=
  "backend be-" +:+ name +:+ "
  " +:+ check +:+ server_lines opts l +:+ nl.

Definition openshift_api_text (fd : FrontendData) (bs : list Backend) : string :=
  frontend_section "api" "6443" (fd_API fd) +:+ nl
  +:+ frontend_section "ign" "22623" (fd_Ignition fd) +:+ nl
  +:+ backend_section "api" "option httpchk GET /readyz"
        "6443 check check-ssl verify none resolvers localdns" bs +:+ nl
  +:+ backend_section "ign" "balance roundrobin"
        "22623 check check-ssl verify none resolvers localdns" bs.

Definition talos_api_text (fd : FrontendData) (bs : list Backend) : string :=
  frontend_section "api" "6443" (fd_API fd) +:+ nl
  +:+ backend_section "api" "option tcp-check" "6443 check fall 3 rise 2 inter 10s" bs.

Definition openshift_ingress_text (fd : FrontendData) (bs : list Backend) : string :=
  frontend_section "router-http" "80" (fd_Ingress fd) +:+ nl
  +:+ frontend_section "router-https" "443" (fd_Ingress fd) +:+ nl
  +:+ backend_section "router-http" "option httpchk GET /healthz/ready"
        "80 check port 1936 check-ssl verify none resolvers localdns send-proxy-v2" bs +:+ nl
  +:+ backend_section "router-https" "option httpchk GET /healthz/ready"
        "443 check port 1936 check-ssl verify none resolvers localdns send-proxy-v2" bs.

Definition talos_ingress_text (fd : FrontendData) (bs : list Backend) : string :=
  frontend_section "router-http" "80" (fd_Ingress fd) +:+ nl
  +:+ frontend_section "router-https" "443" (fd_Ingress fd) +:+ nl
  +:+ backend_section "router-http" "option httpchk GET /metrics
  http-check expect status 426" "30080 check port 30091 send-proxy-v2" bs +:+ nl
  +:+ backend_section "router-https" "option httpchk GET /metrics
  http-check expect status 426" "30443 check port 30091 send-proxy-v2" bs.

Definition haproxy_data (fd : FrontendData) (bs : list Backend) : list (string * tval) :=
  [("Frontends", frontend_value fd); ("Backends", VList (backend_value <$> bs))].

Ltac haproxy_text :=
  unfold haproxy_data, frontend_value, addr_values; eapply eq_trans;
  [ eapply render_exec; [vm_compute; reflexivity|exec_tac]
  | unfold openshift_api_text, talos_api_text, openshift_ingress_text, talos_ingress_text,
      frontend_section, backend_section; rewrite ?str_app_assoc; reflexivity ].

Lemma openshift_api_render fd bs :
  renderTemplate "openshift" "haproxy.api.cfg.tmpl" (haproxy_data fd bs)
  = Ok (openshift_api_text fd bs).
Proof. haproxy_text. Qed.
Lemma talos_api_render fd bs :
  renderTemplate "talos" "haproxy.api.cfg.tmpl" (haproxy_data fd bs) = Ok (talos_api_text fd bs).
Proof. haproxy_text. Qed.
Lemma openshift_ingress_render fd bs :
  renderTemplate "openshift" "haproxy.ingress.cfg.tmpl" (haproxy_data fd bs)
  = Ok (openshift_ingress_text fd bs).
Proof. haproxy_text. Qed.
Lemma talos_ingress_render fd bs :
  renderTemplate "talos" "haproxy.ingress.cfg.tmpl" (haproxy_data fd bs)
  = Ok (talos_ingress_text fd bs).
Proof. haproxy_text. Qed.

(** *** NetworkManager *)

Definition nm_origin : string := "
[user]
org.freedesktop.NetworkManager.origin=bootc-loadbalancer-controller
".

Definition public_text (mac : string) : string :=
"[connection]
id=public
autoconnect-priority=-999
type=ethernet
zone=external
" +:+ nm_origin +:+ "
[ethernet]
mac-address=" +:+ mac +:+ "

[ipv4]
method=auto
may-fail=true

[ipv6]
method=auto
may-fail=true
".

Definition cluster_net_text (mac ip : string) : string :=
"[connection]
id=cluster-net
type=ethernet
autoconnect-priority=-999
zone=internal
" +:+ nm_origin +:+ "
[ethernet]
mac-address=" +:+ mac +:+ "

[ipv4]
method=auto
never-default=yes
address1=" +:+ ip +:+ "/32

[ipv6]
addr-gen-mode=default
method=auto
".

(** The addresses of a connection, numbered from one. *)
Definition address_lines (vips : list Prefix) : string :=
  text_of (λ i p, nl +:+ "address" +:+ itoa (i + 1) +:+ "=" +:+ Prefix_String p) 0 vips.

Definition dummy_text (vips4 vips6 : list Prefix) : string :=
"[connection]
id=keepalived
type=dummy
interface-name=keepalived
" +:+ nm_origin +:+ "
[dummy]

[ipv4]
method=manual" +:+ address_lines vips4 +:+
  (if 0 <? Z.of_nat (length vips6) then nl +:+ "[ipv6]
method=manual" +:+ address_lines vips6 else "") +:+ nl.

Lemma public_render mac :
  renderTemplate "" "public.nmconnection.tmpl" [("MACAddress", VStr mac)] = Ok (public_text mac).
Proof. render_text. Qed.

Lemma cluster_net_render mac ip :
  renderTemplate "" "cluster-net.nmconnection.tmpl" [("MACAddress", VStr mac); ("IPAddress", VStr ip)]
  = Ok (cluster_net_text mac ip).
Proof. render_text. Qed.

Lemma dummy_render vips4 vips6 :
  renderTemplate "" "keepalived.nmconnection.tmpl"
    [("VIPs4", prefix_values vips4); ("VIPs6", prefix_values vips6)] = Ok (dummy_text vips4 vips6).
Proof.
  eapply eq_trans; [eapply render_exec; [vm_compute; reflexivity|exec_tac]|].
  unfold dummy_text. rewrite length_fmap. reflexivity.
Qed.

(** *** sysctl and firewalld *)

Definition sysctl_text (iface : string) : string :=
"# Accept router advertisements on public interfac
net.ipv6.conf." +:+ iface +:+ ".accept_ra = 2
".

Lemma sysctl_render iface :
  renderTemplate "" "sysctl.conf.tmpl" [("Interface", VStr iface)] = Ok (sysctl_text iface).
Proof. render_text. Qed.

Definition direct_text (iface net nat : string) : string :=
  dq "<direct>
  <rule ipv=`ipv4` table=`nat` chain=`POSTROUTING` priority=`0`>-o " +:+ iface +:+ " -s " +:+ net
  +:+ " -p tcp -j SNAT --to-source " +:+ nat +:+ "</rule>
</direct>
".

Lemma direct_render iface net nat :
  renderTemplate "firewalld" "direct.xml.tmpl" [("PublicInterface", VStr iface);
    ("ClusterNetwork", VStr net); ("NATAddress", VStr nat)] = Ok (direct_text iface net nat).
Proof. render_text. Qed.

(** SSH is rejected on every public virtual address. *)
Definition reject_rule (family : string) (p : Prefix) : string :=
  dq "
  <rule family=`" +:+ family +:+ dq "`>
    <destination address=`" +:+ Prefix_String p +:+ dq "`/>
    <service name=`ssh`/>
    <reject/>
  </rule>".

Definition zone_text (vips4 vips6 : list Prefix) : string :=
  dq "<zone>
  <short>External</short>
  <description>For use on external networks. You do not trust the other computers on networks to not harm your computer. Only selected incoming connections are accepted.</description>
  <masquerade/>
  <forward/>
  <service name=`ssh`/>
  <service name=`http`/>
  <service name=`https`/>
  <service name=`kube-apiserver`/>" +:+ text_of (λ _, reject_rule "ipv4") 0 vips4
  +:+ text_of (λ _, reject_rule "ipv6") 0 vips6 +:+ "
</zone>
".

Lemma zone_render vips4 vips6 :
  renderTemplate "firewalld" "zone-external.xml.tmpl"
    [("IPv4", prefix_values vips4); ("IPv6", prefix_values vips6)] = Ok (zone_text vips4 vips6).
Proof. render_text. Qed.

Lemma split_family_filter vips l4 l6 : split_family vips l4 l6 =
  (l4 ++ filter (λ p, Is4 (pfx_ip p) = true) vips, l6 ++ filter (λ p, Is4 (pfx_ip p) ≠ true) vips).
Proof.
  revert l4 l6. induction vips as [|p vips IH]; intros l4 l6; simpl; [by rewrite !app_nil_r|].
  rewrite !filter_cons. destruct (Is4 (pfx_ip p)); rewrite IH, <-app_assoc; simpl; done.
Qed.
