(* ===== verification/RenderTheorems.v ===== *)
(** * Theorems about the rendered files

    The exact text of each file, for every input on which it is rendered, and
    the errors on all others; the files of the two load balancers of a pair
    mirror each other, and the files that list public addresses agree. *)

From S2P Require Import Prelude GoStrings Netip NetipText Types Interfaces Reconciler Vip Path Host.
From S2P Require Import HostFacts Template Templates TemplateFacts Network Keepalived Haproxy.
From S2P Require Import NetworkManager Rendered.

Local Open Scope Z_scope.

(** ** Keepalived and conntrackd *)

(** The addresses keepalived manages besides those of the configuration: with a
    NAT address the cluster's default gateway. *)
Definition gateway_vips (c : LoadBalancerConfig) (ips : InternalIPs) : list Prefix :=
  match vips_NAT (VirtualAddresses (Spec c)) with
  | None => []
  | Some _ => match Addr_Prefix (DefaultGateway ips) 32 with Ok p => [p] | Err _ => [] end
  end.

Section texts.
Context {HO : Host} {MI : MapIter} {ME : Multierr}.

Lemma keepalived_text_of r c ips iface vips w w' :
  internalIPs r = Ok ips →
  ClusterNetworkInterface r w = (Done (Ok iface), w') →
  privateVIPs (VirtualAddresses (Spec c)) (gateway_vips c ips) = (vips, None) →
  RenderKeepalivedConfig r c w = (Done (Ok (keepalived_text iface
    (if IsPrimary (Keepalived r) then 200 else 100)
    (myInternalIP ips (IsPrimary (Keepalived r))) (peerInternalIP ips (IsPrimary (Keepalived r)))
    vips)), w').
Proof.
  intros Hips Hif Hv. unfold RenderKeepalivedConfig. rewrite Hips, run_bind, Hif.
  unfold gateway_vips in Hv. rewrite Hv, keepalived_render. reflexivity.
Qed.

Lemma conntrackd_text_of r c ips iface w w' :
  internalIPs r = Ok ips →
  ClusterNetworkInterface r w = (Done (Ok iface), w') →
  RenderConntrackdConfig r c w = (Done (Ok (conntrackd_text iface
    (myInternalIP ips (IsPrimary (Keepalived r))) (peerInternalIP ips (IsPrimary (Keepalived r))))), w').
Proof.
  intros Hips Hif. unfold RenderConntrackdConfig. rewrite Hips, run_bind, Hif, conntrackd_render.
  reflexivity.
Qed.

(** Floaty's configuration for a cloud, the credentials and the public addresses:
    each of the two clouds needs its own fields of the credentials, a missing one
    is reported by name, and any other cloud is refused. *)
Definition floaty_text (cloud : string) (sec : Secret) (vips : list Prefix) : result string :=
  if decide (cloud = "cloudscale") then
    match secret_field sec "token" with
    | Some token => Ok (cloudscale_text token vips)
    | None => Err (Errorf "cloudscale credentials secret is missing field 'token'")
    end
  else if decide (cloud = "exoscale") then
    match secret_field sec "key", secret_field sec "secret" with
    | Some key, Some secret => Ok (exoscale_text key secret vips)
    | None, _ => Err (Errorf "exoscale credentials secret is missing field 'key'")
    | Some _, None => Err (Errorf "exoscale credentials secret is missing field 'secret'")
    end
  else Err (Errorf "unknown cloud provider").

Lemma floaty_rendered (c : LoadBalancerConfig) (sec : Secret) (vips : list Prefix) :
  publicVIPs (VirtualAddresses (Spec c)) = (vips, None) →
  RenderFloatyConfig c sec = floaty_text (Cloud (Spec c)) sec vips.
Proof.
  unfold RenderFloatyConfig, floaty_text. intros ->.
  case_decide as H1; [rewrite H1|case_decide as H2; [rewrite H2|done]].
  - destruct (secret_field sec "token") as [token|]; [|done]. simpl. apply cloudscale_render.
  - destruct (secret_field sec "key") as [key|]; [|done].
    destruct (secret_field sec "secret") as [secret|]; [|done]. simpl. apply exoscale_render.
Qed.

(** C24: the files that list public addresses agree.  When all public addresses
    parse, the dummy connection and the firewall zone are rendered and list
    exactly them, split by family, each in the sorted order; on either cloud
    floaty's configuration lists the same addresses in the same order, or it is
    an error because a field of the credentials is missing, as it is for an
    unknown cloud.  When an address does not parse, none of the three is rendered,
    whatever the cloud and the credentials. *)
Theorem public_files_agree (c : LoadBalancerConfig) (sec : Secret) (vips : list Prefix)
  (err : option error) (w : World)
  (Hvips : publicVIPs (VirtualAddresses (Spec c)) = (vips, err)) :
  let v4 := filter (λ p, Is4 (pfx_ip p) = true) vips in
  let v6 := filter (λ p, Is4 (pfx_ip p) ≠ true) vips in
  match err with
  | None =>
      RenderKeepalivedDummyNMConnection c w = (Done (Ok (dummy_text v4 v6)), w)
      ∧ RenderFirewallExternalZone c w = (Done (Ok (zone_text v4 v6)), w)
      ∧ RenderFloatyConfig c sec = floaty_text (Cloud (Spec c)) sec vips
  | Some e =>
      RenderKeepalivedDummyNMConnection c w
        = (Done (Err (Wrapf "failed to prepare public IPv4 VIPs" e)), w)
      ∧ RenderFirewallExternalZone c w = (Done (Err (Wrapf "failed to prepare VIPs" e)), w)
      ∧ RenderFloatyConfig c sec = Err (Wrapf "failed to compute public floating IPs" e)
  end.
Proof.
  destruct err as [e|]; cbv zeta.
  - unfold RenderKeepalivedDummyNMConnection, RenderFirewallExternalZone, RenderFloatyConfig.
    by rewrite Hvips.
  - rewrite (floaty_rendered c sec vips Hvips).
    unfold RenderKeepalivedDummyNMConnection, RenderFirewallExternalZone. rewrite Hvips.
    by rewrite split_family_filter, !app_nil_l, dummy_render, zone_render.
Qed.

(** The SNAT rule: the text for a NAT address that parses, an error for one
    that does not, and a panic when there is none. *)
Theorem RenderFirewallDirectRules_correct (r : LoadBalancerConfigReconciler)
  (c : LoadBalancerConfig) (w : World) :
  match vips_NAT (VirtualAddresses (Spec c)) with
  | None => ∃ why, RenderFirewallDirectRules r c w = (Panic why, w)
  | Some nat =>
      RenderFirewallDirectRules r c w = (Done
        match ParsePrefix (va_Address nat) with
        | Ok p => Ok (direct_text (PublicInterface r) (Prefix_String (ClusterNetwork r))
                        (Addr_String (pfx_ip p)))
        | Err e => Err (Wrapf "failed to parse NAT VIP" e)
        end, w)
  end.
Proof.
  unfold RenderFirewallDirectRules. destruct (vips_NAT _) as [nat|]; [|by eexists].
  destruct (ParsePrefix _); [|done]. by rewrite direct_render.
Qed.

(** ** HAProxy *)

(** The first internal address of a node, by the list functions. *)
Definition node_backend_of (n : Node) : option Backend :=
  a ← head (filter (λ a, na_Type a = NodeInternalIP) (node_Addresses n));
  Some {| be_Name := om_Name (node_Meta n); be_Address := na_Address a |}.

Lemma node_backends_omap nodes : node_backends nodes = omap node_backend_of nodes.
Proof.
  induction nodes as [|n nodes IH]; [done|].
  change (node_backends (n :: nodes)) with
    (node_backend (om_Name (node_Meta n)) (node_Addresses n) ++ node_backends nodes).
  rewrite IH. cbn [omap list_omap]. unfold node_backend_of at 2. generalize (node_Addresses n).
  induction l as [|a l IHl]; [done|]. simpl. rewrite filter_cons. case_decide; [done|exact IHl].
Qed.

Definition api_text (distribution : string) (fd : FrontendData) (bs : list Backend) : option string :=
  if decide (distribution = "openshift") then Some (openshift_api_text fd bs)
  else if decide (distribution = "talos") then Some (talos_api_text fd bs) else None.
Definition ingress_text (distribution : string) (fd : FrontendData) (bs : list Backend)
    : option string :=
  if decide (distribution = "openshift") then Some (openshift_ingress_text fd bs)
  else if decide (distribution = "talos") then Some (talos_ingress_text fd bs) else None.

(** HAProxy's configuration of the API for the two distributions: the
    frontends bind the sorted addresses, and each node the selector finds that
    has an internal address is one numbered server, in the cluster's order,
    under its first internal address; with local backends the cluster is not
    asked. *)
Theorem RenderHAProxyAPIConfig_correct (c : LoadBalancerConfig) (fd : FrontendData)
  (w : World)
  (Hfd : getHAProxyFrontends (VirtualAddresses (Spec c)) = (fd, None)) :
  let text := api_text (Distribution (Spec c)) fd in
  (∀ lb s, text (lb_API lb) = Some s → RenderHAProxyAPIConfig c (Some lb) w = (Done (Ok s), w))
  ∧ ∀ sel nodes s,
      LabelSelectorAsSelector (be_NodeSelector (APIBackend (Spec c))) = Ok sel →
      client_List_Nodes (w_tick w) sel = Ok nodes →
      text (omap node_backend_of nodes) = Some s →
      RenderHAProxyAPIConfig c None w = (Done (Ok s), set_tick (S (w_tick w)) w).
Proof.
  cbv zeta. assert (∀ bs s, api_text (Distribution (Spec c)) fd bs = Some s →
    renderTemplate (Distribution (Spec c)) "haproxy.api.cfg.tmpl" (haproxy_data fd bs) = Ok s) as Hr.
  { intros bs s. unfold api_text. case_decide as H1; [|case_decide as H2; [|done]];
      intros [= <-]; rewrite ?H1, ?H2; [apply openshift_api_render|apply talos_api_render]. }
  unfold RenderHAProxyAPIConfig, haproxyTemplateData. rewrite Hfd. split.
  - intros lb s Hs. rewrite !run_bind; simpl; rewrite ?run_bind. unfold mret, ST_ret.
    fold (haproxy_data fd (lb_API lb)). by rewrite (Hr _ _ Hs).
  - intros sel nodes s Hsel Hn Hs. rewrite !run_bind; simpl; rewrite ?run_bind.
    unfold getHAProxyBackends. rewrite Hsel, run_bind. unfold tick. rewrite Hn.
    unfold mret, ST_ret. rewrite node_backends_omap.
    fold (haproxy_data fd (omap node_backend_of nodes)). by rewrite (Hr _ _ Hs).
Qed.

(** The same for ingress, when an ingress backend is given; without one the
    function panics, also when local backends are. *)
Theorem RenderHAProxyIngressConfig_correct (c : LoadBalancerConfig) (fd : FrontendData)
  (w : World)
  (Hfd : getHAProxyFrontends (VirtualAddresses (Spec c)) = (fd, None)) :
  let text := ingress_text (Distribution (Spec c)) fd in
  match IngressBackend (Spec c) with
  | None => ∀ lb, ∃ why, RenderHAProxyIngressConfig c lb w = (Panic why, w)
  | Some backend =>
      (∀ lb s, text (lb_Ingress lb) = Some s →
         RenderHAProxyIngressConfig c (Some lb) w = (Done (Ok s), w))
      ∧ ∀ sel nodes s,
          LabelSelectorAsSelector (be_NodeSelector backend) = Ok sel →
          client_List_Nodes (w_tick w) sel = Ok nodes →
          text (omap node_backend_of nodes) = Some s →
          RenderHAProxyIngressConfig c None w = (Done (Ok s), set_tick (S (w_tick w)) w)
  end.
Proof.
  cbv zeta. assert (∀ bs s, ingress_text (Distribution (Spec c)) fd bs = Some s →
    renderTemplate (Distribution (Spec c)) "haproxy.ingress.cfg.tmpl" (haproxy_data fd bs) = Ok s) as Hr.
  { intros bs s. unfold ingress_text. case_decide as H1; [|case_decide as H2; [|done]];
      intros [= <-]; rewrite ?H1, ?H2; [apply openshift_ingress_render|apply talos_ingress_render]. }
  unfold RenderHAProxyIngressConfig, haproxyTemplateData.
  destruct (IngressBackend (Spec c)) as [b|]; [|by eexists]. rewrite Hfd. split.
  - intros lb s Hs. rewrite !run_bind; simpl; rewrite ?run_bind. unfold mret, ST_ret.
    fold (haproxy_data fd (lb_Ingress lb)). by rewrite (Hr _ _ Hs).
  - intros sel nodes s Hsel Hn Hs. rewrite !run_bind; simpl; rewrite ?run_bind.
    unfold getHAProxyBackends. rewrite Hsel, run_bind. unfold tick. rewrite Hn.
    unfold mret, ST_ret. rewrite node_backends_omap.
    fold (haproxy_data fd (omap node_backend_of nodes)). by rewrite (Hr _ _ Hs).
Qed.

(** The two connections that are bound to a network card: the public one by
    the card of the public interface, the cluster network's by the card of the
    interface its route names, with this node's VRRP address as a host address;
    a missing card is reported. *)
Theorem nm_connections_correct (r : LoadBalancerConfigReconciler) (c : LoadBalancerConfig)
  (ips : InternalIPs) (iface : string) (w w1 : World)
  (Hips : internalIPs r = Ok ips)
  (Hif : ClusterNetworkInterface r w = (Done (Ok iface), w1)) :
  RenderPublicNMConnection r c w = (Done
    match InterfaceByName (w_tick w) (PublicInterface r) with
    | Ok i => Ok (public_text (HardwareAddr_String (if_HardwareAddr i)))
    | Err e => Err (Wrapf "unable to find interface" e)
    end, set_tick (S (w_tick w)) w)
  ∧ RenderClusterNetNMConnection r c w = (Done
    match InterfaceByName (w_tick w1) iface with
    | Ok i => Ok (cluster_net_text (HardwareAddr_String (if_HardwareAddr i))
                    (myInternalIP ips (IsPrimary (Keepalived r))))
    | Err e => Err (Wrapf "unable to find interface" e)
    end, set_tick (S (w_tick w1)) w1).
Proof.
  split.
  - unfold RenderPublicNMConnection. rewrite run_bind. unfold macAddressForInterface.
    rewrite run_bind. unfold tick. destruct (InterfaceByName _ _); [|done].
    unfold mret, ST_ret. by rewrite public_render.
  - unfold RenderClusterNetNMConnection. rewrite run_bind, Hif, run_bind.
    unfold macAddressForInterface. rewrite run_bind. unfold tick.
    destruct (InterfaceByName _ _); [|done]. rewrite Hips. unfold mret, ST_ret.
    by rewrite cluster_net_render.
Qed.

End texts.

(** C17: the two load balancers of a pair, each on its own host and with its own
    interface, render mirrored configurations of keepalived and conntrackd: the
    same virtual addresses (the private ones and, with NAT, the gateway), the
    primary with the higher priority, and each one's source address is the
    other's destination. *)
Theorem lb_pair_mirrored {MI : MapIter} {ME : Multierr} (HO1 HO2 : Host)
  (r1 r2 : LoadBalancerConfigReconciler) (c : LoadBalancerConfig) (ips : InternalIPs)
  (vips : list Prefix) (if1 if2 : string) (w1 w1' w2 w2' : World)
  (Hnet : ClusterNetwork r1 = ClusterNetwork r2)
  (Hrole1 : IsPrimary (Keepalived r1) = true) (Hrole2 : IsPrimary (Keepalived r2) = false)
  (Hips : internalIPs r1 = Ok ips)
  (Hvips : privateVIPs (VirtualAddresses (Spec c)) (gateway_vips c ips) = (vips, None))
  (Hif1 : ClusterNetworkInterface (HO := HO1) r1 w1 = (Done (Ok if1), w1'))
  (Hif2 : ClusterNetworkInterface (HO := HO2) r2 w2 = (Done (Ok if2), w2')) :
  let a := Addr_String (Primary ips) in
  let b := Addr_String (Secondary ips) in
  RenderKeepalivedConfig (HO := HO1) r1 c w1 = (Done (Ok (keepalived_text if1 200 a b vips)), w1')
  ∧ RenderKeepalivedConfig (HO := HO2) r2 c w2 = (Done (Ok (keepalived_text if2 100 b a vips)), w2')
  ∧ RenderConntrackdConfig (HO := HO1) r1 c w1 = (Done (Ok (conntrackd_text if1 a b)), w1')
  ∧ RenderConntrackdConfig (HO := HO2) r2 c w2 = (Done (Ok (conntrackd_text if2 b a)), w2').
Proof.
  assert (internalIPs r2 = Ok ips) as Hips2 by (revert Hips; unfold internalIPs; by rewrite Hnet).
  pose proof (keepalived_text_of (HO := HO1) r1 c ips if1 vips w1 w1' Hips Hif1 Hvips) as K1.
  pose proof (keepalived_text_of (HO := HO2) r2 c ips if2 vips w2 w2' Hips2 Hif2 Hvips) as K2.
  pose proof (conntrackd_text_of (HO := HO1) r1 c ips if1 w1 w1' Hips Hif1) as C1.
  pose proof (conntrackd_text_of (HO := HO2) r2 c ips if2 w2 w2' Hips2 Hif2) as C2.
  rewrite Hrole1 in K1, C1. rewrite Hrole2 in K2, C2. done.
Qed.
