(* ===== verification/Handlers.v ===== *)
(** * Event handlers and the event filter ([node_update_handler.go],
    [credentials_update_handler.go], [Filter] of
    [loadbalancerconfig_controller.go])

    A handler adds requests to the work queue; the queue is the list of the
    requests added to it, in order. *)

From S2P Require Import Prelude GoStrings Netip Types Reconciler Path Host HostFacts.

(** [client.Object], by its dynamic type. *)
Inductive Object : Type :=
| ObjLoadBalancerConfig (c : LoadBalancerConfig)
| ObjNode (n : Node)
| ObjSecret (s : Secret)
| ObjOther (m : ObjectMeta).

Definition GetNamespace (obj : Object) : string :=
  match obj with
  | ObjLoadBalancerConfig c => om_Namespace (lbc_Meta c)
  | ObjNode n => om_Namespace (node_Meta n)
  | ObjSecret s => om_Namespace (sec_Meta s)
  | ObjOther m => om_Namespace m
  end.

Definition Filter (r : LoadBalancerConfigReconciler) (obj : Object) : bool :=
  match obj with
  | ObjLoadBalancerConfig _ | ObjSecret _ =>
      negb (bool_decide (WatchNamespace r = "")) && bool_decide (WatchNamespace r = GetNamespace obj)
  | ObjNode _ => true
  | ObjOther _ => false
  end.

(** The four kinds of events of a watch. *)
Inductive WatchEvent : Type :=
| CreateEvent (obj : Object) (IsInInitialList : bool)
| UpdateEvent (ObjectOld ObjectNew : Object)
| DeleteEvent (obj : Object)
| GenericEvent (obj : Object).

Definition Queue : Type := list NamespacedName.

Definition ObjectKey (c : LoadBalancerConfig) : NamespacedName :=
  {| nn_Namespace := om_Namespace (lbc_Meta c); nn_Name := om_Name (lbc_Meta c) |}.

Section handlers.
Context {HO : Host}.

(** [queueAllLBConfigs], the same in both handlers; a list error is logged. *)
Definition queueAllLBConfigs (q : Queue) : M Queue :=
  t ← tick;
  match client_List_LoadBalancerConfigs t with
  | Err _ => mret q
  | Ok lbconfigs => mret (q ++ (ObjectKey <$> lbconfigs))
  end.

(** *** [nodeUpdateHandler] *)

Definition node_Create (obj : Object) (IsInInitialList : bool) (q : Queue) : M Queue :=
  if IsInInitialList then mret q else queueAllLBConfigs q.

(** The type assertions panic on an object that is not a node. *)
Definition node_Update (ObjectOld ObjectNew : Object) (q : Queue) : M Queue :=
  match ObjectOld, ObjectNew with
  | ObjNode o, ObjNode n =>
      if bool_decide (om_Labels (node_Meta o) = om_Labels (node_Meta n)) then mret q
      else queueAllLBConfigs q
  | _, _ => panic "interface conversion: client.Object is not *v1.Node"
  end.

Definition node_Delete (obj : Object) (q : Queue) : M Queue := queueAllLBConfigs q.
Definition node_Generic (obj : Object) (q : Queue) : M Queue := queueAllLBConfigs q.

Definition nodeUpdateHandler (ev : WatchEvent) (q : Queue) : M Queue :=
  match ev with
  | CreateEvent obj i => node_Create obj i q
  | UpdateEvent o n => node_Update o n q
  | DeleteEvent obj => node_Delete obj q
  | GenericEvent obj => node_Generic obj q
  end.

(** *** [credentialsUpdateHandler] *)

Definition creds_Create (obj : Object) (IsInInitialList : bool) (q : Queue) : M Queue :=
  if IsInInitialList then mret q else queueAllLBConfigs q.
Definition creds_Update (ObjectOld ObjectNew : Object) (q : Queue) : M Queue := queueAllLBConfigs q.
Definition creds_Delete (obj : Object) (q : Queue) : M Queue := queueAllLBConfigs q.
Definition creds_Generic (obj : Object) (q : Queue) : M Queue := queueAllLBConfigs q.

Definition credentialsUpdateHandler (ev : WatchEvent) (q : Queue) : M Queue :=
  match ev with
  | CreateEvent obj i => creds_Create obj i q
  | UpdateEvent o n => creds_Update o n q
  | DeleteEvent obj => creds_Delete obj q
  | GenericEvent obj => creds_Generic obj q
  end.

(** ** Theorems *)

Lemma queueAll_run q w : queueAllLBConfigs q w =
  (Done (match client_List_LoadBalancerConfigs (w_tick w) with
         | Ok cs => q ++ (ObjectKey <$> cs)
         | Err _ => q
         end), set_tick (S (w_tick w)) w).
Proof. unfold queueAllLBConfigs. rewrite run_bind. unfold tick. by destruct (client_List_LoadBalancerConfigs _). Qed.

(** What an event calls for. *)
Definition ignored (ev : WatchEvent) : Prop :=
  match ev with
  | CreateEvent _ i => i = true
  | UpdateEvent (ObjNode o) (ObjNode n) => om_Labels (node_Meta o) = om_Labels (node_Meta n)
  | _ => False
  end.

(** The objects a watch on nodes delivers. *)
Definition node_event (ev : WatchEvent) : Prop :=
  match ev with
  | UpdateEvent o n => ∃ o' n', o = ObjNode o' ∧ n = ObjNode n'
  | _ => True
  end.

(** C27: a node event either leaves the queue alone, exactly when it replays the
    initial list or updates a node without changing its labels, or appends a
    request for every custom resource the cluster lists, in that order (and for
    none when listing fails: the event is then lost). *)
Theorem nodeUpdateHandler_correct (ev : WatchEvent) (q : Queue) (w : World)
  (Hev : node_event ev) :
  (ignored ev → nodeUpdateHandler ev q w = (Done q, w))
  ∧ (¬ ignored ev → nodeUpdateHandler ev q w =
       (Done (q ++ match client_List_LoadBalancerConfigs (w_tick w) with
                   | Ok cs => ObjectKey <$> cs
                   | Err _ => []
                   end), set_tick (S (w_tick w)) w)).
Proof.
  assert (queueAllLBConfigs q w =
    (Done (q ++ match client_List_LoadBalancerConfigs (w_tick w) with
                | Ok cs => ObjectKey <$> cs | Err _ => [] end), set_tick (S (w_tick w)) w)) as Hq.
  { rewrite queueAll_run. destruct (client_List_LoadBalancerConfigs _); [done|]. by rewrite app_nil_r. }
  destruct ev as [obj []|o n|obj|obj]; simpl in *.
  - by split.
  - by split.
  - destruct Hev as (o' & n' & -> & ->). simpl. unfold node_Update.
    split; intros H; [by rewrite bool_decide_eq_true_2|by rewrite bool_decide_eq_false_2].
  - by split.
  - by split.
Qed.

(** The filter only admits custom resources and
    secrets of the watched namespace, but both handlers queue the custom
    resources of all namespaces: an event for a node, or for a secret of the
    watched namespace, queues a custom resource that the filter itself would
    have refused. *)
Theorem handlers_bypass_namespace (r : LoadBalancerConfigReconciler) (c : LoadBalancerConfig)
  (cs : list LoadBalancerConfig) (n : Node) (s : Secret) (q : Queue) (w : World)
  (Hns : WatchNamespace r ≠ "") (Hs : om_Namespace (sec_Meta s) = WatchNamespace r)
  (Hother : om_Namespace (lbc_Meta c) ≠ WatchNamespace r)
  (Hlist : client_List_LoadBalancerConfigs (w_tick w) = Ok cs) (Hc : c ∈ cs) :
  Filter r (ObjLoadBalancerConfig c) = false
  ∧ (Filter r (ObjNode n) = true ∧
     ∃ q' w', nodeUpdateHandler (DeleteEvent (ObjNode n)) q w = (Done q', w') ∧ ObjectKey c ∈ q')
  ∧ (Filter r (ObjSecret s) = true ∧
     ∃ q' w', credentialsUpdateHandler (UpdateEvent (ObjSecret s) (ObjSecret s)) q w = (Done q', w')
              ∧ ObjectKey c ∈ q').
Proof.
  assert (∃ q' w', queueAllLBConfigs q w = (Done q', w') ∧ ObjectKey c ∈ q') as Hq.
  { rewrite queueAll_run, Hlist. eexists _, _. split; [done|]. apply elem_of_app. right.
    by apply list_elem_of_fmap_2. }
  unfold Filter, GetNamespace. rewrite (bool_decide_eq_false_2 (WatchNamespace r = "")) by done.
  rewrite Hs. rewrite bool_decide_eq_false_2 by done. rewrite bool_decide_eq_true_2 by done.
  by split_and!.
Qed.

End handlers.

(** The filter admits a custom resource or a secret exactly when it is of
    the watched namespace and that is not the empty string; so with an empty
    [--watch-namespace] nothing is reconciled, where the flag's description says
    that everything is. *)
Theorem Filter_correct (r : LoadBalancerConfigReconciler) (obj : Object) :
  Filter r obj = true ↔
  match obj with
  | ObjNode _ => True
  | ObjOther _ => False
  | _ => WatchNamespace r ≠ "" ∧ GetNamespace obj = WatchNamespace r
  end.
Proof.
  destruct obj; simpl; [|done| |done];
    rewrite andb_true_iff, negb_true_iff, bool_decide_eq_false, bool_decide_eq_true;
    (split; intros [? ?]; split; congruence).
Qed.
