(* ===== verification/Setup.v ===== *)
(** * Wiring ([SetupWithManager] of [loadbalancerconfig_controller.go],
    [api/v1alpha1/groupversion_info.go])

    What the controller registers with controller-runtime: the kinds it watches,
    their handlers, the event filter, the rate limiter, and the types of the API
    group.  What controller-runtime does with the registration is an interface,
    with its documented behaviour as laws. *)

From S2P Require Import Prelude GoStrings Netip Types Interfaces Reconciler Vip Path Host HostFacts.
From S2P Require Import WriteConfig Reconcile Handlers.

Local Open Scope Z_scope.

(** ** The API group *)

(** [schema.GroupVersion] *)
Record schema_GroupVersion : Type := { gv_Group : string; gv_Version : string }.

Definition SchemeGroupVersion : schema_GroupVersion :=
  {| gv_Group := "config.bootc-lb.syn.tools"; gv_Version := "v1alpha1" |}.
Definition GroupVersion : schema_GroupVersion := SchemeGroupVersion.

(** [scheme.Builder]: the version and the types registered so far, by name *)
Record scheme_Builder : Type := { sb_GroupVersion : schema_GroupVersion; sb_types : list string }.

Definition Register (types : list string) (b : scheme_Builder) : scheme_Builder :=
  {| sb_GroupVersion := sb_GroupVersion b; sb_types := sb_types b ++ types |}.

(** The package variable, and what [init] makes of it. *)
Definition SchemeBuilder : scheme_Builder := {| sb_GroupVersion := SchemeGroupVersion; sb_types := [] |}.
Definition init_SchemeBuilder : scheme_Builder :=
  Register ["LoadBalancerConfig"; "LoadBalancerConfigList"] SchemeBuilder.

(** A [runtime.Scheme]: the kinds it knows. *)
Definition Scheme : Type := list (schema_GroupVersion * string).

(** [SchemeBuilder.AddToScheme] *)
Definition AddToScheme (s : Scheme) : Scheme :=
  s ++ ((λ t, (sb_GroupVersion init_SchemeBuilder, t)) <$> sb_types init_SchemeBuilder).

(** ** The controller *)

Inductive WatchKind : Type := KindLoadBalancerConfig | KindNode | KindSecret.
#[export] Instance WatchKind_eq_dec : EqDecision WatchKind.
Proof. solve_decision. Defined.

(** A handler adds requests to the queue. *)
Definition EventHandler {HO : Host} : Type := WatchEvent → Queue → M Queue.

(** What is built with [ctrl.NewControllerManagedBy(mgr)]. *)
Record Controller {HO : Host} : Type := {
  ctl_Name : string;
  ctl_For : WatchKind;
  ctl_Watches : list (WatchKind * EventHandler);
  ctl_Predicate : WatchEvent → bool;
  (** the delays of the exponential failure rate limiter, in nanoseconds *)
  ctl_BaseDelay : Z;
  ctl_MaxDelay : Z;
  ctl_Reconciler : NamespacedName → M (option error);
}.

Definition Second : Z := 1000000000.
Definition Minute : Z := 60 * Second.

(** The object an event is about: of an update, the new one. *)
Definition event_object (ev : WatchEvent) : Object :=
  match ev with
  | CreateEvent obj _ | DeleteEvent obj | GenericEvent obj => obj
  | UpdateEvent _ n => n
  end.

(** The name under which an object is reconciled. *)
Definition object_meta (obj : Object) : ObjectMeta :=
  match obj with
  | ObjLoadBalancerConfig c => lbc_Meta c
  | ObjNode n => node_Meta n
  | ObjSecret s => sec_Meta s
  | ObjOther m => m
  end.
Definition object_request (obj : Object) : NamespacedName :=
  {| nn_Namespace := om_Namespace (object_meta obj); nn_Name := om_Name (object_meta obj) |}.

Class ControllerRuntime {HO : Host} : Type := {
  (** [predicate.NewPredicateFuncs] applies the filter to the object of an event,
      for an update to the new one *)
  NewPredicateFuncs : (Object → bool) → WatchEvent → bool;
  NewPredicateFuncs_object f ev : NewPredicateFuncs f ev = f (event_object ev);
  (** the handler of [For] queues the object of the event *)
  EnqueueRequestForObject : EventHandler;
  Enqueue_object ev q w :
    EnqueueRequestForObject ev q w = (Done (q ++ [object_request (event_object ev)]), w);
  (** an event of a watch passes the predicates of the controller and goes to the
      handlers of the watch, in turn *)
  deliver : Controller → WatchKind → EventHandler;
  deliver_refused c k ev q w : ctl_Predicate c ev = false → deliver c k ev q w = (Done q, w);
  deliver_admitted c k ev q w : ctl_Predicate c ev = true →
    deliver c k ev q w =
      foldr (λ (h : EventHandler) (rest : Queue → M Queue) q, h ev q ≫= rest) mret
        ((if decide (k = ctl_For c) then [EnqueueRequestForObject] else [])
         ++ (snd <$> filter (λ kh, kh.1 = k) (ctl_Watches c))) q w;
}.

Section setup.
Context {HO : Host} {MI : MapIter} {ME : Multierr} {DI : Digest} {CR : ControllerRuntime}.

(** The controller that [SetupWithManager] completes with the reconciler. *)
Definition SetupWithManager (r : LoadBalancerConfigReconciler) : Controller := {|
  ctl_Name := "loadbalancerconfig";
  ctl_For := KindLoadBalancerConfig;
  ctl_Watches := [(KindNode, nodeUpdateHandler); (KindSecret, credentialsUpdateHandler)];
  ctl_Predicate := NewPredicateFuncs (Filter r);
  ctl_BaseDelay := 10 * Second;
  ctl_MaxDelay := 5 * Minute;
  ctl_Reconciler := Reconcile r;
|}.

(** The objects that events of a watch carry. *)
Definition of_kind (k : WatchKind) (obj : Object) : Prop :=
  match k, obj with
  | KindLoadBalancerConfig, ObjLoadBalancerConfig _ => True
  | KindNode, ObjNode _ => True
  | KindSecret, ObjSecret _ => True
  | _, _ => False
  end.

Definition watched (r : LoadBalancerConfigReconciler) (obj : Object) : bool :=
  negb (bool_decide (WatchNamespace r = "")) && bool_decide (WatchNamespace r = GetNamespace obj).

(** C26: which requests an event leads to.  An event for a custom resource of the
    watched namespace queues that custom resource, and one of another namespace
    nothing; every node event goes to the node handler, whatever the namespace;
    an event for a secret of the watched namespace goes to the credentials
    handler, and one of another namespace nowhere.  With an empty watched
    namespace, custom resources and secrets never lead to a request. *)
Theorem SetupWithManager_dispatch (r : LoadBalancerConfigReconciler) (k : WatchKind)
  (ev : WatchEvent) (q : Queue) (w : World)
  (Hkind : of_kind k (event_object ev)) :
  deliver (SetupWithManager r) k ev q w =
  match k with
  | KindLoadBalancerConfig =>
      (Done (if watched r (event_object ev) then q ++ [object_request (event_object ev)] else q), w)
  | KindNode => nodeUpdateHandler ev q w
  | KindSecret =>
      if watched r (event_object ev) then credentialsUpdateHandler ev q w else (Done q, w)
  end.
Proof.
  assert (∀ (m : M Queue), (m ≫= mret) w = m w) as Hret.
  { intros m. rewrite run_bind. by destruct (m w) as [[]]. }
  assert (ctl_Predicate (SetupWithManager r) ev = Filter r (event_object ev)) as Hp.
  { simpl. apply NewPredicateFuncs_object. }
  destruct k; destruct (event_object ev) eqn:Eo; try done; cbn [Filter] in Hp.
  - unfold watched. destruct (negb _ && _) eqn:E.
    + rewrite deliver_admitted by congruence. simpl. by rewrite Hret, Enqueue_object, Eo.
    + by rewrite deliver_refused by congruence.
  - rewrite deliver_admitted by congruence. simpl. by rewrite Hret.
  - unfold watched. destruct (negb _ && _) eqn:E.
    + rewrite deliver_admitted by congruence. simpl. by rewrite Hret.
    + by rewrite deliver_refused by congruence.
Qed.

End setup.

(** The API group registers exactly its two root types, with a version. *)
Lemma AddToScheme_kinds s k : k ∈ AddToScheme s ↔
  k ∈ s ∨ k = (GroupVersion, "LoadBalancerConfig") ∨ k = (GroupVersion, "LoadBalancerConfigList").
Proof. unfold AddToScheme. simpl. set_solver. Qed.

(** ** An instance of controller-runtime's promises *)

Definition runtime_in_order (HO : Host) : ControllerRuntime.
Proof.
  refine {|
    NewPredicateFuncs f ev := f (event_object ev);
    EnqueueRequestForObject ev q := mret (q ++ [object_request (event_object ev)]);
    deliver c k ev q := if ctl_Predicate c ev then
      foldr (λ (h : EventHandler) (rest : Queue → M Queue) q, h ev q ≫= rest) mret
        ((if decide (k = ctl_For c)
          then [λ ev q, mret (q ++ [object_request (event_object ev)])] else [])
         ++ (snd <$> filter (λ kh, kh.1 = k) (ctl_Watches c))) q else mret q |}.
  - done.
  - done.
  - by intros c k ev q w ->.
  - by intros c k ev q w ->.
Defined.
