(* ===== verification/RenderFile.v ===== *)
(** * Rendering from a file ([internal/render/render.go])

    The YAML reader and decoder are third-party code ([Yaml]); a strict decoder
    may fill in part of the object before it reports an error.  What the
    function prints is not modelled. *)

From S2P Require Import Prelude GoStrings Netip NetipText Types Interfaces Reconciler Vip Path Host.
From S2P Require Import WriteConfig HostFacts WriteFacts FileNames Haproxy Reconcile Service.
From S2P Require Import Jobs JobFacts ReconcileFacts Template Templates TemplateFacts Rendered.

Local Open Scope Z_scope.

Class Yaml : Type := {
  (** the documents [YAMLReader.Read] returns, and the error that ends them
      ([None] for [io.EOF]) *)
  yaml_docs : string → list string * option error;
  (** [yaml.UnmarshalStrict(doc, &v)]: the new value of [v], and the error *)
  UnmarshalStrict_LoadBalancerConfig :
    string → LoadBalancerConfig → LoadBalancerConfig * option error;
  UnmarshalStrict_Secret : string → Secret → Secret * option error;
}.

Definition zeroSecret : Secret := {|
  sec_Meta := zeroMeta; sec_Data := None; sec_StringData := ∅ |}.

(** The loop of [parseBackendString], from index [i] on. *)
Fixpoint parseBackends (prefix : string) (i : Z) (belist : list string) : result (list Backend) :=
  match belist with
  | [] => Ok []
  | be :: belist =>
      match ParseAddr be with
      | Err err => Err (Wrapf "failed to parse backend ip" err)
      | Ok beip =>
          parsed ← parseBackends prefix (i + 1) belist;
          Ok ({| be_Name := prefix +:+ "_" +:+ itoa i; be_Address := Addr_String beip |} :: parsed)
      end
  end.

Definition parseBackendString (prefix backends : string) : result (list Backend) :=
  parseBackends prefix 0 (split_on "," backends).

(** The documents, decoded one after the other into the same two objects. *)
Definition decodeDocs {Y : Yaml} (docs : list string) : LoadBalancerConfig * Secret :=
  fold_left (λ '(lbconfig, creds) doc,
    (fst (UnmarshalStrict_LoadBalancerConfig doc lbconfig), fst (UnmarshalStrict_Secret doc creds)))
    docs (zeroLBConfig, zeroSecret).

(** [creds.Data] with the entries of [creds.StringData] put over it. *)
Definition mergeStringData (creds : Secret) : Secret := {|
  sec_Meta := sec_Meta creds;
  sec_Data := Some (sec_StringData creds ∪ default ∅ (sec_Data creds));
  sec_StringData := sec_StringData creds;
|}.

Definition RenderFile {HO : Host} {MI : MapIter} {ME : Multierr} {DI : Digest} {Y : Yaml}
    (r : LoadBalancerConfigReconciler) (file apiBackends ingressBackends : string)
    : M (option error) :=
  raw ← ReadFile file;
  match raw with
  | Err err => mret (Some (Wrapf "failed to read managed resource file" err))
  | Ok raw =>
      match parseBackendString "api" apiBackends with
      | Err err => mret (Some err)
      | Ok api =>
          match parseBackendString "ingress" apiBackends with
          | Err err => mret (Some err)
          | Ok ingress =>
              let '(docs, err) := yaml_docs raw in
              match err with
              | Some err => mret (Some (Wrapf "failed to read input file" err))
              | None =>
                  let '(lbconfig, creds) := decodeDocs docs in
                  put_lbc lbconfig;;
                  '(_, err) ← ReconcileLBConfig r (mergeStringData creds)
                                (Some {| lb_API := api; lb_Ingress := ingress |});
                  match err with
                  | Some err => mret (Some (Wrapf "failed to render loadbalancerconfig file" err))
                  | None => mret None
                  end
              end
          end
      end
  end.

(** ** Theorems *)

(** The texts of addresses, separated by commas. *)
Definition backend_list (vs : list Z) : string :=
  join_with "," ((λ v, Addr_String (AddrFrom4 v)) <$> vs).

Fixpoint numbered_backends (prefix : string) (i : Z) (vs : list Z) : list Backend :=
  match vs with
  | [] => []
  | v :: vs =>
      {| be_Name := prefix +:+ "_" +:+ itoa i; be_Address := Addr_String (AddrFrom4 v) |}
      :: numbered_backends prefix (i + 1) vs
  end.

Lemma parseBackends_ipv4 prefix i vs : Forall (λ v, 0 ≤ v < 2 ^ 32) vs →
  parseBackends prefix i ((λ v, Addr_String (AddrFrom4 v)) <$> vs) = Ok (numbered_backends prefix i vs).
Proof.
  intros H. revert i. induction H as [|v vs Hv _ IH]; intros i; [done|]. simpl.
  rewrite Addr_String_from4, parse_string4 by done. cbn [mbind result_bind].
  by rewrite IH, Addr_String_from4.
Qed.

Lemma parse_backend_list prefix vs : vs ≠ [] → Forall (λ v, 0 ≤ v < 2 ^ 32) vs →
  parseBackendString prefix (backend_list vs) = Ok (numbered_backends prefix 0 vs).
Proof.
  intros Hne Hv. unfold parseBackendString, backend_list.
  rewrite split_join; [by apply parseBackends_ipv4|by destruct vs|].
  apply Forall_fmap. eapply Forall_impl; [exact Hv|]. intros v Hv'. simpl.
  rewrite Addr_String_from4 by done. by apply string4_free.
Qed.

(** C33: the list of backend addresses on the command line: the texts of IPv4
    addresses separated by commas are read back as one backend each, in order,
    numbered from zero, under the same text; one element that is not an address
    makes the whole list an error, and so does the empty string. *)
Theorem parseBackendString_correct (prefix : string) :
  (∀ vs, vs ≠ [] → Forall (λ v, 0 ≤ v < 2 ^ 32) vs →
     parseBackendString prefix (backend_list vs) = Ok (numbered_backends prefix 0 vs))
  ∧ (∀ s, is_ok (parseBackendString prefix s) = true ↔
       Forall (λ be, is_ok (ParseAddr be) = true) (split_on "," s))
  ∧ is_ok (parseBackendString prefix "") = false.
Proof.
  split_and!; [intros; by apply parse_backend_list| |done].
  intros s. unfold parseBackendString. generalize 0. induction (split_on "," s) as [|be l IH]; intros i.
  - split; [constructor|done].
  - rewrite Forall_cons. simpl. destruct (ParseAddr be) as [a|e]; simpl; [|naive_solver].
    rewrite <-(IH (i + 1)). destruct (parseBackends prefix (i + 1) l); simpl; naive_solver.
Qed.

Section render_file.
Context {HO : Host} {MI : MapIter} {ME : Multierr} {DI : Digest} {Y : Yaml}.

(** Without [--api-backends], which is empty by default, rendering from a
    file fails, whatever the file holds and whatever [--ingress-backends] says,
    and writes nothing. *)
Lemma RenderFile_needs_api_backends (r : LoadBalancerConfigReconciler)
  (file ingressBackends : string) (w : World) :
  ∃ e w', RenderFile r file "" ingressBackends w = (Done (Some e), w') ∧ same_state w w'.
Proof.
  unfold RenderFile. rewrite run_bind, ReadFile_run.
  destruct (match os_fault _ _ with Some _ => _ | None => _ end); by eexists _, _.
Qed.

(** Inversion of a successful run. *)
Lemma RenderFile_ok r file api ing w w' : RenderFile r file api ing w = (Done None, w') →
  ∃ raw docs bs_api bs_ing w0 u,
    parseBackendString "api" api = Ok bs_api ∧ parseBackendString "ingress" api = Ok bs_ing
    ∧ f_content <$> w_files w !! file = Some raw ∧ yaml_docs raw = (docs, None)
    ∧ w_lbc w0 = (decodeDocs docs).1
    ∧ ReconcileLBConfig r (mergeStringData (decodeDocs docs).2)
        (Some {| lb_API := bs_api; lb_Ingress := bs_ing |}) w0 = (Done (u, None), w').
Proof.
  unfold RenderFile. rewrite run_bind.
  destruct (ReadFile file w) as [[[raw|]|] w0] eqn:Er; [|done..].
  destruct (parseBackendString "api" api) as [bs_api|] eqn:Ea; [|done].
  destruct (parseBackendString "ingress" api) as [bs_ing|] eqn:Ei; [|done].
  destruct (yaml_docs raw) as [docs [e|]] eqn:Ey; [done|].
  destruct (decodeDocs docs) as [c sec] eqn:Ed. rewrite run_bind. unfold put_lbc, modify.
  rewrite run_bind. intros H.
  destruct (ReconcileLBConfig _ _ _ _) as [[[u [e|]]|] w2] eqn:E in H; [done| |done].
  injection H as <-. apply ReadFile_ok in Er as [md Ef]. exists raw, docs, bs_api, bs_ing.
  eexists _, u. rewrite Ed, Ef. split_and!; [done..| |exact E]. done.
Qed.

(** C34 (the wrong flag): after rendering from a file the ingress configuration
    of HAProxy is in sync with servers taken from [--api-backends]; the value of
    [--ingress-backends] is not used. *)
Theorem RenderFile_ingress_from_api {NF : NoFaults} {SH : StableHost}
  (r : LoadBalancerConfigReconciler) (file ingressBackends : string) (vs : list Z) (w w' : World)
  (Hvs : vs ≠ []) (Hv : Forall (λ v, 0 ≤ v < 2 ^ 32) vs)
  (Hrun : RenderFile r file (backend_list vs) ingressBackends w = (Done None, w')) :
  let c := w_lbc w' in
  ∃ fd, getHAProxyFrontends (VirtualAddresses (Spec c)) = (fd, None)
  ∧ (Distribution (Spec c) = "openshift" →
     in_sync r HAProxyIngressConfigFile
       (openshift_ingress_text fd (numbered_backends "ingress" 0 vs)) w')
  ∧ (Distribution (Spec c) = "talos" →
     in_sync r HAProxyIngressConfigFile
       (talos_ingress_text fd (numbered_backends "ingress" 0 vs)) w').
Proof.
  apply RenderFile_ok in Hrun as (raw & docs & bs_api & bs_ing & w0 & u & Ha & Hi & _ & _ & _ & Hrun).
  rewrite parse_backend_list in Hi by done. injection Hi as <-.
  destruct (ReconcileLBConfig_ok _ _ _ _ _ _ Hrun) as (v & n & _ & _ & _ & Hall).
  edestruct Hall as (data & Hd & Hs); [by apply (list_elem_of_lookup_2 _ 1%nat)|].
  cbn [j_render j_file] in Hd, Hs. cbv zeta.
  destruct (Hd w') as [t E]. revert E. unfold RenderHAProxyIngressConfig, haproxyTemplateData.
  destruct (IngressBackend _); [|done].
  destruct (getHAProxyFrontends _) as [fd [e|]]; [done|]. cbn [fmap option_fmap option_map lb_Ingress].
  unfold mbind, ST_bind, mret, ST_ret. cbv beta iota. fold (haproxy_data fd (numbered_backends "ingress" 0 vs)).
  intros [= E _]. exists fd. split; [done|]. split; intros Hdist; rewrite Hdist in E;
    [rewrite openshift_ingress_render in E|rewrite talos_ingress_render in E]; by injection E as <-.
Qed.

End render_file.
