(* ===== verification/Main.v ===== *)
(** * Start-up ([cmd/main.go])

    The flags, the options of the manager and its two servers, the construction
    of the reconciler, and the calls made on the manager until the program ends.
    The flag parser, the manager and the detection of the default route are
    third-party code; what they answer are fields of [MainEnv]. *)

From S2P Require Import Prelude GoStrings Netip NetipText Types Interfaces Reconciler Vip Path Host.
From S2P Require Import HostFacts WriteFacts Reconcile Handlers Setup RenderFile.

Local Open Scope Z_scope.

(** ** Flags *)

Record Flags : Type := {
  fl_metricsAddr : string;
  fl_metricsCertPath : string;
  fl_metricsCertName : string;
  fl_metricsCertKey : string;
  fl_webhookCertPath : string;
  fl_webhookCertName : string;
  fl_webhookCertKey : string;
  fl_enableLeaderElection : bool;
  fl_probeAddr : string;
  fl_secureMetrics : bool;
  fl_enableHTTP2 : bool;
  fl_isPrimary : bool;
  fl_publicInterface : string;
  fl_clusterNetwork : string;
  fl_configRoot : string;
  fl_renderFromFile : string;
  fl_apiBackends : string;
  fl_ingressBackends : string;
  fl_watchNamespace : string;
}.

(** The defaults, given the interface of the default route. *)
Definition default_flags (detectedPublicInterface : string) : Flags := {|
  fl_metricsAddr := "0";
  fl_metricsCertPath := "";
  fl_metricsCertName := "tls.crt";
  fl_metricsCertKey := "tls.key";
  fl_webhookCertPath := "";
  fl_webhookCertName := "tls.crt";
  fl_webhookCertKey := "tls.key";
  fl_enableLeaderElection := false;
  fl_probeAddr := ":8081";
  fl_secureMetrics := true;
  fl_enableHTTP2 := false;
  fl_isPrimary := false;
  fl_publicInterface := detectedPublicInterface;
  fl_clusterNetwork := "172.18.200.0/24";
  fl_configRoot := "/";
  fl_renderFromFile := "";
  fl_apiBackends := "";
  fl_ingressBackends := "";
  fl_watchNamespace := "default";
|}.

(** ** The manager's options *)

(** [tls.Config], the field that is set *)
Record tls_Config : Type := { NextProtos : list string }.
Definition TLSOpt : Type := tls_Config → tls_Config.

Definition disableHTTP2 : TLSOpt := λ c, {| NextProtos := ["http/1.1"] |}.

Definition tlsOpts (f : Flags) : list TLSOpt :=
  if negb (fl_enableHTTP2 f) then [disableHTTP2] else [].

(** [webhook.Options]; an empty string is an option that is not set. *)
Record webhook_Options : Type := {
  wh_TLSOpts : list TLSOpt;
  wh_CertDir : string;
  wh_CertName : string;
  wh_KeyName : string;
}.

Definition webhookServerOptions (f : Flags) : webhook_Options :=
  if (0 <? String.length (fl_webhookCertPath f))%nat then
    {| wh_TLSOpts := tlsOpts f; wh_CertDir := fl_webhookCertPath f;
       wh_CertName := fl_webhookCertName f; wh_KeyName := fl_webhookCertKey f |}
  else {| wh_TLSOpts := tlsOpts f; wh_CertDir := ""; wh_CertName := ""; wh_KeyName := "" |}.

(** A [FilterProvider] of the package [filters]. *)
Inductive FilterProvider : Type := WithAuthenticationAndAuthorization.

(** [metricsserver.Options] *)
Record metrics_Options : Type := {
  ms_BindAddress : string;
  ms_SecureServing : bool;
  ms_TLSOpts : list TLSOpt;
  ms_FilterProvider : option FilterProvider;
  ms_CertDir : string;
  ms_CertName : string;
  ms_KeyName : string;
}.

Definition metricsServerOptions (f : Flags) : metrics_Options :=
  let with_cert := (0 <? String.length (fl_metricsCertPath f))%nat in {|
    ms_BindAddress := fl_metricsAddr f;
    ms_SecureServing := fl_secureMetrics f;
    ms_TLSOpts := tlsOpts f;
    ms_FilterProvider := if fl_secureMetrics f then Some WithAuthenticationAndAuthorization else None;
    ms_CertDir := if with_cert then fl_metricsCertPath f else "";
    ms_CertName := if with_cert then fl_metricsCertName f else "";
    ms_KeyName := if with_cert then fl_metricsCertKey f else "";
  |}.

(** [ctrl.Options] *)
Record ctrl_Options : Type := {
  co_Scheme : Scheme;
  co_Metrics : metrics_Options;
  co_WebhookServer : webhook_Options;
  co_HealthProbeBindAddress : string;
  co_LeaderElection : bool;
  co_LeaderElectionID : string;
}.

(** The package's [scheme] after [init], given the kinds of [clientgoscheme]. *)
Definition scheme (clientgoscheme : Scheme) : Scheme := AddToScheme clientgoscheme.

Definition managerOptions (clientgoscheme : Scheme) (f : Flags) : ctrl_Options := {|
  co_Scheme := scheme clientgoscheme;
  co_Metrics := metricsServerOptions f;
  co_WebhookServer := webhookServerOptions f;
  co_HealthProbeBindAddress := fl_probeAddr f;
  co_LeaderElection := fl_enableLeaderElection f;
  co_LeaderElectionID := "5eb1bfc8.bootc-lb.syn.tools";
|}.

(** ** The reconciler *)

(** The cluster network and the reconciler.  A host name that cannot be
    determined is logged and stays empty. *)
Definition setupReconciler (f : Flags) (hostname : string) : result LoadBalancerConfigReconciler :=
  match ParsePrefix (fl_clusterNetwork f) with
  | Err err => Err (Wrapf "Failed to parse cluster network as CIDR" err)
  | Ok clusterNet =>
      if negb (Is4 (pfx_ip (Masked clusterNet)))
      then Err (Errorf "IPv6 cluster network isn't supported")
      else Ok {| ConfigRoot := fl_configRoot f;
                 PublicInterface := fl_publicInterface f;
                 ClusterNetwork := clusterNet;
                 WatchNamespace := fl_watchNamespace f;
                 Hostname := hostname;
                 Keepalived := {| IsPrimary := fl_isPrimary f |} |}
  end.

(** ** The program *)

(** The calls made on the manager; [NewManager] stands for
    [ctrl.NewManager(ctrl.GetConfigOrDie(), ...)]. *)
Inductive ManagerCall {HO : Host} : Type :=
| NewManager (options : ctrl_Options)
| CompleteController (c : Controller)
| AddHealthzCheck (name : string)
| AddReadyzCheck (name : string)
| StartManager.

Class MainEnv {HO : Host} : Type := {
  DefaultRouteInterface : result string;
  (** [flag.Parse], with the defaults it was given *)
  flag_Parse : Flags → Flags;
  (** the kinds [clientgoscheme.AddToScheme] registers *)
  clientgoscheme : Scheme;
  (** whether a call fails; without a cluster configuration [NewManager] does,
      by [GetConfigOrDie] ending the program with the same exit code *)
  mgr_error : ManagerCall → option error;
  (** [os.Hostname]: the name, empty on error *)
  os_Hostname : string;
}.

Section main.
Context {HO : Host} {MI : MapIter} {ME : Multierr} {DI : Digest} {Y : Yaml} {CR : ControllerRuntime}.
Context {EN : MainEnv}.

(** [if err := call; err != nil { os.Exit(1) }], then [k]; the calls are logged. *)
Definition attempt (call : ManagerCall) (log : list ManagerCall)
    (k : list ManagerCall → M (list ManagerCall * Z)) : M (list ManagerCall * Z) :=
  match mgr_error call with
  | Some _ => mret (log ++ [call], 1)
  | None => k (log ++ [call])
  end.

(** The calls on the manager, and the exit code. *)
Definition main : M (list ManagerCall * Z) :=
  match DefaultRouteInterface with
  | Err _ => mret ([], 1)
  | Ok detectedPublicInterface =>
      let f := flag_Parse (default_flags detectedPublicInterface) in
      attempt (NewManager (managerOptions clientgoscheme f)) [] (λ log,
      match setupReconciler f os_Hostname with
      | Err _ => mret (log, 1)
      | Ok r =>
          if negb (bool_decide (fl_renderFromFile f = "")) then
            err ← RenderFile r (fl_renderFromFile f) (fl_apiBackends f) (fl_ingressBackends f);
            match err with
            | Some _ => mret (log, 1)
            | None => mret (log, 0)
            end
          else
            attempt (CompleteController (SetupWithManager r)) log (λ log,
            attempt (AddHealthzCheck "healthz") log (λ log,
            attempt (AddReadyzCheck "readyz") log (λ log,
            attempt StartManager log (λ log,
            mret (log, 0)))))
      end)
  end.

(** ** Theorems *)

Lemma main_first iface w : DefaultRouteInterface = Ok iface →
  let f := flag_Parse (default_flags iface) in
  let o := NewManager (managerOptions clientgoscheme f) in
  (is_Some (mgr_error o) ∧ main w = (Done ([o], 1), w))
  ∨ (mgr_error o = None ∧ ∃ out w', main w = (out, w') ∧
     ∀ log code, out = Done (log, code) → ∃ log', log = o :: log').
Proof.
  intros Hr. cbv zeta. unfold main, attempt. rewrite Hr.
  destruct (mgr_error (NewManager _)) eqn:E; [left; split; [by eexists|done]|right]. split; [done|].
  eexists _, _. split; [apply surjective_pairing|]. intros log code.
  assert (∀ l c, @Done (list ManagerCall * Z) (NewManager (managerOptions clientgoscheme
      (flag_Parse (default_flags iface))) :: l, c) = Done (log, code) →
    ∃ log', log = NewManager (managerOptions clientgoscheme (flag_Parse (default_flags iface))) :: log')
    as Hl by (intros l c [= <- _]; by exists l).
  destruct (setupReconciler _ _) as [r|e]; [|apply Hl].
  destruct (negb _).
  - rewrite run_bind. destruct (RenderFile _ _ _ _ w) as [[[e|]|why] w1]; [apply Hl..|done].
  - repeat (case_match; [by apply Hl|]). by apply Hl.
Qed.

(** C30: the servers are hardened.  Whatever the flags, the manager is created at
    most once, before anything else is asked of it, with the flags' addresses;
    unless HTTP/2 is enabled both the webhook and the metrics server offer
    HTTP/1.1 only, whatever their TLS configuration was; the metrics endpoint
    authenticates and authorizes exactly when it is served securely, which is the
    default; a certificate directory is used exactly when one is given; and the
    manager knows this program's kinds. *)
Theorem main_servers_hardened (iface : string) (w w' : World) (log : list ManagerCall) (code : Z)
  (Hroute : DefaultRouteInterface = Ok iface)
  (Hmain : main w = (Done (log, code), w')) :
  let f := flag_Parse (default_flags iface) in
  ∃ o log', log = NewManager o :: log'
  ∧ (fl_enableHTTP2 f = false →
     ∀ c, NextProtos (foldl (λ c g, g c) c (wh_TLSOpts (co_WebhookServer o))) = ["http/1.1"]
        ∧ NextProtos (foldl (λ c g, g c) c (ms_TLSOpts (co_Metrics o))) = ["http/1.1"])
  ∧ (ms_FilterProvider (co_Metrics o) = Some WithAuthenticationAndAuthorization
       ↔ ms_SecureServing (co_Metrics o) = true)
  ∧ ms_SecureServing (co_Metrics o) = fl_secureMetrics f
  ∧ ms_BindAddress (co_Metrics o) = fl_metricsAddr f
  ∧ ms_CertDir (co_Metrics o) = fl_metricsCertPath f
  ∧ wh_CertDir (co_WebhookServer o) = fl_webhookCertPath f
  ∧ co_LeaderElection o = fl_enableLeaderElection f
  ∧ (GroupVersion, "LoadBalancerConfig") ∈ co_Scheme o.
Proof.
  cbv zeta. set (f := flag_Parse (default_flags iface)).
  assert (∃ log', log = NewManager (managerOptions clientgoscheme f) :: log') as [log' ->].
  { destruct (main_first iface w Hroute) as [[_ E]|[_ (out & w1 & E & Hl)]]; rewrite Hmain in E.
    - injection E as -> _ _. by eexists.
    - injection E as <- _. by eapply Hl. }
  exists (managerOptions clientgoscheme f), log'. split; [done|].
  assert (∀ s : string, (if (0 <? String.length s)%nat then s else "") = s) as Hs by (by intros []).
  split_and!; simpl.
  - unfold webhookServerOptions, tlsOpts. intros -> c. by destruct (0 <? _)%nat.
  - by destruct (fl_secureMetrics f).
  - done.
  - done.
  - apply Hs.
  - etrans; [|apply Hs]. unfold webhookServerOptions. by destruct (0 <? _)%nat.
  - done.
  - unfold scheme. apply AddToScheme_kinds. by right; left.
Qed.

(** The calls of a start that does not render from a file. *)
Definition start_calls (f : Flags) (r : LoadBalancerConfigReconciler) : list ManagerCall :=
  [NewManager (managerOptions clientgoscheme f); CompleteController (SetupWithManager r);
   AddHealthzCheck "healthz"; AddReadyzCheck "readyz"; StartManager].

(** The calls up to and with the first that fails. *)
Fixpoint calls_until_failure (cs : list ManagerCall) : list ManagerCall :=
  match cs with
  | [] => []
  | c :: cs => c :: match mgr_error c with Some _ => [] | None => calls_until_failure cs end
  end.

(** The exit code after a call of the list failed. *)
Ltac fails := rewrite bool_decide_eq_false_2;
  [reflexivity|rewrite !Forall_cons; intros H; decompose [and] H; congruence].

(** C31: start-up in controller mode calls the manager in a fixed order: it is
    created, given the controller, both health checks, and started; the program
    stops at the first call that fails, with exit code 1, and exits with 0
    exactly when the manager ran and stopped without an error. *)
Theorem main_start_calls (iface : string) (r : LoadBalancerConfigReconciler) (w : World)
  (Hroute : DefaultRouteInterface = Ok iface)
  (Hr : setupReconciler (flag_Parse (default_flags iface)) os_Hostname = Ok r)
  (Hfile : fl_renderFromFile (flag_Parse (default_flags iface)) = "") :
  let cs := start_calls (flag_Parse (default_flags iface)) r in
  main w = (Done (calls_until_failure cs,
    if bool_decide (Forall (λ c, mgr_error c = None) cs) then 0 else 1), w).
Proof.
  cbv zeta. unfold main, attempt. rewrite Hroute, Hr, bool_decide_eq_true_2 by done. unfold start_calls.
  cbn [calls_until_failure negb].
  destruct (mgr_error (NewManager _)) eqn:E1; [fails|].
  destruct (mgr_error (CompleteController _)) eqn:E2; [fails|].
  destruct (mgr_error (AddHealthzCheck _)) eqn:E3; [fails|].
  destruct (mgr_error (AddReadyzCheck _)) eqn:E4; [fails|].
  destruct (mgr_error StartManager) eqn:E5; [fails|].
  rewrite bool_decide_eq_true_2; [done|]. by repeat constructor.
Qed.

(** C32: rendering from a file needs a cluster.  The manager is set up before the
    flag is looked at, so without a cluster configuration the program exits with
    1 and touches nothing, though the flag is meant for machines that have none
    yet; with one it exits with 0 exactly when [RenderFile] reports no error, and
    the manager is never started. *)
Theorem main_render_from_file (iface : string) (r : LoadBalancerConfigReconciler) (w : World)
  (Hroute : DefaultRouteInterface = Ok iface)
  (Hr : setupReconciler (flag_Parse (default_flags iface)) os_Hostname = Ok r)
  (Hfile : fl_renderFromFile (flag_Parse (default_flags iface)) ≠ "") :
  let f := flag_Parse (default_flags iface) in
  let new := NewManager (managerOptions clientgoscheme f) in
  (mgr_error new ≠ None → main w = (Done ([new], 1), w))
  ∧ (mgr_error new = None → ∀ log w',
     main w = (Done (log, 0), w') ↔ log = [new] ∧
     RenderFile r (fl_renderFromFile f) (fl_apiBackends f) (fl_ingressBackends f) w = (Done None, w')).
Proof.
  cbv zeta. unfold main, attempt. rewrite Hroute. destruct (mgr_error (NewManager _)) as [e|].
  { split; [done|]. by intros. }
  split; [done|]. intros _ log w'. rewrite Hr, bool_decide_eq_false_2 by done. cbn [negb].
  rewrite run_bind.
  destruct (RenderFile _ _ _ _ w) as [[[e|]|why] w1]; split; try done; try (by intros [= <- <-]);
    by intros [-> [= <-]].
Qed.

End main.

(** Start-up accepts a cluster network exactly when it parses as a prefix
    whose network address is IPv4, and for every reconciler it builds the
    addresses of the pair can be computed: [internalIPs] never fails later. *)
Theorem setupReconciler_correct (f : Flags) (hostname : string) :
  (is_ok (setupReconciler f hostname) = true ↔
     ∃ p, ParsePrefix (fl_clusterNetwork f) = Ok p ∧ Is4 (pfx_ip (Masked p)) = true)
  ∧ ∀ r, setupReconciler f hostname = Ok r →
      ParsePrefix (fl_clusterNetwork f) = Ok (ClusterNetwork r)
      ∧ is_ok (internalIPs r) = true
      ∧ IsPrimary (Keepalived r) = fl_isPrimary f ∧ Hostname r = hostname.
Proof.
  unfold setupReconciler, internalIPs. split.
  - destruct (ParsePrefix _) as [p|e]; [|naive_solver].
    destruct (Is4 (pfx_ip (Masked p))) eqn:E; simpl; naive_solver.
  - intros r. destruct (ParsePrefix _) as [p|e]; [|done].
    destruct (Is4 (pfx_ip (Masked p))) eqn:E; simpl; [|done]. intros [= <-]. simpl. by rewrite E.
Qed.

(** The defaults are accepted and give the pair [172.18.200.2] and [.3] behind
    the gateway [172.18.200.1]. *)
Example default_flags_pair :
  (r ← setupReconciler (default_flags "eth0") "lb"; ips ← internalIPs r;
   Ok (Addr_String (DefaultGateway ips), myInternalIP ips true, myInternalIP ips false))
  = Ok ("172.18.200.1", "172.18.200.2", "172.18.200.3").
Proof. vm_compute. reflexivity. Qed.
