(* ===== verification/Sha256.v ===== *)
(** * SHA-256 (Go's [crypto/sha256])

    The digest the program stores for every file, as FIPS 180-4 defines it, on
    32-bit words held in [Z]; printed with [%x] it is an instance of [Digest]. *)

From S2P Require Import Prelude GoStrings Netip Types Path Host.

Local Open Scope Z_scope.

Definition word (x : Z) : Z := x mod 2 ^ 32.
Definition add32 (x y : Z) : Z := word (x + y).
Definition rotr (x n : Z) : Z := Z.lor (Z.shiftr x n) (word (Z.shiftl x (32 - n))).

Definition Ch (x y z : Z) : Z := Z.lxor (Z.land x y) (Z.land (Z.lxor x (2 ^ 32 - 1)) z).
Definition Maj (x y z : Z) : Z := Z.lxor (Z.lxor (Z.land x y) (Z.land x z)) (Z.land y z).
Definition bsig0 (x : Z) : Z := Z.lxor (Z.lxor (rotr x 2) (rotr x 13)) (rotr x 22).
Definition bsig1 (x : Z) : Z := Z.lxor (Z.lxor (rotr x 6) (rotr x 11)) (rotr x 25).
Definition ssig0 (x : Z) : Z := Z.lxor (Z.lxor (rotr x 7) (rotr x 18)) (Z.shiftr x 3).
Definition ssig1 (x : Z) : Z := Z.lxor (Z.lxor (rotr x 17) (rotr x 19)) (Z.shiftr x 10).

(** The constants are the first 32 bits of the fractional parts of roots of the
    first primes: cube roots for the rounds, square roots for the initial state. *)
Definition is_prime (n : Z) : bool := forallb (λ d, negb (n mod d =? 0)) (seqZ 2 (n - 2)).
Definition primes : list Z := List.filter is_prime (seqZ 2 310).

(** The largest [x] below [2 ^ b] with [x ^ k <= n], bit by bit. *)
Fixpoint iroot (b : nat) (k n r : Z) : Z :=
  match b with
  | O => r
  | S b =>
      let r' := r + 2 ^ Z.of_nat b in
      iroot b k n (if r' ^ k <=? n then r' else r)
  end.

Definition root_fraction (k p : Z) : Z := word (iroot 40 k (p * 2 ^ (32 * k)) 0).

Definition K256 : list Z := Eval vm_compute in root_fraction 3 <$> primes.

(** The eight words of the state. *)
Record Hash : Type := mkHash { ha : Z; hb : Z; hc : Z; hd : Z; he : Z; hf : Z; hg : Z; hh : Z }.

Definition H256 : Hash := Eval vm_compute in
  match root_fraction 2 <$> take 8 primes with
  | [a; b; c; d; e; f; g; h] => mkHash a b c d e f g h
  | _ => mkHash 0 0 0 0 0 0 0 0
  end.

(** [s] as bytes. *)
Fixpoint bytes (s : string) : list Z :=
  match s with "" => [] | String c s => Z.of_N (N_of_ascii c) :: bytes s end.

Definition be_bytes (n : nat) (x : Z) : list Z :=
  (λ i, Z.shiftr x (8 * Z.of_nat (n - 1 - i)) mod 256) <$> seq 0 n.

(** The message, [0x80], zeros up to 56 bytes modulo 64, and the length in bits. *)
Definition pad (m : list Z) : list Z :=
  let n := Z.of_nat (length m) in
  m ++ 0x80 :: replicate (Z.to_nat ((55 - n) mod 64)) 0 ++ be_bytes 8 (8 * n).

Fixpoint words (l : list Z) : list Z :=
  match l with
  | a :: b :: c :: d :: l => (((a * 256 + b) * 256 + c) * 256 + d) :: words l
  | _ => []
  end.

(** The message schedule, the latest word first. *)
Fixpoint schedule (n : nat) (w : list Z) : list Z :=
  match n with
  | O => w
  | S n =>
      let at_ i := nth i w 0 in
      schedule n (add32 (add32 (ssig1 (at_ 1%nat)) (at_ 6%nat))
                        (add32 (ssig0 (at_ 14%nat)) (at_ 15%nat)) :: w)
  end.

Definition round (s : Hash) (kw : Z * Z) : Hash :=
  let t1 := add32 (add32 (hh s) (bsig1 (he s)))
                  (add32 (Ch (he s) (hf s) (hg s)) (add32 (fst kw) (snd kw))) in
  let t2 := add32 (bsig0 (ha s)) (Maj (ha s) (hb s) (hc s)) in
  mkHash (add32 t1 t2) (ha s) (hb s) (hc s) (add32 (hd s) t1) (he s) (hf s) (hg s).

(** One block of sixteen words. *)
Definition block (s : Hash) (w : list Z) : Hash :=
  let s' := fold_left round (combine K256 (reverse (schedule 48 (reverse w)))) s in
  mkHash (add32 (ha s) (ha s')) (add32 (hb s) (hb s')) (add32 (hc s) (hc s'))
         (add32 (hd s) (hd s')) (add32 (he s) (he s')) (add32 (hf s) (hf s'))
         (add32 (hg s) (hg s')) (add32 (hh s) (hh s')).

Fixpoint blocks (n : nat) (s : Hash) (w : list Z) : Hash :=
  match n with
  | O => s
  | S n => blocks n (block s (take 16 w)) (drop 16 w)
  end.

(** [sha256.Sum256] *)
Definition Sum256 (m : string) : Hash :=
  let w := words (pad (bytes m)) in blocks (length w / 16) H256 w.

(** [fmt.Sprintf("%x", ...)] of the digest. *)
Definition hex_word (x : Z) : string :=
  str_concat ((λ i, String (hex_digit (Z.shiftr x (4 * (7 - i)) mod 16)) "")
    <$> [0; 1; 2; 3; 4; 5; 6; 7]).

Definition hex_hash (s : Hash) : string :=
  str_concat (hex_word <$> [ha s; hb s; hc s; hd s; he s; hf s; hg s; hh s]).

Lemma hex_word_length x : String.length (hex_word x) = 8%nat.
Proof. reflexivity. Qed.

Definition sha256 : Digest.
Proof.
  refine {| sha256_hex m := hex_hash (Sum256 m) |}.
  intros m. unfold hex_hash. cbn [fmap list_fmap str_concat foldr].
  by rewrite !str_length_app, !hex_word_length.
Defined.

(** Test vectors of the standard. *)
Example sha256_empty : @sha256_hex sha256 "" =
  "e3b0c44298fc1c149afbf4c8996fb92427ae41e4649b934ca495991b7852b855".
Proof. vm_compute. reflexivity. Qed.
Example sha256_abc : @sha256_hex sha256 "abc" =
  "ba7816bf8f01cfea414140de5dae2223b00361a396177a9cb410ff61f20015ad".
Proof. vm_compute. reflexivity. Qed.
Example sha256_two_blocks : @sha256_hex sha256 "abcdbcdecdefdefgefghfghighijhijkijkljklmklmnlmnomnopnopq" =
  "248d6a61d20638b8e5c026930c3e6039a33ce45964ff2167f6ecedd419db06c1".
Proof. vm_compute. reflexivity. Qed.
