(* ===== verification/Sample.v ===== *)
(** * A concrete installation

    The custom resource of [examples/openshift-cloudscale.yaml], a host with the
    interfaces and routes it expects, and runs of the controller on them: the
    inputs at which the theorems are applied. *)

From S2P Require Import Prelude GoStrings Netip NetipText Types Interfaces Reconciler Vip Path Host.
From S2P Require Import WriteConfig HostFacts WriteFacts FileNames Service Network Template Templates.
From S2P Require Import Keepalived Haproxy NetworkManager Reconcile Jobs JobFacts ReconcileFacts.
From S2P Require Import Convergence Handlers RenderFile Sha256.

Local Open Scope Z_scope.

#[export] Existing Instances map_iter_elements multierr_first.

(** A cheap digest, so that whole runs evaluate quickly: a checksum of the bytes,
    filled up to 64 digits.  ([Sha256.sha256] is the instance the program uses.) *)
Definition checksum : Digest.
Proof.
  refine {| sha256_hex s :=
    hex_word (fold_left (λ h b, Z.land (31 * h + b) 0xffffffff) (bytes s) 7)
    +:+ "00000000000000000000000000000000000000000000000000000000" |}.
  intros s. by rewrite str_length_app, hex_word_length.
Defined.
#[export] Existing Instance checksum.

Definition the_prefix (s : string) : Prefix :=
  match ParsePrefix s with Ok p => p | Err _ => zeroPrefix end.

Definition meta (name : string) : ObjectMeta := {|
  om_Name := name; om_Namespace := "default"; om_UID := "1d5c"; om_Generation := 3;
  om_Labels := ∅ |}.

Definition selector (k : string) : LabelSelector := {|
  MatchLabels := {[k := ""]}; MatchExpressions := [] |}.

Definition sample_vips : LoadBalancerConfigVIPs := {|
  vips_API := [
    {| va_Type := "private"; va_Address := "192.168.100.100/32" |};
    {| va_Type := "public"; va_Address := "198.51.100.100/32" |};
    {| va_Type := "public"; va_Address := "2a02:168:656d:8000::100/128" |}];
  vips_Ingress := [
    {| va_Type := "public"; va_Address := "198.51.100.80/32" |};
    {| va_Type := "public"; va_Address := "2a02:168:656d:8000::200/128" |}];
  vips_NAT := Some {| va_Type := "public"; va_Address := "198.51.100.253/32" |};
|}.

Definition sample_config : LoadBalancerConfig := {|
  lbc_Meta := meta "test-lb";
  Spec := {|
    Cloud := "cloudscale"; CloudCredentials_Name := "cloudscale-token"; Distribution := "openshift";
    VirtualAddresses := sample_vips;
    APIBackend := {| be_NodeSelector := selector "node-role.kubernetes.io/control-plane" |};
    IngressBackend := Some {| be_NodeSelector := selector "node-role.kubernetes.io/infra" |};
    FirewallRules := [] |};
  Status := {| Nodes := None; Conditions := [] |};
|}.

Definition sample_secret : Secret := {|
  sec_Meta := meta "cloudscale-token"; sec_Data := Some {["token" := "verysecrettoken"]};
  sec_StringData := ∅ |}.

Definition sample_node (name ip : string) : Node := {|
  node_Meta := meta name;
  node_Addresses := [{| na_Type := "Hostname"; na_Address := name |};
                     {| na_Type := NodeInternalIP; na_Address := ip |}] |}.

(** The first load balancer below [root]. *)
Definition lb1 (root : string) : LoadBalancerConfigReconciler := {|
  ConfigRoot := root; PublicInterface := "eth0"; ClusterNetwork := the_prefix "172.18.200.0/24";
  WatchNamespace := "default"; Hostname := "lb-1"; Keepalived := {| IsPrimary := true |} |}.

Definition lb2 (root : string) : LoadBalancerConfigReconciler := {|
  ConfigRoot := root; PublicInterface := "eth0"; ClusterNetwork := the_prefix "172.18.200.0/24";
  WatchNamespace := "default"; Hostname := "lb-2"; Keepalived := {| IsPrimary := false |} |}.

Definition sample_routes : list RouteEntry := [
  {| rt_Dst := the_prefix "0.0.0.0/0"; rt_Interface := "eth0" |};
  {| rt_Dst := the_prefix "172.18.200.0/24"; rt_Interface := "eth1" |}].

(** The host, by what it may do differently: the system calls that fail, the
    commands that fail, the routing table, and the custom resource served. *)
Definition the_host (fault : nat → Syscall → option error) (exec : list string → option error)
    (routes : result (list RouteEntry)) (serve : nat → LoadBalancerConfig) : Host := {|
  routetable_Get _ _ := routes;
  InterfaceByName _ name :=
    if decide (name = "eth0") then Ok {| if_Name := name; if_HardwareAddr := [2; 0; 0; 0; 0; 16] |}
    else if decide (name = "eth1") then Ok {| if_Name := name; if_HardwareAddr := [2; 0; 0; 0; 0; 17] |}
    else Err (Errorf "no such network interface");
  Interface_Addrs _ i :=
    if decide (if_Name i = "eth0") then Ok ["198.51.100.7/24"; "fe80::ff:fe00:10/64"]
    else Ok ["172.18.200.11/24"];
  os_fault := fault;
  os_short_write _ := 0%nat;
  umask := 18;
  exec_Run _ argv := exec argv;
  client_Get_LoadBalancerConfig t _ := Ok (serve t);
  client_Get_Secret _ _ := Ok sample_secret;
  client_Status_Update _ _ := None;
  IsNotFound _ := false;
  Selector := LabelSelector;
  LabelSelectorAsSelector s := Ok s;
  client_List_Nodes _ _ := Ok [sample_node "node-1" "172.18.200.61"; sample_node "node-2" "172.18.200.62"];
  client_List_LoadBalancerConfigs _ := Ok [sample_config];
|}.

Definition no_fault (_ : nat) (_ : Syscall) : option error := None.
Definition all_run (_ : list string) : option error := None.

Definition sample_host : Host := the_host no_fault all_run (Ok sample_routes) (λ _, sample_config).

#[export] Instance the_host_quiet exec routes serve : @NoFaults (the_host no_fault exec routes serve).
Proof. done. Qed.
#[export] Instance the_host_stable fault exec routes serve :
  @StableHost (the_host fault exec routes serve).
Proof. by split. Qed.

Definition empty_world (c : LoadBalancerConfig) : World := {|
  w_tick := 0; w_files := ∅; w_dirs := {["/"]}; w_lbc := c; w_events := [] |}.

Lemma run_end {A : Type} (p : outcome A * World) o : fst p = o → p = (o, snd p).
Proof. intros <-. apply surjective_pairing. Qed.

(** A run is known by its outcome; the state after it is left unevaluated. *)
Ltac run_outcome := lazymatch goal with |- ?p = (_, snd ?p) => apply (run_end p); vm_refl end.

Definition is_Some_bool {A : Type} (o : option A) : bool :=
  match o with Some _ => true | None => false end.

(** ** Runs on the sample *)

Definition w_start : World := empty_world sample_config.

(** After the node's status was set up. *)
Definition w_init : World := snd (InitializeNodeStatus (HO := sample_host) (lb1 "/") w_start).

Lemma w_init_run :
  InitializeNodeStatus (HO := sample_host) (lb1 "/") w_start = (Done None, w_init).
Proof. unfold w_init. run_outcome. Qed.

(** After all files were written. *)
Definition w_done : World :=
  snd (ReconcileLBConfig (HO := sample_host) (lb1 "/") sample_secret None w_start).

Definition all_services : gset NodeService := list_to_set services.

Lemma w_done_run : ReconcileLBConfig (HO := sample_host) (lb1 "/") sample_secret None w_start
  = (Done (all_services, None), w_done).
Proof. unfold w_done. run_outcome. Qed.
