(* ===== verification/Witnesses.v ===== *)
(** * The theorems at work

    Each theorem with hypotheses, applied to the installation of [Sample]: the
    hypotheses hold there together. *)

From S2P Require Import Prelude GoStrings Netip NetipText Types Interfaces Reconciler Vip VipFacts Path.
From S2P Require Import Host WriteConfig HostFacts WriteFacts FileNames Service Network Template.
From S2P Require Import Templates Keepalived Haproxy NetworkManager Reconcile Jobs JobFacts.
From S2P Require Import ReconcileFacts Convergence Slots Outage TemplateFacts Rendered RenderTheorems Handlers.
From S2P Require Import Faults Setup RenderFile Main Sample.

Local Open Scope Z_scope.

(** ** Runs of the reconciler *)

Section runs.
#[local] Existing Instance sample_host.

Lemma ReconcileLBConfig_in_sync_witness :
  (∀ j data, j ∈ jobs (lb1 "/") sample_secret None →
     answers (j_render j (w_lbc w_start)) (Done (Ok data)) → in_sync (lb1 "/") (j_file j) data w_done)
  ∧ (None = None :> option error ↔ ∀ j, j ∈ jobs (lb1 "/") sample_secret None →
       ∃ data, answers (j_render j (w_lbc w_start)) (Done (Ok data))).
Proof.
  exact (ReconcileLBConfig_in_sync (lb1 "/") sample_secret None w_start w_init w_done all_services
           None w_init_run w_done_run).
Defined.

Lemma ReconcileLBConfig_updated_iff_witness :
  Sysctl ∈ all_services ↔ ∃ j data, j ∈ jobs (lb1 "/") sample_secret None ∧ j_svc j = Sysctl
    ∧ answers (j_render j (w_lbc w_start)) (Done (Ok data)) ∧ ¬ in_sync (lb1 "/") (j_file j) data w_start.
Proof.
  exact (ReconcileLBConfig_updated_iff (lb1 "/") sample_secret None w_start w_init w_done all_services
           None Sysctl w_init_run w_done_run).
Defined.

Lemma ReconcileLBConfig_converges_witness :
  ∃ w'', ReconcileLBConfig (lb1 "/") sample_secret None w_done = (Done (∅, None), w'')
    ∧ same_state w_done w''.
Proof.
  exact (ReconcileLBConfig_converges (lb1 "/") sample_secret None w_start w_done all_services w_done_run).
Defined.

Lemma ReconcileLBConfig_reports_changes_witness :
  ∃ j, j ∈ jobs (lb1 "/") sample_secret None ∧ "/etc/sysctl.d/50-lb.conf" ∈ paths (lb1 "/") (j_file j)
    ∧ j_svc j ∈ all_services.
Proof.
  apply (ReconcileLBConfig_reports_changes (lb1 "/") sample_secret None w_start w_done all_services
           "/etc/sysctl.d/50-lb.conf" w_done_run).
  assert (is_Some_bool (w_files w_done !! "/etc/sysctl.d/50-lb.conf") = true) as H by vm_refl.
  intros E. rewrite E in H. discriminate H.
Defined.

(** The configuration without its NAT address. *)
Definition no_nat_config : LoadBalancerConfig := {|
  lbc_Meta := lbc_Meta sample_config; Status := Status sample_config;
  Spec := {| Cloud := "cloudscale"; CloudCredentials_Name := "cloudscale-token";
    Distribution := "openshift";
    VirtualAddresses := {| vips_API := vips_API sample_vips; vips_Ingress := []; vips_NAT := None |};
    APIBackend := APIBackend (Spec sample_config); IngressBackend := IngressBackend (Spec sample_config);
    FirewallRules := [] |} |}.

Lemma ReconcileLBConfig_optional_fields_panic_witness :
  ∃ why w', ReconcileLBConfig (lb1 "/") sample_secret None (empty_world no_nat_config) = (Panic why, w').
Proof.
  apply (ReconcileLBConfig_optional_fields_panic (lb1 "/") sample_secret None (empty_world no_nat_config)
    (snd (InitializeNodeStatus (lb1 "/") (empty_world no_nat_config)))).
  - run_outcome.
  - left. reflexivity.
Defined.

Definition sample_request : NamespacedName := {| nn_Namespace := "default"; nn_Name := "test-lb" |}.

(** The custom resource a run sent last. *)
Definition sent (w : World) : LoadBalancerConfig :=
  match last (w_events w) with Some (EvStatusUpdate c) => c | _ => zeroLBConfig end.

Definition w_rec : World :=
  snd (ReconcileLBConfig (lb1 "/") sample_secret None (fetched sample_config w_start)).

Lemma Reconcile_outcome_witness : ∃ ns,
  let c' := put_node_status "lb-1"
    (final_status None (reload_errors (lb1 "/") (w_tick w_rec) (map_keys all_services)) ns)
    (w_lbc w_rec) in
  ∃ t w', Reconcile (lb1 "/") sample_request w_start
    = (Done (Combine [None; client_Status_Update t c']), w')
  ∧ w_files w' = w_files w_rec
  ∧ w_events w' = w_events w_start ++ reload_events (lb1 "/") (map_keys all_services) ++ [EvStatusUpdate c'].
Proof.
  destruct (node_status "lb-1" (w_lbc w_rec)) as [ns|] eqn:E.
  - exists ns. apply (Reconcile_outcome (lb1 "/") sample_request sample_config sample_secret w_start w_rec
      all_services None ns); [reflexivity|reflexivity| |exact E].
    unfold w_rec. run_outcome.
  - assert (is_Some_bool (node_status "lb-1" (w_lbc w_rec)) = true) as H by vm_refl.
    rewrite E in H. discriminate H.
Defined.

(** The custom resource as the first load balancer left it, fetched by the second. *)
Definition half_config : LoadBalancerConfig :=
  set_Nodes {["lb-1" := Some zeroNodeStatus]} sample_config.

End runs.

Definition half_host : Host := the_host no_fault all_run (Ok sample_routes) (λ _, half_config).

Lemma Reconcile_second_node_panics_witness :
  ∃ why w', Reconcile (HO := half_host) (lb2 "/") sample_request w_start = (Panic why, w').
Proof.
  apply (Reconcile_second_node_panics (HO := half_host) (lb2 "/") sample_request half_config
    sample_secret {["lb-1" := Some zeroNodeStatus]} w_start); vm_compute; reflexivity.
Defined.

(** What the first run on a host with these commands sends. *)
Definition first_sent (exec : list string → option error) : LoadBalancerConfig :=
  sent (snd (Reconcile (HO := the_host no_fault exec (Ok sample_routes) (λ _, sample_config))
               (lb1 "/") sample_request w_start)).

(** HAProxy cannot be reloaded. *)
Definition haproxy_fails (argv : list string) : option error :=
  if decide (argv = ["systemctl"; "reload"; "haproxy"]) then Some (Errorf "exit status 1") else None.

Definition sent_ready : LoadBalancerConfig := Eval vm_compute in first_sent all_run.
Definition sent_failed : LoadBalancerConfig := Eval vm_compute in first_sent haproxy_fails.

(** A host that serves, from the second run on, what the first run sent. *)
Definition again_host (exec : list string → option error) (c : LoadBalancerConfig) : Host :=
  the_host no_fault exec (Ok sample_routes) (λ t, if (t =? 0)%nat then sample_config else c).

Definition w_ready : World :=
  snd (Reconcile (HO := again_host all_run sent_ready) (lb1 "/") sample_request w_start).
Definition w_failed : World :=
  snd (Reconcile (HO := again_host haproxy_fails sent_failed) (lb1 "/") sample_request w_start).

Lemma Reconcile_converges_witness :
  ∃ res c2 w2, Reconcile (HO := again_host all_run sent_ready) (lb1 "/") sample_request w_ready
    = (Done res, w2)
  ∧ w_files w2 = w_files w_ready
  ∧ w_events w2 = w_events w_ready ++ [EvStatusUpdate c2]
  ∧ ns_Status <$> node_status "lb-1" c2 = Some NodeStatusReady.
Proof.
  apply (Reconcile_converges (HO := again_host all_run sent_ready) (lb1 "/") sample_request
    sample_config sent_ready sample_secret w_start w_ready).
  - reflexivity.
  - reflexivity.
  - unfold w_ready. run_outcome.
  - vm_refl.
  - vm_refl.
  - reflexivity.
Defined.

Lemma Reconcile_forgets_failed_reload_witness :
  (∃ t s, EvExec (reload_argv s) ∈ w_events w_failed
     ∧ is_Some (exec_Run (Host := again_host haproxy_fails sent_failed) t (reload_argv s)))
  ∧ ∃ res c2 w2, Reconcile (HO := again_host haproxy_fails sent_failed) (lb1 "/") sample_request w_failed
      = (Done res, w2)
    ∧ w_events w2 = w_events w_failed ++ [EvStatusUpdate c2]
    ∧ ns_Status <$> node_status "lb-1" c2 = Some NodeStatusReady.
Proof.
  apply (Reconcile_forgets_failed_reload (HO := again_host haproxy_fails sent_failed) (lb1 "/")
    sample_request sample_config sent_failed sample_secret w_start w_failed).
  - reflexivity.
  - reflexivity.
  - unfold w_failed. run_outcome.
  - vm_refl.
  - vm_refl.
  - vm_refl.
  - reflexivity.
Defined.

(** ** Writing files *)

Section files.
#[local] Existing Instance sample_host.

Definition sysctl_data : string := sysctl_text "eth0".
Definition w_sysctl : World :=
  snd (CompareAndWrite (lb1 "/") SysctlConfFile sysctl_data 420 w_init).

Lemma w_sysctl_run : CompareAndWrite (lb1 "/") SysctlConfFile sysctl_data 420 w_init
  = (Done (true, None), w_sysctl).
Proof. unfold w_sysctl. run_outcome. Qed.

Lemma CompareAndWrite_success_witness :
  in_sync (lb1 "/") SysctlConfFile sysctl_data w_sysctl
  ∧ w_files w_sysctl = written (lb1 "/") SysctlConfFile
      (final_content (lb1 "/") SysctlConfFile (lbc_Meta (w_lbc w_init)) sysctl_data) 420 (w_files w_init).
Proof.
  exact (CompareAndWrite_success (lb1 "/") SysctlConfFile sysctl_data 420 w_init w_sysctl true
           w_sysctl_run).
Defined.

Lemma CompareAndWrite_idempotent_witness :
  ∃ w', CompareAndWrite (lb1 "/") SysctlConfFile sysctl_data 420 w_sysctl = (Done (false, None), w')
    ∧ same_state w_sysctl w'.
Proof.
  apply (CompareAndWrite_idempotent (the_host_quiet _ _ _)).
  exact (CompareAndWrite_sync _ _ _ _ _ _ _ w_sysctl_run).
Defined.

Lemma node_of (w : World) : is_Some_bool (node_status "lb-1" (w_lbc w)) = true → has_node (lb1 "/") w.
Proof. unfold has_node. simpl. by destruct (node_status "lb-1" (w_lbc w)). Qed.

(** No file was written yet. *)
Lemma CompareAndWrite_repairs_witness :
  ∃ w', CompareAndWrite (lb1 "/") SysctlConfFile sysctl_data 420 w_init = (Done (true, None), w')
  ∧ w_files w' = written (lb1 "/") SysctlConfFile
      (final_content (lb1 "/") SysctlConfFile (lbc_Meta (w_lbc w_init)) sysctl_data) 420 (w_files w_init)
  ∧ in_sync (lb1 "/") SysctlConfFile sysctl_data w'.
Proof.
  apply (CompareAndWrite_repairs (the_host_quiet _ _ _)).
  - apply node_of. vm_refl.
  - assert (is_Some_bool (w_files w_init !! configfilePath (lb1 "/") SysctlConfFile) = false) as H
      by vm_refl.
    intros content [[md E] _]. rewrite E in H. discriminate H.
Defined.

Lemma CompareAndWrite_frame_witness :
  (∀ p, p ∉ paths (lb1 "/") SysctlConfFile → w_files w_sysctl !! p = w_files w_init !! p)
  ∧ (∀ g, g ≠ SysctlConfFile → recorded (lb1 "/") g (w_lbc w_sysctl) = recorded (lb1 "/") g (w_lbc w_init))
  ∧ (∀ host, host ≠ "lb-1" → node_status host (w_lbc w_sysctl) = node_status host (w_lbc w_init))
  ∧ Spec (w_lbc w_sysctl) = Spec (w_lbc w_init) ∧ lbc_Meta (w_lbc w_sysctl) = lbc_Meta (w_lbc w_init)
  ∧ w_events w_sysctl = w_events w_init.
Proof.
  exact (CompareAndWrite_frame (lb1 "/") SysctlConfFile sysctl_data 420 w_init w_sysctl (true, None)
           w_sysctl_run).
Defined.

Lemma managed_paths_disjoint_witness :
  paths (lb1 "/srv/root") SysctlConfFile ## paths (lb1 "/srv/root") HAProxyAPIConfigFile
  ∧ ∀ data data' mode w w' res,
      CompareAndWrite (lb1 "/srv/root") HAProxyAPIConfigFile data' mode w = (Done res, w') →
      in_sync (lb1 "/srv/root") SysctlConfFile data w → in_sync (lb1 "/srv/root") SysctlConfFile data w'.
Proof.
  apply managed_paths_disjoint.
  - apply (bool_decide_unpack _). vm_compute. exact I.
  - apply (bool_decide_unpack _). vm_compute. exact I.
  - discriminate.
Defined.

Lemma header_by_extension_witness :
  RenderFinalConfig (configfilePath (lb1 "/") FirewalldDirectFile) (meta "test-lb") "<direct/>"
  = Ok (if decide (FirewalldDirectFile = FirewalldDirectFile ∨ FirewalldDirectFile = FirewalldExternalZone)
    then xmlFileHeader +:+ stampXML "default" "test-lb" "1d5c" 3 +:+ "<direct/>"
    else fileHeader +:+ stampYAML "default" "test-lb" "1d5c" 3 +:+ "<direct/>").
Proof.
  apply (header_by_extension (lb1 "/") FirewalldDirectFile (meta "test-lb") "<direct/>").
  apply (bool_decide_unpack _). vm_compute. exact I.
Defined.

End files.

(** Opening a file for writing always fails. *)
Definition read_only (_ : nat) (sc : Syscall) : option error :=
  match sc with SysOpenFile _ => Some (Errorf "read-only file system") | _ => None end.
Definition read_only_host : Host := the_host read_only all_run (Ok sample_routes) (λ _, sample_config).

Definition old_content : string :=
  final_content (lb1 "/") SysctlConfFile (lbc_Meta (w_lbc w_init)) sysctl_data.

Lemma CompareAndWrite_lost_update_witness :
  ∃ e w1, CompareAndWrite (HO := read_only_host) (lb1 "/") SysctlConfFile "new" 420 w_sysctl
    = (Done (true, Some e), w1)
  ∧ w_files w1 = w_files w_sysctl
  ∧ in_sync (lb1 "/") SysctlConfFile "new" w1
  ∧ (reads_ok (HO := read_only_host) (lb1 "/") SysctlConfFile (w_tick w1) →
     ∃ w2, CompareAndWrite (HO := read_only_host) (lb1 "/") SysctlConfFile "new" 420 w1
       = (Done (false, None), w2) ∧ w_files w2 = w_files w_sysctl).
Proof.
  apply (CompareAndWrite_lost_update (HO := read_only_host) (lb1 "/") SysctlConfFile "new" old_content
    420 w_sysctl).
  - apply node_of. vm_refl.
  - split; exists 420; vm_refl.
  - assert (bool_decide (recorded (lb1 "/") SysctlConfFile (w_lbc w_sysctl) = Some (sha256_hex "new"))
      = false) as H by vm_refl. exact (bool_decide_eq_false_1 _ H).
  - split; reflexivity.
  - right. split; [reflexivity|]. eexists. reflexivity.
Defined.

(** The routing table can be read during the first three calls only. *)
Definition fading_host : Host := {|
  routetable_Get t n := if decide (t < 3)%nat then @routetable_Get sample_host t n
                        else Err (Errorf "netlink receive: timed out");
  InterfaceByName := @InterfaceByName sample_host; Interface_Addrs := @Interface_Addrs sample_host;
  os_fault := @os_fault sample_host; os_short_write := @os_short_write sample_host;
  umask := @umask sample_host; exec_Run := @exec_Run sample_host;
  client_Get_LoadBalancerConfig := @client_Get_LoadBalancerConfig sample_host;
  client_Get_Secret := @client_Get_Secret sample_host;
  client_Status_Update := @client_Status_Update sample_host;
  IsNotFound := @IsNotFound sample_host; Selector := @Selector sample_host;
  LabelSelectorAsSelector := @LabelSelectorAsSelector sample_host;
  client_List_Nodes := @client_List_Nodes sample_host;
  client_List_LoadBalancerConfigs := @client_List_LoadBalancerConfigs sample_host |}.

Definition fading_run : outcome (gset NodeService * option error) * World :=
  ReconcileLBConfig (HO := fading_host) (lb1 "/") sample_secret None w_start.

Definition fading_result : gset NodeService * option error :=
  match fst fading_run with Done res => res | Panic _ => (∅, None) end.

Lemma fading_run_done : fading_run = (Done (fst fading_result, snd fading_result), snd fading_run).
Proof.
  assert (match fst fading_run with Done _ => true | Panic _ => false end = true) as H by vm_refl.
  unfold fading_result. revert H. destruct fading_run as [[[u err]|why] w']; [reflexivity|discriminate].
Qed.

Lemma conntrackd_outage_empties_file_witness :
  consistent (lb1 "/") ConntrackdConfigFile
    (final_content (lb1 "/") ConntrackdConfigFile (lbc_Meta sample_config) "") (w_files (snd fading_run))
  ∧ recorded (lb1 "/") ConntrackdConfigFile (w_lbc (snd fading_run)) = Some (sha256_hex "")
  ∧ Conntrackd ∈ fst fading_result
  ∧ slot (lb1 "/") KeepalivedConfigFile (snd fading_run) = slot (lb1 "/") KeepalivedConfigFile w_start
  ∧ slot (lb1 "/") ClusterNetworkNMConnectionFile (snd fading_run)
    = slot (lb1 "/") ClusterNetworkNMConnectionFile w_start
  ∧ is_Some (snd fading_result).
Proof.
  assert (InitializeNodeStatus (HO := fading_host) (lb1 "/") w_start
    = (Done None, snd (InitializeNodeStatus (HO := fading_host) (lb1 "/") w_start))) as Hi by run_outcome.
  assert (w_tick (snd (InitializeNodeStatus (HO := fading_host) (lb1 "/") w_start)) = 5%nat) as Ht by vm_refl.
  revert Hi Ht. generalize (snd (InitializeNodeStatus (HO := fading_host) (lb1 "/") w_start)).
  intros w0 Hi Ht.
  apply (conntrackd_outage_empties_file (HO := fading_host) (NF := λ _ _, eq_refl) (lb1 "/") sample_secret None
    w_start w0 (snd fading_run) (fst fading_result) (snd fading_result)).
  - exact Hi.
  - rewrite Ht. intros t Hle. cbn [routetable_Get fading_host].
    destruct (decide (t < 3)%nat); [lia|exact I].
  - exact fading_run_done.
  - discriminate.
Defined.

(** ** Virtual addresses *)

Definition gateway : Prefix := the_prefix "172.18.200.1/32".

Lemma gateway_single : Forall (λ p, IsSingleIP p = true) [gateway].
Proof. repeat constructor. Qed.

Lemma privateVIPs_correct_witness :
  lists_prefixes (λ p, p ∈ [gateway] ∨ is_vip AddressTypePrivate sample_vips p)
    (fst (privateVIPs sample_vips [gateway]))
  ∧ (snd (privateVIPs sample_vips [gateway]) = None ↔
     ∀ a, a ∈ all_vips sample_vips → va_Type a = AddressTypePrivate → is_ok (parseVIP a) = true).
Proof. exact (privateVIPs_correct sample_vips [gateway] gateway_single). Defined.

Lemma vip_lists_order_independent_witness :
  @privateVIPs map_iter_elements multierr_first sample_vips [gateway]
    = @privateVIPs map_iter_reversed multierr_first sample_vips [gateway]
  ∧ @publicVIPs map_iter_elements multierr_first sample_vips
    = @publicVIPs map_iter_reversed multierr_first sample_vips
  ∧ @getHAProxyFrontends map_iter_elements multierr_first sample_vips
    = @getHAProxyFrontends map_iter_reversed multierr_first sample_vips.
Proof.
  exact (vip_lists_order_independent multierr_first map_iter_elements map_iter_reversed sample_vips
           [gateway] gateway_single).
Defined.

(** [198.51.100.80/32] *)
Lemma parseVIP_ipv4_witness :
  parseVIP {| va_Type := "public"; va_Address := Prefix_String (PrefixFrom (AddrFrom4 3325256784) 32) |}
  = Ok (PrefixFrom (AddrFrom4 3325256784) 32).
Proof. apply (parseVIP_ipv4 "public" 3325256784 32); lia. Defined.

(** [172.18.200.0/24] *)
Lemma internalIPs_ipv4_witness :
  let n := network4 2886912000 24 in
  internalIPs (lb1 "/") = Ok {| ii_ClusterNetwork := zeroPrefix; DefaultGateway := AddrFrom4 (n + 1);
                                Primary := AddrFrom4 (n + 2); Secondary := AddrFrom4 (n + 3) |}
  ∧ n ≤ 2886912000 < n + 2 ^ (32 - 24)
  ∧ n + 3 < n + 2 ^ (32 - 24) ≤ 2 ^ 32
  ∧ (24 ≤ 29 → n + 3 < n + 2 ^ (32 - 24) - 1).
Proof. apply (internalIPs_ipv4 (lb1 "/") 2886912000 24); [vm_compute; reflexivity|lia|lia]. Defined.

Definition sample_ips : InternalIPs := {|
  ii_ClusterNetwork := zeroPrefix; DefaultGateway := AddrFrom4 2886912001;
  Primary := AddrFrom4 2886912002; Secondary := AddrFrom4 2886912003 |}.

Lemma sample_ips_ok root : internalIPs (lb1 root) = Ok sample_ips.
Proof. vm_compute. reflexivity. Qed.

Lemma vrrp_pair_witness :
  myInternalIP sample_ips true = peerInternalIP sample_ips false
  ∧ myInternalIP sample_ips true ≠ peerInternalIP sample_ips true.
Proof.
  apply (vrrp_pair (lb1 "/") 2886912000 24 sample_ips);
    [vm_compute; reflexivity|lia|lia|apply sample_ips_ok].
Defined.

(** ** Rendered files *)

Section rendered.
#[local] Existing Instance sample_host.

Definition sample_private : list Prefix := [gateway; the_prefix "192.168.100.100/32"].
Definition sample_public : list Prefix := the_prefix <$> [
  "198.51.100.80/32"; "198.51.100.100/32"; "198.51.100.253/32"; "2a02:168:656d:8000::100/128";
  "2a02:168:656d:8000::200/128"].

Lemma sample_public_ok : publicVIPs (VirtualAddresses (Spec sample_config)) = (sample_public, None).
Proof. vm_compute. reflexivity. Qed.

Lemma lb_pair_mirrored_witness :
  let a := Addr_String (Primary sample_ips) in
  let b := Addr_String (Secondary sample_ips) in
  RenderKeepalivedConfig (lb1 "/") sample_config w_start
    = (Done (Ok (keepalived_text "eth1" 200 a b sample_private)), set_tick 1 w_start)
  ∧ RenderKeepalivedConfig (lb2 "/") sample_config w_start
    = (Done (Ok (keepalived_text "eth1" 100 b a sample_private)), set_tick 1 w_start)
  ∧ RenderConntrackdConfig (lb1 "/") sample_config w_start
    = (Done (Ok (conntrackd_text "eth1" a b)), set_tick 1 w_start)
  ∧ RenderConntrackdConfig (lb2 "/") sample_config w_start
    = (Done (Ok (conntrackd_text "eth1" b a)), set_tick 1 w_start).
Proof.
  apply (lb_pair_mirrored sample_host sample_host (lb1 "/") (lb2 "/") sample_config sample_ips
    sample_private "eth1" "eth1"); vm_compute; reflexivity.
Defined.

Lemma public_files_agree_witness :
  let v4 := filter (λ p, Is4 (pfx_ip p) = true) sample_public in
  let v6 := filter (λ p, Is4 (pfx_ip p) ≠ true) sample_public in
  RenderKeepalivedDummyNMConnection sample_config w_start = (Done (Ok (dummy_text v4 v6)), w_start)
  ∧ RenderFirewallExternalZone sample_config w_start = (Done (Ok (zone_text v4 v6)), w_start)
  ∧ RenderFloatyConfig sample_config sample_secret
    = Ok (cloudscale_text "verysecrettoken" sample_public).
Proof.
  exact (public_files_agree sample_config sample_secret sample_public None w_start sample_public_ok).
Defined.

Lemma renderTemplate_by_path_witness :
  (∃ t, Parse tmpl_talos_haproxy_api_cfg = Ok t
   ∧ renderTemplate "talos" "haproxy.api.cfg.tmpl" []
     = match Execute t (VMap []) with
       | Ok s => Ok s
       | Err e => Err (Wrapf "failed to execute template" e)
       end)
  ∧ renderTemplate "debian" "haproxy.api.cfg.tmpl" []
    = Err (Wrapf "failed to parse config template" (Errorf "pattern matches no files")).
Proof.
  assert (∀ s, bool_decide (proper_name s) = true → literal s = true → plain s) as Hp.
  { intros s H1%bool_decide_eq_true H2. by split. }
  split.
  - apply (renderTemplate_by_path "talos" "haproxy.api.cfg.tmpl" []);
      [right|]; apply Hp; vm_compute; reflexivity.
  - apply (renderTemplate_by_path "debian" "haproxy.api.cfg.tmpl" []);
      [right|]; apply Hp; vm_compute; reflexivity.
Defined.

Definition sample_frontends : FrontendData := fst (getHAProxyFrontends sample_vips).

Lemma sample_frontends_ok :
  getHAProxyFrontends (VirtualAddresses (Spec sample_config)) = (sample_frontends, None).
Proof. vm_compute. reflexivity. Qed.

Definition sample_backends : list Backend := [
  {| be_Name := "node-1"; be_Address := "172.18.200.61" |};
  {| be_Name := "node-2"; be_Address := "172.18.200.62" |}].

Lemma RenderHAProxyAPIConfig_correct_witness :
  RenderHAProxyAPIConfig sample_config None w_start
  = (Done (Ok (openshift_api_text sample_frontends sample_backends)), set_tick 1 w_start).
Proof.
  destruct (RenderHAProxyAPIConfig_correct sample_config sample_frontends w_start sample_frontends_ok)
    as [_ H].
  apply (H (be_NodeSelector (APIBackend (Spec sample_config)))
    [sample_node "node-1" "172.18.200.61"; sample_node "node-2" "172.18.200.62"]); reflexivity.
Defined.

Lemma RenderHAProxyIngressConfig_correct_witness :
  RenderHAProxyIngressConfig sample_config None w_start
  = (Done (Ok (openshift_ingress_text sample_frontends sample_backends)), set_tick 1 w_start).
Proof.
  pose proof (RenderHAProxyIngressConfig_correct sample_config sample_frontends w_start
    sample_frontends_ok) as H. cbv zeta in H. cbn [sample_config Spec IngressBackend] in H.
  destruct H as [_ H]. apply (H (selector "node-role.kubernetes.io/infra")
    [sample_node "node-1" "172.18.200.61"; sample_node "node-2" "172.18.200.62"]); reflexivity.
Defined.

Lemma nm_connections_correct_witness :
  RenderPublicNMConnection (lb1 "/") sample_config w_start
    = (Done (Ok (public_text "02:00:00:00:00:10")), set_tick 1 w_start)
  ∧ RenderClusterNetNMConnection (lb1 "/") sample_config w_start
    = (Done (Ok (cluster_net_text "02:00:00:00:00:11" (myInternalIP sample_ips true))),
       set_tick 2 (set_tick 1 w_start)).
Proof.
  destruct (nm_connections_correct (lb1 "/") sample_config sample_ips "eth1" w_start
    (set_tick 1 w_start) (sample_ips_ok "/")) as [H1 H2]; [vm_compute; reflexivity|].
  split; [rewrite H1|rewrite H2]; vm_compute; reflexivity.
Defined.

(** ** Routes *)

(** A cluster network given with host bits. *)
Definition lb_host_bits : LoadBalancerConfigReconciler := {|
  ConfigRoot := "/"; PublicInterface := "eth0"; ClusterNetwork := the_prefix "172.18.200.5/24";
  WatchNamespace := "default"; Hostname := "lb-1"; Keepalived := {| IsPrimary := true |} |}.

Lemma unmasked_cluster_network_not_found_witness :
  ClusterNetworkInterface lb_host_bits w_start =
    (Done (Err (Errorf "failed to find interface for cluster network")), set_tick 1 w_start).
Proof.
  apply (unmasked_cluster_network_not_found lb_host_bits w_start sample_routes).
  - reflexivity.
  - repeat constructor.
  - vm_compute. discriminate.
Defined.

(** ** Events *)

Lemma nodeUpdateHandler_correct_witness :
  (ignored (DeleteEvent (ObjNode (sample_node "node-1" "172.18.200.61"))) →
   nodeUpdateHandler (DeleteEvent (ObjNode (sample_node "node-1" "172.18.200.61"))) [] w_start
     = (Done [], w_start))
  ∧ (¬ ignored (DeleteEvent (ObjNode (sample_node "node-1" "172.18.200.61"))) →
   nodeUpdateHandler (DeleteEvent (ObjNode (sample_node "node-1" "172.18.200.61"))) [] w_start
     = (Done ([] ++ [sample_request]), set_tick 1 w_start)).
Proof.
  exact (nodeUpdateHandler_correct (DeleteEvent (ObjNode (sample_node "node-1" "172.18.200.61")))
           [] w_start I).
Defined.

Definition lb_prod : LoadBalancerConfigReconciler := {|
  ConfigRoot := "/"; PublicInterface := "eth0"; ClusterNetwork := the_prefix "172.18.200.0/24";
  WatchNamespace := "prod"; Hostname := "lb-1"; Keepalived := {| IsPrimary := true |} |}.
Definition prod_secret : Secret := {|
  sec_Meta := {| om_Name := "s"; om_Namespace := "prod"; om_UID := ""; om_Generation := 1;
                 om_Labels := ∅ |};
  sec_Data := None; sec_StringData := ∅ |}.

Lemma handlers_bypass_namespace_witness :
  let n := sample_node "node-1" "172.18.200.61" in
  Filter lb_prod (ObjLoadBalancerConfig sample_config) = false
  ∧ (Filter lb_prod (ObjNode n) = true ∧
     ∃ q' w', nodeUpdateHandler (DeleteEvent (ObjNode n)) [] w_start = (Done q', w')
              ∧ ObjectKey sample_config ∈ q')
  ∧ (Filter lb_prod (ObjSecret prod_secret) = true ∧
     ∃ q' w', credentialsUpdateHandler (UpdateEvent (ObjSecret prod_secret) (ObjSecret prod_secret)) []
                w_start = (Done q', w') ∧ ObjectKey sample_config ∈ q').
Proof.
  apply (handlers_bypass_namespace lb_prod sample_config [sample_config]).
  - discriminate.
  - reflexivity.
  - discriminate.
  - reflexivity.
  - left.
Defined.

(** ** Rendering from a file *)

(** A decoder that knows two documents. *)
#[local] Instance sample_yaml : Yaml := {|
  yaml_docs _ := (["config"; "secret"], None);
  UnmarshalStrict_LoadBalancerConfig doc c :=
    if decide (doc = "config") then (sample_config, None) else (c, Some (Errorf "unknown field"));
  UnmarshalStrict_Secret doc s :=
    if decide (doc = "secret") then (sample_secret, None) else (s, Some (Errorf "unknown field"));
|}.

Definition w_file : World := {|
  w_tick := 0; w_files := {["/lb.yaml" := {| f_content := "..."; f_mode := 420 |}]};
  w_dirs := {["/"]}; w_lbc := zeroLBConfig; w_events := [] |}.

(** [10.0.0.1] and [10.0.0.2] *)
Definition api_addresses : list Z := [167772161; 167772162].

Definition w_rendered : World :=
  snd (RenderFile (lb1 "/out") "/lb.yaml" (backend_list api_addresses) "10.9.9.9" w_file).

Lemma w_rendered_run :
  RenderFile (lb1 "/out") "/lb.yaml" (backend_list api_addresses) "10.9.9.9" w_file
  = (Done None, w_rendered).
Proof. unfold w_rendered. run_outcome. Qed.

Lemma RenderFile_ingress_from_api_witness :
  let c := w_lbc w_rendered in
  ∃ fd, getHAProxyFrontends (VirtualAddresses (Spec c)) = (fd, None)
  ∧ (Distribution (Spec c) = "openshift" →
     in_sync (lb1 "/out") HAProxyIngressConfigFile
       (openshift_ingress_text fd (numbered_backends "ingress" 0 api_addresses)) w_rendered)
  ∧ (Distribution (Spec c) = "talos" →
     in_sync (lb1 "/out") HAProxyIngressConfigFile
       (talos_ingress_text fd (numbered_backends "ingress" 0 api_addresses)) w_rendered).
Proof.
  apply (RenderFile_ingress_from_api (lb1 "/out") "/lb.yaml" "10.9.9.9" api_addresses w_file).
  - discriminate.
  - repeat (apply Forall_cons; split; [lia|]). by apply Forall_nil.
  - exact w_rendered_run.
Defined.

(** ** Start-up *)

(** The secondary load balancer, as the default flags make it. *)
Definition lb_default (root : string) : LoadBalancerConfigReconciler := {|
  ConfigRoot := root; PublicInterface := "eth0"; ClusterNetwork := the_prefix "172.18.200.0/24";
  WatchNamespace := "default"; Hostname := "lb-1"; Keepalived := {| IsPrimary := false |} |}.

(** The command line of a bootstrap, and one without flags. *)
Definition bootstrap_flags (f : Flags) : Flags := {|
  fl_metricsAddr := fl_metricsAddr f; fl_metricsCertPath := fl_metricsCertPath f;
  fl_metricsCertName := fl_metricsCertName f; fl_metricsCertKey := fl_metricsCertKey f;
  fl_webhookCertPath := fl_webhookCertPath f; fl_webhookCertName := fl_webhookCertName f;
  fl_webhookCertKey := fl_webhookCertKey f; fl_enableLeaderElection := fl_enableLeaderElection f;
  fl_probeAddr := fl_probeAddr f; fl_secureMetrics := fl_secureMetrics f;
  fl_enableHTTP2 := fl_enableHTTP2 f;
  fl_isPrimary := true; fl_publicInterface := fl_publicInterface f;
  fl_clusterNetwork := fl_clusterNetwork f; fl_configRoot := "/out";
  fl_renderFromFile := "/lb.yaml"; fl_apiBackends := backend_list api_addresses;
  fl_ingressBackends := "10.9.9.9"; fl_watchNamespace := fl_watchNamespace f |}.

#[local] Instance sample_runtime : ControllerRuntime := runtime_in_order _.

Definition sample_env (parse : Flags → Flags) (err : ManagerCall → option error) : MainEnv := {|
  DefaultRouteInterface := Ok "eth0"; flag_Parse := parse; clientgoscheme := [];
  mgr_error := err; os_Hostname := "lb-1";
|}.

Definition no_cluster : MainEnv := sample_env bootstrap_flags (λ c,
  match c with NewManager _ => Some (Errorf "no configuration has been provided") | _ => None end).
Definition not_ready : MainEnv := sample_env id (λ c,
  match c with AddReadyzCheck _ => Some (Errorf "exists") | _ => None end).

Definition no_cluster_options : ctrl_Options := managerOptions [] (bootstrap_flags (default_flags "eth0")).

Lemma main_render_from_file_witness :
  (mgr_error (MainEnv := no_cluster) (NewManager no_cluster_options) ≠ None →
     main (EN := no_cluster) w_file = (Done ([NewManager no_cluster_options], 1), w_file))
  ∧ (mgr_error (MainEnv := no_cluster) (NewManager no_cluster_options) = None → ∀ log w',
     main (EN := no_cluster) w_file = (Done (log, 0), w') ↔ log = [NewManager no_cluster_options] ∧
     RenderFile (lb1 "/out") "/lb.yaml" (backend_list api_addresses) "10.9.9.9" w_file = (Done None, w')).
Proof.
  apply (main_render_from_file (EN := no_cluster) "eth0" (lb1 "/out") w_file).
  - reflexivity.
  - vm_compute. reflexivity.
  - discriminate.
Defined.

(** The calls when the readiness check cannot be added. *)
Definition not_ready_log : list ManagerCall :=
  [NewManager (managerOptions [] (default_flags "eth0")); CompleteController (SetupWithManager (lb_default "/"));
   AddHealthzCheck "healthz"; AddReadyzCheck "readyz"].

Lemma main_start_calls_witness :
  main (EN := not_ready) w_file = (Done (not_ready_log, 1), w_file).
Proof.
  etrans; [apply (main_start_calls (EN := not_ready) "eth0" (lb_default "/") w_file)|].
  - reflexivity.
  - vm_compute. reflexivity.
  - reflexivity.
  - rewrite bool_decide_eq_false_2; [reflexivity|].
    unfold start_calls. rewrite !Forall_cons. intros (_ & _ & _ & [= ] & _).
Defined.

Lemma main_servers_hardened_witness :
  let f := default_flags "eth0" in
  ∃ o log', not_ready_log = NewManager o :: log'
  ∧ (fl_enableHTTP2 f = false →
     ∀ c, NextProtos (foldl (λ c g, g c) c (wh_TLSOpts (co_WebhookServer o))) = ["http/1.1"]
        ∧ NextProtos (foldl (λ c g, g c) c (ms_TLSOpts (co_Metrics o))) = ["http/1.1"])
  ∧ (ms_FilterProvider (co_Metrics o) = Some WithAuthenticationAndAuthorization
       ↔ ms_SecureServing (co_Metrics o) = true)
  ∧ ms_SecureServing (co_Metrics o) = fl_secureMetrics f
  ∧ ms_BindAddress (co_Metrics o) = fl_metricsAddr f
  ∧ ms_CertDir (co_Metrics o) = fl_metricsCertPath f
  ∧ wh_CertDir (co_WebhookServer o) = fl_webhookCertPath f
  ∧ co_LeaderElection o = fl_enableLeaderElection f
  ∧ (GroupVersion, "LoadBalancerConfig") ∈ co_Scheme o.
Proof.
  apply (main_servers_hardened (EN := not_ready) "eth0" w_file w_file not_ready_log 1).
  - reflexivity.
  - reflexivity.
Defined.

(** ** Wiring *)

Definition tenant_secret : Secret := {|
  sec_Meta := {| om_Name := "s"; om_Namespace := "tenant"; om_UID := ""; om_Generation := 0; om_Labels := ∅ |};
  sec_Data := None; sec_StringData := ∅ |}.

Lemma SetupWithManager_dispatch_witness :
  deliver (SetupWithManager (lb1 "/")) KindSecret (DeleteEvent (ObjSecret tenant_secret)) [] w_file
    = (Done [], w_file)
  ∧ deliver (SetupWithManager (lb1 "/")) KindSecret (DeleteEvent (ObjSecret sample_secret)) [] w_file
    = credentialsUpdateHandler (DeleteEvent (ObjSecret sample_secret)) [] w_file.
Proof.
  split.
  - apply (SetupWithManager_dispatch (lb1 "/") KindSecret (DeleteEvent (ObjSecret tenant_secret)) [] w_file).
    done.
  - apply (SetupWithManager_dispatch (lb1 "/") KindSecret (DeleteEvent (ObjSecret sample_secret)) [] w_file).
    done.
Defined.

End rendered.

(** Every write fails and leaves the file empty. *)
Definition disk_full (_ : nat) (sc : Syscall) : option error :=
  match sc with SysWrite _ => Some (Errorf "no space left on device") | _ => None end.
Definition full_host : Host := the_host disk_full all_run (Ok sample_routes) (λ _, sample_config).

Definition w_cut : World :=
  snd (CompareAndWrite (HO := full_host) (lb1 "/") SysctlConfFile "new" 420 w_sysctl).
Definition cut_result : bool * option error :=
  (true, Some (Wrapf "failed to write config file" (Errorf "no space left on device"))).

Lemma w_cut_run : CompareAndWrite (HO := full_host) (lb1 "/") SysctlConfFile "new" 420 w_sysctl
  = (Done cut_result, w_cut).
Proof. unfold w_cut. run_outcome. Qed.

Lemma interrupted_write_completed_witness :
  let content := final_content (lb1 "/") SysctlConfFile (lbc_Meta (w_lbc w_sysctl)) "new" in
  ∃ ch w2, CompareAndWrite (HO := sample_host) (lb1 "/") SysctlConfFile "new" 420 w_cut = (Done (ch, None), w2)
  ∧ (consistent (lb1 "/") SysctlConfFile content (w_files w2)
     ∨ ch = false ∧ w_files w2 = w_files w_cut
       ∧ content_at (w_files w2) (digestfilePath (lb1 "/") SysctlConfFile)
         = content_at (w_files w_sysctl) (digestfilePath (lb1 "/") SysctlConfFile)
       ∧ ∃ old, content_at (w_files w2) (configfilePath (lb1 "/") SysctlConfFile) = Some old
           ∧ content_at (w_files w_sysctl) (digestfilePath (lb1 "/") SysctlConfFile) = Some (sha256_hex old)
           ∧ (content_at (w_files w_sysctl) (configfilePath (lb1 "/") SysctlConfFile) = Some old
              ∨ ∃ n, old = String.substring 0 n content)).
Proof.
  exact (interrupted_write_completed checksum full_host sample_host (the_host_quiet _ _ _) (lb1 "/")
    SysctlConfFile "new" 420 w_sysctl w_cut cut_result w_cut_run).
Defined.
