(* ===== verification/Deployment.v ===== *)
(** * What a node is configured with: the abstract view of a run

    A node's files and its entry in the custom resource amount to one finite map,
    its deployment: for each managed file that is intact on disk, the digest of
    the data it was rendered from.  On deployments a run of [ReconcileLBConfig]
    is a small function ([deploy]), which the code is proved to refine. *)

From S2P Require Import Prelude GoStrings Netip Types Interfaces Reconciler Vip Path Host.
From S2P Require Import WriteConfig HostFacts WriteFacts FileNames Service Reconcile Jobs JobFacts.
From S2P Require Import ReconcileFacts.

Section deployment.
Context {HO : Host} {MI : MapIter} {ME : Multierr} {DI : Digest}.

(** ** Deployments *)

(** The file and its digest file are there and agree: [IsFileModified] says no. *)
Definition intact (r : LoadBalancerConfigReconciler) (f : string) (fs : gmap string File) : bool :=
  match fs !! configfilePath r f, fs !! digestfilePath r f with
  | Some c, Some d => bool_decide (sha256_hex (f_content c) = f_content d)
  | _, _ => false
  end.

Lemma intact_consistent r f fs : intact r f fs = true ↔ ∃ content, consistent r f content fs.
Proof.
  unfold intact, consistent. split.
  - destruct (fs !! configfilePath r f) as [[c m1]|]; [|done].
    destruct (fs !! digestfilePath r f) as [[d m2]|]; [|done].
    intros H%bool_decide_eq_true. simpl in H. subst d. exists c. split; by eexists.
  - intros (c & [m1 ->] & [m2 ->]). by apply bool_decide_eq_true.
Qed.

(** The digest deployed for one file. *)
Definition deployed (r : LoadBalancerConfigReconciler) (c : LoadBalancerConfig)
    (fs : gmap string File) (f : string) : option string :=
  if intact r f fs then recorded r f c else None.

Definition deployment (r : LoadBalancerConfigReconciler) (c : LoadBalancerConfig)
    (fs : gmap string File) : gmap string string :=
  list_to_map (omap (λ f, d ← deployed r c fs f; Some (f, d)) managed_files).

Lemma managed_NoDup : NoDup managed_files.
Proof. apply (bool_decide_unpack _). by vm_compute. Qed.

Lemma list_to_map_omap {A : Type} (g : string → option A) (l : list string) (f : string) :
  (list_to_map (omap (λ x, a ← g x; Some (x, a)) l) : gmap string A) !! f
  = if decide (f ∈ l) then g f else None.
Proof.
  induction l as [|x l IH]; [done|]. cbn [omap list_omap].
  destruct (g x) as [a|] eqn:E; simpl.
  - destruct (decide (f = x)) as [->|Hne].
    + rewrite lookup_insert_eq, decide_True by (by left). done.
    + rewrite lookup_insert_ne by done. rewrite IH.
      destruct (decide (f ∈ l)); [by rewrite decide_True by (by right)|].
      rewrite decide_False; [done|]. set_solver.
  - rewrite IH. destruct (decide (f ∈ l)); [by rewrite decide_True by (by right)|].
    destruct (decide (f ∈ x :: l)) as [Hin|]; [|done].
    apply elem_of_cons in Hin as [->|]; done.
Qed.

Lemma lookup_deployment r c fs f :
  deployment r c fs !! f = if decide (f ∈ managed_files) then deployed r c fs f else None.
Proof. apply list_to_map_omap. Qed.

(** Being in sync is being deployed. *)
Lemma in_sync_deployed r f data w :
  in_sync r f data w ↔ deployed r (w_lbc w) (w_files w) f = Some (sha256_hex data).
Proof.
  unfold in_sync, deployed. rewrite <-intact_consistent. destruct (intact _ _ _); naive_solver.
Qed.

Definition w_deployment (r : LoadBalancerConfigReconciler) (w : World) : gmap string string :=
  deployment r (w_lbc w) (w_files w).

Lemma w_deployment_sync r f data w : f ∈ managed_files →
  w_deployment r w !! f = Some (sha256_hex data) ↔ in_sync r f data w.
Proof.
  intros Hf. unfold w_deployment. by rewrite lookup_deployment, decide_True, in_sync_deployed.
Qed.

(** A file outside the frame keeps its place in the deployment. *)
Lemma deployed_frame r (F : gset string) f w w' :
  f ∈ managed_files → (∀ g, g ∈ F → g ∈ managed_files) → f ∉ F → frame r F w w' →
  deployed r (w_lbc w') (w_files w') f = deployed r (w_lbc w) (w_files w) f.
Proof.
  intros Hf HF Hn (Hp & Hr & _). unfold deployed, intact. rewrite Hr by done.
  assert (∀ p, p ∈ paths r f → w_files w' !! p = w_files w !! p) as Hsame.
  { intros p Hpf. apply Hp. intros g Hg Hpg.
    apply (managed_paths_apart r f g Hf (HF g Hg) ltac:(by intros ->) p); done. }
  by rewrite !Hsame by (unfold paths; set_solver).
Qed.

(** ** The abstract run *)

(** What a job renders, seen from outside: the service, the file, and the digest
    of the data, if there is any. *)
Definition Output : Type := NodeService * string * option string.

(** One output put into the deployment. *)
Definition deploy1 (o : Output) (acc : gmap string string * gset NodeService)
    : gmap string string * gset NodeService :=
  match o with
  | (svc, f, Some d) =>
      (<[f := d]> (fst acc),
       if decide (fst acc !! f = Some d) then snd acc else {[svc]} ∪ snd acc)
  | (_, _, None) => acc
  end.

(** All outputs, and the services to reload. *)
Definition deploy (os : list Output) (dep : gmap string string) : gmap string string * gset NodeService :=
  fold_left (λ acc o, deploy1 o acc) os (dep, ∅).

(** [o] is what [j] renders for the custom resource [c]. *)
Inductive job_output (c : LoadBalancerConfig) (j : Job) : Output → Prop :=
| output_ok data : answers (j_render j c) (Done (Ok data)) →
    job_output c j (j_svc j, j_file j, Some (sha256_hex data))
| output_err e : answers (j_render j c) (Done (Err e)) →
    job_output c j (j_svc j, j_file j, None).

Definition output_file (o : Output) : string := snd (fst o).
Definition output_failed (o : Output) : Prop := snd o = None.

Lemma job_outputs_files c js os : Forall2 (job_output c) js os → output_file <$> os = j_file <$> js.
Proof.
  induction 1 as [|j o js os Ho _ IH]; [done|]. rewrite !fmap_cons, IH. by destruct Ho.
Qed.

Section refinement.
Context {NF : NoFaults} {SH : StableHost}.
Variable r : LoadBalancerConfigReconciler.

Lemma run_job_deploys j acc w acc' w' : job_spec j → run_job r j acc w = (Done acc', w') →
  ∃ o, job_output (w_lbc w) j o
  ∧ (w_deployment r w', acc'.1) = deploy1 o (w_deployment r w, acc.1)
  ∧ (acc'.2 = acc.2 ↔ ¬ output_failed o) ∧ ∃ es, acc'.2 = acc.2 ++ es.
Proof.
  intros Hj Hrun. pose proof (run_job_frame _ _ _ _ _ _ Hj Hrun) as Hfr.
  pose proof (run_job_grows _ _ _ _ _ _ Hj Hrun) as [_ Hgrow].
  pose proof (job_file j Hj) as Hf.
  destruct (run_job_quiet _ _ _ _ _ _ Hj Hrun)
    as [(e & He & -> & Hfs & Hl)|(d & Hd & Hs & Hcase)].
  - exists (j_svc j, j_file j, None). split; [by apply (output_err _ _ e)|]. unfold w_deployment.
    rewrite Hfs, Hl. split; [by destruct acc|]. split; [|by exists [e]].
    unfold output_failed. simpl. split; [|done]. intros E%(f_equal length).
    rewrite length_app in E. simpl in E. lia.
  - exists (j_svc j, j_file j, Some (sha256_hex d)). split; [by constructor|].
    assert (acc'.2 = acc.2) as Ea by (by destruct Hcase as [[_ ->]|[_ ->]]).
    split; [|split; [|by exists []; rewrite app_nil_r]].
    2: { unfold output_failed. simpl. split; [by intros _|by intros _]. }
    unfold deploy1. cbn [fst snd]. f_equal.
    + apply map_eq. intros g. destruct (decide (g = j_file j)) as [->|Hne].
      * rewrite lookup_insert_eq. by apply w_deployment_sync.
      * rewrite lookup_insert_ne by done. unfold w_deployment. rewrite !lookup_deployment.
        destruct (decide (g ∈ managed_files)); [|done].
        apply (deployed_frame r {[j_file j]}); [done|set_solver|set_solver|done].
    + destruct (decide (w_deployment r w !! j_file j = Some (sha256_hex d))) as [Hin|Hin];
        rewrite w_deployment_sync in Hin by done; destruct Hcase as [[? ->]|[? ->]]; done.
Qed.

Lemma job_output_frame j F w w' o : job_spec j → frame r F w w' →
  job_output (w_lbc w') j o → job_output (w_lbc w) j o.
Proof.
  intros Hj Hfr [d Hd|e He]; pose proof (render_frame r j F w w' Hj Hfr) as E;
    rewrite E in *; by econstructor.
Qed.

Lemma run_jobs_deploys js acc w acc' w' :
  Forall job_spec js → run_jobs r js acc w = (Done acc', w') →
  ∃ os, Forall2 (job_output (w_lbc w)) js os
  ∧ (w_deployment r w', acc'.1) = fold_left (λ a o, deploy1 o a) os (w_deployment r w, acc.1)
  ∧ (acc'.2 = acc.2 ↔ Forall (λ o, ¬ output_failed o) os).
Proof.
  intros H. revert acc w. induction H as [|j js Hj Hjs IH]; intros acc w Hrun.
  { injection Hrun as <- <-. exists []. by split_and!. }
  apply run_jobs_cons in Hrun as (acc1 & w1 & E1 & E2).
  pose proof (run_job_frame _ _ _ _ _ _ Hj E1) as Hfr.
  destruct (run_job_deploys _ _ _ _ _ Hj E1) as (o & Ho & Hd & Hok & es1 & He1).
  pose proof (run_jobs_grows _ _ _ _ _ _ Hjs E2) as [_ [es2 He2]].
  destruct (IH _ _ E2) as (os & Hos & Hds & Hoks). exists (o :: os). split_and!.
  - constructor; [done|]. clear -Hos Hjs Hfr. induction Hos; constructor;
      inversion Hjs; subst; [by eapply job_output_frame|by auto].
  - simpl. by rewrite <-Hd.
  - rewrite Forall_cons, <-Hok, <-Hoks. rewrite He2, He1. split.
    + intros E. apply (f_equal length) in E. rewrite !length_app in E.
      destruct es1, es2; simpl in E; try lia. by rewrite !app_nil_r.
    + intros [-> ->]. done.
Qed.

(** C3 (refinement): on deployments, [ReconcileLBConfig] is [deploy]: the data
    that each job renders replaces what was deployed for its file, a file whose
    rendering fails keeps what it had, the services to reload are those whose
    deployed digest changes, and there is an error exactly when some rendering
    failed.  Headers, modes, digest files, the order of writes and the status
    map are implementation. *)
Theorem ReconcileLBConfig_refines_deploy (sec : Secret) (lb : option LocalBackendConfiguration)
  (w w0 w' : World) (u : gset NodeService) (err : option error)
  (Hinit : InitializeNodeStatus r w = (Done None, w0))
  (Hrun : ReconcileLBConfig r sec lb w = (Done (u, err), w')) :
  ∃ os, Forall2 (job_output (w_lbc w)) (jobs r sec lb) os
  ∧ (w_deployment r w', u) = deploy os (w_deployment r w)
  ∧ (err = None ↔ Forall (λ o, ¬ output_failed o) os).
Proof.
  destruct (ReconcileLBConfig_inv _ _ _ _ _ _ _ _ Hinit Hrun) as (es & Hj & ->).
  destruct (run_jobs_deploys _ _ _ _ _ (jobs_spec r sec lb) Hj) as (os & Hos & Hd & He).
  exists os. split_and!.
  - pose proof (jobs_init_render r sec lb) as Hren.
    assert (∀ j o, j ∈ jobs r sec lb → job_output (w_lbc w0) j o → job_output (w_lbc w) j o) as Hjo.
    { intros j o Hin [d Hd'|e He']; rewrite (Hren j w w0 Hinit Hin) in *; by econstructor. }
    clear -Hos Hjo. induction Hos; constructor; [apply Hjo; [by left|done]|].
    apply IHHos. intros. apply Hjo; [by right|done].
  - simpl in Hd. rewrite Hd. unfold deploy. do 2 f_equal. unfold w_deployment.
    apply map_eq. intros f. rewrite !lookup_deployment. destruct (decide (f ∈ managed_files)); [|done].
    apply InitializeNodeStatus_keeps in Hinit as (Hfs & _ & _ & _ & _ & Hr).
    unfold deployed. by rewrite Hfs, Hr.
  - by rewrite Combine_slice.
Qed.

End refinement.
End deployment.
