(* ===== verification/Desired.v ===== *)
(** * The configuration a custom resource asks for

    An abstract specification of the controller: the contents of all files of a
    node as a function of the custom resource, the credentials, the node's flags
    and a few facts about its site.  For every custom resource that the API's
    schema admits and that is complete, the code renders exactly this, and the
    first run on a new node installs it. *)

From S2P Require Import Prelude GoStrings Netip NetipText Types Interfaces Reconciler Vip Path Host.
From S2P Require Import HostFacts WriteConfig WriteFacts FileNames Service Template Templates.
From S2P Require Import VipFacts Network Keepalived Haproxy NetworkManager Rendered RenderTheorems.
From S2P Require Import Reconcile Jobs JobFacts ReconcileFacts Convergence Slots.

Local Open Scope Z_scope.

(** ** The schema of the API ([+kubebuilder:validation] in
    [api/v1alpha1/loadbalancerconfig_types.go]) *)

Definition CloudEnum : list string := ["cloudscale"; "exoscale"].
Definition DistributionEnum : list string := ["openshift"; "talos"].
Definition AddressTypeEnum : list string := ["public"; "private"].
Definition NodeStatusEnum : list string := ["Configuring"; "Ready"; "Failed"].

Definition valid_VirtualAddress (a : VirtualAddress) : bool := bool_decide (va_Type a ∈ AddressTypeEnum).

(** [MinItems=1], and lists that are maps keyed by the address. *)
Definition valid_VIPs (v : LoadBalancerConfigVIPs) : bool :=
  (1 <=? length (vips_API v))%nat
  && bool_decide (NoDup (va_Address <$> vips_API v))
  && bool_decide (NoDup (va_Address <$> vips_Ingress v))
  && forallb valid_VirtualAddress (all_vips v).

Definition valid_Spec (s : LoadBalancerConfigSpec) : bool :=
  bool_decide (Cloud s ∈ CloudEnum) && bool_decide (Distribution s ∈ DistributionEnum)
  && valid_VIPs (VirtualAddresses s).

(** The node statuses of a custom resource. *)
Definition valid_Nodes (c : LoadBalancerConfig) : Prop :=
  ∀ host ns, node_status host c = Some ns → ns_Status ns ∈ NodeStatusEnum.

(** ** The specification *)

(** Where a node stands: the addresses of the pair, the interface of the cluster
    network, the hardware addresses of the two cards, and the cluster's nodes. *)
Record Site : Type := {
  s_ips : InternalIPs;
  s_iface : string;
  s_public_mac : list Z;
  s_cluster_mac : list Z;
  s_api_nodes : list Node;
  s_ingress_nodes : list Node;
}.

Section desired.
Context {HO : Host} {MI : MapIter} {ME : Multierr} {DI : Digest}.

(** The host answers accordingly. *)
Record on_site (r : LoadBalancerConfigReconciler) (c : LoadBalancerConfig) (st : Site) : Prop := {
  os_ips : internalIPs r = Ok (s_ips st);
  os_iface : answers (ClusterNetworkInterface r) (Done (Ok (s_iface st)));
  os_public t : ∃ i, InterfaceByName t (PublicInterface r) = Ok i ∧ if_HardwareAddr i = s_public_mac st;
  os_cluster t : ∃ i, InterfaceByName t (s_iface st) = Ok i ∧ if_HardwareAddr i = s_cluster_mac st;
  os_api : ∃ sel, LabelSelectorAsSelector (be_NodeSelector (APIBackend (Spec c))) = Ok sel
    ∧ ∀ t, client_List_Nodes t sel = Ok (s_api_nodes st);
  os_ingress b : IngressBackend (Spec c) = Some b →
    ∃ sel, LabelSelectorAsSelector (be_NodeSelector b) = Ok sel
      ∧ ∀ t, client_List_Nodes t sel = Ok (s_ingress_nodes st);
}.

(** The credentials the cloud needs. *)
Definition credentials_complete (cloud : string) (sec : Secret) : Prop :=
  (cloud = "cloudscale" → is_Some (secret_field sec "token"))
  ∧ (cloud = "exoscale" → is_Some (secret_field sec "key") ∧ is_Some (secret_field sec "secret")).

(** A custom resource that can be deployed: the schema admits it, its addresses
    are addresses, the optional parts the code needs are there, and so are the
    credentials. *)
Record deployable (c : LoadBalancerConfig) (sec : Secret) : Prop := {
  dep_schema : valid_Spec (Spec c) = true;
  dep_addresses a : a ∈ all_vips (VirtualAddresses (Spec c)) → is_ok (parseVIP a) = true;
  dep_NAT : is_Some (vips_NAT (VirtualAddresses (Spec c)));
  dep_ingress : is_Some (IngressBackend (Spec c));
  dep_credentials : credentials_complete (Cloud (Spec c)) sec;
}.

(** The contents of each file. *)
Definition desired (r : LoadBalancerConfigReconciler) (c : LoadBalancerConfig) (sec : Secret)
    (st : Site) (f : string) : string :=
  let vips := VirtualAddresses (Spec c) in
  let fd := fst (getHAProxyFrontends vips) in
  let public := fst (publicVIPs vips) in
  let v4 := filter (λ p, Is4 (pfx_ip p) = true) public in
  let v6 := filter (λ p, Is4 (pfx_ip p) ≠ true) public in
  let mine := myInternalIP (s_ips st) (IsPrimary (Keepalived r)) in
  let peer := peerInternalIP (s_ips st) (IsPrimary (Keepalived r)) in
  let field k := default "" (secret_field sec k) in
  let openshift := bool_decide (Distribution (Spec c) = "openshift") in
  let api_nodes := omap node_backend_of (s_api_nodes st) in
  let ingress_nodes := omap node_backend_of (s_ingress_nodes st) in
  if decide (f = HAProxyAPIConfigFile) then
    (if openshift then openshift_api_text fd api_nodes else talos_api_text fd api_nodes)
  else if decide (f = HAProxyIngressConfigFile) then
    (if openshift then openshift_ingress_text fd ingress_nodes else talos_ingress_text fd ingress_nodes)
  else if decide (f = KeepalivedConfigFile) then
    keepalived_text (s_iface st) (if IsPrimary (Keepalived r) then 200 else 100) mine peer
      (fst (privateVIPs vips (gateway_vips c (s_ips st))))
  else if decide (f = FloatyConfigFile) then
    (if decide (Cloud (Spec c) = "cloudscale") then cloudscale_text (field "token") public
     else exoscale_text (field "key") (field "secret") public)
  else if decide (f = ConntrackdConfigFile) then conntrackd_text (s_iface st) mine peer
  else if decide (f = PublicNMConnectionFile) then public_text (HardwareAddr_String (s_public_mac st))
  else if decide (f = ClusterNetworkNMConnectionFile) then
    cluster_net_text (HardwareAddr_String (s_cluster_mac st)) mine
  else if decide (f = KeepalivedDummyNMConnectionFile) then dummy_text v4 v6
  else if decide (f = SysctlConfFile) then sysctl_text (PublicInterface r)
  else if decide (f = FirewalldExternalZone) then zone_text v4 v6
  else match vips_NAT vips with
       | Some nat => direct_text (PublicInterface r) (Prefix_String (ClusterNetwork r))
           (match ParsePrefix (va_Address nat) with Ok p => Addr_String (pfx_ip p) | Err _ => "" end)
       | None => ""
       end.

Lemma valid_Spec_inv s : valid_Spec s = true →
  (Cloud s = "cloudscale" ∨ Cloud s = "exoscale") ∧ (Distribution s = "openshift" ∨ Distribution s = "talos").
Proof.
  unfold valid_Spec. intros [[H1%bool_decide_eq_true H2%bool_decide_eq_true]%andb_true_iff _]%andb_true_iff.
  unfold CloudEnum, DistributionEnum in *. set_solver.
Qed.

Lemma vips_ok c sec extra : deployable c sec →
  let vips := VirtualAddresses (Spec c) in
  (∃ fd, getHAProxyFrontends vips = (fd, None)) ∧ (∃ l, publicVIPs vips = (l, None))
  ∧ ∃ l, privateVIPs vips extra = (l, None).
Proof.
  intros Hd vips. pose proof (dep_addresses c sec Hd) as Ha. fold vips in Ha. split_and!.
  - unfold getHAProxyFrontends. rewrite frontendAPI_spec, frontendIngress_spec. eexists. f_equal. simpl.
    rewrite Combine_slice, app_nil, !frontend_errors_nil.
    split; intros v Hv; apply Ha; unfold all_vips; rewrite !elem_of_app; auto.
  - unfold publicVIPs. rewrite collect_all. eexists. f_equal. apply errors_of_ok. auto.
  - unfold privateVIPs. rewrite collect_all. eexists. f_equal. apply errors_of_ok. auto.
Qed.

(** A lookup in the specification. *)
Ltac pick := unfold desired; repeat (rewrite decide_False by (by vm_compute)); rewrite ?decide_True by done.

Lemma answers_now {A : Type} (m : M A) o : (∀ w, m w = (o, w)) → answers m o.
Proof. intros H w. exists (w_tick w). rewrite H. by rewrite set_tick_id. Qed.

(** The renderings on the site are the specification's; see
    [renderings_as_specified]. *)
Lemma desired_rendered r c sec st : on_site r c st → deployable c sec →
  ∀ j, j ∈ jobs r sec None → answers (j_render j c) (Done (Ok (desired r c sec st (j_file j)))).
Proof.
  intros Hs Hd. destruct Hs as [Hips Hif Hpub Hclu (asel & Ea & Han) Hing].
  destruct (vips_ok c sec (gateway_vips c (s_ips st)) Hd) as ([fd Hfd] & [pub Hpv] & [priv Hprv]).
  destruct Hd as [Hsch Haddr [nat Hnat] [b Hb] Hcred].
  apply valid_Spec_inv in Hsch as [Hcloud Hdist].
  destruct (Hing b Hb) as (isel & Ei & Hin).
  apply Forall_forall. repeat (apply Forall_cons; split); [..|by apply Forall_nil]; cbn [j_render j_file].
  - intros w. exists (S (w_tick w)).
    pick. rewrite Hfd. apply (RenderHAProxyAPIConfig_correct c fd w Hfd) with asel (s_api_nodes st); [done..|].
    unfold api_text. destruct Hdist as [-> | ->]; done.
  - intros w. exists (S (w_tick w)). pick. rewrite Hfd.
    pose proof (RenderHAProxyIngressConfig_correct c fd w Hfd) as H. cbv zeta in H. rewrite Hb in H.
    destruct H as [_ H]. apply H with isel (s_ingress_nodes st); [done..|].
    unfold ingress_text. destruct Hdist as [-> | ->]; done.
  - intros w. destruct (Hif w) as [t Et]. exists t. pick. rewrite Hprv.
    by apply keepalived_text_of.
  - apply answers_now. intros w. pick. rewrite Hpv.
    rewrite (floaty_rendered c sec pub Hpv). unfold floaty_text. destruct Hcred as [H1 H2].
    destruct Hcloud as [Ec|Ec]; rewrite Ec.
    + destruct (H1 Ec) as [token ->]. done.
    + destruct (H2 Ec) as [[key ->] [secret ->]]. done.
  - intros w. destruct (Hif w) as [t Et]. exists t. pick. by apply conntrackd_text_of.
  - intros w. destruct (Hif w) as [t Et]. exists (S (w_tick w)). pick.
    rewrite (proj1 (nm_connections_correct r c _ _ _ _ Hips Et)).
    destruct (Hpub (w_tick w)) as (i & -> & <-). done.
  - intros w. destruct (Hif w) as [t Et]. exists (S t). pick.
    rewrite (proj2 (nm_connections_correct r c _ _ _ _ Hips Et)). simpl.
    destruct (Hclu t) as (i & -> & <-). done.
  - apply answers_now. intros w. pick. unfold RenderKeepalivedDummyNMConnection. rewrite Hpv.
    by rewrite split_family_filter, !app_nil_l, dummy_render.
  - apply answers_now. intros w. pick. unfold RenderSysctlConf. by rewrite sysctl_render.
  - apply answers_now. intros w. pick. unfold RenderFirewallExternalZone. rewrite Hpv.
    by rewrite split_family_filter, !app_nil_l, zone_render.
  - apply answers_now. intros w. pick. pose proof (RenderFirewallDirectRules_correct r c w) as H.
    rewrite Hnat in *. rewrite H.
    assert (is_ok (parseVIP nat) = true) as Hn by (apply Haddr; unfold all_vips; rewrite Hnat; set_solver).
    revert Hn. unfold parseVIP. by destruct (ParsePrefix (va_Address nat)).
Qed.

(** C6 (reference specification): for every custom resource that the API's schema
    admits, whose addresses are addresses, that has a NAT address and an ingress
    backend, and whose credentials have the fields its cloud needs, each of the
    eleven files is rendered, and its text is the specification's: a function of
    the custom resource, the credentials, the role of the node and its site. *)
Theorem renderings_as_specified (r : LoadBalancerConfigReconciler) (c : LoadBalancerConfig)
  (sec : Secret) (st : Site)
  (Hsite : on_site r c st)
  (Hdep : deployable c sec) :
  (j_file <$> jobs r sec None) = managed_files
  ∧ ∀ j, j ∈ jobs r sec None →
      answers (j_render j c) (Done (Ok (desired r c sec st (j_file j)))).
Proof. split; [apply jobs_files|by apply desired_rendered]. Qed.

(** ** The first run *)

Lemma job_of_service r sec s : s ∈ services → ∃ j, j ∈ jobs r sec None ∧ j_svc j = s.
Proof.
  intros Hs. assert (Forall (λ s, s ∈ (j_svc <$> jobs r sec None)) services) as H.
  { change (j_svc <$> jobs r sec None) with [HAProxy; HAProxy; KeepalivedService; KeepalivedService;
      Conntrackd; NetworkManager; NetworkManager; NetworkManager; Sysctl; Firewalld; Firewalld].
    apply (bool_decide_unpack _). by vm_compute. }
  rewrite Forall_forall in H. apply H, list_elem_of_fmap in Hs as (j & -> & Hj). by exists j.
Qed.

Lemma reload_errors_none r t cs : (∀ t argv, exec_Run t argv = None) → reload_errors r t cs = [].
Proof.
  intros Hx. unfold reload_errors. case_bool_decide; [|done]. revert t.
  induction cs as [|s cs IH]; intros t; simpl; [done|]. by rewrite Hx, IH.
Qed.

(** On a node for which nothing is recorded, a run of [ReconcileLBConfig] writes
    every file and calls for every service. *)
Lemma first_ReconcileLBConfig {NF : NoFaults} {SH : StableHost} r c sec st v w :
  on_site r c st → deployable c sec → answers (init_values r) (Done (Ok v)) →
  w_lbc w = c → admits r c → (∀ f, f ∈ managed_files → recorded r f c = None) →
  ∃ u w', ReconcileLBConfig r sec None w = (Done (u, None), w') ∧ has_node r w'
  ∧ u = list_to_set services
  ∧ ∀ f, f ∈ managed_files →
      consistent r f (final_content r f (lbc_Meta c) (desired r c sec st f)) (w_files w')
      ∧ recorded r f (w_lbc w') = Some (sha256_hex (desired r c sec st f)).
Proof.
  intros Hsite Hdep Hv Ec Hadm Hnew. pose proof (desired_rendered r c sec st Hsite Hdep) as Hren.
  rewrite <-Ec in Hadm, Hnew, Hren.
  destruct (ReconcileLBConfig_total r sec w v Hv Hadm) as (u & w' & E & Hn).
  { intros j Hj. eexists. by apply Hren. }
  exists u, w'. split; [done|]. split; [done|].
  destruct (ReconcileLBConfig_init_ok _ _ _ _ _ _ _ Hv E) as [w0 Ei].
  assert (∀ f data, f ∈ managed_files → ¬ in_sync r f data w) as Hstale.
  { intros f data Hf [Hr _]. by rewrite Hnew in Hr. }
  pose proof (jobs_spec r sec None) as Hjs. rewrite Forall_forall in Hjs. split.
  - apply set_eq. intros s. rewrite elem_of_list_to_set. split.
    { intros Hs. by eapply ReconcileLBConfig_services. }
    intros (j & Hj & <-)%(job_of_service r sec).
    destruct (ReconcileLBConfig_inv _ _ _ _ _ _ _ _ Ei E) as (es & Hrun & _).
    destruct (run_jobs_quiet _ _ _ _ _ _ (jobs_spec r sec None) (jobs_NoDup r sec None) Hrun)
      as (_ & Hu & _). apply Hu. right. exists j. split; [done|]. split; [done|].
    eexists. rewrite (jobs_init_render r sec None _ _ _ Ei Hj). split; [by apply Hren|].
    rewrite (init_in_sync _ _ _ _ _ Ei). by apply Hstale, job_file, Hjs.
  - intros f Hf. destruct (ReconcileLBConfig_slots _ _ _ _ _ _ E) as (_ & _ & _ & Hslot).
    assert (∃ j, j ∈ jobs r sec None ∧ j_file j = f) as (j & Hj & <-).
    { revert Hf. rewrite <-(jobs_files r sec None), list_elem_of_fmap. intros (j & -> & Hj). by exists j. }
    pose proof (Hren j Hj) as Ha. rewrite Ec in Ha.
    assert (recorded r (j_file j) (w_lbc w') = Some (sha256_hex (desired r (w_lbc w) sec st (j_file j)))) as Hrec.
    { apply (ReconcileLBConfig_jobs_synced _ _ _ _ _ _ _ Ei E j); [done|]. by apply Hren. }
    rewrite Ec in Hrec. split; [|done].
    destruct (Hslot (j_file j) Hf) as [Es|(j' & data & Hj' & Ej & Ha' & _ & Hc & _)].
    + injection Es as _ _ Er. rewrite Hrec, Hnew in Er; [done|by apply job_file, Hjs].
    + assert (j' = j) as -> by (by eapply (jobs_file_inj r sec)).
      rewrite Ec in *. pose proof (answers_det _ _ _ w Ha Ha') as [= ->]. done.
Qed.

(** C2 (a first run): on a faultless, stable host, a node for which nothing is
    recorded yet, served a deployable custom resource, needs one run: it returns
    no error, every file has the header, the stamp and the specified text, next to
    its digest; every service is reloaded exactly once (on the real root; nothing
    is run elsewhere), in some order and before the status is sent; the status
    holds the digest of every file, and says [Ready] when the reloads succeed. *)
Theorem first_run_installs {NF : NoFaults} {SH : StableHost} (r : LoadBalancerConfigReconciler)
  (req : NamespacedName) (c : LoadBalancerConfig) (sec : Secret) (st : Site)
  (v : string * string * string) (w : World)
  (Hget : client_Get_LoadBalancerConfig (w_tick w) req = Ok c)
  (Hsec : client_Get_Secret (S (w_tick w)) (secret_key c) = Ok sec)
  (Hupd : ∀ t c', client_Status_Update t c' = None)
  (Hsite : on_site r c st)
  (Hdep : deployable c sec)
  (Hv : answers (init_values r) (Done (Ok v)))
  (Hadm : admits r c)
  (Hnew : ∀ f, f ∈ managed_files → recorded r f c = None) :
  ∃ w' order c' ns, Reconcile r req w = (Done None, w')
  ∧ order ≡ₚ services
  ∧ w_events w' = w_events w ++ reload_events r order ++ [EvStatusUpdate c']
  ∧ (∀ f, f ∈ managed_files →
       consistent r f (final_content r f (lbc_Meta c) (desired r c sec st f)) (w_files w')
       ∧ recorded r f c' = Some (sha256_hex (desired r c sec st f)))
  ∧ node_status (Hostname r) c' = Some ns
  ∧ ((∀ t argv, exec_Run t argv = None) → ns_Status ns = NodeStatusReady).
Proof.
  destruct (first_ReconcileLBConfig r c sec st v (fetched c w) Hsite Hdep Hv eq_refl Hadm Hnew)
    as (u & w1 & E & [ns En] & -> & Hall).
  destruct (Reconcile_run _ _ _ _ _ _ _ _ _ Hget Hsec E En) as (t & w' & Er & Hf & He).
  rewrite Hupd in Er. eexists w', _, _, _. split; [|split; [|split; [exact He|split; [|split]]]].
  - rewrite Er. do 2 f_equal. apply Combine_nil. by repeat constructor.
  - rewrite map_keys_perm. apply elements_list_to_set. apply (bool_decide_unpack _). by vm_compute.
  - intros f Hin. destruct (Hall f Hin) as [Hc Hr]. rewrite Hf. split; [done|].
    unfold recorded in *. rewrite (node_status_put _ _ _ _ En). rewrite En in Hr. exact Hr.
  - apply (node_status_put _ _ _ _ En).
  - intros Hx. rewrite reload_errors_none by done. done.
Qed.

(** ** The statuses that are sent *)

(** C25 (types): the status a completed run sends satisfies the schema's
    enumeration for every node when the custom resource it read did: this node's
    is [Ready] or [Failed], the others' are as they were, and so are the spec and
    the metadata. *)
Theorem Reconcile_sends_valid (r : LoadBalancerConfigReconciler) (req : NamespacedName)
  (c : LoadBalancerConfig) (sec : Secret) (w w' : World) (res : option error)
  (Hget : client_Get_LoadBalancerConfig (w_tick w) req = Ok c)
  (Hsec : client_Get_Secret (S (w_tick w)) (secret_key c) = Ok sec)
  (Hrun : Reconcile r req w = (Done res, w'))
  (Hvalid : valid_Nodes c) :
  ∃ c' ns, last (w_events w') = Some (EvStatusUpdate c')
  ∧ valid_Nodes c'
  ∧ node_status (Hostname r) c' = Some ns
  ∧ (ns_Status ns = NodeStatusReady ∨ ns_Status ns = NodeStatusFailed)
  ∧ (∀ host, host ≠ Hostname r → node_status host c' = node_status host c)
  ∧ Spec c' = Spec c ∧ lbc_Meta c' = lbc_Meta c.
Proof.
  destruct (Reconcile_inv _ _ _ _ _ _ _ Hget Hsec Hrun) as (u & err & w1 & ns & t & E & En & _ & _ & He).
  pose proof (ReconcileLBConfig_others _ _ _ _ _ _ E) as (Ho & HS & HM).
  cbn [w_lbc fetched set_tick set_lbc] in Ho, HS, HM.
  set (fin := final_status err (reload_errors r (w_tick w1) (map_keys u)) ns) in *.
  assert (ns_Status fin = NodeStatusReady ∨ ns_Status fin = NodeStatusFailed) as Hfin.
  { unfold fin, final_status. simpl. case_match; auto. }
  exists (put_node_status (Hostname r) fin (w_lbc w1)), fin. autorewrite with lbc.
  assert (∀ host, host ≠ Hostname r →
    node_status host (put_node_status (Hostname r) fin (w_lbc w1)) = node_status host c) as Hother.
  { intros host Hh. rewrite node_status_put_ne by congruence. by apply Ho. }
  split_and!; [by rewrite He, app_assoc, last_snoc| |apply (node_status_put _ _ _ _ En)|done..].
  intros host n. destruct (decide (host = Hostname r)) as [->|Hh].
  - rewrite (node_status_put _ _ _ _ En). intros [= <-]. unfold NodeStatusEnum.
    destruct Hfin as [-> | ->]; set_solver.
  - rewrite Hother by done. apply Hvalid.
Qed.

End desired.
