(* ===== verification/System.v ===== *)
(** * The fleet: several load balancers, one custom resource

    Each load balancer runs its own reconciler on its own disk; they share the
    custom resource, in whose status each keeps the digests of its files.  A
    [System] is the stored resource, the credentials and the state of every node;
    its steps are the runs of [Reconcile] on the nodes, and what happens around
    them: edits of the spec, new credentials, damage to files.  A run on a host
    without faults whose answers are stable ([NoFaults], [StableHost]) ends in an
    accepted or a rejected status update or in a panic; any run on any other host
    is a faulty step. *)

From stdpp Require Import functions.
From S2P Require Import Prelude GoStrings Netip Types Interfaces Reconciler Vip Path Host.
From S2P Require Import WriteConfig HostFacts WriteFacts FileNames Service Reconcile Jobs JobFacts.
From S2P Require Import ReconcileFacts Convergence Deployment Slots.

(** ** The fleet *)

(** The state of the whole installation; [disk] holds the state of each node's
    host, by hostname. *)
Record System : Type := {
  store : LoadBalancerConfig;
  creds : Secret;
  disk : string → World;
}.

Definition set_disk (n : string) (w : World) (s : System) : System :=
  {| store := store s; creds := creds s; disk := <[n := w]> (disk s) |}.
Definition set_store (c : LoadBalancerConfig) (s : System) : System :=
  {| store := c; creds := creds s; disk := disk s |}.

(** Someone edits the spec: the API server counts the generation up. *)
Definition edit_spec (spec : LoadBalancerConfigSpec) (generation : Z) (c : LoadBalancerConfig)
    : LoadBalancerConfig :=
  {| lbc_Meta := {| om_Name := om_Name (lbc_Meta c); om_Namespace := om_Namespace (lbc_Meta c);
                    om_UID := om_UID (lbc_Meta c); om_Generation := generation;
                    om_Labels := om_Labels (lbc_Meta c) |};
     Spec := spec; Status := Status c |}.

(** An update of the status subresource stores the status only. *)
Definition commit (sent c : LoadBalancerConfig) : LoadBalancerConfig :=
  {| lbc_Meta := lbc_Meta c; Spec := Spec c; Status := Status sent |}.

Lemma store_set_disk n w s : store (set_disk n w s) = store s.
Proof. done. Qed.
Lemma store_set_store c s : store (set_store c s) = c.
Proof. done. Qed.
Lemma disk_set_store c s : disk (set_store c s) = disk s.
Proof. done. Qed.
Lemma disk_set_same n w s : disk (set_disk n w s) n = w.
Proof. apply fn_lookup_insert. Qed.
Lemma disk_set_other n m w s : m ≠ n → disk (set_disk n w s) m = disk s m.
Proof. intros. by apply fn_lookup_insert_ne. Qed.
Lemma node_status_commit m sent c : node_status m (commit sent c) = node_status m sent.
Proof. done. Qed.
Lemma recorded_commit r f sent c : recorded r f (commit sent c) = recorded r f sent.
Proof. done. Qed.

Create Rewrite HintDb fleet.
#[export] Hint Rewrite store_set_disk store_set_store disk_set_store disk_set_same
  node_status_commit recorded_commit : fleet.

Section fleet.
Context {ME : Multierr} {DI : Digest}.
Variable node : string → LoadBalancerConfigReconciler.
Hypothesis node_hostname : ∀ n, Hostname (node n) = n.
Variable req : NamespacedName.

(** During the run of [n] the cluster serves what is stored. *)
Definition serves (HO : Host) (n : string) (s : System) : Prop :=
  client_Get_LoadBalancerConfig (w_tick (disk s n)) req = Ok (store s)
  ∧ client_Get_Secret (S (w_tick (disk s n))) (secret_key (store s)) = Ok (creds s).

(** Whether status updates are stored, or rejected (a conflict, an outage). *)
Definition accepts (HO : Host) : Prop := ∀ t c, client_Status_Update t c = None.
Definition rejects (HO : Host) : Prop := ∀ t c, is_Some (client_Status_Update t c).

(** A completed run of [n], on whatever host, that returns [res] and sends [sent]. *)
Record completes (HO : Host) (MI : MapIter) (n : string) (s : System) (res : option error)
    (w' : World) (sent : LoadBalancerConfig) : Prop := {
  comp_serves : serves HO n s;
  comp_run : Reconcile (node n) req (disk s n) = (Done res, w');
  comp_sent : last (w_events w') = Some (EvStatusUpdate sent);
}.

(** The damage the digest files show: whatever is intact now was so before. *)
Definition damaged (n : string) (fs fs' : gmap string File) : Prop :=
  ∀ f content, f ∈ managed_files → consistent (node n) f content fs' → consistent (node n) f content fs.

Inductive Label : Type :=
| LRun (n : string) (HO : Host) (MI : MapIter) | LReject (n : string) (HO : Host) (MI : MapIter)
| LPanic (n : string) (HO : Host) (MI : MapIter) | LFault (n : string)
| LEdit (spec : LoadBalancerConfigSpec) (generation : Z) | LRotate (sec : Secret) | LDamage (n : string).

Inductive step : Label → System → System → Prop :=
| step_run n s HO MI res w' sent :
    NoFaults → StableHost →
    completes HO MI n s res w' sent → accepts HO →
    step (LRun n HO MI) s (set_store (commit sent (store s)) (set_disk n w' s))
| step_reject n s HO MI res w' sent :
    NoFaults → StableHost →
    completes HO MI n s res w' sent → rejects HO →
    step (LReject n HO MI) s (set_disk n w' s)
| step_panic n s HO MI why w' :
    NoFaults → StableHost →
    serves HO n s → Reconcile (HO := HO) (MI := MI) (node n) req (disk s n) = (Panic why, w') →
    step (LPanic n HO MI) s (set_disk n w' s)
| step_fault n s HO MI out w' c :
    Reconcile (HO := HO) (MI := MI) (node n) req (disk s n) = (out, w') →
    c = store s ∨ (∃ sent, last (w_events w') = Some (EvStatusUpdate sent) ∧ c = commit sent (store s)) →
    step (LFault n) s (set_store c (set_disk n w' s))
| step_edit spec generation s :
    step (LEdit spec generation) s (set_store (edit_spec spec generation (store s)) s)
| step_rotate sec s :
    step (LRotate sec) s {| store := store s; creds := sec; disk := disk s |}
| step_damage n fs s :
    damaged n (w_files (disk s n)) fs →
    step (LDamage n) s (set_disk n (set_files fs (disk s n)) s).

(** The steps after which the stored digests still speak for the files: not a
    rejected update, a panic or a run on a faulty or unstable host. *)
Definition clean (l : Label) : Prop :=
  match l with LReject _ _ _ | LPanic _ _ _ | LFault _ => False | _ => True end.

Definition clean_step (s s' : System) : Prop := ∃ l, clean l ∧ step l s s'.

(** What a run does to the system. *)
Lemma completes_inv HO MI n s res w' sent : completes HO MI n s res w' sent →
  ∃ u err w1,
    ReconcileLBConfig (HO := HO) (MI := MI) (node n) (creds s) None (fetched (store s) (disk s n))
      = (Done (u, err), w1)
    ∧ w_files w' = w_files w1 ∧ Spec sent = Spec (store s) ∧ lbc_Meta sent = lbc_Meta (store s)
    ∧ (∀ m, m ≠ n → node_status m sent = node_status m (store s))
    ∧ (∀ f, recorded (node n) f sent = recorded (node n) f (w_lbc w1))
    ∧ (res = None → err = None)
    ∧ ∃ ns fails, node_status n (w_lbc w1) = Some ns
      ∧ node_status n sent = Some (final_status err fails ns)
      ∧ w_events w' = w_events (disk s n) ++ reload_events (node n) (map_keys u)
                      ++ [EvStatusUpdate sent]
      ∧ (u = ∅ → fails = []).
Proof.
  intros [[E1 E2] Hrun Hsent].
  destruct (Reconcile_inv _ _ _ _ _ _ _ E1 E2 Hrun) as (u & err & w1 & ns & t & E & En & -> & Hf & He).
  pose proof He as He'. rewrite He, app_assoc, last_snoc in Hsent. injection Hsent as <-.
  pose proof (ReconcileLBConfig_others _ _ _ _ _ _ E) as (Ho & HS & HM).
  exists u, err, w1. autorewrite with lbc. split_and!; [done..| | | |].
  - intros m Hm. rewrite node_status_put_ne by (rewrite node_hostname; congruence).
    by apply Ho; rewrite node_hostname.
  - intros f. unfold recorded. by rewrite (node_status_put _ _ _ _ En), En.
  - intros Hc. apply Combine_nil in Hc. by apply Forall_cons in Hc as [-> _].
  - rewrite node_hostname in *. eexists ns, _. split; [done|].
    split; [apply (node_status_put _ _ _ _ En)|]. split; [done|]. intros ->.
    assert (map_keys (∅ : gset NodeService) = []) as ->.
    { apply Permutation_nil. symmetry. rewrite map_keys_perm. by rewrite elements_empty. }
    unfold reload_errors. by case_bool_decide.
Qed.

(** Runs complete; see [fleet_run_completes]. *)
Lemma run_completes (HO : Host) (MI : MapIter) (n : string) (s : System)
  (v : string * string * string)
  (Hfaults : NoFaults)
  (Hstable : StableHost)
  (Hserves : serves HO n s)
  (Hadmits : admits (node n) (store s))
  (Hv : answers (init_values (node n)) (Done (Ok v)))
  (Hall : ∀ j, j ∈ jobs (node n) (creds s) None →
     ∃ data, answers (j_render j (store s)) (Done (Ok data))) :
  ∃ t w' sent, completes HO MI n s (Combine [None; client_Status_Update t sent]) w' sent.
Proof.
  destruct Hserves as [E1 E2].
  destruct (ReconcileLBConfig_total (node n) (creds s) (fetched (store s) (disk s n)) v Hv Hadmits Hall)
    as (u & w1 & E & [ns En]).
  destruct (Reconcile_run _ _ _ _ _ _ _ _ _ E1 E2 E En) as (t & w' & Er & _ & He).
  rewrite app_assoc in He. eexists t, w', _. split; [done| |].
  - exact Er.
  - rewrite He. apply last_snoc.
Qed.

(** C8 (progress): on a host without faults whose answers are stable, a node that
    is served the custom resource and its credentials completes its run when the
    custom resource has an entry for it or no map of entries at all, its own
    addresses can be found, and every file can be rendered: it does not panic, it
    sends a status, and its error is that of the status update. *)
Theorem fleet_run_completes (HO : Host) (MI : MapIter) (n : string) (s : System)
  (v : string * string * string)
  (Hfaults : NoFaults)
  (Hstable : StableHost)
  (Hserves : serves HO n s)
  (Hadmits : admits (node n) (store s))
  (Hv : answers (init_values (node n)) (Done (Ok v)))
  (Hall : ∀ j, j ∈ jobs (node n) (creds s) None →
     ∃ data, answers (j_render j (store s)) (Done (Ok data))) :
  ∃ t w' sent, completes HO MI n s (Combine [None; client_Status_Update t sent]) w' sent.
Proof. by eapply run_completes. Qed.

Lemma recorded_of c c' n f :
  node_status n c = node_status n c' → recorded (node n) f c = recorded (node n) f c'.
Proof. unfold recorded. rewrite node_hostname. by intros ->. Qed.

(** ** What the files contain *)

(** An intact file whose digest is recorded holds data with that digest. *)
Definition honest (s : System) : Prop :=
  ∀ n f content d, f ∈ managed_files → consistent (node n) f content (w_files (disk s n)) →
  recorded (node n) f (store s) = Some d →
  ∃ meta data, sha256_hex data = d ∧ content = final_content (node n) f meta data.

Definition initial (s : System) : Prop := Nodes (Status (store s)) = None.

Lemma initial_honest s : initial s → honest s.
Proof.
  intros Hi n f content d _ _ Hr. revert Hr. unfold recorded, node_status. by rewrite Hi.
Qed.

Lemma consistent_inj r f content content' fs :
  consistent r f content fs → consistent r f content' fs → content = content'.
Proof. intros [[m1 E1] _] [[m2 E2] _]. congruence. Qed.

Lemma completes_slots HO MI n s res w' sent : NoFaults → StableHost → completes HO MI n s res w' sent →
  ∀ f, f ∈ managed_files →
   (∀ content, consistent (node n) f content (w_files w') ↔ consistent (node n) f content (w_files (disk s n)))
     ∧ recorded (node n) f sent = recorded (node n) f (store s)
   ∨ ∃ j data, j ∈ jobs (HO := HO) (node n) (creds s) None ∧ j_file j = f
      ∧ answers (j_render j (store s)) (Done (Ok data))
      ∧ ¬ in_sync (node n) f data (fetched (store s) (disk s n))
      ∧ consistent (node n) f (final_content (node n) f (lbc_Meta (store s)) data) (w_files w')
      ∧ recorded (node n) f sent = Some (sha256_hex data).
Proof.
  intros NF SH H f Hf.
  apply completes_inv in H as (u & err & w1 & E & Ew & _ & _ & _ & Hr & _).
  destruct (ReconcileLBConfig_slots _ _ _ _ _ _ E) as (_ & _ & _ & Hs).
  rewrite Ew, Hr. destruct (Hs f Hf) as [Es|(j & data & Hj & Ej & Ha & Hn & Hc & Hd)].
  - left. revert Es. unfold slot, consistent. by intros [= -> -> ->].
  - right. exists j, data. done.
Qed.

Lemma honest_step s s' : clean_step s s' → honest s → honest s'.
Proof.
  intros (l & Hl & Hs) Hh. destruct Hs as [n s HO MI res w' sent NF SH H _| | | |spec g s|sec s|n fs s Hd];
    [|done|done|done|exact Hh|exact Hh|].
  - intros m f content d Hf. autorewrite with fleet.
    destruct (decide (m = n)) as [->|Hne].
    + autorewrite with fleet. intros Hc Hr.
      destruct (completes_slots _ _ _ _ _ _ _ NF SH H f Hf) as [[Hc' Hr']|(j & data & _ & _ & _ & _ & Hc' & Hr')].
      * rewrite Hr' in Hr. apply Hc' in Hc. by eapply Hh.
      * rewrite Hr in Hr'. injection Hr' as ->. eexists _, data. split; [done|].
        by eapply consistent_inj.
    + rewrite disk_set_other by done. intros Hc Hr.
      apply completes_inv in H as (u & err & w1 & _ & _ & _ & _ & Ho & _).
      rewrite (recorded_of sent (store s) m f (Ho m Hne)) in Hr. by eapply Hh.
  - intros m f content d Hf. autorewrite with fleet. destruct (decide (m = n)) as [->|Hne].
    + autorewrite with fleet. intros Hc Hr. eapply Hh; [done| |done].
      by apply Hd.
    + rewrite disk_set_other by done. by apply Hh.
Qed.

Lemma honest_steps s s' : rtc clean_step s s' → honest s → honest s'.
Proof. induction 1; [done|]. eauto using honest_step. Qed.

(** A run that returned no error deployed everything. *)
Lemma completes_ok HO MI n s w' sent : NoFaults → StableHost → completes HO MI n s None w' sent →
  ∀ j, j ∈ jobs (HO := HO) (node n) (creds s) None →
  ∃ data content, answers (j_render j (store s)) (Done (Ok data))
  ∧ consistent (node n) (j_file j) content (w_files w')
  ∧ recorded (node n) (j_file j) sent = Some (sha256_hex data).
Proof.
  intros NF SH H j Hj.
  apply completes_inv in H as (u & err & w1 & E & Ew & _ & _ & _ & Hr & He & _).
  rewrite (He eq_refl) in E. pose proof (ReconcileLBConfig_slots _ _ _ _ _ _ E) as (_ & HS & _).
  destruct (ReconcileLBConfig_ok _ _ _ _ _ _ E) as (v & n' & _ & _ & _ & Hall).
  destruct (Hall j Hj) as (data & Ha & Hrec & content & Hc). exists data, content.
  pose proof (jobs_spec (node n) (creds s) None) as Hjs. rewrite Forall_forall in Hjs.
  rewrite (job_Spec j (Hjs j Hj) _ (store s)) in Ha by done.
  rewrite Ew, Hr. done.
Qed.

(** C5 (end to end): from an installation in which no status was stored yet,
    after any history of runs on faultless, stable hosts, edits, changes of
    credentials and damage in which no status update was rejected and no run
    panicked, a run on such a host that returns no error leaves every file of the
    node with the header, the stamp and the data that its rendering gives for the
    stored spec and credentials, up to data with the same SHA-256 digest. *)
Theorem fleet_files_hold_renderings (HO : Host) (MI : MapIter) (n : string) (s0 s : System)
  (w' : World) (sent : LoadBalancerConfig)
  (Hinit : initial s0)
  (Hhist : rtc clean_step s0 s)
  (Hfaults : NoFaults)
  (Hstable : StableHost)
  (Hrun : completes HO MI n s None w' sent)
  (Hacc : accepts HO) :
  ∀ j, j ∈ jobs (node n) (creds s) None →
  ∃ data data' meta md,
    answers (j_render j (store s)) (Done (Ok data))
    ∧ sha256_hex data' = sha256_hex data
    ∧ w_files w' !! configfilePath (node n) (j_file j)
      = Some {| f_content := final_content (node n) (j_file j) meta data'; f_mode := md |}.
Proof.
  intros j Hj. destruct (completes_ok _ _ _ _ _ _ _ _ Hrun j Hj) as (data & content & Ha & Hc & Hr).
  pose proof (jobs_spec (node n) (creds s) None) as Hjs. rewrite Forall_forall in Hjs.
  pose proof (job_file j (Hjs j Hj)) as Hf.
  assert (clean_step s (set_store (commit sent (store s)) (set_disk n w' s))) as Hstep.
  { exists (LRun n HO MI). split; [done|]. by eapply step_run. }
  pose proof (honest_step _ _ Hstep (honest_steps _ _ Hhist (initial_honest _ Hinit))) as Hh.
  specialize (Hh n (j_file j) content (sha256_hex data) Hf). autorewrite with fleet in Hh.
  destruct (Hh Hc Hr) as (meta & data' & E & ->). destruct Hc as [[md Hc] _].
  by exists data, data', meta, md.
Qed.

(** ** Coming to rest *)

(** What the fleet should be configured with: the data of each node's files, and
    the addresses each node finds for itself. *)
Variable want : string → string → string.
Variable addresses : string → string * string * string.

(** A run of [n], its update accepted, on a faultless, stable host where everything
    can be rendered and the renderings are [want]. *)
Inductive calm (n : string) (s : System) : System → Prop :=
| calm_run HO MI res w' sent :
    NoFaults → StableHost →
    completes HO MI n s res w' sent → accepts HO →
    answers (init_values (node n)) (Done (Ok (addresses n))) →
    (∀ j, j ∈ jobs (HO := HO) (node n) (creds s) None →
      answers (j_render j (store s)) (Done (Ok (want n (j_file j))))) →
    calm n s (set_store (commit sent (store s)) (set_disk n w' s)).

Lemma calm_step n s s' : calm n s s' → ∃ HO MI, step (LRun n HO MI) s s'.
Proof. intros [HO MI res w' sent NF SH H Ha _ _]. exists HO, MI. by eapply step_run. Qed.

(** Every file of [n] is intact, and the digest stored for it is that of the data
    it should have: what a run looks at. *)
Definition up_to_date (n : string) (s : System) : Prop :=
  ∀ f, f ∈ managed_files → in_sync (node n) f (want n f) (fetched (store s) (disk s n)).

(** [n] is configured with what it should be: every file holds the header, a stamp
    and the data it should have, or data with the same SHA-256 digest, and so say
    its digest file and the stored status. *)
Definition configured (n : string) (s : System) : Prop :=
  ∀ f, f ∈ managed_files →
  ∃ meta data, sha256_hex data = sha256_hex (want n f)
  ∧ consistent (node n) f (final_content (node n) f meta data) (w_files (disk s n))
  ∧ recorded (node n) f (store s) = Some (sha256_hex (want n f)).

Lemma honest_configured n s : honest s → up_to_date n s → configured n s.
Proof.
  intros Hh Hu f Hf. destruct (Hu f Hf) as [Hr [content Hc]].
  destruct (Hh n f content _ Hf Hc Hr) as (meta & data & E & ->). by exists meta, data.
Qed.

Lemma job_of (HO : Host) (MI : MapIter) n sec f : f ∈ managed_files →
  ∃ j, j ∈ jobs (node n) sec None ∧ j_file j = f.
Proof. rewrite <-(jobs_files (node n) sec None), list_elem_of_fmap. intros (j & -> & Hj). by exists j. Qed.

Definition ready (n : string) (s : System) : Prop :=
  ns_Status <$> node_status n (store s) = Some NodeStatusReady.

(** The commands run on a host so far. *)
Definition commands (w : World) : list (list string) :=
  omap (λ e, match e with EvExec argv => Some argv | EvStatusUpdate _ => None end) (w_events w).

(** From [s] to [s'] nothing happened to [n]: neither its files nor the services
    were touched. *)
Definition at_rest (n : string) (s s' : System) : Prop :=
  w_files (disk s' n) = w_files (disk s n) ∧ commands (disk s' n) = commands (disk s n).

#[local] Instance at_rest_preorder n : PreOrder (at_rest n).
Proof. split; [done|]. intros s1 s2 s3 [H1 H2] [H3 H4]. split; congruence. Qed.

(** A calm run brings its node up to date. *)
Lemma calm_syncs n s s' : calm n s s' → up_to_date n s'.
Proof.
  intros [HO MI res w' sent NF SH H _ Hv Hall] f Hf.
  destruct (job_of HO MI n (creds s) f Hf) as (j & Hj & <-).
  apply completes_inv in H as (u & err & w1 & E & Ew & _ & _ & _ & Hr & _).
  assert (in_sync (node n) (j_file j) (want n (j_file j)) w1) as [Hs1 Hs2].
  { destruct (ReconcileLBConfig_init_ok _ _ _ _ _ _ _ Hv E) as [w0 Ei].
    apply (ReconcileLBConfig_jobs_synced _ _ _ _ _ _ _ Ei E j); [done|]. by apply Hall. }
  autorewrite with fleet. split; cbn [w_lbc w_files fetched set_tick set_lbc].
  - by rewrite recorded_commit, Hr.
  - by rewrite Ew.
Qed.

(** A node that is up to date has nothing more to do, and says so. *)
Lemma calm_rests n s s' : calm n s s' → up_to_date n s →
  up_to_date n s' ∧ at_rest n s s' ∧ ∃ ns, node_status n (store s) = Some ns
    ∧ node_status n (store s') = Some (set_ns_Status NodeStatusReady (init_ns (addresses n) ns)).
Proof.
  intros Hc Hs. pose proof (calm_syncs _ _ _ Hc) as Hs'. split; [done|].
  destruct Hc as [HO MI res w' sent NF SH H _ Hv Hall].
  destruct (completes_inv _ _ _ _ _ _ _ H) as (u & err & w1 & E & Ew & _ & _ & _ & Hr & _
    & ns & fails & Hns & Hsent & Hev & Hfails).
  destruct (ReconcileLBConfig_init_ok _ _ _ _ _ _ _ Hv E) as [w0 Ei].
  assert (u = ∅ ∧ err = None ∧ w_files w1 = w_files (disk s n) ∧ w_lbc w1 = w_lbc w0)
    as (-> & -> & Hf & Hl).
  { apply (ReconcileLBConfig_nothing_to_do _ _ _ _ _ _ _ Ei E). intros j Hj.
    exists (want n (j_file j)). split; [by apply Hall|].
    pose proof (jobs_spec (node n) (creds s) None) as Hjs. rewrite Forall_forall in Hjs.
    apply Hs. by apply job_file, Hjs. }
  rewrite Hfails in Hsent by done. split.
  - unfold at_rest. autorewrite with fleet. split; [congruence|]. unfold commands. rewrite Hev.
    assert (map_keys (∅ : gset NodeService) = []) as ->.
    { apply Permutation_nil. symmetry. rewrite map_keys_perm. by rewrite elements_empty. }
    unfold reload_events. case_bool_decide; simpl; by rewrite omap_app, app_nil_r.
  - apply InitializeNodeStatus_inv in Ei as (v' & t & ns0 & Hv0 & En0 & E0).
    pose proof (answers_run _ _ _ _ _ Hv Hv0) as [= ->].
    rewrite Hl, E0 in Hns. cbn [w_lbc set_tick set_lbc] in Hns.
    pose proof (node_status_put _ (init_ns (addresses n) ns0) _ _ En0) as Hput.
    rewrite node_hostname in Hput, En0, Hns. rewrite Hput in Hns. injection Hns as <-.
    exists ns0. split; [|by autorewrite with fleet]. revert En0. unfold fetched, ensure_nodes. simpl.
    destruct (Nodes (Status (store s))) eqn:En; [done|].
    exfalso. destruct (Hs HAProxyAPIConfigFile ltac:(by left)) as [Hs1 _]. revert Hs1.
    unfold recorded. rewrite node_hostname. unfold node_status. simpl. by rewrite En.
Qed.

(** The runs of the other nodes do not concern it. *)
Lemma calm_other m n s s' : n ≠ m → calm m s s' →
  at_rest n s s' ∧ (up_to_date n s → up_to_date n s')
  ∧ node_status n (store s') = node_status n (store s).
Proof.
  intros Hne [HO MI res w' sent _ _ H _ _ _].
  assert (node_status n (store (set_store (commit sent (store s)) (set_disk m w' s)))
    = node_status n (store s)) as En.
  { autorewrite with fleet. apply completes_inv in H as (u & err & w1 & _ & _ & _ & _ & Ho & _). by rewrite Ho. }
  split; [|split].
  - unfold at_rest. autorewrite with fleet. by rewrite disk_set_other by done.
  - intros Hs f Hf. destruct (Hs f Hf) as [Hr Hc]. autorewrite with fleet. rewrite disk_set_other by done.
    split; [|exact Hc]. rewrite <-Hr. apply recorded_of. exact En.
  - exact En.
Qed.

(** The entry a run that has nothing to do leaves. *)
Definition final_entry (n : string) (s : System) : Prop :=
  ∃ ns, node_status n (store s) = Some ns
  ∧ set_ns_Status NodeStatusReady (init_ns (addresses n) ns) = ns.

Lemma calm_final n s s' : calm n s s' → up_to_date n s → final_entry n s'.
Proof.
  intros Hc Hs. destruct (calm_rests _ _ _ Hc Hs) as (_ & _ & ns & _ & E).
  eexists. split; [exact E|]. by destruct ns.
Qed.

Lemma calm_any m n s s' : calm m s s' → up_to_date n s → final_entry n s →
  up_to_date n s' ∧ at_rest n s s' ∧ node_status n (store s') = node_status n (store s).
Proof.
  intros Hc Hs (ns & En & Efin). destruct (decide (n = m)) as [->|Hne].
  - destruct (calm_rests _ _ _ Hc Hs) as (? & ? & ns' & En' & E). rewrite En in En'.
    injection En' as <-. rewrite E, Efin, En. done.
  - destruct (calm_other m n s s' Hne Hc) as (? & ? & ?). auto.
Qed.

Lemma calm_keeps_up_to_date m n s s' : calm m s s' → up_to_date n s → up_to_date n s'.
Proof.
  intros Hc Hs. destruct (decide (n = m)) as [->|Hne]; [by eapply calm_syncs|].
  destruct (calm_other m n s s' Hne Hc) as (_ & ? & _). auto.
Qed.

Lemma final_ready n s : final_entry n s → ready n s.
Proof. intros (ns & En & Efin). unfold ready. rewrite En. simpl. by rewrite <-Efin. Qed.

Lemma calms_honest s s' : (∃ m, calm m s s') → honest s → honest s'.
Proof.
  intros [m Hm] Hh. apply calm_step in Hm as (HO & MI & Hm).
  eapply honest_step; [|done]. by exists (LRun m HO MI).
Qed.

(** C1 (liveness): the fleet comes to rest.  From an installation in which no status
    was stored yet, after any history of runs on faultless, stable hosts, edits,
    changes of credentials and damage in which no status update was rejected and
    no run panicked: if from step [N] on the spec, the credentials and the hosts'
    answers stay, every run is on a faultless, stable host, is served, completes
    and is accepted, and [n] keeps being reconciled, then from some step on every
    file of [n] holds the header, a stamp and what is rendered for it (or data with
    the same SHA-256 digest), no file of it is written and no service reloaded, and
    its stored status says [Ready] and no longer changes, so that the runs stop
    triggering each other. *)
Theorem fleet_comes_to_rest (n : string) (s0 : System) (sigma : nat → System) (N : nat)
  (Hinit : initial s0)
  (Hhist : rtc clean_step s0 (sigma N))
  (Hcalm : ∀ i, (N ≤ i)%nat → ∃ m, calm m (sigma i) (sigma (S i)))
  (Hfair : ∀ i, ∃ k, (i ≤ k)%nat ∧ calm n (sigma k) (sigma (S k))) :
  ∃ R, ∀ i, (R ≤ i)%nat →
    configured n (sigma i) ∧ ready n (sigma i) ∧ at_rest n (sigma R) (sigma i)
    ∧ node_status n (store (sigma i)) = node_status n (store (sigma R)).
Proof.
  assert (∀ i, (N ≤ i)%nat → honest (sigma i)) as Hhonest.
  { induction 1 as [|i Hi IH]; [by apply (honest_steps _ _ Hhist), initial_honest|].
    by eapply calms_honest; [apply Hcalm|]. }
  destruct (Hfair N) as (k & Hk & Hc). apply calm_syncs in Hc.
  assert (∀ i, (S k ≤ i)%nat → up_to_date n (sigma i)) as Hsync.
  { induction 1 as [|i Hi IH]; [done|]. destruct (Hcalm i) as [m Hm]; [lia|].
    by eapply calm_keeps_up_to_date. }
  destruct (Hfair (S k)) as (k' & Hk' & Hc').
  apply calm_final in Hc'; [|by apply Hsync]. exists (S k'). intros i Hi.
  cut (at_rest n (sigma (S k')) (sigma i)
    ∧ node_status n (store (sigma i)) = node_status n (store (sigma (S k')))).
  { intros [Ha He]. split; [apply honest_configured; [apply Hhonest|apply Hsync]; lia|].
    split; [|done]. apply final_ready. unfold final_entry. rewrite He. exact Hc'. }
  induction Hi as [|i Hi [IHa IHe]]; [done|]. destruct (Hcalm i) as [m Hm]; [lia|].
  destruct (calm_any _ n _ _ Hm (Hsync i ltac:(lia))) as (_ & Ha & He).
  { unfold final_entry. rewrite IHe. exact Hc'. }
  split; [by etrans|congruence].
Qed.

(** ** A rejected status update *)

(** A calm run leaves an intact file alone whose recorded digest is right. *)
Lemma calm_keeps_slot m n f content s s' : f ∈ managed_files → calm m s s' →
  consistent (node n) f content (w_files (disk s n)) →
  recorded (node n) f (store s) = Some (sha256_hex (want n f)) →
  consistent (node n) f content (w_files (disk s' n))
  ∧ recorded (node n) f (store s') = Some (sha256_hex (want n f)).
Proof.
  intros Hf [HO MI res w' sent NF SH H _ _ Hall] Hc Hr. autorewrite with fleet.
  destruct (decide (n = m)) as [->|Hne].
  - autorewrite with fleet.
    destruct (completes_slots _ _ _ _ _ _ _ NF SH H f Hf) as [[Hc' Hr']|(j & data & Hj & <- & Ha & Hn & _)].
    + rewrite Hr', Hc'. done.
    + destruct Hn. pose proof (answers_det _ _ _ (disk s m) Ha (Hall j Hj)) as [= ->].
      split; [done|]. by exists content.
  - rewrite disk_set_other by done.
    apply completes_inv in H as (u & err & w1 & _ & _ & _ & _ & Ho & _).
    by rewrite (recorded_of sent (store s) n f (Ho n Hne)).
Qed.

Lemma calms_keep_slot n f content s s' : f ∈ managed_files → rtc (λ s s', ∃ m, calm m s s') s s' →
  consistent (node n) f content (w_files (disk s n)) →
  recorded (node n) f (store s) = Some (sha256_hex (want n f)) →
  consistent (node n) f content (w_files (disk s' n)).
Proof.
  intros Hf. induction 1 as [s|s s1 s' [m Hm] _ IH]; [done|]. intros Hc Hr.
  destruct (calm_keeps_slot m n f content s s1 Hf Hm Hc Hr). by apply IH.
Qed.

(** The file as a run leaves it that renders something new. *)
Lemma completes_writes HO MI n s res w' sent v j data : NoFaults → StableHost →
  completes HO MI n s res w' sent → answers (init_values (node n)) (Done (Ok v)) →
  j ∈ jobs (node n) (creds s) None → answers (j_render j (store s)) (Done (Ok data)) →
  recorded (node n) (j_file j) (store s) ≠ Some (sha256_hex data) →
  consistent (node n) (j_file j) (final_content (node n) (j_file j) (lbc_Meta (store s)) data)
    (w_files w').
Proof.
  intros NF SH H Hv Hj Ha Hd.
  pose proof (jobs_spec (node n) (creds s) None) as Hjs. rewrite Forall_forall in Hjs.
  destruct (completes_slots _ _ _ _ _ _ _ NF SH H (j_file j) (job_file j (Hjs j Hj)))
    as [[_ Hr']|(j' & data' & Hj' & Ej & Ha' & _ & Hc & _)].
  - apply completes_inv in H as (u & err & w1 & E & _ & _ & _ & _ & Hr & _). destruct Hd.
    destruct (ReconcileLBConfig_init_ok _ _ _ _ _ _ _ Hv E) as [w0 Ei].
    rewrite <-Hr', Hr. by eapply (ReconcileLBConfig_jobs_synced _ _ _ _ _ _ _ Ei E j data Hj Ha).
  - assert (j' = j) as -> by (by eapply (jobs_file_inj (node n) (creds s))).
    pose proof (answers_det _ _ _ (disk s n) Ha Ha') as [= <-]. done.
Qed.

(** C35 (a lost change): a run whose status update is rejected, because another
    node updated the status in between for one, has written its files all the
    same.  When the spec is then edited back before the next run, the stored
    digest is the right one again and the file is intact, so that no later run
    touches it: the file keeps the data of the rejected run, although something
    else is rendered for it, and every run finds it in sync. *)
Theorem rejected_update_leaves_stale_file (HO : Host) (MI : MapIter) (n : string) (s s' : System)
  (res : option error) (w' : World) (sent : LoadBalancerConfig) (j : Job) (data : string)
  (v : string * string * string) (spec : LoadBalancerConfigSpec) (generation : Z)
  (Hfaults : NoFaults)
  (Hstable : StableHost)
  (Hrun : completes HO MI n s res w' sent)
  (Hrej : rejects HO)
  (Hv : answers (init_values (node n)) (Done (Ok v)))
  (Hj : j ∈ jobs (node n) (creds s) None)
  (Ha : answers (j_render j (store s)) (Done (Ok data)))
  (Hrec : recorded (node n) (j_file j) (store s) = Some (sha256_hex (want n (j_file j))))
  (Hnew : sha256_hex data ≠ sha256_hex (want n (j_file j)))
  (Hlater : rtc (λ s s', ∃ m, calm m s s')
     (set_store (edit_spec spec generation (store s)) (set_disk n w' s)) s') :
  step (LReject n HO MI) s (set_disk n w' s)
  ∧ consistent (node n) (j_file j)
      (final_content (node n) (j_file j) (lbc_Meta (store s)) data) (w_files (disk s' n)).
Proof.
  split; [by eapply step_reject|].
  pose proof (jobs_spec (node n) (creds s) None) as Hjs. rewrite Forall_forall in Hjs.
  apply (calms_keep_slot n (j_file j) _ _ _ (job_file j (Hjs j Hj)) Hlater).
  - autorewrite with fleet. apply (completes_writes _ _ _ _ _ _ _ _ _ _ _ _ Hrun Hv Hj Ha). congruence.
  - autorewrite with fleet. exact Hrec.
Qed.

End fleet.
