(* ===== verification/Fleet.v ===== *)
(** * The abstract fleet

    What the fleet of [System] is from outside: for each node the contents that it
    vouches for and the digests stored for it, with one step for each kind of
    event.  A step of a node is a function of what is rendered for it; headers,
    file modes, digest files, the order of writes and the structure of the status
    are implementation.  The fleet is proved to refine it, step by step. *)

From stdpp Require Import functions.
From S2P Require Import Prelude GoStrings Netip Types Interfaces Reconciler Vip Path Host.
From S2P Require Import WriteConfig HostFacts WriteFacts FileNames Service Reconcile Jobs JobFacts.
From S2P Require Import ReconcileFacts Convergence Deployment Slots System.

(** ** One node *)

(** The contents of the files whose digest file agrees, and the stored digests. *)
Record ANode : Type := {
  a_held : gmap string string;
  a_digests : gmap string string;
}.


Section node.
Context {DI : Digest}.

Definition on_managed (g : string → option string) : gmap string string :=
  list_to_map (omap (λ f, x ← g f; Some (f, x)) managed_files).


Variable r : LoadBalancerConfigReconciler.



(** A node as it is on disk and in the custom resource. *)
Definition held_content (f : string) (fs : gmap string File) : option string :=
  match fs !! configfilePath r f, fs !! digestfilePath r f with
  | Some c, Some d => if decide (sha256_hex (f_content c) = f_content d) then Some (f_content c) else None
  | _, _ => None
  end.
Definition view_node (c : LoadBalancerConfig) (fs : gmap string File) : ANode :=
  {| a_held := on_managed (λ f, held_content f fs); a_digests := on_managed (λ f, recorded r f c) |}.

Lemma held_content_Some f fs content : held_content f fs = Some content ↔ consistent r f content fs.
Proof.
  unfold held_content, consistent. split.
  - destruct (fs !! configfilePath r f) as [[c m1]|]; [|done].
    destruct (fs !! digestfilePath r f) as [[d m2]|]; [|done].
    simpl. case_decide as H; [|done]. intros [= <-]. subst d. split; by eexists.
  - intros ([m1 ->] & [m2 ->]). simpl. by rewrite decide_True.
Qed.

Lemma held_content_ext f fs fs' :
  (∀ content, consistent r f content fs ↔ consistent r f content fs') →
  held_content f fs = held_content f fs'.
Proof. intros E. apply option_eq. intros content. rewrite !held_content_Some. apply E. Qed.







End node.

(** ** One run, seen from outside *)



Section run.
Context {HO : Host} {MI : MapIter} {ME : Multierr} {DI : Digest}.
Variable r : LoadBalancerConfigReconciler.





Section quiet.
Context {NF : NoFaults} {SH : StableHost}.












End quiet.
End run.

(** ** The abstract fleet *)

(** The resource without its status, the credentials, and the nodes. *)
Record AFleet : Type := {
  a_meta : ObjectMeta;
  a_spec : LoadBalancerConfigSpec;
  a_creds : Secret;
  a_nodes : string → ANode;
}.

Definition a_resource (a : AFleet) : LoadBalancerConfig :=
  {| lbc_Meta := a_meta a; Spec := a_spec a; Status := Status zeroLBConfig |}.



Section fleet.
Context {ME : Multierr} {DI : Digest}.
Variable node : string → LoadBalancerConfigReconciler.
Hypothesis node_hostname : ∀ n, Hostname (node n) = n.
Variable req : NamespacedName.


(** The fleet, seen from outside. *)
Definition view (s : System) : AFleet :=
  {| a_meta := lbc_Meta (store s); a_spec := Spec (store s); a_creds := creds s;
     a_nodes m := view_node (node m) (store s) (w_files (disk s m)) |}.

Lemma a_resource_Spec s : Spec (store s) = Spec (a_resource (view s)).
Proof. done. Qed.







End fleet.
