(* ===== verification/FleetSample.v ===== *)
(** * The fleet theorems at a concrete installation

    A load balancer of the sample installation that is reconciled over and over,
    and one whose status update is rejected: the inputs at which the theorems of
    [Deployment] and [System] are applied. *)

From stdpp Require Import functions.
From S2P Require Import Prelude GoStrings Netip Types Interfaces Reconciler Vip Path Host.
From S2P Require Import WriteConfig HostFacts WriteFacts FileNames Service Reconcile Jobs JobFacts.
From S2P Require Import ReconcileFacts Convergence Sample Deployment Slots Desired System Fleet.

Local Open Scope Z_scope.

(** Load balancers that differ in their names only. *)
Definition lb (n : string) : LoadBalancerConfigReconciler := {|
  ConfigRoot := "/"; PublicInterface := "eth0"; ClusterNetwork := the_prefix "172.18.200.0/24";
  WatchNamespace := "default"; Hostname := n; Keepalived := {| IsPrimary := true |} |}.

Lemma lb_hostname n : Hostname (lb n) = n.
Proof. done. Qed.

Definition the_req : NamespacedName := {| nn_Namespace := "default"; nn_Name := "test-lb" |}.

(** The sample host while the cluster serves [c]. *)
Definition serving (c : LoadBalancerConfig) : Host :=
  the_host no_fault all_run (Ok sample_routes) (λ _, c).

(** The same host, with status updates answered by [e]. *)
Definition with_updates (e : option error) (H : Host) : Host := {|
  routetable_Get := @routetable_Get H; InterfaceByName := @InterfaceByName H;
  Interface_Addrs := @Interface_Addrs H; os_fault := @os_fault H;
  os_short_write := @os_short_write H; umask := @umask H; exec_Run := @exec_Run H;
  client_Get_LoadBalancerConfig := @client_Get_LoadBalancerConfig H;
  client_Get_Secret := @client_Get_Secret H; client_Status_Update _ _ := e;
  IsNotFound := @IsNotFound H; Selector := @Selector H;
  LabelSelectorAsSelector := @LabelSelectorAsSelector H;
  client_List_Nodes := @client_List_Nodes H;
  client_List_LoadBalancerConfigs := @client_List_LoadBalancerConfigs H;
|}.

#[local] Instance quiet_updates e c : @NoFaults (with_updates e (serving c)).
Proof. done. Qed.
#[local] Instance stable_updates e c : @StableHost (with_updates e (serving c)).
Proof. by split. Qed.

(** The sample with another NAT address. *)
Definition moved_spec : LoadBalancerConfigSpec :=
  let sp := Spec sample_config in
  {| Cloud := Cloud sp; CloudCredentials_Name := CloudCredentials_Name sp;
     Distribution := Distribution sp;
     VirtualAddresses := {| vips_API := vips_API (VirtualAddresses sp);
       vips_Ingress := vips_Ingress (VirtualAddresses sp);
       vips_NAT := Some {| va_Type := "public"; va_Address := "198.51.100.254/32" |} |};
     APIBackend := APIBackend sp; IngressBackend := IngressBackend sp;
     FirewallRules := FirewallRules sp |}.

(** What is rendered for a spec. *)
Definition rendered_data (spec : LoadBalancerConfigSpec) (n f : string) : string :=
  let c := {| lbc_Meta := zeroMeta; Spec := spec; Status := Status zeroLBConfig |} in
  match list_find (λ j, j_file j = f) (jobs (HO := sample_host) (lb n) sample_secret None) with
  | Some (_, j) =>
      match fst (j_render j c (empty_world c)) with Done (Ok data) => data | _ => "" end
  | None => ""
  end.

Definition the_want : string → string → string := rendered_data (Spec sample_config).

Definition the_addresses : string * string * string := 
  ("198.51.100.7/24", "172.18.200.11/24", "172.18.200.2").

Lemma addresses_found e c : answers (init_values (HO := with_updates e (serving c)) (lb "lb-1")) (Done (Ok the_addresses)).
Proof. intros w. eexists. vm_compute. reflexivity. Qed.

Lemma everything_rendered e c c' spec : spec = Spec sample_config ∨ spec = moved_spec → Spec c' = spec →
  ∀ j, j ∈ jobs (HO := with_updates e (serving c)) (lb "lb-1") sample_secret None →
  answers (j_render j c') (Done (Ok (rendered_data spec "lb-1" (j_file j)))).
Proof.
  intros Hspec Hc j Hj.
  pose proof (jobs_spec (HO := with_updates e (serving c)) (lb "lb-1") sample_secret None) as Hjs.
  rewrite Forall_forall in Hjs.
  rewrite (job_Spec _ (Hjs j Hj) c' {| lbc_Meta := zeroMeta; Spec := spec; Status := Status zeroLBConfig |}) by done.
  clear Hc Hjs. revert j Hj. apply Forall_forall.
  destruct Hspec as [-> | ->]; repeat (apply Forall_cons; split); try apply Forall_nil; try done;
    intros []; eexists; vm_compute; reflexivity.
Qed.

(** ** A node that is reconciled over and over *)

Definition the_node : string := "lb-1".

(** The step its run makes. *)
Definition next (s : System) : System :=
  let w' := snd (Reconcile (HO := with_updates None (serving (store s))) (lb the_node) the_req
                   (disk s the_node)) in
  set_store (commit (match last (w_events w') with Some (EvStatusUpdate c) => c | _ => store s end)
    (store s)) (set_disk the_node w' s).

Definition fleet_start : System := {|
  store := sample_config; creds := sample_secret; disk _ := empty_world sample_config |}.

Definition fleet_run (i : nat) : System := Nat.iter i next fleet_start.

(** What the runs rely on and keep. *)
Definition settled (s : System) : Prop :=
  Spec (store s) = Spec sample_config ∧ creds s = sample_secret ∧ admits (lb the_node) (store s).

Lemma serving_serves e (c : LoadBalancerConfig) s : c = store s → creds s = sample_secret →
  serves the_req (with_updates e (serving c)) the_node s.
Proof. intros -> E. split; [done|]. by rewrite E. Qed.

Lemma sample_completes e (s : System) spec : spec = Spec sample_config ∨ spec = moved_spec →
  Spec (store s) = spec → creds s = sample_secret → admits (lb the_node) (store s) →
  ∃ w' sent, completes lb the_req (with_updates e (serving (store s))) map_iter_elements the_node s
    (Combine [None; e]) w' sent.
Proof.
  intros Hspec Es Ec Ha.
  destruct (run_completes lb the_req (with_updates e (serving (store s))) map_iter_elements
    the_node s the_addresses) as (t & w' & sent & H); [apply _|apply _| |done|apply addresses_found| |].
  - by apply serving_serves.
  - rewrite Ec. intros j Hj. eexists. by apply (everything_rendered e (store s) (store s) spec).
  - by exists w', sent.
Qed.

Lemma admits_entry r c ns : node_status (Hostname r) c = Some ns → admits r c.
Proof.
  intros E. unfold admits, ensure_nodes. destruct (Nodes (Status c)) eqn:En; [by rewrite E|].
  unfold node_status in E. by rewrite En in E.
Qed.

Lemma next_calm s : settled s → calm lb the_req the_want (λ _, the_addresses) the_node s (next s) ∧ settled (next s).
Proof.
  intros (Es & Ec & Ha).
  destruct (sample_completes None s (Spec sample_config)) as (w' & sent & H); [by left|done..|].
  assert (next s = set_store (commit sent (store s)) (set_disk the_node w' s)) as ->.
  { unfold next. destruct H as [_ Hrun Hsent]. rewrite Hrun. cbn [snd]. by rewrite Hsent. }
  split.
  - eapply (calm_run _ _ _ _ _ _ (with_updates None (serving (store s)))); [apply _|apply _|exact H|done| |].
    + apply addresses_found.
    + rewrite Ec. intros j Hj.
      by apply (everything_rendered None (store s) (store s) (Spec sample_config)); [left| |].
  - split; [exact Es|]. split; [exact Ec|].
    apply (completes_inv lb lb_hostname) in H as (u & err & w1 & _ & _ & _ & _ & _ & _ & _ & ns & fails & _ & Hn & _).
    by eapply admits_entry.
Qed.

Lemma fleet_settled i : settled (fleet_run i).
Proof.
  induction i as [|i IH]; [|by apply next_calm].
  split; [done|]. split; [done|]. by eexists.
Qed.

Lemma fleet_calm i : calm lb the_req the_want (λ _, the_addresses) the_node (fleet_run i) (fleet_run (S i)).
Proof. apply next_calm, fleet_settled. Qed.

Lemma fleet_comes_to_rest_witness :
  ∃ R, ∀ i, (R ≤ i)%nat →
    configured lb the_want the_node (fleet_run i) ∧ ready the_node (fleet_run i)
    ∧ at_rest the_node (fleet_run R) (fleet_run i)
    ∧ node_status the_node (store (fleet_run i)) = node_status the_node (store (fleet_run R)).
Proof.
  apply (fleet_comes_to_rest lb lb_hostname the_req the_want (λ _, the_addresses) the_node
    fleet_start fleet_run 0).
  - reflexivity.
  - apply rtc_refl.
  - intros i _. exists the_node. apply fleet_calm.
  - intros i. exists i. split; [lia|apply fleet_calm].
Defined.

Lemma fleet_run_completes_witness :
  ∃ t w' sent, completes lb the_req (with_updates None (serving sample_config)) map_iter_elements
    the_node fleet_start
    (Combine [None; client_Status_Update (Host := with_updates None (serving sample_config)) t sent])
    w' sent.
Proof.
  apply (fleet_run_completes lb the_req (with_updates None (serving sample_config))
    map_iter_elements the_node fleet_start the_addresses); [apply _|apply _| | | |].
  - by apply serving_serves.
  - by eexists.
  - apply addresses_found.
  - intros j Hj. eexists.
    by apply (everything_rendered None sample_config sample_config (Spec sample_config)); [left| |].
Defined.

(** An edit of the spec, and the removal of all files. *)
Definition edited (s : System) : System := set_store (edit_spec moved_spec 4 (store s)) s.
Definition wiped (s : System) : System := set_disk the_node (set_files ∅ (disk s the_node)) s.

Lemma edit_wipe_history s : rtc (clean_step lb the_req) s (wiped (edited s)).
Proof.
  eapply rtc_l; [|eapply rtc_once].
  - exists (LEdit moved_spec 4). split; [done|]. apply (step_edit lb the_req moved_spec 4).
  - exists (LDamage the_node). split; [done|]. apply (step_damage lb the_req the_node ∅ (edited s)).
    intros f content _ [[md H] _]. done.
Qed.

Lemma fleet_history : rtc (clean_step lb the_req) fleet_start (wiped (edited (fleet_run 1))).
Proof.
  eapply rtc_l; [|apply edit_wipe_history].
  destruct (calm_step _ _ _ _ _ _ _ (fleet_calm 0)) as (HO & MI & H).
  exists (LRun the_node HO MI). split; [exact I|exact H].
Qed.

Lemma admits_status r c c' : Status c = Status c' → admits r c → admits r c'.
Proof.
  unfold admits, ensure_nodes, node_status. intros E. rewrite E.
  destruct (Nodes (Status c')) eqn:En; simpl; by rewrite ?E, ?En.
Qed.

Lemma wiped_completes s : settled s → ∃ w' sent,
  completes lb the_req (with_updates None (serving (store (wiped (edited s))))) map_iter_elements
    the_node (wiped (edited s)) None w' sent.
Proof.
  intros (_ & Ec & Ha).
  destruct (sample_completes None (wiped (edited s)) moved_spec) as (w' & sent & H);
    [by right|done|done|by apply (admits_status _ (store s))|]. by exists w', sent.
Qed.

Lemma fleet_files_hold_renderings_witness : ∃ s w' sent, s = wiped (edited (fleet_run 1))
  ∧ completes lb the_req (with_updates None (serving (store s))) map_iter_elements the_node s None w' sent
  ∧ ∀ j, j ∈ jobs (HO := with_updates None (serving (store s))) (lb the_node) (creds s) None →
  ∃ data data' meta md,
    answers (j_render j (store s)) (Done (Ok data))
    ∧ sha256_hex data' = sha256_hex data
    ∧ w_files w' !! configfilePath (lb the_node) (j_file j)
      = Some {| f_content := final_content (lb the_node) (j_file j) meta data'; f_mode := md |}.
Proof.
  destruct (wiped_completes _ (fleet_settled 1)) as (w' & sent & H).
  exists (wiped (edited (fleet_run 1))), w', sent. split; [reflexivity|]. split; [exact H|].
  apply (fleet_files_hold_renderings lb lb_hostname the_req _ map_iter_elements the_node fleet_start _
    w' sent); [reflexivity|exact fleet_history|apply _|apply _|exact H|].
  intros t c. reflexivity.
Defined.

(** ** A lost change *)

(** The job of the NAT rules. *)
Lemma direct_job (HO : Host) sec : ∃ j, j ∈ jobs (MI := map_iter_elements) (lb the_node) sec None
  ∧ j_file j = FirewalldDirectFile.
Proof. apply job_of. by vm_compute; repeat constructor. Qed.

Lemma moved_differs : sha256_hex (rendered_data moved_spec the_node FirewalldDirectFile)
  ≠ sha256_hex (the_want the_node FirewalldDirectFile).
Proof. intros E. vm_compute in E. discriminate. Qed.

Lemma rejected_completes s : settled s → ∃ w' sent,
  completes lb the_req (with_updates (Some (Errorf "conflict")) (serving (store (edited s))))
    map_iter_elements the_node (edited s) (Combine [None; Some (Errorf "conflict")]) w' sent.
Proof.
  intros (_ & Ec & Ha). apply (sample_completes _ (edited s) moved_spec);
    [by right|done|done|by apply (admits_status _ (store s))].
Qed.

(** After the rejected run the spec is edited back and the node is reconciled. *)
Definition reverted (w' : World) (s : System) : System :=
  set_store (edit_spec (Spec sample_config) 5 (store s)) (set_disk the_node w' s).

Lemma reverted_settled w' s : settled s → settled (reverted w' (edited s)).
Proof. intros (_ & Ec & Ha). split; [done|]. split; [done|]. by apply (admits_status _ (store s)). Qed.

Lemma rejected_update_leaves_stale_file_witness :
  ∃ s w' meta, s = edited (fleet_run 1)
  ∧ step lb the_req (LReject the_node (with_updates (Some (Errorf "conflict")) (serving (store s)))
      map_iter_elements) s (set_disk the_node w' s)
  ∧ consistent (lb the_node) FirewalldDirectFile
      (final_content (lb the_node) FirewalldDirectFile meta
         (rendered_data moved_spec the_node FirewalldDirectFile))
      (w_files (disk (next (reverted w' s)) the_node)).
Proof.
  assert (∃ s, s = fleet_run 1 ∧ settled s ∧ up_to_date lb the_want the_node s) as (s & Es & Hset & Hs).
  { exists (fleet_run 1). split; [reflexivity|]. split; [apply fleet_settled|].
    exact (calm_syncs _ lb_hostname _ _ _ _ _ _ (fleet_calm 0)). }
  destruct (rejected_completes s Hset) as (w' & sent & H).
  exists (edited s), w', (lbc_Meta (store (edited s))). split; [exact (f_equal edited Es)|].
  destruct (direct_job (with_updates (Some (Errorf "conflict")) (serving (store (edited s))))
    (creds (edited s))) as (j & Hj & Ej). rewrite <-Ej.
  eapply (rejected_update_leaves_stale_file lb lb_hostname the_req the_want (λ _, the_addresses) _ map_iter_elements the_node
    (edited s) (next (reverted w' (edited s))) _ w' sent j _ _ (Spec sample_config) 5 _ _ H).
  - intros t c. by eexists.
  - apply addresses_found.
  - exact Hj.
  - apply (everything_rendered _ _ (store (edited s)) moved_spec); [by right|done|].
    destruct Hset as (_ & Ec & _). change (creds (edited s)) with (creds s) in Hj. by rewrite Ec in Hj.
  - change (recorded (lb the_node) (j_file j) (store s) = Some (sha256_hex (the_want the_node (j_file j)))).
    refine (proj1 (Hs (j_file j) _)). rewrite Ej. by vm_compute; repeat constructor.
  - rewrite Ej. exact moved_differs.
  - apply rtc_once. exists the_node.
    by apply (next_calm (reverted w' (edited s))), reverted_settled.
Defined.

(** ** The abstract fleet *)




Lemma ReconcileLBConfig_refines_deploy_witness :
  ∃ os, Forall2 (job_output (w_lbc w_start)) (jobs (HO := sample_host) (lb1 "/") sample_secret None) os
  ∧ (w_deployment (lb1 "/") w_done, all_services) = deploy os (w_deployment (lb1 "/") w_start)
  ∧ (@None error = None ↔ Forall (λ o, ¬ output_failed o) os).
Proof.
  apply (ReconcileLBConfig_refines_deploy (HO := sample_host) (lb1 "/") sample_secret None
    w_start w_init w_done all_services None).
  - exact w_init_run.
  - exact w_done_run.
Defined.

(** ** The specification at the sample *)

Definition sample_site : Site := {|
  s_ips := match internalIPs (lb the_node) with Ok ips => ips
           | Err _ => {| ii_ClusterNetwork := zeroPrefix; DefaultGateway := zeroAddr;
                         Primary := zeroAddr; Secondary := zeroAddr |} end;
  s_iface := "eth1";
  s_public_mac := [2; 0; 0; 0; 0; 16];
  s_cluster_mac := [2; 0; 0; 0; 0; 17];
  s_api_nodes := [sample_node "node-1" "172.18.200.61"; sample_node "node-2" "172.18.200.62"];
  s_ingress_nodes := [sample_node "node-1" "172.18.200.61"; sample_node "node-2" "172.18.200.62"];
|}.

Lemma sample_on_site e c : on_site (HO := with_updates e (serving c)) (lb the_node) sample_config sample_site.
Proof.
  split.
  - vm_compute. reflexivity.
  - intros []. eexists. vm_compute. reflexivity.
  - intros t. eexists. split; reflexivity.
  - intros t. eexists. split; reflexivity.
  - eexists. split; [reflexivity|]. reflexivity.
  - intros b _. eexists. split; [reflexivity|]. reflexivity.
Qed.

Lemma sample_deployable : deployable sample_config sample_secret.
Proof.
  split.
  - vm_compute. reflexivity.
  - apply Forall_forall. apply (bool_decide_unpack _). vm_compute. exact I.
  - by eexists.
  - by eexists.
  - split; [intros _; by eexists|discriminate].
Qed.

Lemma renderings_as_specified_witness :
  (j_file <$> jobs (HO := sample_host) (lb the_node) sample_secret None) = managed_files
  ∧ ∀ j, j ∈ jobs (HO := with_updates None (serving sample_config)) (lb the_node) sample_secret None →
      answers (j_render j sample_config)
        (Done (Ok (desired (lb the_node) sample_config sample_secret sample_site (j_file j)))).
Proof.
  apply (renderings_as_specified (HO := with_updates None (serving sample_config)) (lb the_node)
    sample_config sample_secret sample_site).
  - apply sample_on_site.
  - exact sample_deployable.
Defined.

Lemma first_run_installs_witness :
  ∃ w' order c' ns,
  Reconcile (HO := with_updates None (serving sample_config)) (lb the_node) the_req w_start = (Done None, w')
  ∧ order ≡ₚ services
  ∧ w_events w' = [] ++ reload_events (lb the_node) order ++ [EvStatusUpdate c']
  ∧ (∀ f, f ∈ managed_files →
       consistent (lb the_node) f (final_content (lb the_node) f (lbc_Meta sample_config)
         (desired (lb the_node) sample_config sample_secret sample_site f)) (w_files w')
       ∧ recorded (lb the_node) f c'
         = Some (sha256_hex (desired (lb the_node) sample_config sample_secret sample_site f)))
  ∧ node_status the_node c' = Some ns
  ∧ ((∀ t argv, @exec_Run (with_updates None (serving sample_config)) t argv = None) →
      ns_Status ns = NodeStatusReady).
Proof.
  apply (first_run_installs (HO := with_updates None (serving sample_config)) (lb the_node) the_req
    sample_config sample_secret sample_site the_addresses w_start).
  - reflexivity.
  - reflexivity.
  - reflexivity.
  - apply sample_on_site.
  - exact sample_deployable.
  - apply addresses_found.
  - by eexists.
  - reflexivity.
Defined.

Lemma Reconcile_sends_valid_witness :
  ∃ w' c' ns, last (w_events w') = Some (EvStatusUpdate c')
  ∧ valid_Nodes c'
  ∧ node_status the_node c' = Some ns
  ∧ (ns_Status ns = NodeStatusReady ∨ ns_Status ns = NodeStatusFailed)
  ∧ (∀ host, host ≠ the_node → node_status host c' = node_status host sample_config)
  ∧ Spec c' = Spec sample_config ∧ lbc_Meta c' = lbc_Meta sample_config.
Proof.
  destruct (sample_completes None fleet_start (Spec sample_config)) as (w' & sent & H);
    [by left|reflexivity|reflexivity|by eexists|].
  exists w'.
  apply (Reconcile_sends_valid (HO := with_updates None (serving sample_config)) (lb the_node) the_req
    sample_config sample_secret w_start w' (Combine [None; None])).
  - reflexivity.
  - reflexivity.
  - exact (comp_run _ _ _ _ _ _ _ _ _ H).
  - intros host ns [=].
Defined.
