(* ===== verification/GoHeap.v ===== *)
(** * Go memory: pointers, slices and maps that can be shared

    The rest of the development treats structures as values.  Where sharing is
    the point, as in the generated deep copies, structures live in a heap of
    cells: a pointer is a location, a slice a window on an array, a map a
    reference.  The specification of a copy is that it only allocates, and that
    the copy lives in the new part of the heap alone. *)

From S2P Require Import Prelude.

Definition loc : Type := positive.

(** A slice: the array, where the window starts, and its length. *)
Record slice : Type := { sl_array : loc; sl_off : nat; sl_len : nat }.

(** A nil pointer, slice or map is [None]. *)
Definition gptr : Type := option loc.
Definition gslice : Type := option slice.
Definition gmapref : Type := option loc.

(** Values of type [T] can be the contents of a cell. *)
Class Cell (C T : Type) : Type := {
  inj : T → C;
  prj : C → option T;
  prj_inj x : prj (inj x) = Some x;
}.
#[global] Hint Mode Cell + + : typeclass_instances.

(** The order in which a map is ranged over: any. *)
Class RangeOrder : Type := {
  range : ∀ {A : Type}, gmap string A → list (string * A);
  range_perm : ∀ {A : Type} (m : gmap string A), range m ≡ₚ map_to_list m;
}.

Section heap.
Context {C : Type}.

#[local] Abbreviation Heap := (gmap loc C).

(** ** Operations *)

Definition load `{Cell C T} (l : loc) : ST Heap T := λ h,
  match h !! l ≫= prj with
  | Some x => (Done x, h)
  | None => (Panic "invalid memory address", h)
  end.

Definition write `{Cell C T} (l : loc) (x : T) : ST Heap unit := modify (λ h, <[l := inj x]> h).

(** [new(T)] and [make]: a cell of its own. *)
Definition new `{Cell C T} (x : T) : ST Heap loc := λ h,
  let l := fresh (dom h) in (Done l, <[l := inj x]> h).

(** [s[i]] and [s[i] = x] *)
Definition index `{Cell C (list T)} (s : slice) (i : nat) : ST Heap T :=
  arr ← load (T := list T) s.(sl_array);
  match decide (i < s.(sl_len)), arr !! (s.(sl_off) + i)%nat with
  | left _, Some x => mret x
  | _, _ => panic "index out of range"
  end.

Definition set_index `{Cell C (list T)} (s : slice) (i : nat) (x : T) : ST Heap unit :=
  arr ← load (T := list T) s.(sl_array);
  write s.(sl_array) (<[(s.(sl_off) + i)%nat := x]> arr).

(** [make([]T, n)] *)
Definition make_slice `{Cell C (list T)} (zero : T) (n : nat) : ST Heap slice :=
  l ← new (replicate n zero); mret {| sl_array := l; sl_off := 0; sl_len := n |}.

(** The elements of a slice. *)
Definition window {T : Type} (s : slice) (arr : list T) : list T := take s.(sl_len) (drop s.(sl_off) arr).

(** [copy(out, in)] of slices of one length *)
Definition copy_elements `{Cell C (list T)} (out s : slice) : ST Heap unit :=
  arr ← load (T := list T) s.(sl_array);
  old ← load (T := list T) out.(sl_array);
  write out.(sl_array) (take out.(sl_off) old ++ window s arr
    ++ drop (out.(sl_off) + s.(sl_len)) old).

(** ** The shapes of generated copies *)

(** A new [T] that the target of [in] is copied into, unless [in] is nil. *)
Definition copy_pointer `{Cell C T} (zero : T) (copyInto : T → ST Heap T) (p : gptr) : ST Heap gptr :=
  match p with
  | None => mret None
  | Some l =>
      out ← new zero;
      x ← load l;
      x' ← copyInto x;
      write out x';;
      mret (Some out)
  end.

(** A new array, and [copy], unless [in] is nil. *)
Definition copy_flat_slice `{Cell C (list T)} (zero : T) (s : gslice) : ST Heap gslice :=
  match s with
  | None => mret None
  | Some s => out ← make_slice zero (sl_len s); copy_elements (T := T) out s;; mret (Some out)
  end.

(** The loop over the indices that copies each element into the new array: [n]
    steps from [i] on. *)
Fixpoint copy_each `{Cell C (list T)} (copyInto : T → ST Heap T) (s out : slice) (n i : nat)
    : ST Heap unit :=
  match n with
  | O => mret tt
  | S n =>
      x ← index s i;
      x' ← copyInto x;
      set_index out i x';;
      copy_each copyInto s out n (S i)
  end.

Definition copy_deep_slice `{Cell C (list T)} (zero : T) (copyInto : T → ST Heap T) (s : gslice)
    : ST Heap gslice :=
  match s with
  | None => mret None
  | Some s =>
      out ← make_slice zero (sl_len s);
      copy_each copyInto s out (sl_len s) 0;;
      mret (Some out)
  end.

(** The loop that sets each key of the new map. *)
Fixpoint fill_map `{Cell C (gmap string T)} (f : T → ST Heap T) (out : loc) (kvs : list (string * T))
    : ST Heap unit :=
  match kvs with
  | [] => mret tt
  | (key, val) :: kvs =>
      outVal ← f val;
      m ← load (T := gmap string T) out;
      write out (<[key := outVal]> m);;
      fill_map f out kvs
  end.

(** A new map, and the loop, unless [in] is nil. *)
Definition copy_map `{Cell C (gmap string T), RangeOrder} (f : T → ST Heap T) (m : gmapref)
    : ST Heap gmapref :=
  match m with
  | None => mret None
  | Some l =>
      out ← new (∅ : gmap string T);
      m ← load (T := gmap string T) l;
      fill_map f out (range m);;
      mret (Some out)
  end.

(** ** What a structure in memory stands for *)

(** [P h x a]: in [h], [x] stands for the value [a]; more memory does no harm. *)
Class Mono {T A : Type} (P : Heap → T → A → Prop) : Prop :=
  mono h h' x a : h ⊆ h' → P h x a → P h' x a.

Definition rep_flat {T : Type} (h : Heap) (x y : T) : Prop := x = y.

Definition rep_pointer `{Cell C T} {A : Type} (P : Heap → T → A → Prop) (h : Heap) (p : gptr)
    (v : option A) : Prop :=
  match p, v with
  | None, None => True
  | Some l, Some a => ∃ x, h !! l = Some (inj x) ∧ P h x a
  | _, _ => False
  end.

Definition rep_slice `{Cell C (list T)} {A : Type} (P : Heap → T → A → Prop) (h : Heap) (s : gslice)
    (v : option (list A)) : Prop :=
  match s, v with
  | None, None => True
  | Some s, Some xs => ∃ arr : list T, h !! sl_array s = Some (inj arr)
      ∧ (sl_off s + sl_len s ≤ length arr)%nat ∧ Forall2 (P h) (window s arr) xs
  | _, _ => False
  end.

Definition rep_map `{Cell C (gmap string T)} {A : Type} (P : Heap → T → A → Prop) (h : Heap)
    (m : gmapref) (v : option (gmap string A)) : Prop :=
  match m, v with
  | None, None => True
  | Some l, Some xs => ∃ m : gmap string T, h !! l = Some (inj m)
      ∧ ∀ k, option_Forall2 (P h) (m !! k) (xs !! k)
  | _, _ => False
  end.

#[export] Instance rep_flat_mono {T : Type} : Mono (@rep_flat T).
Proof. by intros h h' x a _. Qed.

#[export] Instance rep_pointer_mono `{Cell C T} {A : Type} (P : Heap → T → A → Prop) :
  Mono P → Mono (rep_pointer P).
Proof.
  intros HP h h' [l|] [a|] Hh; simpl; [|done..]. intros (x & Hl & Hx). exists x.
  split; [by eapply lookup_weaken|by eapply mono].
Qed.

#[export] Instance rep_slice_mono `{Cell C (list T)} {A : Type} (P : Heap → T → A → Prop) :
  Mono P → Mono (rep_slice P).
Proof.
  intros HP h h' [s|] [xs|] Hh; simpl; [|done..]. intros (arr & Hl & Hn & Hx). exists arr.
  split; [by eapply lookup_weaken|]. split; [done|]. eapply Forall2_impl; [exact Hx|].
  intros. by eapply mono.
Qed.

#[export] Instance rep_map_mono `{Cell C (gmap string T)} {A : Type} (P : Heap → T → A → Prop) :
  Mono P → Mono (rep_map P).
Proof.
  intros HP h h' [l|] [xs|] Hh; simpl; [|done..]. intros (m & Hl & Hx). exists m.
  split; [by eapply lookup_weaken|]. intros k. specialize (Hx k).
  inversion Hx; constructor. by eapply mono.
Qed.

(** ** Computations that only allocate *)

(** From [h], [m] returns some [a] and adds some cells [hc] to the heap, and
    they satisfy [Q]. *)
Definition grows {A : Type} (m : ST Heap A) (h : Heap) (Q : A → Heap → Prop) : Prop :=
  ∃ a hc, m h = (Done a, h ∪ hc) ∧ h ##ₘ hc ∧ Q a hc.

Lemma grows_ret {A : Type} (a : A) h (Q : A → Heap → Prop) : Q a ∅ → grows (mret a) h Q.
Proof.
  intros HQ. exists a, ∅. split; [by rewrite map_union_empty|].
  split; [apply map_disjoint_empty_r|done].
Qed.

Lemma grows_bind {A B : Type} (m : ST Heap A) (f : A → ST Heap B) h (Q : B → Heap → Prop) :
  grows m h (λ a hc, grows (f a) (h ∪ hc) (λ b hc', hc ##ₘ hc' → Q b (hc ∪ hc'))) →
  grows (m ≫= f) h Q.
Proof.
  intros (a & hc & E & Hd & b & hc' & E' & Hd' & HQ).
  apply map_disjoint_union_l in Hd' as [Hd1 Hd2].
  exists b, (hc ∪ hc'). unfold mbind, ST_bind. rewrite E, E', (assoc (∪)).
  split; [done|]. split; [by apply map_disjoint_union_r_2|]. by apply HQ.
Qed.

Lemma grows_impl {A : Type} (m : ST Heap A) h (Q Q' : A → Heap → Prop) :
  grows m h Q → (∀ a hc, h ##ₘ hc → Q a hc → Q' a hc) → grows m h Q'.
Proof. intros (a & hc & E & Hd & HQ) H. exists a, hc. auto. Qed.

(** [c] copies what [P] says: the copy stands for the same value, in the new
    part of the heap. *)
Definition copies {T A : Type} (P : Heap → T → A → Prop) (c : T → ST Heap T) : Prop :=
  ∀ h x a, P h x a → grows (c x) h (λ x' hc, P hc x' a).

Lemma copies_flat {T : Type} : copies (@rep_flat T) mret.
Proof. intros h x a Hx. by apply grows_ret. Qed.

(** ** The copies are copies *)

Lemma load_run `{Cell C T} (l : loc) (x : T) h : h !! l = Some (inj x) → load l h = (Done x, h).
Proof. intros E. unfold load. rewrite E. simpl. by rewrite prj_inj. Qed.

(** A heap in which the cell [l] is being filled, next to what was there before
    and what was allocated since. *)
Definition filling `{Cell C T} (h : Heap) (l : loc) (x : T) (hc : Heap) : Heap :=
  <[l := inj x]> (h ∪ hc).

Record apart (h : Heap) (l : loc) (hc : Heap) : Prop := {
  apart_l : h !! l = None;
  apart_new : hc !! l = None;
  apart_disj : h ##ₘ hc;
}.

Lemma new_run `{Cell C T} (x : T) h : ∃ l, new x h = (Done l, filling h l x ∅) ∧ apart h l ∅.
Proof.
  exists (fresh (dom h)). unfold new, filling. rewrite map_union_empty. split; [done|].
  split; [|done|apply map_disjoint_empty_r]. apply not_elem_of_dom, is_fresh.
Qed.

Lemma filling_load `{Cell C T} h l (x : T) hc : load l (filling h l x hc) = (Done x, filling h l x hc).
Proof. apply load_run. unfold filling. by rewrite lookup_insert_eq. Qed.

Lemma filling_write `{Cell C T} h l (x y : T) hc :
  write l y (filling h l x hc) = (Done tt, filling h l y hc).
Proof. unfold write, modify, filling. by rewrite insert_insert_eq. Qed.

Lemma filling_old `{Cell C T} h l (x : T) hc : apart h l hc → h ⊆ filling h l x hc.
Proof.
  intros [Hl Hn Hd]. unfold filling. etrans; [apply map_union_subseteq_l|].
  apply insert_subseteq. by rewrite lookup_union, Hl, Hn.
Qed.

(** What is allocated meanwhile comes next to the rest. *)
Lemma filling_more `{Cell C T} h l (x : T) hc hc' : apart h l hc → filling h l x hc ##ₘ hc' →
  filling h l x hc ∪ hc' = filling h l x (hc ∪ hc') ∧ apart h l (hc ∪ hc') ∧ hc ##ₘ hc'.
Proof.
  unfold filling. intros [Hl Hn Hd] [Hl' [H1 H2]%map_disjoint_union_l]%map_disjoint_insert_l.
  rewrite <-insert_union_l, (assoc (∪)). split; [done|]. split; [|done].
  split; [done| |by apply map_disjoint_union_r_2]. by rewrite lookup_union, Hn, Hl'.
Qed.

(** The end: everything new is [{[l := inj x]} ∪ hc]. *)
Lemma filling_grows `{Cell C T} {A : Type} h l (x : T) hc (a : A) (m : ST Heap A)
  (Q : A → Heap → Prop) :
  m h = (Done a, filling h l x hc) → apart h l hc → Q a (<[l := inj x]> hc) → grows m h Q.
Proof.
  intros E [Hl Hn Hd] HQ. exists a, (<[l := inj x]> hc). rewrite E. unfold filling.
  split; [by rewrite insert_union_r|]. split; [|done]. by apply map_disjoint_insert_r_2.
Qed.

Lemma copies_pointer `{Cell C T} {A : Type} (P : Heap → T → A → Prop) (zero : T) c :
  Mono P → copies P c → copies (rep_pointer P) (copy_pointer zero c).
Proof.
  intros HP Hc h [l|] [a|] Hr; try done; [|by apply grows_ret].
  destruct Hr as (x & Hl & Hx). destruct (new_run zero h) as (o & E & Ha).
  pose proof (filling_old h o zero ∅ Ha) as Hsub.
  destruct (Hc (filling h o zero ∅) x a) as (x' & hc & E2 & Hd & Hx'); [by eapply mono|].
  destruct (filling_more _ _ _ _ _ Ha Hd) as (E3 & Ha' & _). rewrite map_empty_union in *.
  apply (filling_grows h o x' hc (Some o)); [|done|].
  - unfold copy_pointer, mbind, ST_bind. rewrite E.
    rewrite (load_run l x) by (by eapply lookup_weaken). by rewrite E2, E3, filling_write.
  - exists x'. split; [by rewrite lookup_insert_eq|]. eapply mono; [|exact Hx'].
    apply insert_subseteq, Ha'.
Qed.

Lemma window_length {T : Type} (s : slice) (arr : list T) :
  (sl_off s + sl_len s ≤ length arr)%nat → length (window s arr) = sl_len s.
Proof. intros H. unfold window. rewrite length_take, length_drop. lia. Qed.

Lemma window_lookup {T : Type} (s : slice) (arr : list T) i : (i < sl_len s)%nat →
  window s arr !! i = arr !! (sl_off s + i)%nat.
Proof. intros H. unfold window. rewrite lookup_take_lt by done. by rewrite lookup_drop. Qed.

Lemma window_all {T : Type} o n (xs : list T) : length xs = n →
  window {| sl_array := o; sl_off := 0; sl_len := n |} xs = xs.
Proof. intros <-. unfold window. simpl. by rewrite drop_0, firstn_all. Qed.

(** A finished slice. *)
Lemma rep_slice_new `{Cell C (list T)} {A : Type} (P : Heap → T → A → Prop) o (n : nat) cur hc xs :
  Mono P → hc !! o = None → length cur = n → Forall2 (P hc) cur xs →
  rep_slice P (<[o := inj cur]> hc) (Some {| sl_array := o; sl_off := 0; sl_len := n |}) (Some xs).
Proof.
  intros HP Ho Hn HF. exists cur. split; [by rewrite lookup_insert_eq|]. split; [simpl; lia|].
  rewrite window_all by done. eapply Forall2_impl; [exact HF|]. intros. eapply mono; [|done].
  by apply insert_subseteq.
Qed.

Lemma make_slice_run `{Cell C (list T)} (zero : T) n h : ∃ o,
  make_slice zero n h = (Done {| sl_array := o; sl_off := 0; sl_len := n |}, filling h o (replicate n zero) ∅)
  ∧ apart h o ∅.
Proof.
  destruct (new_run (replicate n zero) h) as (o & E & Ha). exists o. split; [|done].
  unfold make_slice, mbind, ST_bind. by rewrite E.
Qed.

Lemma copies_flat_slice `{Cell C (list T)} (zero : T) :
  copies (rep_slice (@rep_flat T)) (copy_flat_slice zero).
Proof.
  intros h [s|] [xs|] Hr; try done; [|by apply grows_ret].
  destruct Hr as (arr & Hl & Hn & HF). destruct (make_slice_run zero (sl_len s) h) as (o & E & Ha).
  pose proof (filling_old h o (replicate (sl_len s) zero) ∅ Ha) as Hsub.
  apply (filling_grows h o (window s arr) ∅ (Some {| sl_array := o; sl_off := 0; sl_len := sl_len s |}));
    [|done|].
  - unfold copy_flat_slice, mbind, ST_bind. rewrite E. unfold copy_elements, mbind, ST_bind.
    rewrite (load_run (sl_array s) arr) by (by eapply lookup_weaken). cbn [sl_array sl_off].
    rewrite filling_load. rewrite filling_write. do 2 f_equal.
    rewrite take_0, drop_ge by (rewrite length_replicate; simpl; lia). by rewrite app_nil_r.
  - apply rep_slice_new; [apply _|apply lookup_empty|by apply window_length|done].
Qed.

Lemma index_run `{Cell C (list T)} s (arr : list T) i x h : h !! sl_array s = Some (inj arr) →
  (i < sl_len s)%nat → arr !! (sl_off s + i)%nat = Some x → index s i h = (Done x, h).
Proof.
  intros Hl Hi Hx. unfold index, mbind, ST_bind. rewrite (load_run _ _ _ Hl).
  rewrite Hx. by destruct (decide _).
Qed.

Lemma copy_each_run `{Cell C (list T)} {A : Type} (P : Heap → T → A → Prop) c s arr xs h o :
  Mono P → copies P c → h !! sl_array s = Some (inj arr) →
  (sl_off s + sl_len s ≤ length arr)%nat → Forall2 (P h) (window s arr) xs →
  ∀ n i (cur : list T) hc, (i + n = sl_len s)%nat → apart h o hc → length cur = sl_len s →
  Forall2 (P hc) (take i cur) (take i xs) →
  ∃ cur' hc',
    copy_each c s {| sl_array := o; sl_off := 0; sl_len := sl_len s |} n i (filling h o cur hc)
      = (Done tt, filling h o cur' hc')
    ∧ apart h o hc' ∧ length cur' = sl_len s ∧ Forall2 (P hc') (take (i + n) cur') (take (i + n) xs).
Proof.
  intros HP Hc Hl Hb HF. induction n as [|n IH]; intros i cur hc Hi Ha Hlen Hdone.
  { exists cur, hc. rewrite Nat.add_0_r. done. }
  pose proof (filling_old h o cur hc Ha) as Hsub.
  destruct (lookup_lt_is_Some_2 arr (sl_off s + i)) as [x Hx]; [lia|].
  assert (window s arr !! i = Some x) as Hw by (rewrite window_lookup by lia; done).
  destruct (Forall2_lookup_l _ _ _ _ _ HF Hw) as (a & Hxa & Hp).
  destruct (Hc (filling h o cur hc) x a) as (x' & hc2 & E2 & Hd & Hx'); [by eapply mono|].
  destruct (filling_more _ _ _ _ _ Ha Hd) as (E3 & Ha' & Hd').
  destruct (IH (S i) (<[i := x']> cur) (hc ∪ hc2)) as (cur' & hc' & E4 & Ha'' & Hlen' & HF');
    [lia|done|by rewrite length_insert| |].
  - rewrite (take_S_r _ _ x') by (rewrite list_lookup_insert_eq by lia; done).
    rewrite (take_S_r _ _ a) by done. rewrite take_insert_ge by lia. apply Forall2_app.
    + eapply Forall2_impl; [exact Hdone|]. intros. eapply mono; [|done]. apply map_union_subseteq_l.
    + repeat constructor. eapply mono; [|done]. by apply map_union_subseteq_r.
  - exists cur', hc'. split; [|by rewrite <-Nat.add_succ_comm].
    simpl. unfold mbind, ST_bind.
    rewrite (index_run s arr i x) by (done || lia || by eapply lookup_weaken).
    rewrite E2, E3. unfold set_index, mbind, ST_bind. cbn [sl_array sl_off].
    by rewrite filling_load, filling_write, Nat.add_0_l, E4.
Qed.

Lemma copies_deep_slice `{Cell C (list T)} {A : Type} (P : Heap → T → A → Prop) (zero : T) c :
  Mono P → copies P c → copies (rep_slice P) (copy_deep_slice zero c).
Proof.
  intros HP Hc h [s|] [xs|] Hr; try done; [|by apply grows_ret].
  destruct Hr as (arr & Hl & Hn & HF). destruct (make_slice_run zero (sl_len s) h) as (o & E & Ha).
  destruct (copy_each_run P c s arr xs h o HP Hc Hl Hn HF (sl_len s) 0 (replicate (sl_len s) zero) ∅)
    as (cur' & hc' & E2 & Ha' & Hlen & HF'); [done|done|by rewrite length_replicate|constructor|].
  simpl in HF'. pose proof (Forall2_length _ _ _ HF) as Hlx. rewrite window_length in Hlx by done.
  rewrite (take_ge cur'), (take_ge xs) in HF' by lia.
  apply (filling_grows h o cur' hc' (Some {| sl_array := o; sl_off := 0; sl_len := sl_len s |})); [|done|].
  - unfold copy_deep_slice, mbind, ST_bind. by rewrite E, E2.
  - apply rep_slice_new; [done|by apply Ha'|done|done].
Qed.

Lemma fill_map_run `{Cell C (gmap string T)} {A : Type} (P : Heap → T → A → Prop) c
  (xs : gmap string A) h o : Mono P → copies P c →
  ∀ kvs (cur : gmap string T) hc, apart h o hc →
  (∀ k v, (k, v) ∈ kvs → ∃ a, xs !! k = Some a ∧ P h v a) →
  ∃ (cur' : gmap string T) hc', fill_map c o kvs (filling h o cur hc) = (Done tt, filling h o cur' hc')
    ∧ apart h o hc' ∧ hc ⊆ hc'
    ∧ ∀ k, (k ∈ (fst <$> kvs) ∧ option_Forall2 (P hc') (cur' !! k) (xs !! k))
           ∨ ((k ∉ (fst <$> kvs)) ∧ (cur' !! k = cur !! k)).
Proof.
  intros HP Hc. induction kvs as [|[key val] kvs IH]; intros cur hc Ha Hk.
  { exists cur, hc. split_and!; [done..|]. intros k. right. split; [apply not_elem_of_nil|done]. }
  destruct (Hk key val) as (a & Hxa & Hp); [by left|].
  pose proof (filling_old h o cur hc Ha) as Hsub.
  destruct (Hc (filling h o cur hc) val a) as (v' & hc2 & E2 & Hd & Hv'); [by eapply mono|].
  destruct (filling_more _ _ _ _ _ Ha Hd) as (E3 & Ha' & Hd').
  destruct (IH (<[key := v']> cur) (hc ∪ hc2)) as (cur' & hc' & E4 & Ha'' & Hsub' & Hall);
    [done|intros; apply Hk; by right|].
  exists cur', hc'. split_and!; [|done|etrans; [apply map_union_subseteq_l|done]|].
  - simpl. unfold mbind, ST_bind. by rewrite E2, E3, filling_load, filling_write, E4.
  - intros k. rewrite fmap_cons. simpl. destruct (Hall k) as [[Hin HF]|[Hnin Heq]].
    + left. split; [by right|done].
    + destruct (decide (k = key)) as [->|Hne].
      * left. split; [by left|]. rewrite Heq, lookup_insert_eq, Hxa. constructor.
        eapply mono; [exact Hsub'|]. eapply mono; [|exact Hv']. by apply map_union_subseteq_r.
      * right. rewrite Heq, lookup_insert_ne by done. split; [|done].
        apply not_elem_of_cons. done.
Qed.

Lemma copies_map `{Cell C (gmap string T), RangeOrder} {A : Type} (P : Heap → T → A → Prop) c :
  Mono P → copies P c → copies (rep_map P) (copy_map c).
Proof.
  intros HP Hc h [l|] [xs|] Hr; try done; [|by apply grows_ret].
  destruct Hr as (m & Hl & HF). destruct (new_run (∅ : gmap string T) h) as (o & E & Ha).
  pose proof (filling_old h o (∅ : gmap string T) ∅ Ha) as Hsub.
  destruct (fill_map_run P c xs h o HP Hc (range m) ∅ ∅ Ha) as (cur & hc & E2 & Ha' & _ & Hall).
  { intros k v Hin. rewrite range_perm, elem_of_map_to_list in Hin. specialize (HF k).
    rewrite Hin in HF. inversion HF; subst. by eexists. }
  apply (filling_grows h o cur hc (Some o)); [|done|].
  - unfold copy_map, mbind, ST_bind. rewrite E.
    rewrite (load_run l m) by (by eapply lookup_weaken). by rewrite E2.
  - exists cur. split; [by rewrite lookup_insert_eq|]. intros k.
    destruct (Hall k) as [[_ Hk]|[Hk Eq]].
    + inversion Hk; constructor. eapply mono; [|done]. apply insert_subseteq, Ha'.
    + rewrite Eq, lookup_empty. specialize (HF k).
      assert (m !! k = None) as E0.
      { apply eq_None_not_Some. intros [v Hv]. apply Hk. rewrite range_perm.
        apply list_elem_of_fmap. exists (k, v). split; [done|]. by apply elem_of_map_to_list. }
      rewrite E0 in HF. inversion HF. constructor.
Qed.
End heap.
