(* ===== verification/DeepCopy.v ===== *)
(** * The generated deep copies ([api/v1alpha1/zz_generated.deepcopy.go])

    The API types as they lie in memory, the generated [DeepCopyInto],
    [DeepCopy] and [DeepCopyObject] methods, and the theorem the cache of the
    controller runtime relies on: a copy is the same object, and shares no memory
    with the original.  A [DeepCopyInto] starts with [*out = *in] and then sets
    every field that refers to other memory, so it is modelled by the value that
    [*out] ends with. *)

From S2P Require Import Prelude Types GoHeap.

(** ** The types in memory

    Each structure by the types of its fields: in memory a slice is a [gslice], a
    pointer a [gptr], a map a [gmapref]; as a value they are an optional list,
    structure and finite map. *)

Record GTypeMeta : Type := { g_Kind : string; g_APIVersion : string }.

Record GVIPs (sl pt : Type) : Type := { g_API : sl; g_Ingress : sl; g_NAT : pt }.
Record GBackend (sel : Type) : Type := { g_NodeSelector : sel }.
Record GSpec (vips be pbe rules : Type) : Type := {
  g_Cloud : string;
  g_CloudCredentials : string;
  g_Distribution : string;
  g_VirtualAddresses : vips;
  g_APIBackend : be;
  g_IngressBackend : pbe;
  g_FirewallRules : rules;
}.
Record GNodeStatus (hashes : Type) : Type := {
  g_PublicIP : string;
  g_PrivateIP : string;
  g_VrrpIP : string;
  g_ConfigHashes : hashes;
  g_NodeStatus : string;
}.
Record GStatus (nodes conds : Type) : Type := { g_Nodes : nodes; g_Conditions : conds }.
Record GConfig (meta spec status : Type) : Type := {
  g_TypeMeta : GTypeMeta;
  g_ObjectMeta : meta;
  g_Spec : spec;
  g_Status : status;
}.
Record GConfigList (meta items : Type) : Type := {
  g_ListTypeMeta : GTypeMeta;
  g_ListMeta : meta;
  g_Items : items;
}.

Arguments g_API {sl pt}. Arguments g_Ingress {sl pt}. Arguments g_NAT {sl pt}.
Arguments g_NodeSelector {sel}.
Arguments g_Cloud {vips be pbe rules}. Arguments g_CloudCredentials {vips be pbe rules}.
Arguments g_Distribution {vips be pbe rules}. Arguments g_VirtualAddresses {vips be pbe rules}.
Arguments g_APIBackend {vips be pbe rules}. Arguments g_IngressBackend {vips be pbe rules}.
Arguments g_FirewallRules {vips be pbe rules}.
Arguments g_PublicIP {hashes}. Arguments g_PrivateIP {hashes}. Arguments g_VrrpIP {hashes}.
Arguments g_ConfigHashes {hashes}. Arguments g_NodeStatus {hashes}.
Arguments g_Nodes {nodes conds}. Arguments g_Conditions {nodes conds}.
Arguments g_TypeMeta {meta spec status}. Arguments g_ObjectMeta {meta spec status}.
Arguments g_Spec {meta spec status}. Arguments g_Status {meta spec status}.
Arguments g_ListTypeMeta {meta items}. Arguments g_ListMeta {meta items}. Arguments g_Items {meta items}.

(** The types of other packages as they lie in memory, their zero values, and the
    cells that only they use. *)
Class ForeignTypes : Type := {
  mObjectMeta : Type;
  mListMeta : Type;
  mLabelSelector : Type;
  mCondition : Type;
  zObjectMeta : mObjectMeta;
  zListMeta : mListMeta;
  zLabelSelector : mLabelSelector;
  zCondition : mCondition;
  fcell : Type;
}.

Section types.
Context {FT : ForeignTypes}.

Definition mVIPs : Type := GVIPs gslice gptr.
Definition mBackend : Type := GBackend mLabelSelector.
Definition mSpec : Type := GSpec mVIPs mBackend gptr gslice.
Definition mNodeStatus : Type := GNodeStatus gmapref.
Definition mStatus : Type := GStatus gmapref gslice.
Definition mConfig : Type := GConfig mObjectMeta mSpec mStatus.
Definition mConfigList : Type := GConfigList mListMeta gslice.

(** What a cell can hold: the target of a pointer, an array or a map. *)
Inductive cell : Type :=
| CAddress (x : VirtualAddress)
| CVIPs (x : mVIPs)
| CBackend (x : mBackend)
| CSpec (x : mSpec)
| CNodeStatus (x : mNodeStatus)
| CStatus (x : mStatus)
| CConfig (x : mConfig)
| CConfigList (x : mConfigList)
| CAddresses (xs : list VirtualAddress)
| CStrings (xs : list string)
| CConditions (xs : list mCondition)
| CConfigs (xs : list mConfig)
| CHashes (m : gmap string string)
| CNodes (m : gmap string gptr)
| CForeign (x : fcell).

#[export] Instance cell_address : Cell cell VirtualAddress :=
  {| inj := CAddress; prj c := match c with CAddress x => Some x | _ => None end; prj_inj _ := eq_refl |}.
#[export] Instance cell_vips : Cell cell mVIPs :=
  {| inj := CVIPs; prj c := match c with CVIPs x => Some x | _ => None end; prj_inj _ := eq_refl |}.
#[export] Instance cell_backend : Cell cell mBackend :=
  {| inj := CBackend; prj c := match c with CBackend x => Some x | _ => None end; prj_inj _ := eq_refl |}.
#[export] Instance cell_spec : Cell cell mSpec :=
  {| inj := CSpec; prj c := match c with CSpec x => Some x | _ => None end; prj_inj _ := eq_refl |}.
#[export] Instance cell_node_status : Cell cell mNodeStatus :=
  {| inj := CNodeStatus; prj c := match c with CNodeStatus x => Some x | _ => None end; prj_inj _ := eq_refl |}.
#[export] Instance cell_status : Cell cell mStatus :=
  {| inj := CStatus; prj c := match c with CStatus x => Some x | _ => None end; prj_inj _ := eq_refl |}.
#[export] Instance cell_config : Cell cell mConfig :=
  {| inj := CConfig; prj c := match c with CConfig x => Some x | _ => None end; prj_inj _ := eq_refl |}.
#[export] Instance cell_config_list : Cell cell mConfigList :=
  {| inj := CConfigList; prj c := match c with CConfigList x => Some x | _ => None end; prj_inj _ := eq_refl |}.
#[export] Instance cell_addresses : Cell cell (list VirtualAddress) :=
  {| inj := CAddresses; prj c := match c with CAddresses x => Some x | _ => None end; prj_inj _ := eq_refl |}.
#[export] Instance cell_strings : Cell cell (list string) :=
  {| inj := CStrings; prj c := match c with CStrings x => Some x | _ => None end; prj_inj _ := eq_refl |}.
#[export] Instance cell_conditions : Cell cell (list mCondition) :=
  {| inj := CConditions; prj c := match c with CConditions x => Some x | _ => None end; prj_inj _ := eq_refl |}.
#[export] Instance cell_configs : Cell cell (list mConfig) :=
  {| inj := CConfigs; prj c := match c with CConfigs x => Some x | _ => None end; prj_inj _ := eq_refl |}.
#[export] Instance cell_hashes : Cell cell (gmap string string) :=
  {| inj := CHashes; prj c := match c with CHashes x => Some x | _ => None end; prj_inj _ := eq_refl |}.
#[export] Instance cell_nodes : Cell cell (gmap string gptr) :=
  {| inj := CNodes; prj c := match c with CNodes x => Some x | _ => None end; prj_inj _ := eq_refl |}.

(** ** Zero values *)

Definition zAddress : VirtualAddress := {| va_Type := ""; va_Address := "" |}.
Definition zVIPs : mVIPs := {| g_API := None; g_Ingress := None; g_NAT := None |}.
Definition zBackend : mBackend := {| g_NodeSelector := zLabelSelector |}.
Definition zSpec : mSpec := {|
  g_Cloud := ""; g_CloudCredentials := ""; g_Distribution := ""; g_VirtualAddresses := zVIPs;
  g_APIBackend := zBackend; g_IngressBackend := None; g_FirewallRules := None |}.
Definition zNodeStatus : mNodeStatus := {|
  g_PublicIP := ""; g_PrivateIP := ""; g_VrrpIP := ""; g_ConfigHashes := None; g_NodeStatus := "" |}.
Definition zStatus : mStatus := {| g_Nodes := None; g_Conditions := None |}.
Definition zTypeMeta : GTypeMeta := {| g_Kind := ""; g_APIVersion := "" |}.
Definition zConfig : mConfig := {|
  g_TypeMeta := zTypeMeta; g_ObjectMeta := zObjectMeta; g_Spec := zSpec; g_Status := zStatus |}.
Definition zConfigList : mConfigList := {|
  g_ListTypeMeta := zTypeMeta; g_ListMeta := zListMeta; g_Items := None |}.

End types.

(** The [DeepCopyInto] methods of the other packages' types, and what their
    memory stands for. *)
Class ForeignCopies {FT : ForeignTypes} : Type := {
  ObjectMeta_DeepCopyInto : mObjectMeta → ST (gmap loc cell) mObjectMeta;
  ListMeta_DeepCopyInto : mListMeta → ST (gmap loc cell) mListMeta;
  LabelSelector_DeepCopyInto : mLabelSelector → ST (gmap loc cell) mLabelSelector;
  Condition_DeepCopyInto : mCondition → ST (gmap loc cell) mCondition;
  vListMeta : Type;
  rep_ObjectMeta : gmap loc cell → mObjectMeta → ObjectMeta → Prop;
  rep_ListMeta : gmap loc cell → mListMeta → vListMeta → Prop;
  rep_LabelSelector : gmap loc cell → mLabelSelector → LabelSelector → Prop;
  rep_Condition : gmap loc cell → mCondition → Condition → Prop;
  #[global] mono_ObjectMeta :: Mono rep_ObjectMeta;
  #[global] mono_ListMeta :: Mono rep_ListMeta;
  #[global] mono_LabelSelector :: Mono rep_LabelSelector;
  #[global] mono_Condition :: Mono rep_Condition;
  (** They deep copy, too. *)
  copies_ObjectMeta : copies rep_ObjectMeta ObjectMeta_DeepCopyInto;
  copies_ListMeta : copies rep_ListMeta ListMeta_DeepCopyInto;
  copies_LabelSelector : copies rep_LabelSelector LabelSelector_DeepCopyInto;
  copies_Condition : copies rep_Condition Condition_DeepCopyInto;
}.

Section copies.
Context {FT : ForeignTypes} {FC : ForeignCopies} {RO : RangeOrder}.

#[local] Abbreviation HM := (ST (gmap loc cell)).

(** ** The generated methods *)

Definition VirtualAddress_DeepCopyInto (x : VirtualAddress) : HM VirtualAddress := mret x.
Definition VirtualAddress_DeepCopy : gptr → HM gptr := copy_pointer zAddress VirtualAddress_DeepCopyInto.

Definition LoadBalancerConfigVIPs_DeepCopyInto (x : mVIPs) : HM mVIPs :=
  api ← copy_flat_slice zAddress (g_API x);
  ingress ← copy_flat_slice zAddress (g_Ingress x);
  nat ← copy_pointer zAddress mret (g_NAT x);
  mret {| g_API := api; g_Ingress := ingress; g_NAT := nat |}.
Definition LoadBalancerConfigVIPs_DeepCopy : gptr → HM gptr :=
  copy_pointer zVIPs LoadBalancerConfigVIPs_DeepCopyInto.

Definition LoadBalancerConfigBackend_DeepCopyInto (x : mBackend) : HM mBackend :=
  sel ← LabelSelector_DeepCopyInto (g_NodeSelector x);
  mret {| g_NodeSelector := sel |}.
Definition LoadBalancerConfigBackend_DeepCopy : gptr → HM gptr :=
  copy_pointer zBackend LoadBalancerConfigBackend_DeepCopyInto.

Definition LoadBalancerConfigSpec_DeepCopyInto (x : mSpec) : HM mSpec :=
  vips ← LoadBalancerConfigVIPs_DeepCopyInto (g_VirtualAddresses x);
  api ← LoadBalancerConfigBackend_DeepCopyInto (g_APIBackend x);
  ingress ← copy_pointer zBackend LoadBalancerConfigBackend_DeepCopyInto (g_IngressBackend x);
  rules ← copy_flat_slice "" (g_FirewallRules x);
  mret {| g_Cloud := g_Cloud x; g_CloudCredentials := g_CloudCredentials x;
          g_Distribution := g_Distribution x; g_VirtualAddresses := vips; g_APIBackend := api;
          g_IngressBackend := ingress; g_FirewallRules := rules |}.
Definition LoadBalancerConfigSpec_DeepCopy : gptr → HM gptr :=
  copy_pointer zSpec LoadBalancerConfigSpec_DeepCopyInto.

Definition LoadBalancerNodeStatus_DeepCopyInto (x : mNodeStatus) : HM mNodeStatus :=
  hashes ← copy_map (T := string) mret (g_ConfigHashes x);
  mret {| g_PublicIP := g_PublicIP x; g_PrivateIP := g_PrivateIP x; g_VrrpIP := g_VrrpIP x;
          g_ConfigHashes := hashes; g_NodeStatus := g_NodeStatus x |}.
Definition LoadBalancerNodeStatus_DeepCopy : gptr → HM gptr :=
  copy_pointer zNodeStatus LoadBalancerNodeStatus_DeepCopyInto.

Definition LoadBalancerConfigStatus_DeepCopyInto (x : mStatus) : HM mStatus :=
  nodes ← copy_map (T := gptr) (copy_pointer zNodeStatus LoadBalancerNodeStatus_DeepCopyInto) (g_Nodes x);
  conditions ← copy_deep_slice zCondition Condition_DeepCopyInto (g_Conditions x);
  mret {| g_Nodes := nodes; g_Conditions := conditions |}.
Definition LoadBalancerConfigStatus_DeepCopy : gptr → HM gptr :=
  copy_pointer zStatus LoadBalancerConfigStatus_DeepCopyInto.

Definition LoadBalancerConfig_DeepCopyInto (x : mConfig) : HM mConfig :=
  meta ← ObjectMeta_DeepCopyInto (g_ObjectMeta x);
  spec ← LoadBalancerConfigSpec_DeepCopyInto (g_Spec x);
  status ← LoadBalancerConfigStatus_DeepCopyInto (g_Status x);
  mret {| g_TypeMeta := g_TypeMeta x; g_ObjectMeta := meta; g_Spec := spec; g_Status := status |}.
Definition LoadBalancerConfig_DeepCopy : gptr → HM gptr :=
  copy_pointer zConfig LoadBalancerConfig_DeepCopyInto.

Definition LoadBalancerConfigList_DeepCopyInto (x : mConfigList) : HM mConfigList :=
  meta ← ListMeta_DeepCopyInto (g_ListMeta x);
  items ← copy_deep_slice zConfig LoadBalancerConfig_DeepCopyInto (g_Items x);
  mret {| g_ListTypeMeta := g_ListTypeMeta x; g_ListMeta := meta; g_Items := items |}.
Definition LoadBalancerConfigList_DeepCopy : gptr → HM gptr :=
  copy_pointer zConfigList LoadBalancerConfigList_DeepCopyInto.

(** A [runtime.Object] of this package: a pointer to one of its two root types. *)
Inductive Object : Type :=
| OConfig (p : gptr)
| OConfigList (p : gptr).

(** A nil [runtime.Object] is [None]. *)
Definition DeepCopyObject (o : Object) : HM (option Object) :=
  match o with
  | OConfig p =>
      c ← LoadBalancerConfig_DeepCopy p;
      mret (match c with Some _ => Some (OConfig c) | None => None end)
  | OConfigList p =>
      c ← LoadBalancerConfigList_DeepCopy p;
      mret (match c with Some _ => Some (OConfigList c) | None => None end)
  end.

(** ** What the memory stands for *)

Definition vVIPs : Type := GVIPs (option (list VirtualAddress)) (option VirtualAddress).
Definition vBackend : Type := GBackend LabelSelector.
Definition vSpec : Type := GSpec vVIPs vBackend (option vBackend) (option (list string)).
Definition vNodeStatus : Type := GNodeStatus (option (gmap string string)).
Definition vStatus : Type :=
  GStatus (option (gmap string (option vNodeStatus))) (option (list Condition)).
Definition vConfig : Type := GConfig ObjectMeta vSpec vStatus.
Definition vConfigList : Type := GConfigList vListMeta (option (list vConfig)).

#[local] Abbreviation H := (gmap loc cell).

Definition rep_VIPs (h : H) (x : mVIPs) (v : vVIPs) : Prop :=
  rep_slice (@rep_flat cell VirtualAddress) h (g_API x) (g_API v)
  ∧ rep_slice (@rep_flat cell VirtualAddress) h (g_Ingress x) (g_Ingress v)
  ∧ rep_pointer (@rep_flat cell VirtualAddress) h (g_NAT x) (g_NAT v).
Definition rep_Backend (h : H) (x : mBackend) (v : vBackend) : Prop :=
  rep_LabelSelector h (g_NodeSelector x) (g_NodeSelector v).
Definition rep_Spec (h : H) (x : mSpec) (v : vSpec) : Prop :=
  g_Cloud x = g_Cloud v ∧ g_CloudCredentials x = g_CloudCredentials v
  ∧ g_Distribution x = g_Distribution v
  ∧ rep_VIPs h (g_VirtualAddresses x) (g_VirtualAddresses v)
  ∧ rep_Backend h (g_APIBackend x) (g_APIBackend v)
  ∧ rep_pointer rep_Backend h (g_IngressBackend x) (g_IngressBackend v)
  ∧ rep_slice (@rep_flat cell string) h (g_FirewallRules x) (g_FirewallRules v).
Definition rep_NodeStatus (h : H) (x : mNodeStatus) (v : vNodeStatus) : Prop :=
  g_PublicIP x = g_PublicIP v ∧ g_PrivateIP x = g_PrivateIP v ∧ g_VrrpIP x = g_VrrpIP v
  ∧ g_NodeStatus x = g_NodeStatus v
  ∧ rep_map (@rep_flat cell string) h (g_ConfigHashes x) (g_ConfigHashes v).
Definition rep_Status (h : H) (x : mStatus) (v : vStatus) : Prop :=
  rep_map (rep_pointer rep_NodeStatus) h (g_Nodes x) (g_Nodes v)
  ∧ rep_slice rep_Condition h (g_Conditions x) (g_Conditions v).
Definition rep_Config (h : H) (x : mConfig) (v : vConfig) : Prop :=
  g_TypeMeta x = g_TypeMeta v ∧ rep_ObjectMeta h (g_ObjectMeta x) (g_ObjectMeta v)
  ∧ rep_Spec h (g_Spec x) (g_Spec v) ∧ rep_Status h (g_Status x) (g_Status v).
Definition rep_ConfigList (h : H) (x : mConfigList) (v : vConfigList) : Prop :=
  g_ListTypeMeta x = g_ListTypeMeta v ∧ rep_ListMeta h (g_ListMeta x) (g_ListMeta v)
  ∧ rep_slice rep_Config h (g_Items x) (g_Items v).

Ltac mono_tac := intros ? ? ? ? Hsub Hrep; repeat match type of Hrep with _ ∧ _ => destruct Hrep as [? Hrep] end;
  split_and?; first [done | eapply mono; [exact Hsub|eassumption]].

#[local] Instance rep_VIPs_mono : Mono rep_VIPs.
Proof. unfold rep_VIPs. mono_tac. Qed.
#[local] Instance rep_Backend_mono : Mono rep_Backend.
Proof. unfold rep_Backend. mono_tac. Qed.
#[local] Instance rep_Spec_mono : Mono rep_Spec.
Proof. unfold rep_Spec. mono_tac. Qed.
#[local] Instance rep_NodeStatus_mono : Mono rep_NodeStatus.
Proof. unfold rep_NodeStatus. mono_tac. Qed.
#[local] Instance rep_Status_mono : Mono rep_Status.
Proof. unfold rep_Status. mono_tac. Qed.
#[local] Instance rep_Config_mono : Mono rep_Config.
Proof. unfold rep_Config. mono_tac. Qed.
#[local] Instance rep_ConfigList_mono : Mono rep_ConfigList.
Proof. unfold rep_ConfigList. mono_tac. Qed.

(** Inclusion in a union of heaps that do not meet. *)
Ltac heap_sub := solve
  [ reflexivity
  | repeat (etrans; [|apply map_union_subseteq_l]); reflexivity
  | repeat first [apply map_union_subseteq_l
                 | etrans; [|apply map_union_subseteq_r; assumption]]; reflexivity ].

(** One field copied, by the lemma [Hc]. *)
Tactic Notation "copy_field" constr(Hc) :=
  apply grows_bind; eapply grows_impl;
  [ eapply Hc; eapply mono; [|eassumption]; heap_sub
  | let Hf := fresh "Hf" in intros ? ? ? Hf; cbv beta in Hf ].

(** All fields copied. *)
Ltac copy_end := apply grows_ret; intros; split_and?; simpl;
  first [done | eapply mono; [|eassumption]; heap_sub].

Lemma copies_VIPs : copies rep_VIPs LoadBalancerConfigVIPs_DeepCopyInto.
Proof.
  intros h x v (H1 & H2 & H3).
  copy_field (copies_flat_slice (C := cell) zAddress). copy_field (copies_flat_slice (C := cell) zAddress).
  copy_field (copies_pointer (C := cell) _ zAddress _ _ copies_flat).
  unfold rep_VIPs. copy_end.
Qed.

Lemma copies_Backend : copies rep_Backend LoadBalancerConfigBackend_DeepCopyInto.
Proof. intros h x v H1. unfold rep_Backend in H1. copy_field copies_LabelSelector. unfold rep_Backend. copy_end. Qed.

Lemma copies_Spec : copies rep_Spec LoadBalancerConfigSpec_DeepCopyInto.
Proof.
  intros h x v (? & ? & ? & H1 & H2 & H3 & H4).
  copy_field copies_VIPs. copy_field copies_Backend.
  copy_field (copies_pointer (C := cell) _ zBackend _ _ copies_Backend). copy_field (copies_flat_slice (C := cell) (T := string) "").
  unfold rep_Spec. copy_end.
Qed.

Lemma copies_NodeStatus : copies rep_NodeStatus LoadBalancerNodeStatus_DeepCopyInto.
Proof.
  intros h x v (? & ? & ? & ? & H1). copy_field (copies_map (C := cell) (T := string) _ _ _ copies_flat).
  unfold rep_NodeStatus. copy_end.
Qed.

Lemma copies_Status : copies rep_Status LoadBalancerConfigStatus_DeepCopyInto.
Proof.
  intros h x v (H1 & H2).
  copy_field (copies_map (C := cell) (T := gptr) _ _ _ (copies_pointer (C := cell) _ zNodeStatus _ _ copies_NodeStatus)).
  copy_field (copies_deep_slice (C := cell) _ zCondition _ _ copies_Condition).
  unfold rep_Status. copy_end.
Qed.

Lemma copies_Config : copies rep_Config LoadBalancerConfig_DeepCopyInto.
Proof.
  intros h x v (? & H1 & H2 & H3).
  copy_field copies_ObjectMeta. copy_field copies_Spec. copy_field copies_Status.
  unfold rep_Config. copy_end.
Qed.

Lemma copies_ConfigList : copies rep_ConfigList LoadBalancerConfigList_DeepCopyInto.
Proof.
  intros h x v (? & H1 & H2).
  copy_field copies_ListMeta. copy_field (copies_deep_slice (C := cell) _ zConfig _ _ copies_Config).
  unfold rep_ConfigList. copy_end.
Qed.

(** ** The promise *)

(** The object a non-nil [runtime.Object] stands for. *)
Definition rep_object (h : H) (o : Object) (v : vConfig + vConfigList) : Prop :=
  match o, v with
  | OConfig p, inl c => rep_pointer rep_Config h p (Some c)
  | OConfigList p, inr l => rep_pointer rep_ConfigList h p (Some l)
  | _, _ => False
  end.

#[local] Instance rep_object_mono : Mono rep_object.
Proof.
  intros h h' [p|p] [c|l] Hsub; try done; simpl; apply (mono (P := rep_pointer _)), Hsub.
Qed.

Lemma DeepCopyObject_grows h o v : rep_object h o v →
  grows (DeepCopyObject o) h (λ o' hc, ∃ o'', o' = Some o'' ∧ rep_object hc o'' v).
Proof.
  destruct o as [p|p], v as [c|l]; try done; intros Hr; simpl; apply grows_bind; eapply grows_impl;
    [apply (copies_pointer (C := cell) _ zConfig _ _ copies_Config), Hr| |
     apply (copies_pointer (C := cell) _ zConfigList _ _ copies_ConfigList), Hr|];
    intros p' hc _ Hp; apply grows_ret; intros _; rewrite map_union_empty;
    (destruct p' as [l'|]; [by eexists|done]).
Qed.

(** C16: deep copies are copies, and are apart.  [DeepCopyObject] of a non-nil
    [LoadBalancerConfig] or [LoadBalancerConfigList] returns an object of the
    same type and value, having only added memory; whatever is done to the memory
    of the copy, the original stays what it was, and whatever is done to the
    memory that was there before, the copy does. *)
Theorem DeepCopyObject_separates (h : gmap loc cell) (o : Object) (v : vConfig + vConfigList)
  (Hrep : rep_object h o v) :
  ∃ o' hc, DeepCopyObject o h = (Done (Some o'), h ∪ hc) ∧ h ##ₘ hc
  ∧ (∀ hc', h ##ₘ hc' → rep_object (h ∪ hc') o v)
  ∧ (∀ h', h' ##ₘ hc → rep_object (h' ∪ hc) o' v).
Proof.
  destruct (DeepCopyObject_grows h o v Hrep) as (o1 & hc & E & Hd & o' & -> & Hr).
  exists o', hc. split_and!; [done|done| |].
  - intros hc' _. eapply mono; [|exact Hrep]. apply map_union_subseteq_l.
  - intros h' Hd'. eapply mono; [|exact Hr]. by apply map_union_subseteq_r.
Qed.

(** A nil pointer is copied to a nil object. *)
Lemma DeepCopyObject_nil h : DeepCopyObject (OConfig None) h = (Done None, h)
  ∧ DeepCopyObject (OConfigList None) h = (Done None, h).
Proof. done. Qed.

End copies.
