(* ===== verification/CopySample.v ===== *)
(** * A custom resource in memory

    An object with every kind of reference in it, and simple deep copies of the
    other packages' types: the input at which the theorem of [DeepCopy] is
    applied. *)

From S2P Require Import Prelude Types GoHeap DeepCopy.

#[local] Instance range_sorted : RangeOrder := {|
  range A m := map_to_list m; range_perm A m := reflexivity _ |}.

(** Metadata and selectors that refer to a map each; the rest is flat. *)
Record FMeta : Type := { fm_Name : string; fm_Namespace : string; fm_UID : string;
  fm_Generation : Z; fm_Labels : gmapref }.
Record FSelector : Type := { fs_Labels : gmapref; fs_Expressions : list LabelSelectorRequirement }.

#[local] Instance sample_types : ForeignTypes := {|
  mObjectMeta := FMeta; mListMeta := string; mLabelSelector := FSelector; mCondition := Condition;
  zObjectMeta := {| fm_Name := ""; fm_Namespace := ""; fm_UID := ""; fm_Generation := 0; fm_Labels := None |};
  zListMeta := ""; zLabelSelector := {| fs_Labels := None; fs_Expressions := [] |};
  zCondition := {| cond_Type := ""; cond_Status := ""; cond_ObservedGeneration := 0;
    cond_LastTransitionTime := 0; cond_Reason := ""; cond_Message := "" |};
  fcell := Empty_set |}.

Definition rep_labels (h : gmap loc cell) (m : gmapref) (v : gmap string string) : Prop :=
  ∃ o, rep_map (@rep_flat cell string) h m o ∧ default ∅ o = v.

#[local] Instance rep_labels_mono : Mono rep_labels.
Proof. intros h h' m v Hs (o & Hm & E). exists o. split; [by eapply mono|done]. Qed.

Lemma copies_labels : copies rep_labels (copy_map (T := string) mret).
Proof.
  intros h m v (o & Hm & E). eapply grows_impl; [by apply (copies_map _ _ _ copies_flat)|].
  intros m' hc _ Hm'. by exists o.
Qed.

Definition rep_FMeta (h : gmap loc cell) (x : FMeta) (v : ObjectMeta) : Prop :=
  fm_Name x = om_Name v ∧ fm_Namespace x = om_Namespace v ∧ fm_UID x = om_UID v
  ∧ fm_Generation x = om_Generation v ∧ rep_labels h (fm_Labels x) (om_Labels v).
Definition rep_FSelector (h : gmap loc cell) (x : FSelector) (v : LabelSelector) : Prop :=
  fs_Expressions x = MatchExpressions v ∧ rep_labels h (fs_Labels x) (MatchLabels v).

Definition FMeta_DeepCopyInto (x : FMeta) : ST (gmap loc cell) FMeta :=
  labels ← copy_map (T := string) mret (fm_Labels x);
  mret {| fm_Name := fm_Name x; fm_Namespace := fm_Namespace x; fm_UID := fm_UID x;
          fm_Generation := fm_Generation x; fm_Labels := labels |}.
Definition FSelector_DeepCopyInto (x : FSelector) : ST (gmap loc cell) FSelector :=
  labels ← copy_map (T := string) mret (fs_Labels x);
  mret {| fs_Labels := labels; fs_Expressions := fs_Expressions x |}.

Lemma copies_FMeta : copies rep_FMeta FMeta_DeepCopyInto.
Proof.
  intros h x v (? & ? & ? & ? & Hl). apply grows_bind. eapply grows_impl; [by apply copies_labels|].
  intros l hc _ Hl'. apply grows_ret. intros _. rewrite map_union_empty. by split_and!.
Qed.

Lemma copies_FSelector : copies rep_FSelector FSelector_DeepCopyInto.
Proof.
  intros h x v (? & Hl). apply grows_bind. eapply grows_impl; [by apply copies_labels|].
  intros l hc _ Hl'. apply grows_ret. intros _. rewrite map_union_empty. by split.
Qed.

#[local] Instance sample_copies : ForeignCopies.
Proof.
  refine {| ObjectMeta_DeepCopyInto := FMeta_DeepCopyInto; ListMeta_DeepCopyInto := mret;
    LabelSelector_DeepCopyInto := FSelector_DeepCopyInto; Condition_DeepCopyInto := mret;
    vListMeta := string; rep_ObjectMeta := rep_FMeta; rep_ListMeta := @rep_flat cell string;
    rep_LabelSelector := rep_FSelector; rep_Condition := @rep_flat cell Condition |};
    [..|exact copies_FMeta|exact copies_flat|exact copies_FSelector|exact copies_flat].
  - intros h h' x v Hs (? & ? & ? & ? & Hl). split_and!; [done..|by eapply mono].
  - intros h h' x v Hs (? & Hl). split; [done|by eapply mono].
Defined.

(** ** The object *)

Definition address (t a : string) : VirtualAddress := {| va_Type := t; va_Address := a |}.

Definition sample_pointers : gmap string gptr := <["lb-1" := Some 7%positive]> {["lb-2" := None]}.

(** The API addresses are a window on an array that has one element more. *)
Definition sample_heap : gmap loc cell := list_to_map [
  (1%positive, CConfig {|
    g_TypeMeta := {| g_Kind := "LoadBalancerConfig"; g_APIVersion := "config.bootc-lb.syn.tools/v1alpha1" |};
    g_ObjectMeta := {| fm_Name := "test-lb"; fm_Namespace := "default"; fm_UID := "1d5c";
                       fm_Generation := 3; fm_Labels := Some 5%positive |};
    g_Spec := {|
      g_Cloud := "cloudscale"; g_CloudCredentials := "cloudscale-token"; g_Distribution := "talos";
      g_VirtualAddresses := {|
        g_API := Some {| sl_array := 2%positive; sl_off := 1; sl_len := 1 |};
        g_Ingress := None; g_NAT := Some 3%positive |};
      g_APIBackend := {| g_NodeSelector := {| fs_Labels := Some 5%positive; fs_Expressions := [] |} |};
      g_IngressBackend := Some 4%positive; g_FirewallRules := None |};
    g_Status := {| g_Nodes := Some 6%positive; g_Conditions := None |} |});
  (2%positive, CAddresses [address "private" "192.168.100.100/32"; address "public" "198.51.100.100/32"]);
  (3%positive, CAddress (address "public" "198.51.100.253/32"));
  (4%positive, CBackend {| g_NodeSelector := {| fs_Labels := None; fs_Expressions := [] |} |});
  (5%positive, CHashes {["node-role.kubernetes.io/infra" := ""]});
  (6%positive, CNodes sample_pointers);
  (7%positive, CNodeStatus {| g_PublicIP := "198.51.100.7/24"; g_PrivateIP := "172.18.200.11/24";
     g_VrrpIP := "172.18.200.2"; g_ConfigHashes := Some 8%positive; g_NodeStatus := "Ready" |});
  (8%positive, CHashes {["/etc/sysctl.d/50-lb.conf" := "00"]})].

Definition sample_value : vConfig :=
  let labels : gmap string string := {["node-role.kubernetes.io/infra" := ""]} in {|
    g_TypeMeta := {| g_Kind := "LoadBalancerConfig"; g_APIVersion := "config.bootc-lb.syn.tools/v1alpha1" |};
    g_ObjectMeta := {| om_Name := "test-lb"; om_Namespace := "default"; om_UID := "1d5c";
                       om_Generation := 3; om_Labels := labels |};
    g_Spec := {|
      g_Cloud := "cloudscale"; g_CloudCredentials := "cloudscale-token"; g_Distribution := "talos";
      g_VirtualAddresses := {|
        g_API := Some [address "public" "198.51.100.100/32"]; g_Ingress := None;
        g_NAT := Some (address "public" "198.51.100.253/32") |};
      g_APIBackend := {| g_NodeSelector := {| MatchLabels := labels; MatchExpressions := [] |} |};
      g_IngressBackend := Some {| g_NodeSelector := {| MatchLabels := ∅; MatchExpressions := [] |} |};
      g_FirewallRules := None |};
    g_Status := {|
      g_Nodes := Some (<["lb-1" := Some {|
        g_PublicIP := "198.51.100.7/24"; g_PrivateIP := "172.18.200.11/24"; g_VrrpIP := "172.18.200.2";
        g_ConfigHashes := Some {["/etc/sysctl.d/50-lb.conf" := "00"]}; g_NodeStatus := "Ready" |}]>
        {["lb-2" := None]});
      g_Conditions := None |} |}.

Lemma flat_map_same (m : gmap string string) k :
  option_Forall2 (@rep_flat cell string sample_heap) (m !! k) (m !! k).
Proof. by destruct (m !! k); constructor. Qed.

Lemma sample_rep : rep_object sample_heap (OConfig (Some 1%positive)) (inl sample_value).
Proof.
  eexists. split; [vm_compute; reflexivity|].
  assert (rep_labels sample_heap (Some 5%positive) {["node-role.kubernetes.io/infra" := ""]}) as Hl.
  { eexists (Some _). split; [|reflexivity]. eexists. split; [vm_compute; reflexivity|].
    exact (flat_map_same _). }
  split_and!; [done| | |].
  - by split_and!.
  - split_and!; [done|done|done| |done| |done].
    + split_and!; [|done|].
      * eexists. split; [vm_compute; reflexivity|]. split; [simpl; lia|]. by repeat constructor.
      * eexists. split; [vm_compute; reflexivity|]. done.
    + eexists. split; [vm_compute; reflexivity|]. split; [done|]. by exists None.
  - split; [|done]. exists sample_pointers. split; [vm_compute; reflexivity|]. intros k.
    unfold sample_pointers. simpl.
    destruct (decide (k = "lb-1")) as [->|H1].
    + rewrite !lookup_insert_eq. constructor. eexists. split; [vm_compute; reflexivity|].
      split_and!; [done..|]. eexists. split; [vm_compute; reflexivity|]. exact (flat_map_same _).
    + rewrite !lookup_insert_ne by done. destruct (decide (k = "lb-2")) as [->|H2].
      * rewrite !lookup_singleton_eq. by constructor.
      * rewrite !lookup_singleton_ne by done. constructor.
Qed.

Lemma DeepCopyObject_separates_witness :
  ∃ o' hc, DeepCopyObject (OConfig (Some 1%positive)) sample_heap = (Done (Some o'), sample_heap ∪ hc)
  ∧ sample_heap ##ₘ hc
  ∧ (∀ hc', sample_heap ##ₘ hc' → rep_object (sample_heap ∪ hc') (OConfig (Some 1%positive)) (inl sample_value))
  ∧ (∀ h', h' ##ₘ hc → rep_object (h' ∪ hc) o' (inl sample_value)).
Proof.
  apply (DeepCopyObject_separates sample_heap (OConfig (Some 1%positive)) (inl sample_value)).
  exact sample_rep.
Defined.
